(** * Stock-analysis pipeline: job orchestration core

    A shallow embedding of the queue workers, the job-status tracker, the
    error classifier and the update-stream publisher of the stock analysis
    application, together with the properties the specification states
    about them.

    Conventions of the embedding:
    - JavaScript numbers that the code only uses as small integers (attempt
      numbers, ranks, progress percentages, the delays of the error kinds)
      are [Z]; the backoff delay, a product with [Math.pow], is an IEEE 754
      double, with the operations of the Standard Library's [SpecFloat].
    - JavaScript strings are [string]s that hold their UTF-8 encoding.
      [toLowerCase] folds the capitals A-Z, the Kelvin sign (to k) and the
      dotted capital I (to i and a combining dot): the only characters whose
      lower case has an ASCII character. Every other character stays as it
      is; its lower case has no ASCII character, and the code only looks
      for ASCII text in a lower-cased message.
    - The Prisma tables are finite maps from the primary key to a row;
      [update] on a missing row raises, as Prisma does.
    - Worker bodies are written in a state-and-exception monad over the
      [World] (database tables, queues, clock); a raised exception keeps the
      writes made so far, as there is no transaction around a worker.
    - An [Error] object carries its message and its stack. The stack starts
      with the name of the error and its message; the call sites that follow
      are given by the [World], and the code only copies them. *)

From Stdlib Require Import ZArith QArith Qpower DecimalString DecimalZ DecimalPos Ascii String.
From Stdlib Require Import SpecFloat.
From stdpp Require Import gmap strings list fin_maps sorting.

Open Scope Z_scope.

(** ** JavaScript string primitives *)

Module Js.

(** [String.prototype.toLowerCase]. Besides the capitals A-Z, two
    characters have a lower case with an ASCII character in it: the Kelvin
    sign U+212A (bytes E2 84 AA), which becomes k, and the dotted capital I
    U+0130 (bytes C4 B0), which becomes i followed by the combining dot
    U+0307 (bytes CC 87). *)
Definition lower_ascii (c : ascii) : ascii :=
  let n := N_of_ascii c in
  if ((65 <=? n) && (n <=? 90))%N then ascii_of_N (n + 32) else c.

Definition isKelvinSign (c c1 c2 : ascii) : bool :=
  Ascii.eqb c "226" && Ascii.eqb c1 "132" && Ascii.eqb c2 "170".

Definition isDottedCapitalI (c c1 : ascii) : bool :=
  Ascii.eqb c "196" && Ascii.eqb c1 "176".

Fixpoint toLowerCase (s : string) : string :=
  match s with
  | EmptyString => EmptyString
  | String c s1 =>
      let folded := String (lower_ascii c) (toLowerCase s1) in
      match s1 with
      | EmptyString => folded
      | String c1 s2 =>
          if isDottedCapitalI c c1
          then String "i" (String "204" (String "135" (toLowerCase s2)))
          else
            match s2 with
            | EmptyString => folded
            | String c2 s3 =>
                if isKelvinSign c c1 c2 then String "k" (toLowerCase s3) else folded
            end
      end
  end.

(** [s.startsWith(p)] *)
Fixpoint startsWith (s p : string) : bool :=
  match p, s with
  | EmptyString, _ => true
  | String _ _, EmptyString => false
  | String a p', String b s' => if ascii_dec a b then startsWith s' p' else false
  end.

(** [s.includes(p)]: [p] occurs somewhere in [s]. *)
Fixpoint includes (s p : string) : bool :=
  startsWith s p ||
  match s with
  | EmptyString => false
  | String _ s' => includes s' p
  end.

(** [s.slice(0, n)] *)
Definition slice0 (n : nat) (s : string) : string := String.substring 0 n s.

(** A JavaScript number: a double (53 bits of precision, exponents up to
    1024). *)
Definition number : Type := spec_float.

(** The double of an integer literal or integer-valued variable. *)
Definition numberOfZ (z : Z) : number := binary_normalize 53 1024 z 0 false.

(** [Math.pow(2, k)] for an integer [k]. *)
Definition pow2 (k : Z) : number := binary_normalize 53 1024 1 k false.

(** [x * y] *)
Definition times (x y : number) : number := SFmul 53 1024 x y.

(** [Infinity] *)
Definition infinity : number := S754_infinity false.

(** Number-to-string conversion of a template literal, on integers. *)
Definition show (z : Z) : string := NilZero.string_of_int (Z.to_int z).

(** The line feed of the [\n] escapes. *)
Definition nl : string := String (ascii_of_nat 10) EmptyString.

(** Truthiness of a string-valued optional ([undefined] and [""] are falsy). *)
Definition truthy (o : option string) : bool :=
  match o with
  | Some (String _ _) => true
  | _ => false
  end.

(** A thrown or caught value: an [Error] object with its message and its
    stack, or any other value, of which the code only takes [String(v)]. *)
Inductive value : Type :=
| ErrorObj (message : string) (stack : option string)
| Other (str : string).

(** [error instanceof Error ? error.message : String(error)] *)
Definition messageOf (error : value) : string :=
  match error with
  | ErrorObj m _ => m
  | Other s => s
  end.

(** The first line of the stack of an error: [name: message], or the name
    alone when the message is empty. *)
Definition stackHeader (name message : string) : string :=
  match message with
  | EmptyString => name
  | String _ _ => name +:+ ": " +:+ message
  end.

(** [error instanceof Error ? error.stack : undefined] *)
Definition stackOf (error : value) : option string :=
  match error with
  | ErrorObj _ st => st
  | Other _ => None
  end.

End Js.

(** ** lib/queue/types.ts *)

Inductive ErrorType : Type :=
| RATE_LIMIT
| API_ERROR
| NETWORK_ERROR
| VALIDATION_ERROR
| JUDGE_REJECTION
| UNKNOWN.

Record JobError : Type := mkJobError {
  je_type : ErrorType;
  je_message : string;
  je_retryable : bool;
  je_retryDelay : option Z  (* milliseconds *)
}.

Inductive JobType : Type :=
| sector_research
| stock_analysis
| judge_review
| format_insights
| stock_ranking.

Inductive JobStatusType : Type :=
| waiting
| active
| completed
| failed.

#[export] Instance JobType_eq_dec : EqDecision JobType.
Proof. solve_decision. Defined.

#[export] Instance JobStatusType_eq_dec : EqDecision JobStatusType.
Proof. solve_decision. Defined.

#[export] Instance ErrorType_eq_dec : EqDecision ErrorType.
Proof. solve_decision. Defined.

(** ** lib/queue/errorHandling.ts *)

Module ErrorHandling.

Definition isRateLimit (errorString : string) : bool :=
  Js.includes errorString "rate limit" ||
  Js.includes errorString "429" ||
  Js.includes errorString "too many requests".

Definition isValidation (errorString : string) : bool :=
  Js.includes errorString "400" ||
  Js.includes errorString "bad request" ||
  Js.includes errorString "invalid".

Definition isAuth (errorString : string) : bool :=
  Js.includes errorString "401" ||
  Js.includes errorString "403" ||
  Js.includes errorString "unauthorized".

Definition isNetwork (errorString : string) : bool :=
  Js.includes errorString "network" ||
  Js.includes errorString "timeout" ||
  Js.includes errorString "econnrefused" ||
  Js.includes errorString "enotfound".

Definition isJudgeReject (errorString : string) : bool :=
  Js.includes errorString "judge reject".

Definition classifyError (error : Js.value) : JobError :=
  let errorMessage := Js.messageOf error in
  let errorString := Js.toLowerCase errorMessage in
  if isRateLimit errorString then
    mkJobError RATE_LIMIT errorMessage true (Some 60000)
  else if isValidation errorString then
    mkJobError VALIDATION_ERROR errorMessage false None
  else if isAuth errorString then
    mkJobError API_ERROR errorMessage false None
  else if isNetwork errorString then
    mkJobError NETWORK_ERROR errorMessage true (Some 10000)
  else if isJudgeReject errorString then
    mkJobError JUDGE_REJECTION errorMessage true (Some 5000)
  else
    mkJobError UNKNOWN errorMessage true (Some 5000).

Definition defaultMaxAttempts : Z := 3.

Definition shouldRetry (error : JobError) (attemptNumber maxAttempts : Z) : bool :=
  if negb (je_retryable error) then false
  else if attemptNumber >=? maxAttempts then false
  else true.

Definition defaultBaseDelay : Z := 5000.

(** [error.retryDelay || baseDelay]: an absent or zero delay is falsy. *)
Definition initialDelay (error : JobError) (baseDelay : Z) : Z :=
  match je_retryDelay error with
  | Some d => if d =? 0 then baseDelay else d
  | None => baseDelay
  end.

(** [initialDelay * Math.pow(2, attemptNumber - 1)] *)
Definition calculateRetryDelay (error : JobError) (attemptNumber baseDelay : Z) : Js.number :=
  Js.times (Js.numberOfZ (initialDelay error baseDelay)) (Js.pow2 (attemptNumber - 1)).

Definition formatErrorMessage (error : Js.value) (context : option string) : string :=
  let baseMessage := Js.messageOf error in
  let stack := Js.stackOf error in
  let message :=
    match context with
    | Some c => if Js.truthy context then c +:+ ": " +:+ baseMessage else baseMessage
    | None => baseMessage
    end in
  match stack with
  | Some st =>
      if Js.truthy stack
      then message +:+ Js.nl +:+ Js.nl +:+ "Stack trace:" +:+ Js.nl +:+ Js.slice0 1000 st
      else message
  | None => message
  end.

(** *** withRetry

    The wrapped function [fn] is effectful: it is a transition on a state
    of type [S] that resolves with a value or rejects with a thrown value.
    A run of [withRetry] records every invocation's outcome, every pause
    and the arguments of every [onRetry] notification (sent when a callback
    is given; the callback is an observer and does not raise). *)

Inductive outcome (T : Type) : Type :=
| Resolved (v : T)
| Rejected (e : Js.value).
Arguments Resolved {T} v.
Arguments Rejected {T} e.

Record run (S T : Type) : Type := mkRun {
  run_result : T + string;            (* resolved value, or the thrown Error's message *)
  run_state : S;
  run_calls : list (outcome T);       (* outcomes of the invocations of [fn], in order *)
  run_pauses : list Js.number;        (* delays handed to [setTimeout], in order *)
  run_notified : list (Z * JobError)  (* arguments given to [onRetry], in order *)
}.
Arguments mkRun {S T}.
Arguments run_result {S T}.
Arguments run_state {S T}.
Arguments run_calls {S T}.
Arguments run_pauses {S T}.
Arguments run_notified {S T}.

Section WithRetry.
Context {S T : Type}.
Variable fn : S -> outcome T * S.
Variable maxAttempts : Z.
Variable context : option string.

(** The body of [for (let attempt = 1; attempt <= maxAttempts; attempt++)],
    over the attempt numbers still to come. *)
Fixpoint withRetry_loop (attempts : list Z) (lastError : option JobError) (s : S)
  : run S T :=
  match attempts with
  | [] =>
      (* all retries failed *)
      let m :=
        match lastError with
        | Some e => if Js.truthy (Some (je_message e)) then je_message e
                    else "Unknown error after retries"
        | None => "Unknown error after retries"
        end in
      mkRun (inr (formatErrorMessage (Js.Other m) context)) s [] [] []
  | attempt :: rest =>
      match fn s with
      | (Resolved v, s') => mkRun (inl v) s' [Resolved v] [] []
      | (Rejected error, s') =>
          let lastError := classifyError error in
          if negb (shouldRetry lastError attempt maxAttempts) then
            mkRun (inr (formatErrorMessage error context)) s' [Rejected error] [] []
          else
            let delay := calculateRetryDelay lastError attempt defaultBaseDelay in
            let r := withRetry_loop rest (Some lastError) s' in
            mkRun (run_result r) (run_state r)
                  (Rejected error :: run_calls r)
                  (delay :: run_pauses r)
                  ((attempt, lastError) :: run_notified r)
      end
  end.

Definition withRetry (s : S) : run S T :=
  withRetry_loop (seqZ 1 maxAttempts) None s.
End WithRetry.

End ErrorHandling.

(** Payloads of the queues (lib/queue/types.ts). *)

Record SectorResearchJobData : Type := mkSectorResearchJobData {
  secjd_sectorAnalysisId : string;
  secjd_userId : string;
  secjd_sectorName : string
}.

Record StockAnalysisJobData : Type := mkStockAnalysisJobData {
  sajd_stockId : string;
  sajd_stockAnalysisId : string;
  sajd_companyName : string;
  sajd_ticker : option string;
  sajd_subSectorName : string;
  sajd_attemptNumber : Z
}.

Record JudgeReviewJobData : Type := mkJudgeReviewJobData {
  jrjd_stockAnalysisId : string;
  jrjd_stockId : string;
  jrjd_rawAnalysis : string;
  jrjd_companyName : string;
  jrjd_attemptNumber : Z
}.

Record FormatInsightsJobData : Type := mkFormatInsightsJobData {
  fijd_stockAnalysisId : string;
  fijd_rawAnalysis : string;
  fijd_judgeReview : string;
  fijd_companyName : string
}.

Record RankingCandidate : Type := mkRankingCandidate {
  rc_id : string;
  rc_companyName : string;
  rc_ticker : option string;
  rc_preliminaryNotes : string
}.

Record StockRankingJobData : Type := mkStockRankingJobData {
  srjd_subSectorId : string;
  srjd_stocks : list RankingCandidate
}.

(** ** The persistent store (prisma/migrations) *)

Record JobStatusRow : Type := mkJobStatusRow {
  js_jobId : string;
  js_jobType : JobType;
  js_relatedId : string;
  js_status : JobStatusType;
  js_progress : Z;
  js_errorMessage : option string;
  js_createdAt : Z;
  js_updatedAt : Z
}.

(** The [insights] JSON column: the empty object written at creation, or the
    record the format stage stores. *)
Record KeyMetric : Type := mkKeyMetric {
  km_label : string;
  km_value : string + Q;
  km_sentiment : option string
}.

Record FormattedInsights : Type := mkFormattedInsights {
  fi_recommendation : string;
  fi_targetPrice : option Q;
  fi_keyMetrics : list KeyMetric;
  fi_opportunities : list string;
  fi_risks : list string;
  fi_catalysts : list string;
  fi_summary : string
}.

Inductive InsightsJson : Type :=
| EmptyObject
| Insights (i : FormattedInsights).

Record StockAnalysisRow : Type := mkStockAnalysisRow {
  sa_id : string;
  sa_stockId : string;
  sa_status : string;
  sa_rawAnalysis : string;
  sa_judgeReview : string;
  sa_insights : InsightsJson;
  sa_attemptCount : Z;
  sa_failureReason : option string
}.

Record StockRow : Type := mkStockRow {
  st_id : string;
  st_subSectorId : string;
  st_companyName : string;
  st_ticker : option string;
  st_rank : Z;
  st_preliminaryNotes : string
}.

Record SubSectorRow : Type := mkSubSectorRow {
  ss_id : string;
  ss_sectorAnalysisId : string;
  ss_name : string;
  ss_summary : string;
  ss_status : string
}.

Record SectorAnalysisRow : Type := mkSectorAnalysisRow {
  sec_id : string;
  sec_userId : string;
  sec_sectorName : string;
  sec_status : string;
  sec_fullReport : string
}.

(** ** The queue substrate

    A queue is the list of the jobs the substrate knows, oldest first. A job
    carries the options it was added with and the substrate's book-keeping:
    the number of failed executions and whether it is finished (completed,
    or failed for good). [job.updateProgress] only writes the substrate's
    own progress field of a job, which nothing in the repository reads; it
    is left out of the [World]. *)

Record Job (D : Type) : Type := mkJob {
  job_id : string;
  job_name : string;
  job_data : D;
  job_priority : option Z;
  job_delay : option Z;
  job_attemptsMade : nat;
  job_finished : bool
}.
Arguments mkJob {D}.
Arguments job_id {D}.
Arguments job_name {D}.
Arguments job_data {D}.
Arguments job_priority {D}.
Arguments job_delay {D}.
Arguments job_attemptsMade {D}.
Arguments job_finished {D}.

(** A call of [queue.add], as the worker issued it. *)
Inductive AddCall : Type :=
| AddStockAnalysis (j : Job StockAnalysisJobData)
| AddJudgeReview (j : Job JudgeReviewJobData)
| AddFormatInsights (j : Job FormatInsightsJobData).

Record World : Type := mkWorld {
  jobStatus : gmap string JobStatusRow;          (* unique index on jobId *)
  stockAnalysis : gmap string StockAnalysisRow;  (* primary key id *)
  stock : gmap string StockRow;
  subSector : gmap string SubSectorRow;
  sectorAnalysis : gmap string SectorAnalysisRow;
  stockAnalysisQueue : list (Job StockAnalysisJobData);
  judgeReviewQueue : list (Job JudgeReviewJobData);
  formatInsightsQueue : list (Job FormatInsightsJobData);
  added : list AddCall;                          (* every [queue.add] issued, oldest first *)
  now : Z;                                       (* the clock read by [new Date()] *)
  idSupply : nat;                                (* identifiers generated so far *)
  callSites : string -> string                   (* the call sites that the engine lists in
                                                    the stack of an error with this message *)
}.

Definition set_jobStatus (f : gmap string JobStatusRow -> gmap string JobStatusRow)
  (w : World) : World :=
  mkWorld (f (jobStatus w)) (stockAnalysis w) (stock w) (subSector w) (sectorAnalysis w)
          (stockAnalysisQueue w) (judgeReviewQueue w) (formatInsightsQueue w)
          (added w) (now w) (idSupply w) (callSites w).

Definition set_stockAnalysis
  (f : gmap string StockAnalysisRow -> gmap string StockAnalysisRow) (w : World) : World :=
  mkWorld (jobStatus w) (f (stockAnalysis w)) (stock w) (subSector w) (sectorAnalysis w)
          (stockAnalysisQueue w) (judgeReviewQueue w) (formatInsightsQueue w)
          (added w) (now w) (idSupply w) (callSites w).

Definition set_stock (f : gmap string StockRow -> gmap string StockRow) (w : World) : World :=
  mkWorld (jobStatus w) (stockAnalysis w) (f (stock w)) (subSector w) (sectorAnalysis w)
          (stockAnalysisQueue w) (judgeReviewQueue w) (formatInsightsQueue w)
          (added w) (now w) (idSupply w) (callSites w).

Definition set_subSector (f : gmap string SubSectorRow -> gmap string SubSectorRow)
  (w : World) : World :=
  mkWorld (jobStatus w) (stockAnalysis w) (stock w) (f (subSector w)) (sectorAnalysis w)
          (stockAnalysisQueue w) (judgeReviewQueue w) (formatInsightsQueue w)
          (added w) (now w) (idSupply w) (callSites w).

Definition set_stockAnalysisQueue
  (f : list (Job StockAnalysisJobData) -> list (Job StockAnalysisJobData)) (w : World) : World :=
  mkWorld (jobStatus w) (stockAnalysis w) (stock w) (subSector w) (sectorAnalysis w)
          (f (stockAnalysisQueue w)) (judgeReviewQueue w) (formatInsightsQueue w)
          (added w) (now w) (idSupply w) (callSites w).

Definition set_judgeReviewQueue
  (f : list (Job JudgeReviewJobData) -> list (Job JudgeReviewJobData)) (w : World) : World :=
  mkWorld (jobStatus w) (stockAnalysis w) (stock w) (subSector w) (sectorAnalysis w)
          (stockAnalysisQueue w) (f (judgeReviewQueue w)) (formatInsightsQueue w)
          (added w) (now w) (idSupply w) (callSites w).

Definition set_formatInsightsQueue
  (f : list (Job FormatInsightsJobData) -> list (Job FormatInsightsJobData)) (w : World)
  : World :=
  mkWorld (jobStatus w) (stockAnalysis w) (stock w) (subSector w) (sectorAnalysis w)
          (stockAnalysisQueue w) (judgeReviewQueue w) (f (formatInsightsQueue w))
          (added w) (now w) (idSupply w) (callSites w).

Definition set_added (f : list AddCall -> list AddCall) (w : World) : World :=
  mkWorld (jobStatus w) (stockAnalysis w) (stock w) (subSector w) (sectorAnalysis w)
          (stockAnalysisQueue w) (judgeReviewQueue w) (formatInsightsQueue w)
          (f (added w)) (now w) (idSupply w) (callSites w).

Definition set_idSupply (f : nat -> nat) (w : World) : World :=
  mkWorld (jobStatus w) (stockAnalysis w) (stock w) (subSector w) (sectorAnalysis w)
          (stockAnalysisQueue w) (judgeReviewQueue w) (formatInsightsQueue w)
          (added w) (now w) (f (idSupply w)) (callSites w).

Definition set_sectorAnalysis
  (f : gmap string SectorAnalysisRow -> gmap string SectorAnalysisRow) (w : World) : World :=
  mkWorld (jobStatus w) (stockAnalysis w) (stock w) (subSector w) (f (sectorAnalysis w))
          (stockAnalysisQueue w) (judgeReviewQueue w) (formatInsightsQueue w)
          (added w) (now w) (idSupply w) (callSites w).

(** ** Asynchronous code: state and exceptions *)

Inductive res (A : Type) : Type :=
| Ok (a : A)
| Throw (e : Js.value).
Arguments Ok {A} a.
Arguments Throw {A} e.

Definition M (A : Type) : Type := World -> res A * World.

Definition ret {A} (a : A) : M A := fun w => (Ok a, w).

Definition throw {A} (e : Js.value) : M A := fun w => (Throw e, w).

Definition bind {A B} (m : M A) (k : A -> M B) : M B :=
  fun w =>
    match m w with
    | (Ok a, w') => k a w'
    | (Throw e, w') => (Throw e, w')
    end.

(** [try { m } catch (error) { handler error }] *)
Definition try_catch {A} (m : M A) (handler : Js.value -> M A) : M A :=
  fun w =>
    match m w with
    | (Ok a, w') => (Ok a, w')
    | (Throw e, w') => handler e w'
    end.

Definition get : M World := fun w => (Ok w, w).

Definition modify (f : World -> World) : M unit := fun w => (Ok tt, f w).

Notation "x <- m ;; k" := (bind m (fun x => k))
  (at level 100, m at next level, right associativity).
Notation "m ;; k" := (bind m (fun _ => k))
  (at level 100, right associativity).

(** [for (const x of xs) { await body x }] *)
Fixpoint forOf {A} (xs : list A) (body : A -> M unit) : M unit :=
  match xs with
  | [] => ret tt
  | x :: xs' => body x ;; forOf xs' body
  end.

(** [Promise.all(xs.map(async (x, index) => body x index))]: every task is
    started, in order; a task that rejects does not stop the others, and the
    whole rejects with the first rejection. Each task here is a single
    awaited call, so the tasks do not interleave. *)
Fixpoint promiseAllFrom {A B} (index : nat) (xs : list A) (body : A -> nat -> M B)
  : M (list B) :=
  match xs with
  | [] => ret []
  | x :: xs' =>
      fun w =>
        match body x index w with
        | (Ok b, w1) =>
            match promiseAllFrom (S index) xs' body w1 with
            | (Ok bs, w2) => (Ok (b :: bs), w2)
            | (Throw e, w2) => (Throw e, w2)
            end
        | (Throw e, w1) =>
            (Throw e, snd (promiseAllFrom (S index) xs' body w1))
        end
  end.

Definition promiseAll {A B} (xs : list A) (body : A -> nat -> M B) : M (list B) :=
  promiseAllFrom 0 xs body.

(** An [Error] object as the engine makes it: its stack is a text that
    starts with the name of the error and its message and goes on with the
    call sites, which the code never looks into. *)
Definition errorNamed (name : string) (w : World) (message : string) : Js.value :=
  Js.ErrorObj message
    (Some (Js.stackHeader name message +:+ callSites w message)).

(** [new Error(message)] *)
Definition newError (w : World) (message : string) : Js.value :=
  errorNamed "Error" w message.

(** [throw new Error(message)] *)
Definition throwNew {A} (message : string) : M A :=
  fun w => (Throw (newError w message), w).

(** The [TypeError] of a property read on [undefined] or [null]. *)
Definition throwTypeError {A} (message : string) : M A :=
  fun w => (Throw (errorNamed "TypeError" w message), w).

(** ** The storage collaborator (Prisma client) *)

Module Prisma.

(** The errors the client raises: an update of a missing row, a violated
    unique index, a violated foreign key. *)
Definition recordNotFound (w : World) : Js.value :=
  errorNamed "PrismaClientKnownRequestError" w "Record to update not found.".
Definition uniqueConstraintFailed (w : World) : Js.value :=
  errorNamed "PrismaClientKnownRequestError" w "Unique constraint failed".
Definition foreignKeyConstraintFailed (w : World) : Js.value :=
  errorNamed "PrismaClientKnownRequestError" w "Foreign key constraint failed".

(** Identifier of the [n]-th generated row. *)
Definition cuid (n : nat) : string := "c" +:+ Js.show (Z.of_nat n).

(** [data] of [jobStatus.update]: absent fields are left as they are. *)
Record JobStatusData : Type := mkJobStatusData {
  jsd_status : option JobStatusType;
  jsd_progress : option Z;
  jsd_errorMessage : option string;
  jsd_updatedAt : option Z
}.

Definition jobStatus_apply (data : JobStatusData) (row : JobStatusRow) : JobStatusRow :=
  mkJobStatusRow (js_jobId row) (js_jobType row) (js_relatedId row)
    (default (js_status row) (jsd_status data))
    (default (js_progress row) (jsd_progress data))
    (match jsd_errorMessage data with Some m => Some m | None => js_errorMessage row end)
    (js_createdAt row)
    (default (js_updatedAt row) (jsd_updatedAt data)).

Definition jobStatus_update (jobId : string) (data : JobStatusData) : M JobStatusRow :=
  fun w =>
    match jobStatus w !! jobId with
    | Some row =>
        let row' := jobStatus_apply data row in
        (Ok row', set_jobStatus (insert jobId row') w)
    | None => (Throw (recordNotFound w), w)
    end.

Definition jobStatus_create (jobId : string) (jobType : JobType) (relatedId : string)
  (status : JobStatusType) (progress : Z) : M JobStatusRow :=
  fun w =>
    match jobStatus w !! jobId with
    | Some _ => (Throw (uniqueConstraintFailed w), w)
    | None =>
        let row := mkJobStatusRow jobId jobType relatedId status progress None (now w) (now w) in
        (Ok row, set_jobStatus (insert jobId row) w)
    end.

Definition jobStatus_findUnique (jobId : string) : M (option JobStatusRow) :=
  fun w => (Ok (jobStatus w !! jobId), w).

(** [data] of [stockAnalysis.update]. *)
Record StockAnalysisData : Type := mkStockAnalysisData {
  sad_status : option string;
  sad_rawAnalysis : option string;
  sad_judgeReview : option string;
  sad_insights : option InsightsJson;
  sad_attemptCount : option Z;
  sad_failureReason : option string
}.

Definition noChange : StockAnalysisData :=
  mkStockAnalysisData None None None None None None.

Definition stockAnalysis_apply (data : StockAnalysisData) (row : StockAnalysisRow)
  : StockAnalysisRow :=
  mkStockAnalysisRow (sa_id row) (sa_stockId row)
    (default (sa_status row) (sad_status data))
    (default (sa_rawAnalysis row) (sad_rawAnalysis data))
    (default (sa_judgeReview row) (sad_judgeReview data))
    (default (sa_insights row) (sad_insights data))
    (default (sa_attemptCount row) (sad_attemptCount data))
    (match sad_failureReason data with Some m => Some m | None => sa_failureReason row end).

Definition stockAnalysis_update (id : string) (data : StockAnalysisData)
  : M StockAnalysisRow :=
  fun w =>
    match stockAnalysis w !! id with
    | Some row =>
        let row' := stockAnalysis_apply data row in
        (Ok row', set_stockAnalysis (insert id row') w)
    | None => (Throw (recordNotFound w), w)
    end.

(** The analysis of a stock, through the unique index on [stockId]. *)
Definition deepAnalysisOf (w : World) (stockId : string) : option StockAnalysisRow :=
  find (fun a => String.eqb (sa_stockId a) stockId) (snd <$> map_to_list (stockAnalysis w)).

(** [stockAnalysis.create]: the row gets a generated identifier. *)
Definition stockAnalysis_create (stockId status rawAnalysis judgeReview : string)
  (insights : InsightsJson) (attemptCount : Z) : M StockAnalysisRow :=
  fun w =>
    let id := cuid (idSupply w) in
    match stock w !! stockId, deepAnalysisOf w stockId, stockAnalysis w !! id with
    | None, _, _ => (Throw (foreignKeyConstraintFailed w), w)
    | Some _, Some _, _ => (Throw (uniqueConstraintFailed w), w)
    | Some _, None, Some _ => (Throw (uniqueConstraintFailed w), w)
    | Some _, None, None =>
        let row :=
          mkStockAnalysisRow id stockId status rawAnalysis judgeReview insights
                             attemptCount None in
        (Ok row, set_idSupply S (set_stockAnalysis (insert id row) w))
    end.

Definition stock_updateRank (id : string) (rank : Z) : M StockRow :=
  fun w =>
    match stock w !! id with
    | Some row =>
        let row' :=
          mkStockRow (st_id row) (st_subSectorId row) (st_companyName row) (st_ticker row)
                     rank (st_preliminaryNotes row) in
        (Ok row', set_stock (insert id row') w)
    | None => (Throw (recordNotFound w), w)
    end.

Definition subSector_updateStatus (id : string) (status : string) : M SubSectorRow :=
  fun w =>
    match subSector w !! id with
    | Some row =>
        let row' :=
          mkSubSectorRow (ss_id row) (ss_sectorAnalysisId row) (ss_name row) (ss_summary row)
                         status in
        (Ok row', set_subSector (insert id row') w)
    | None => (Throw (recordNotFound w), w)
    end.

(** [subSector.findUnique({ where: { id }, select: { name: true } })] *)
Definition subSector_findName (id : string) : M (option string) :=
  fun w => (Ok (ss_name <$> subSector w !! id), w).

(** Rows returned with their relations ([include]). *)
Record StockWithAnalysis : Type := mkStockWithAnalysis {
  swa_stock : StockRow;
  swa_deepAnalysis : option StockAnalysisRow
}.

Record SubSectorWithStocks : Type := mkSubSectorWithStocks {
  sws_subSector : SubSectorRow;
  sws_stocks : list StockWithAnalysis
}.

Definition stocksOf (w : World) (subSectorId : string) : list StockWithAnalysis :=
  (fun s => mkStockWithAnalysis s (deepAnalysisOf w (st_id s))) <$>
  filter (fun s => st_subSectorId s = subSectorId) (snd <$> map_to_list (stock w)).

Definition subSectorWithStocks (w : World) (id : string) : option SubSectorWithStocks :=
  (fun ss => mkSubSectorWithStocks ss (stocksOf w id)) <$> subSector w !! id.

(** [stockAnalysis.findUnique] including [stock.subSector.stocks.deepAnalysis]:
    the analysis, then its stock, then the stock's sub-sector. *)
Definition stockAnalysis_findWithSubSector (id : string)
  : M (option (StockAnalysisRow * option (StockRow * option SubSectorWithStocks))) :=
  fun w =>
    (Ok ((fun a =>
            (a, (fun s => (s, subSectorWithStocks w (st_subSectorId s))) <$>
                stock w !! sa_stockId a)) <$> stockAnalysis w !! id), w).

(** [sectorAnalysis.update]: [status] and [fullReport] are the only fields
    the code writes. *)
Definition sectorAnalysis_update (id : string) (status fullReport : option string)
  : M SectorAnalysisRow :=
  fun w =>
    match sectorAnalysis w !! id with
    | Some row =>
        let row' :=
          mkSectorAnalysisRow (sec_id row) (sec_userId row) (sec_sectorName row)
                              (default (sec_status row) status)
                              (default (sec_fullReport row) fullReport) in
        (Ok row', set_sectorAnalysis (insert id row') w)
    | None => (Throw (recordNotFound w), w)
    end.

Definition sectorAnalysis_create (userId sectorName status fullReport : string)
  : M SectorAnalysisRow :=
  fun w =>
    let id := cuid (idSupply w) in
    match sectorAnalysis w !! id with
    | Some _ => (Throw (uniqueConstraintFailed w), w)
    | None =>
        let row := mkSectorAnalysisRow id userId sectorName status fullReport in
        (Ok row, set_idSupply S (set_sectorAnalysis (insert id row) w))
    end.

Definition sectorAnalysis_findUnique (id : string) : M (option SectorAnalysisRow) :=
  fun w => (Ok (sectorAnalysis w !! id), w).

(** [subSector.create]: the sector analysis it belongs to must exist. *)
Definition subSector_create (sectorAnalysisId name summary status : string)
  : M SubSectorRow :=
  fun w =>
    let id := cuid (idSupply w) in
    match sectorAnalysis w !! sectorAnalysisId, subSector w !! id with
    | None, _ => (Throw (foreignKeyConstraintFailed w), w)
    | Some _, Some _ => (Throw (uniqueConstraintFailed w), w)
    | Some _, None =>
        let row := mkSubSectorRow id sectorAnalysisId name summary status in
        (Ok row, set_idSupply S (set_subSector (insert id row) w))
    end.

(** The order of [orderBy: { createdAt: 'desc' }]. *)
Definition createdNewerFirst (a b : JobStatusRow) : Prop := js_createdAt b ≤ js_createdAt a.

#[global] Instance createdNewerFirst_dec a b : Decision (createdNewerFirst a b) :=
  Z.le_dec _ _.

(** [jobStatus.findMany({ where: { relatedId }, orderBy: { createdAt: 'desc' } })] *)
Definition jobStatus_findManyByRelatedId (relatedId : string) : M (list JobStatusRow) :=
  fun w =>
    (Ok (merge_sort createdNewerFirst
           (filter (fun j => js_relatedId j = relatedId) (snd <$> map_to_list (jobStatus w)))),
     w).

(** [jobStatus.deleteMany({ where })]: resolves with the number of rows
    deleted. *)
Definition jobStatus_deleteMany (where_ : JobStatusRow -> bool) : M nat :=
  fun w =>
    (Ok (length (filter (fun j => where_ j = true) (snd <$> map_to_list (jobStatus w)))),
     set_jobStatus (filter (fun kv => where_ (snd kv) = false)) w).

(** The order of [orderBy: { rank: 'asc' }]. *)
Definition rankAscending (a b : StockRow) : Prop := st_rank a ≤ st_rank b.

#[global] Instance rankAscending_dec a b : Decision (rankAscending a b) := Z.le_dec _ _.

(** [subSector.findUnique] including its stocks by ascending rank. *)
Definition subSector_findWithRankedStocks (id : string)
  : M (option (SubSectorRow * list StockRow)) :=
  fun w =>
    (Ok ((fun ss =>
            (ss, merge_sort rankAscending
                   (filter (fun s => st_subSectorId s = id) (snd <$> map_to_list (stock w)))))
         <$> subSector w !! id), w).

(** [stock.findUnique] including [deepAnalysis] and the name of its
    sub-sector. *)
Definition stock_findWithAnalysis (id : string)
  : M (option (StockRow * option StockAnalysisRow * option string)) :=
  fun w =>
    (Ok ((fun s => (s, deepAnalysisOf w id, ss_name <$> subSector w !! st_subSectorId s))
         <$> stock w !! id), w).

End Prisma.

(** ** The queue substrate's [add]

    Every [add] of the workers names its job id; the substrate ignores an
    [add] whose job id it already knows and hands back a job with that id. *)

Module Queue.

Definition knows {D} (q : list (Job D)) (jobId : string) : bool :=
  bool_decide (jobId ∈ job_id <$> q).

Definition add {D} (j : Job D) (q : list (Job D)) : list (Job D) :=
  if knows q (job_id j) then q else q ++ [j].

Definition newJob {D} (name : string) (data : D) (jobId : string)
  (priority delay : option Z) : Job D :=
  mkJob jobId name data priority delay 0%nat false.

Definition stockAnalysisQueue_add (name : string) (data : StockAnalysisJobData)
  (jobId : string) (priority delay : option Z) : M (Job StockAnalysisJobData) :=
  fun w =>
    let j := newJob name data jobId priority delay in
    (Ok j, set_added (fun l => l ++ [AddStockAnalysis j]) (set_stockAnalysisQueue (add j) w)).

Definition judgeReviewQueue_add (name : string) (data : JudgeReviewJobData)
  (jobId : string) (priority delay : option Z) : M (Job JudgeReviewJobData) :=
  fun w =>
    let j := newJob name data jobId priority delay in
    (Ok j, set_added (fun l => l ++ [AddJudgeReview j]) (set_judgeReviewQueue (add j) w)).

Definition formatInsightsQueue_add (name : string) (data : FormatInsightsJobData)
  (jobId : string) (priority delay : option Z) : M (Job FormatInsightsJobData) :=
  fun w =>
    let j := newJob name data jobId priority delay in
    (Ok j, set_added (fun l => l ++ [AddFormatInsights j]) (set_formatInsightsQueue (add j) w)).

End Queue.

(** ** lib/queue/jobStatus.ts *)

Module JobStatus.

Definition createJobStatus (jobId : string) (jobType : JobType) (relatedId : string)
  : M JobStatusRow :=
  Prisma.jobStatus_create jobId jobType relatedId waiting 0.

(** [updateJobStatus(jobId, data)] writes [{ ...data, updatedAt: new Date() }]. *)
Definition updateJobStatus (jobId : string) (status : option JobStatusType)
  (progress : option Z) (errorMessage : option string) : M JobStatusRow :=
  w <- get ;;
  Prisma.jobStatus_update jobId
    (Prisma.mkJobStatusData status progress errorMessage (Some (now w))).

Definition markJobActive (jobId : string) (progress : Z) : M JobStatusRow :=
  updateJobStatus jobId (Some active) (Some progress) None.

Definition updateJobProgress (jobId : string) (progress : Z) : M JobStatusRow :=
  updateJobStatus jobId None (Some (Z.min 100 (Z.max 0 progress))) None.

Definition markJobCompleted (jobId : string) : M JobStatusRow :=
  updateJobStatus jobId (Some completed) (Some 100) None.

Definition markJobFailed (jobId : string) (errorMessage : string) : M JobStatusRow :=
  updateJobStatus jobId (Some failed) None (Some errorMessage).

Definition getJobStatus (jobId : string) : M (option JobStatusRow) :=
  Prisma.jobStatus_findUnique jobId.

Definition getJobsByRelatedId (relatedId : string) : M (list JobStatusRow) :=
  Prisma.jobStatus_findManyByRelatedId relatedId.

(** [cleanupOldJobs(daysOld)]. The cutoff is [new Date()] moved back by
    [daysOld] calendar days with [setDate]; that calendar arithmetic, which
    depends on the time zone of the process, is the parameter [daysBefore]. *)
Definition cleanupOldJobs (daysBefore : Z -> Z -> Z) (daysOld : Z) : M nat :=
  w <- get ;;
  let cutoffDate := daysBefore (now w) daysOld in
  Prisma.jobStatus_deleteMany
    (fun j => bool_decide (js_status j = completed) && (js_updatedAt j <? cutoffDate)).

Definition defaultDaysOld : Z := 30.

End JobStatus.

(** ** lib/queue/workers

    [console.log] and [console.error] have no effect on the [World] and are
    left out, and so is the classification the handlers compute and never
    use ([const jobError = classifyError(error)]). *)

Module Workers.
Import ErrorHandling JobStatus.

(** *** sectorResearchWorker.ts *)

Record SectorResearchResult : Type := mkSectorResearchResult {
  secr_sectorAnalysisId : string;
  secr_subSectorsCreated : nat
}.

Definition mockFullReport (sectorName : string) : string :=
  "AI Research Report for " +:+ sectorName +:+ Js.nl +:+ Js.nl +:+
  "This is a placeholder for the AI-generated sector analysis report.".

(** The mock sub-sectors: name and summary. *)
Definition mockSubSectors (sectorName : string) : list (string * string) :=
  [ (sectorName +:+ " Sub-sector 1", "Placeholder summary for sub-sector 1");
    (sectorName +:+ " Sub-sector 2", "Placeholder summary for sub-sector 2") ].

Definition processSectorResearch (job : Job SectorResearchJobData) : M SectorResearchResult :=
  let sectorAnalysisId := secjd_sectorAnalysisId (job_data job) in
  let sectorName := secjd_sectorName (job_data job) in
  try_catch
    (markJobActive (job_id job) 0 ;;
     Prisma.sectorAnalysis_update sectorAnalysisId (Some "in_progress") None ;;
     updateJobProgress (job_id job) 10 ;;
     updateJobProgress (job_id job) 60 ;;
     Prisma.sectorAnalysis_update sectorAnalysisId None (Some (mockFullReport sectorName)) ;;
     updateJobProgress (job_id job) 70 ;;
     forOf (mockSubSectors sectorName) (fun subSector =>
       Prisma.subSector_create sectorAnalysisId (fst subSector) (snd subSector) "pending" ;;
       ret tt) ;;
     updateJobProgress (job_id job) 90 ;;
     Prisma.sectorAnalysis_update sectorAnalysisId (Some "completed") None ;;
     markJobCompleted (job_id job) ;;
     ret (mkSectorResearchResult sectorAnalysisId (length (mockSubSectors sectorName))))
    (fun error =>
       let errorMessage := formatErrorMessage error (Some "Sector research failed") in
       Prisma.sectorAnalysis_update sectorAnalysisId (Some "failed") None ;;
       markJobFailed (job_id job) errorMessage ;;
       throwNew errorMessage).

(** *** stockRankingWorker.ts *)

Record RankedCandidate : Type := mkRankedCandidate {
  rk_candidate : RankingCandidate;
  rk_rank : Z
}.

Record StockRankingResult : Type := mkStockRankingResult {
  srr_subSectorId : string;
  srr_totalStocks : nat;
  srr_analysisJobsQueued : nat;
  srr_jobIds : list string
}.

(** [stocks.map((stock, index) => ({ ...stock, rank: index + 1 }))] *)
Definition rankSequentially (stocks : list RankingCandidate) : list RankedCandidate :=
  imap (fun index stock => mkRankedCandidate stock (Z.of_nat index + 1)) stocks.

(** [subSector?.name || 'Unknown'] *)
Definition nameOrUnknown (name : option string) : string :=
  match name with
  | Some n => if Js.truthy name then n else "Unknown"
  | None => "Unknown"
  end.

Definition processStockRanking (job : Job StockRankingJobData) : M StockRankingResult :=
  let subSectorId := srjd_subSectorId (job_data job) in
  let stocks := srjd_stocks (job_data job) in
  try_catch
    (markJobActive (job_id job) 0 ;;
     Prisma.subSector_updateStatus subSectorId "analyzing" ;;
     updateJobProgress (job_id job) 20 ;;
     let rankedStocks := rankSequentially stocks in
     updateJobProgress (job_id job) 60 ;;
     forOf rankedStocks (fun stock =>
       Prisma.stock_updateRank (rc_id (rk_candidate stock)) (rk_rank stock) ;; ret tt) ;;
     updateJobProgress (job_id job) 70 ;;
     let top5Stocks := take 5 rankedStocks in
     stockAnalyses <- promiseAll top5Stocks (fun stock _ =>
       Prisma.stockAnalysis_create (rc_id (rk_candidate stock)) "pending" "" "" EmptyObject 1) ;;
     updateJobProgress (job_id job) 80 ;;
     subSectorName <- Prisma.subSector_findName subSectorId ;;
     queuedJobs <- promiseAll top5Stocks (fun stock index =>
       match stockAnalyses !! index with
       | Some analysis =>
           Queue.stockAnalysisQueue_add "stock-analysis"
             (mkStockAnalysisJobData
                (rc_id (rk_candidate stock))
                (sa_id analysis)
                (rc_companyName (rk_candidate stock))
                (rc_ticker (rk_candidate stock))
                (nameOrUnknown subSectorName)
                1)
             ("stock-" +:+ sa_id analysis +:+ "-attempt-1")
             (Some (rk_rank stock))
             None
       | None => throwTypeError "Cannot read properties of undefined (reading 'id')"
       end) ;;
     updateJobProgress (job_id job) 100 ;;
     markJobCompleted (job_id job) ;;
     ret (mkStockRankingResult subSectorId (length stocks) (length queuedJobs)
                               (job_id <$> queuedJobs)))
    (fun error =>
       let errorMessage := formatErrorMessage error (Some "Stock ranking failed") in
       Prisma.subSector_updateStatus subSectorId "pending" ;;
       markJobFailed (job_id job) errorMessage ;;
       throwNew errorMessage).

(** *** stockAnalysisWorker.ts *)

Record StockAnalysisResult : Type := mkStockAnalysisResult {
  sar_stockAnalysisId : string;
  sar_judgeJobId : string
}.

(** [ticker || 'N/A'] *)
Definition tickerOrNA (ticker : option string) : string :=
  match ticker with
  | Some t => if Js.truthy ticker then t else "N/A"
  | None => "N/A"
  end.

Definition mockRawAnalysis (companyName : string) (ticker : option string)
  (attemptNumber : Z) : string :=
  Js.nl +:+ "Deep Analysis of " +:+ companyName +:+ " (" +:+ tickerOrNA ticker +:+ ")" +:+ Js.nl +:+
  "Attempt: " +:+ Js.show attemptNumber +:+ Js.nl +:+
  Js.nl +:+
  "This is a placeholder for the AI-generated deep stock analysis." +:+ Js.nl +:+
  "In production, this would be a comprehensive 7-10 page report including:" +:+ Js.nl +:+
  "- Company overview and business model" +:+ Js.nl +:+
  "- Financial analysis" +:+ Js.nl +:+
  "- Competitive positioning" +:+ Js.nl +:+
  "- Growth opportunities" +:+ Js.nl +:+
  "- Risk factors" +:+ Js.nl +:+
  "- Valuation assessment" +:+ Js.nl +:+
  "- Investment thesis" +:+ Js.nl.

Definition processStockAnalysis (job : Job StockAnalysisJobData) : M StockAnalysisResult :=
  let stockId := sajd_stockId (job_data job) in
  let stockAnalysisId := sajd_stockAnalysisId (job_data job) in
  let companyName := sajd_companyName (job_data job) in
  let ticker := sajd_ticker (job_data job) in
  let attemptNumber := sajd_attemptNumber (job_data job) in
  try_catch
    (markJobActive (job_id job) 0 ;;
     Prisma.stockAnalysis_update stockAnalysisId
       (Prisma.mkStockAnalysisData (Some "analyzing") None None None (Some attemptNumber) None) ;;
     updateJobProgress (job_id job) 10 ;;
     let raw := mockRawAnalysis companyName ticker attemptNumber in
     updateJobProgress (job_id job) 80 ;;
     Prisma.stockAnalysis_update stockAnalysisId
       (Prisma.mkStockAnalysisData None (Some raw) None None None None) ;;
     updateJobProgress (job_id job) 90 ;;
     judgeJob <- Queue.judgeReviewQueue_add "judge-review"
       (mkJudgeReviewJobData stockAnalysisId stockId raw companyName attemptNumber)
       ("judge-" +:+ stockAnalysisId +:+ "-" +:+ Js.show attemptNumber)
       None None ;;
     markJobCompleted (job_id job) ;;
     ret (mkStockAnalysisResult stockAnalysisId (job_id judgeJob)))
    (fun error =>
       let errorMessage :=
         formatErrorMessage error (Some ("Stock analysis failed for " +:+ companyName)) in
       Prisma.stockAnalysis_update stockAnalysisId
         (Prisma.mkStockAnalysisData (Some "review_failed") None None None None
                                     (Some errorMessage)) ;;
       markJobFailed (job_id job) errorMessage ;;
       throwNew errorMessage).

(** *** judgeReviewWorker.ts *)

Definition MAX_RETRY_ATTEMPTS : Z := 3.

(** The three shapes of the object the worker returns. *)
Inductive JudgeReviewResult : Type :=
| Approved (formatJobId : string)
| RetryQueued (retryJobId : string)
| MaxRetriesExceeded.

Definition mockJudgeReview (mockApproved : bool) (companyName : string) : string :=
  if mockApproved
  then "APPROVED: The analysis for " +:+ companyName +:+
       " is comprehensive and well-researched."
  else "REJECTED: The analysis for " +:+ companyName +:+
       " lacks depth in financial analysis. Please retry with more focus on valuation metrics.".

(** [mockApproved] is the draw [Math.random() > 0.3] of this execution. *)
Definition processJudgeReview (mockApproved : bool) (job : Job JudgeReviewJobData)
  : M JudgeReviewResult :=
  let stockAnalysisId := jrjd_stockAnalysisId (job_data job) in
  let stockId := jrjd_stockId (job_data job) in
  let rawAnalysis := jrjd_rawAnalysis (job_data job) in
  let companyName := jrjd_companyName (job_data job) in
  let attemptNumber := jrjd_attemptNumber (job_data job) in
  try_catch
    (markJobActive (job_id job) 0 ;;
     updateJobProgress (job_id job) 20 ;;
     let review := mockJudgeReview mockApproved companyName in
     updateJobProgress (job_id job) 70 ;;
     Prisma.stockAnalysis_update stockAnalysisId
       (Prisma.mkStockAnalysisData None None (Some review) None None None) ;;
     if mockApproved then
       (updateJobProgress (job_id job) 90 ;;
        formatJob <- Queue.formatInsightsQueue_add "format-insights"
          (mkFormatInsightsJobData stockAnalysisId rawAnalysis review companyName)
          ("format-" +:+ stockAnalysisId)
          None None ;;
        markJobCompleted (job_id job) ;;
        ret (Approved (job_id formatJob)))
     else if attemptNumber <? MAX_RETRY_ATTEMPTS then
       (updateJobProgress (job_id job) 90 ;;
        retryJob <- Queue.stockAnalysisQueue_add "stock-analysis-retry"
          (mkStockAnalysisJobData stockId stockAnalysisId companyName
             (Some (jrjd_companyName (job_data job)))
             "Unknown"
             (attemptNumber + 1))
          ("stock-" +:+ stockAnalysisId +:+ "-attempt-" +:+ Js.show (attemptNumber + 1))
          None (Some 5000) ;;
        markJobCompleted (job_id job) ;;
        ret (RetryQueued (job_id retryJob)))
     else
       (Prisma.stockAnalysis_update stockAnalysisId
          (Prisma.mkStockAnalysisData (Some "review_failed") None None None None
             (Some ("Judge rejected after " +:+ Js.show MAX_RETRY_ATTEMPTS +:+
                    " attempts: " +:+ review))) ;;
        markJobCompleted (job_id job) ;;
        ret MaxRetriesExceeded))
    (fun error =>
       let errorMessage :=
         formatErrorMessage error (Some ("Judge review failed for " +:+ companyName)) in
       markJobFailed (job_id job) errorMessage ;;
       throwNew errorMessage).

(** *** formatInsightsWorker.ts *)

Definition mockInsights (companyName : string) : FormattedInsights :=
  mkFormattedInsights "Buy" (Some 150%Q)
    [ mkKeyMetric "P/E Ratio" (inr (185 # 10)%Q) (Some "positive");
      mkKeyMetric "Revenue Growth (YoY)" (inl "23%") (Some "positive");
      mkKeyMetric "Profit Margin" (inl "15.2%") (Some "neutral");
      mkKeyMetric "Debt/Equity" (inr (45 # 100)%Q) (Some "positive") ]
    [ "Expanding into emerging markets with strong demand";
      "New product line launching Q3 2026";
      "Strategic partnerships with industry leaders" ]
    [ "Regulatory uncertainty in key markets";
      "Increasing competition from new entrants";
      "Supply chain vulnerabilities" ]
    [ "Q2 earnings report (expected strong results)";
      "FDA approval decision (pending)";
      "Annual investor day presentation" ]
    (companyName +:+ " demonstrates strong fundamentals with impressive revenue growth and expanding market presence. The company is well-positioned to capitalize on industry trends, though investors should monitor regulatory developments.").

Definition rankOf (s : Prisma.StockWithAnalysis) : Z := st_rank (Prisma.swa_stock s).

(** The order of [.sort((a, b) => a.rank - b.rank)]. *)
Definition byRank (a b : Prisma.StockWithAnalysis) : Prop := rankOf a ≤ rankOf b.

#[global] Instance byRank_dec a b : Decision (byRank a b) := Z.le_dec _ _.

(** [subSector.stocks.filter((s) => s.rank <= 5).sort(...)] *)
Definition topStocks (stocks : list Prisma.StockWithAnalysis) : list Prisma.StockWithAnalysis :=
  merge_sort byRank (filter (fun s => rankOf s ≤ 5) stocks).

(** [stock.deepAnalysis?.status === 'completed'] *)
Definition analysisCompleted (s : Prisma.StockWithAnalysis) : bool :=
  match Prisma.swa_deepAnalysis s with
  | Some a => String.eqb (sa_status a) "completed"
  | None => false
  end.

Definition allCompleted (stocks : list Prisma.StockWithAnalysis) : bool :=
  forallb analysisCompleted (topStocks stocks).

(** The completion cascade check, after the analysis has been stored. *)
Definition completionCascade (stockAnalysisId : string) : M unit :=
  found <- Prisma.stockAnalysis_findWithSubSector stockAnalysisId ;;
  match found with
  | None => ret tt
  | Some (_, None) =>
      throwTypeError "Cannot read properties of undefined (reading 'subSector')"
  | Some (_, Some (_, None)) => ret tt
  | Some (_, Some (_, Some subSector)) =>
      if allCompleted (Prisma.sws_stocks subSector)
      then Prisma.subSector_updateStatus (ss_id (Prisma.sws_subSector subSector)) "completed" ;;
           ret tt
      else ret tt
  end.

Record FormatInsightsResult : Type := mkFormatInsightsResult {
  fir_stockAnalysisId : string;
  fir_insights : FormattedInsights
}.

Definition processFormatInsights (job : Job FormatInsightsJobData) : M FormatInsightsResult :=
  let stockAnalysisId := fijd_stockAnalysisId (job_data job) in
  let companyName := fijd_companyName (job_data job) in
  try_catch
    (markJobActive (job_id job) 0 ;;
     updateJobProgress (job_id job) 20 ;;
     let insights := mockInsights companyName in
     updateJobProgress (job_id job) 70 ;;
     Prisma.stockAnalysis_update stockAnalysisId
       (Prisma.mkStockAnalysisData (Some "completed") None None (Some (Insights insights))
                                   None None) ;;
     updateJobProgress (job_id job) 90 ;;
     completionCascade stockAnalysisId ;;
     markJobCompleted (job_id job) ;;
     ret (mkFormatInsightsResult stockAnalysisId insights))
    (fun error =>
       let errorMessage :=
         formatErrorMessage error (Some ("Format insights failed for " +:+ companyName)) in
       Prisma.stockAnalysis_update stockAnalysisId
         (Prisma.mkStockAnalysisData (Some "review_failed") None None None None
                                     (Some errorMessage)) ;;
       markJobFailed (job_id job) errorMessage ;;
       throwNew errorMessage).

End Workers.

(** ** app/api/analysis/[id]/stream/route.ts

    The body of the polling callback of the event stream. [lastJobStates] is
    the map the stream keeps between polls. The callback's first query,
    whose result it does not use, is left out; the reads of the model do not
    raise, so the callback's handler is never entered. *)

Module Stream.

Inductive Event : Type :=
| ev_connected
| ev_progress (type : JobType) (jobId relatedId : string) (status : JobStatusType)
           (progress : Z) (errorMessage : option string)
| ev_complete (type : JobType) (jobId relatedId : string) (status : JobStatusType)
| ev_error (type : JobType) (jobId relatedId : string) (status : JobStatusType)
        (errorMessage : option string).

(** [[stockId, analysisId].filter(Boolean)] *)
Definition idsOf (s : Prisma.StockWithAnalysis) : list string :=
  filter (fun i => Js.truthy (Some i) = true)
         ([st_id (Prisma.swa_stock s)] ++
          match Prisma.swa_deepAnalysis s with
          | Some a => [sa_id a]
          | None => []
          end).

(** The ids of the stocks and analyses below the sector analysis [id]. *)
Definition stockJobs (w : World) (id : string) : list string :=
  match sectorAnalysis w !! id with
  | None => []
  | Some _ =>
      ss ← (filter (fun ss => ss_sectorAnalysisId ss = id)
                            (snd <$> map_to_list (subSector w)));
      s ← Prisma.stocksOf w (ss_id ss);
      idsOf s
  end.

(** The order of [orderBy: { updatedAt: 'desc' }]. *)
Definition newerFirst (a b : JobStatusRow) : Prop := js_updatedAt b ≤ js_updatedAt a.

#[global] Instance newerFirst_dec a b : Decision (newerFirst a b) := Z.le_dec _ _.

(** [jobStatus.findMany] on [relatedId: id] or [relatedId in stockJobs]. *)
Definition relatedJobs (w : World) (id : string) : list JobStatusRow :=
  merge_sort newerFirst
    (filter (fun j => js_relatedId j = id ∨ js_relatedId j ∈ stockJobs w id)
            (snd <$> map_to_list (jobStatus w))).

Definition changed (lastState : option (JobStatusType * Z)) (job : JobStatusRow) : bool :=
  match lastState with
  | None => true
  | Some (status, progress) =>
      negb (bool_decide (status = js_status job)) ||
      negb (bool_decide (progress = js_progress job))
  end.

(** One iteration of [for (const job of relatedJobs)]. *)
Definition publishJob (lastJobStates : gmap string (JobStatusType * Z)) (job : JobStatusRow)
  : list Event * gmap string (JobStatusType * Z) :=
  if changed (lastJobStates !! js_jobId job) job then
    ([ev_progress (js_jobType job) (js_jobId job) (js_relatedId job) (js_status job)
               (js_progress job) (js_errorMessage job)] ++
     (if bool_decide (js_status job = completed)
      then [ev_complete (js_jobType job) (js_jobId job) (js_relatedId job) (js_status job)]
      else []) ++
     (if bool_decide (js_status job = failed)
      then [ev_error (js_jobType job) (js_jobId job) (js_relatedId job) (js_status job)
                  (js_errorMessage job)]
      else []),
     <[js_jobId job := (js_status job, js_progress job)]> lastJobStates)
  else ([], lastJobStates).

Fixpoint publish (lastJobStates : gmap string (JobStatusType * Z)) (jobs : list JobStatusRow)
  : list Event * gmap string (JobStatusType * Z) :=
  match jobs with
  | [] => ([], lastJobStates)
  | job :: rest =>
      let (events, lastJobStates') := publishJob lastJobStates job in
      let (events', lastJobStates'') := publish lastJobStates' rest in
      (events ++ events', lastJobStates'')
  end.

(** One poll: the events sent and the states remembered for the next poll. *)
Definition poll (id : string) (w : World) (lastJobStates : gmap string (JobStatusType * Z))
  : list Event * gmap string (JobStatusType * Z) :=
  publish lastJobStates (relatedJobs w id).

(** The events of successive polls, the [k]-th poll seeing the [k]-th world
    of [seen]; [lastJobStates] lives as long as the stream. *)
Fixpoint session (id : string) (lastJobStates : gmap string (JobStatusType * Z))
  (seen : list World) : list Event :=
  match seen with
  | [] => []
  | w :: rest =>
      let (events, lastJobStates') := poll id w lastJobStates in
      events ++ session id lastJobStates' rest
  end.

(** [GET]: a 404 when the sector analysis is not there at the time of the
    request; otherwise the stream, which opens with the connection event
    and then carries what the polls send. *)
Definition GET (id : string) (w : World) (seen : list World) : Z * list Event :=
  match sectorAnalysis w !! id with
  | None => (404, [])
  | Some _ => (200, ev_connected :: session id ∅ seen)
  end.

End Stream.

(** ** app/api: the request handlers

    A handler answers with [{ success: true, data }] and status 200, or with
    [{ success: false, error }] and an error status. Where a handler adds a
    job without naming its id, the id is generated by the queue substrate;
    it is an input of the model, as the verdict draw of the judge is. *)

Module Routes.
Import JobStatus.

Inductive Response (A : Type) : Type :=
| Json200 (data : A)
| JsonError (status : Z) (error : string).
Arguments Json200 {A} data.
Arguments JsonError {A} status error.

(** [ticker || undefined] *)
Definition tickerOrUndefined (ticker : option string) : option string :=
  if Js.truthy ticker then ticker else None.

(** *** POST /api/stock/[id]/reanalyze *)

Record ReanalyzeData : Type := mkReanalyzeData {
  rd_jobId : string;
  rd_stockAnalysisId : string;
  rd_message : string
}.

Definition reanalyze (generatedJobId : string) (id : string) : M (Response ReanalyzeData) :=
  try_catch
    (found <- Prisma.stock_findWithAnalysis id ;;
     match found with
     | None => ret (JsonError 404 "Stock not found")
     | Some (_, Some _, _) =>
         ret (JsonError 400
                "Stock already has an analysis. Delete existing analysis first to reanalyze.")
     | Some (stock, None, subSectorName) =>
         stockAnalysis <- Prisma.stockAnalysis_create id "pending" "" "" EmptyObject 1 ;;
         match subSectorName with
         | None => throwTypeError "Cannot read properties of null (reading 'name')"
         | Some name =>
             analysisJob <- Queue.stockAnalysisQueue_add "stock-analysis"
               (mkStockAnalysisJobData id (sa_id stockAnalysis) (st_companyName stock)
                  (tickerOrUndefined (st_ticker stock)) name 1)
               generatedJobId None None ;;
             createJobStatus (job_id analysisJob) stock_analysis id ;;
             ret (Json200 (mkReanalyzeData (job_id analysisJob) (sa_id stockAnalysis)
                             ("Started analysis for " +:+ st_companyName stock)))
         end
     end)
    (fun _ => ret (JsonError 500 "Failed to trigger stock reanalysis")).

(** *** GET /api/subsector/[id]/stocks *)

Record SubSectorStocks : Type := mkSubSectorStocks {
  sst_id : string;
  sst_name : string;
  sst_summary : string;
  sst_status : string;
  sst_stocks : list Prisma.StockWithAnalysis
}.

(** [rejection] is the error with which the query rejects when the
    database cannot serve it. *)
Definition getStocks (rejection : option Js.value) (id : string)
  : M (Response SubSectorStocks) :=
  try_catch
    (found <- match rejection with
              | Some error => throw error
              | None => Prisma.subSector_findWithRankedStocks id
              end ;;
     w <- get ;;
     match found with
     | None => ret (JsonError 404 "Sub-sector not found")
     | Some (subSector, stocks) =>
         ret (Json200 (mkSubSectorStocks (ss_id subSector) (ss_name subSector)
                         (ss_summary subSector) (ss_status subSector)
                         ((fun s => Prisma.mkStockWithAnalysis s
                                      (Prisma.deepAnalysisOf w (st_id s))) <$> stocks)))
     end)
    (fun _ => ret (JsonError 500 "Failed to fetch subsector stocks")).

(** *** The state the handlers of approval and start work on: the [World]
    and the two queues no worker adds to. *)

Record Site : Type := mkSite {
  site_world : World;
  sectorResearchQueue : list (Job SectorResearchJobData);
  stockRankingQueue : list (Job StockRankingJobData)
}.

Definition H (A : Type) : Type := Site -> res A * Site.

Definition hret {A} (a : A) : H A := fun s => (Ok a, s).

Definition hbind {A B} (m : H A) (k : A -> H B) : H B :=
  fun s =>
    match m s with
    | (Ok a, s') => k a s'
    | (Throw e, s') => (Throw e, s')
    end.

Definition htry_catch {A} (m : H A) (handler : Js.value -> H A) : H A :=
  fun s =>
    match m s with
    | (Ok a, s') => (Ok a, s')
    | (Throw e, s') => handler e s'
    end.

(** A computation on the [World], run on the world of the site. *)
Definition liftW {A} (m : M A) : H A :=
  fun s =>
    (fst (m (site_world s)),
     mkSite (snd (m (site_world s))) (sectorResearchQueue s) (stockRankingQueue s)).

Definition sectorResearchQueue_add (name : string) (data : SectorResearchJobData)
  (jobId : string) : H (Job SectorResearchJobData) :=
  fun s =>
    let j := Queue.newJob name data jobId None None in
    (Ok j, mkSite (site_world s) (Queue.add j (sectorResearchQueue s)) (stockRankingQueue s)).

Definition stockRankingQueue_add (name : string) (data : StockRankingJobData)
  (jobId : string) : H (Job StockRankingJobData) :=
  fun s =>
    let j := Queue.newJob name data jobId None None in
    (Ok j, mkSite (site_world s) (sectorResearchQueue s) (Queue.add j (stockRankingQueue s))).

Declare Scope handler_scope.
Delimit Scope handler_scope with handler.
Notation "x <- m ;; k" := (hbind m (fun x => k))
  (at level 100, m at next level, right associativity) : handler_scope.
Notation "m ;; k" := (hbind m (fun _ => k))
  (at level 100, right associativity) : handler_scope.

(** *** POST /api/subsector/[id]/approve *)

Record JobCreated : Type := mkJobCreated {
  jc_jobId : string;
  jc_type : JobType;
  jc_stockId : option string
}.

Record ApproveData : Type := mkApproveData {
  ad_subSectorId : string;
  ad_jobsCreated : list JobCreated;
  ad_message : string
}.

(** [stocks.length > 0 && stocks.some(stock => stock.rank === 0)] *)
Definition needsRanking (stocks : list StockRow) : bool :=
  (0 <? length stocks)%nat && existsb (fun stock => st_rank stock =? 0) stocks.

Definition candidateOf (stock : StockRow) : RankingCandidate :=
  mkRankingCandidate (st_id stock) (st_companyName stock)
                     (tickerOrUndefined (st_ticker stock)) (st_preliminaryNotes stock).

(** The body of [for (const stock of top5Stocks)], for the stocks still to
    come; [index] counts the jobs added so far in this request. *)
Fixpoint analyseEach (generatedJobId : nat -> string) (subSectorName : string)
  (index : nat) (stocks : list StockRow) : M (list JobCreated) :=
  match stocks with
  | [] => ret []
  | stock :: rest =>
      stockAnalysis <- Prisma.stockAnalysis_create (st_id stock) "pending" "" "" EmptyObject 1 ;;
      analysisJob <- Queue.stockAnalysisQueue_add "stock-analysis"
        (mkStockAnalysisJobData (st_id stock) (sa_id stockAnalysis) (st_companyName stock)
           (tickerOrUndefined (st_ticker stock)) subSectorName 1)
        (generatedJobId index) None None ;;
      createJobStatus (job_id analysisJob) stock_analysis (st_id stock) ;;
      jobsCreated <- analyseEach generatedJobId subSectorName (S index) rest ;;
      ret (mkJobCreated (job_id analysisJob) stock_analysis (Some (st_id stock)) :: jobsCreated)
  end.

Definition analysisMessage (jobsCreated : list JobCreated) : string :=
  Js.show (Z.of_nat (length jobsCreated)) +:+ " stock analysis jobs created for top " +:+
  Js.show (Z.of_nat (length jobsCreated)) +:+ " stocks".

Definition approve (generatedJobId : nat -> string) (id : string) : H (Response ApproveData) :=
  htry_catch
    (found <- liftW (Prisma.subSector_findWithRankedStocks id) ;;
     match found with
     | None => hret (JsonError 404 "Sub-sector not found")
     | Some (subSector, stocks) =>
         liftW (Prisma.subSector_updateStatus id "approved") ;;
         if needsRanking stocks then
           rankingJob <- stockRankingQueue_add "stock-ranking"
             (mkStockRankingJobData id (candidateOf <$> stocks)) (generatedJobId 0%nat) ;;
           liftW (createJobStatus (job_id rankingJob) stock_ranking id) ;;
           hret (Json200 (mkApproveData id
                            [mkJobCreated (job_id rankingJob) stock_ranking None]
                            "Stock ranking job created"))
         else if (0 <? length stocks)%nat then
           jobsCreated <- liftW (analyseEach generatedJobId (ss_name subSector) 0 (take 5 stocks)) ;;
           liftW (Prisma.subSector_updateStatus id "analyzing") ;;
           hret (Json200 (mkApproveData id jobsCreated (analysisMessage jobsCreated)))
         else
           hret (Json200 (mkApproveData id [] (analysisMessage [])))
     end)%handler
    (fun _ => hret (JsonError 500 "Failed to approve subsector")).

(** *** POST /api/analysis/start

    [validationResult] is what the request schema makes of the body: the
    message of its first issue, or the sector name it accepts. *)

Record StartData : Type := mkStartData {
  sd_id : string;
  sd_status : string;
  sd_message : string
}.

Definition demoUser : string := "demo-user".

Definition start (generatedJobId : string) (validationResult : string + string)
  : H (Response StartData) :=
  htry_catch
    (match validationResult with
     | inl message => hret (JsonError 400 message)
     | inr sectorName =>
         sectorAnalysis <- liftW (Prisma.sectorAnalysis_create demoUser sectorName
                                    "in_progress" "") ;;
         job <- sectorResearchQueue_add "sector-research"
           (mkSectorResearchJobData (sec_id sectorAnalysis) demoUser sectorName)
           generatedJobId ;;
         liftW (createJobStatus (job_id job) sector_research (sec_id sectorAnalysis)) ;;
         hret (Json200 (mkStartData (sec_id sectorAnalysis) (sec_status sectorAnalysis)
                          ("Started analysis for sector: " +:+ sectorName)))
     end)%handler
    (fun _ => hret (JsonError 500 "Failed to start sector analysis")).

End Routes.

(** ** lib/ai/client.ts: the retry helper of the model calls

    [fn] is effectful: a transition on a state of type [S] that resolves
    with a result, which carries an error message when the call failed. A
    run records the result of every invocation and the pauses taken. *)

Module AiClient.

Record TokenUsage : Type := mkTokenUsage {
  inputTokens : Z;
  outputTokens : Z;
  totalTokens : Z
}.

Record AIResult (T : Type) : Type := mkAIResult {
  content : T;
  tokenUsage : TokenUsage;
  error : option string
}.
Arguments mkAIResult {T}.
Arguments content {T}.
Arguments tokenUsage {T}.
Arguments error {T}.

Record retryRun (S T : Type) : Type := mkRetryRun {
  rr_result : AIResult T;
  rr_state : S;
  rr_calls : list (AIResult T);  (* results of the invocations of [fn], in order *)
  rr_pauses : list Z             (* delays handed to [setTimeout], in order *)
}.
Arguments mkRetryRun {S T}.
Arguments rr_result {S T}.
Arguments rr_state {S T}.
Arguments rr_calls {S T}.
Arguments rr_pauses {S T}.

(** The text of [lastError] in the template literal. *)
Definition showLastError (lastError : option string) : string :=
  match lastError with
  | Some e => e
  | None => "undefined"
  end.

Section WithRetry.
Context {S T : Type}.
Variable fn : S -> AIResult T * S.
Variable emptyContent : T.   (* [''] taken as a [T] *)
Variable maxRetries : Z.

(** The body of [for (let attempt = 1; attempt <= maxRetries; attempt++)],
    over the attempt numbers still to come. *)
Fixpoint withRetry_loop (attempts : list Z) (delayMs : Z) (lastError : option string) (s : S)
  : retryRun S T :=
  match attempts with
  | [] =>
      mkRetryRun
        (mkAIResult emptyContent (mkTokenUsage 0 0 0)
           (Some ("Failed after " +:+ Js.show maxRetries +:+ " attempts. Last error: " +:+
                  showLastError lastError)))
        s [] []
  | attempt :: rest =>
      let (result, s') := fn s in
      if negb (Js.truthy (error result)) then mkRetryRun result s' [result] []
      else if attempt <? maxRetries then
        let r := withRetry_loop rest (delayMs * 2) (error result) s' in
        mkRetryRun (rr_result r) (rr_state r) (result :: rr_calls r) (delayMs :: rr_pauses r)
      else
        let r := withRetry_loop rest delayMs (error result) s' in
        mkRetryRun (rr_result r) (rr_state r) (result :: rr_calls r) (rr_pauses r)
  end.

Definition withRetry (delayMs : Z) (s : S) : retryRun S T :=
  withRetry_loop (seqZ 1 maxRetries) delayMs None s.

End WithRetry.

Definition defaultMaxRetries : Z := 3.
Definition defaultDelayMs : Z := 1000.

End AiClient.

(** ** Vocabulary of the properties *)

(** [p] occurs in [s]. *)
Definition Occurs (p s : string) : Prop :=
  ∃ before after : string, s = before +:+ p +:+ after.

(** The number is finite and its value is the rational [q]. *)
Definition Exactly (x : Js.number) (q : Q) : Prop :=
  match x with
  | S754_zero _ => (q == 0)%Q
  | S754_finite s m e =>
      (q == inject_Z (if s then Z.neg m else Z.pos m) * Qpower 2 e)%Q
  | _ => False
  end.

(** The small letters of ASCII and their capitals. *)
Definition isSmallLetter (c : ascii) : bool :=
  ((97 <=? N_of_ascii c) && (N_of_ascii c <=? 122))%N.

Definition capitalOf (c : ascii) : ascii := ascii_of_N (N_of_ascii c - 32).

(** The Kelvin sign U+212A, in UTF-8. *)
Definition kelvinSign : string := String "226" (String "132" (String "170" "")).

(** [text] reads as [pattern] when the case of letters is ignored:
    character by character it has the character of the pattern, the capital
    of a small letter, or the Kelvin sign for a k. *)
Inductive ReadsAs : string → string → Prop :=
| reads_nil : ReadsAs "" ""
| reads_same c text pattern :
    ReadsAs text pattern → ReadsAs (String c text) (String c pattern)
| reads_capital c text pattern :
    isSmallLetter c = true → ReadsAs text pattern →
    ReadsAs (String (capitalOf c) text) (String c pattern)
| reads_kelvin text pattern :
    ReadsAs text pattern →
    ReadsAs (String "226" (String "132" (String "170" text))) (String "k" pattern).

(** The message mentions the pattern, in whatever case. *)
Definition Mentions (pattern message : string) : Prop :=
  ∃ before text after, message = before +:+ text +:+ after ∧ ReadsAs text pattern.

(** A pattern the classifier looks for: ASCII characters, no capital, and
    no i at the end. *)
Definition plainChar (c : ascii) : bool :=
  (N_of_ascii c <? 128)%N && negb ((65 <=? N_of_ascii c) && (N_of_ascii c <=? 90))%N.

Fixpoint plainPattern (p : string) : bool :=
  match p with
  | EmptyString => true
  | String c EmptyString => plainChar c && negb (Ascii.eqb c "i")
  | String c p' => plainChar c && plainPattern p'
  end.

(** The lower-casing, as a relation between a string and its lower case. *)
Inductive Lowered : string → string → Prop :=
| lowered_nil : Lowered "" ""
| lowered_kelvin s l :
    Lowered s l →
    Lowered (String "226" (String "132" (String "170" s))) (String "k" l)
| lowered_dotted s l :
    Lowered s l →
    Lowered (String "196" (String "176" s)) (String "i" (String "204" (String "135" l)))
| lowered_char c s l :
    (∀ s', s ≠ String "132" (String "170" s') ∨ c ≠ "226"%char) →
    (∀ s', s ≠ String "176" s' ∨ c ≠ "196"%char) →
    Lowered s l →
    Lowered (String c s) (String (Js.lower_ascii c) l).


(** A computation respects a relation between worlds when every execution,
    normal or exceptional, takes a world to a related one. *)
Definition Respects (R : relation World) {A} (m : M A) : Prop :=
  ∀ w r w', m w = (r, w') → R w w'.

(** The [queue.add] calls issued between two worlds all satisfy [P]. *)
Definition AddsOnly (P : AddCall → Prop) : relation World :=
  λ w w', ∃ new, added w' = added w ++ new ∧ Forall P new.

(** The substrate's invariant: within a queue no two jobs share an id. *)
Definition UniqueIds (w : World) : Prop :=
  NoDup (job_id <$> stockAnalysisQueue w) ∧
  NoDup (job_id <$> judgeReviewQueue w) ∧
  NoDup (job_id <$> formatInsightsQueue w).

Definition KeepsUniqueIds : relation World :=
  λ w w', UniqueIds w → UniqueIds w'.

(** The job ids of the pipeline of one StockAnalysis. *)
Definition stockJobId (stockAnalysisId : string) (attemptNumber : Z) : string :=
  "stock-" +:+ stockAnalysisId +:+ "-attempt-" +:+ Js.show attemptNumber.
Definition judgeJobId (stockAnalysisId : string) (attemptNumber : Z) : string :=
  "judge-" +:+ stockAnalysisId +:+ "-" +:+ Js.show attemptNumber.
Definition formatJobId (stockAnalysisId : string) : string :=
  "format-" +:+ stockAnalysisId.

(** What each worker may add to a queue. *)
Definition rankingAdd (c : AddCall) : Prop :=
  ∃ j, c = AddStockAnalysis j ∧
       sajd_attemptNumber (job_data j) = 1 ∧
       job_id j = stockJobId (sajd_stockAnalysisId (job_data j)) 1.

Definition analysisAdd (job : Job StockAnalysisJobData) (c : AddCall) : Prop :=
  ∃ j, c = AddJudgeReview j ∧
       jrjd_stockAnalysisId (job_data j) = sajd_stockAnalysisId (job_data job) ∧
       jrjd_attemptNumber (job_data j) = sajd_attemptNumber (job_data job) ∧
       job_id j = judgeJobId (sajd_stockAnalysisId (job_data job))
                             (sajd_attemptNumber (job_data job)).

Definition judgeAdd (job : Job JudgeReviewJobData) (c : AddCall) : Prop :=
  (∃ j, c = AddFormatInsights j ∧
        fijd_stockAnalysisId (job_data j) = jrjd_stockAnalysisId (job_data job) ∧
        job_id j = formatJobId (jrjd_stockAnalysisId (job_data job))) ∨
  (∃ j, c = AddStockAnalysis j ∧
        sajd_stockAnalysisId (job_data j) = jrjd_stockAnalysisId (job_data job) ∧
        sajd_attemptNumber (job_data j) = jrjd_attemptNumber (job_data job) + 1 ∧
        job_id j = stockJobId (jrjd_stockAnalysisId (job_data job))
                              (jrjd_attemptNumber (job_data job) + 1)).

(** No completed sub-sector is taken back between two worlds. *)
Definition StaysCompleted : relation World :=
  λ w w', ∀ k row, subSector w !! k = Some row → ss_status row = "completed" →
                   ∃ row', subSector w' !! k = Some row' ∧ ss_status row' = "completed".

(** The jobs of a queue that carry a given id. *)
Definition jobsWithId {D} (jobId : string) (q : list (Job D)) : list (Job D) :=
  filter (λ j, job_id j = jobId) q.

(** The jobs a worker hands to the next stage. *)
Definition judgeJobOf (job : Job StockAnalysisJobData) : Job JudgeReviewJobData :=
  Queue.newJob "judge-review"
    (mkJudgeReviewJobData
       (sajd_stockAnalysisId (job_data job))
       (sajd_stockId (job_data job))
       (Workers.mockRawAnalysis (sajd_companyName (job_data job)) (sajd_ticker (job_data job))
                                (sajd_attemptNumber (job_data job)))
       (sajd_companyName (job_data job))
       (sajd_attemptNumber (job_data job)))
    (judgeJobId (sajd_stockAnalysisId (job_data job)) (sajd_attemptNumber (job_data job)))
    None None.

Definition retryJobOf (job : Job JudgeReviewJobData) : Job StockAnalysisJobData :=
  Queue.newJob "stock-analysis-retry"
    (mkStockAnalysisJobData
       (jrjd_stockId (job_data job))
       (jrjd_stockAnalysisId (job_data job))
       (jrjd_companyName (job_data job))
       (Some (jrjd_companyName (job_data job)))
       "Unknown"
       (jrjd_attemptNumber (job_data job) + 1))
    (stockJobId (jrjd_stockAnalysisId (job_data job)) (jrjd_attemptNumber (job_data job) + 1))
    None (Some 5000).

Definition formatJobOf (job : Job JudgeReviewJobData) : Job FormatInsightsJobData :=
  Queue.newJob "format-insights"
    (mkFormatInsightsJobData
       (jrjd_stockAnalysisId (job_data job))
       (jrjd_rawAnalysis (job_data job))
       (Workers.mockJudgeReview true (jrjd_companyName (job_data job)))
       (jrjd_companyName (job_data job)))
    (formatJobId (jrjd_stockAnalysisId (job_data job)))
    None None.

(** Two tables of analyses agree on every attempt counter. *)
Definition SameAttempts (m m' : gmap string StockAnalysisRow) : Prop :=
  ∀ id, sa_attemptCount <$> m' !! id = sa_attemptCount <$> m !! id.

(** ** The pipeline of the analyses as a transition system

    The substrate takes an unfinished job of a queue, runs the queue's
    worker on it and settles the job: a job whose execution returned is
    finished; one whose execution raised is finished once the queue's
    number of attempts (lib/queue/config.ts) is used up, and is taken again
    otherwise. *)

Module Pipeline.

Definition stockAnalysisAttempts : nat := 1.
Definition judgeReviewAttempts : nat := 3.
Definition formatInsightsAttempts : nat := 3.

Definition returned {A} (r : res A) : bool :=
  match r with
  | Ok _ => true
  | Throw _ => false
  end.

Definition settleJob {D} (attempts : nat) (ok : bool) (j : Job D) : Job D :=
  mkJob (job_id j) (job_name j) (job_data j) (job_priority j) (job_delay j)
        (S (job_attemptsMade j))
        (job_finished j || ok || bool_decide (attempts ≤ S (job_attemptsMade j))%nat).

Definition settle {D} (attempts : nat) (jobId : string) (ok : bool) (q : list (Job D))
  : list (Job D) :=
  (λ j, if decide (job_id j = jobId) then settleJob attempts ok j else j) <$> q.

(** One dispatch of a job of the stock-analysis queue, and of the
    judge-review queue. *)
Definition runStockAnalysis (job : Job StockAnalysisJobData) (w : World) : World :=
  set_stockAnalysisQueue
    (settle stockAnalysisAttempts (job_id job)
            (returned (fst (Workers.processStockAnalysis job w))))
    (snd (Workers.processStockAnalysis job w)).

Definition runJudgeReview (mockApproved : bool) (job : Job JudgeReviewJobData) (w : World)
  : World :=
  set_judgeReviewQueue
    (settle judgeReviewAttempts (job_id job)
            (returned (fst (Workers.processJudgeReview mockApproved job w))))
    (snd (Workers.processJudgeReview mockApproved job w)).

Inductive step : World → World → Prop :=
| step_stockAnalysis (w : World) (job : Job StockAnalysisJobData) r w' :
    job ∈ stockAnalysisQueue w →
    job_finished job = false →
    Workers.processStockAnalysis job w = (r, w') →
    step w (set_stockAnalysisQueue
              (settle stockAnalysisAttempts (job_id job) (returned r)) w')
| step_judgeReview (w : World) (job : Job JudgeReviewJobData) (mockApproved : bool) r w' :
    job ∈ judgeReviewQueue w →
    job_finished job = false →
    Workers.processJudgeReview mockApproved job w = (r, w') →
    step w (set_judgeReviewQueue
              (settle judgeReviewAttempts (job_id job) (returned r)) w')
| step_formatInsights (w : World) (job : Job FormatInsightsJobData) r w' :
    job ∈ formatInsightsQueue w →
    job_finished job = false →
    Workers.processFormatInsights job w = (r, w') →
    step w (set_formatInsightsQueue
              (settle formatInsightsAttempts (job_id job) (returned r)) w').

(** Where every entry point leaves the pipeline: first-attempt analysis
    jobs, at most one per analysis, nothing yet for the judge, and attempt
    counters at their initial value. *)
Definition Init (w : World) : Prop :=
  judgeReviewQueue w = [] ∧
  Forall (λ j, sajd_attemptNumber (job_data j) = 1) (stockAnalysisQueue w) ∧
  NoDup ((sajd_stockAnalysisId ∘ job_data) <$> stockAnalysisQueue w) ∧
  ∀ id row, stockAnalysis w !! id = Some row → sa_attemptCount row = 1.

(** The attempt numbers of the unfinished jobs of a queue that concern the
    analysis [a]. *)
Definition pendingAttempts {D} (analysisOf : D → string) (attemptOf : D → Z)
  (a : string) (q : list (Job D)) : list Z :=
  (attemptOf ∘ job_data) <$>
  filter (λ j, job_finished j = false ∧ analysisOf (job_data j) = a) q.

Definition stockAttempts (w : World) (a : string) : list Z :=
  pendingAttempts sajd_stockAnalysisId sajd_attemptNumber a (stockAnalysisQueue w).

Definition judgeAttempts (w : World) (a : string) : list Z :=
  pendingAttempts jrjd_stockAnalysisId jrjd_attemptNumber a (judgeReviewQueue w).

(** At most one job of an analysis is under way, its attempt number is at
    most 3, and while it is at the judge the attempt counter equals it. *)
Definition OneToken (w : World) (a : string) : Prop :=
  (stockAttempts w a = [] ∧ judgeAttempts w a = []) ∨
  (∃ n, stockAttempts w a = [n] ∧ judgeAttempts w a = [] ∧ n ≤ 3) ∨
  (∃ n, stockAttempts w a = [] ∧ judgeAttempts w a = [n] ∧ n ≤ 3 ∧
        ∀ row, stockAnalysis w !! a = Some row → sa_attemptCount row = n).

Definition Bounded (m : gmap string StockAnalysisRow) : Prop :=
  ∀ id row, m !! id = Some row → sa_attemptCount row ≤ 3.

Definition Inv (w : World) : Prop :=
  Bounded (stockAnalysis w) ∧ ∀ a, OneToken w a.

(** What the format stage leaves as it is. *)
Definition KeepsAttempts : relation World :=
  λ w w', stockAnalysisQueue w' = stockAnalysisQueue w ∧
          judgeReviewQueue w' = judgeReviewQueue w ∧
          SameAttempts (stockAnalysis w) (stockAnalysis w').

End Pipeline.

(** ** The top 5 of a sub-sector, in the words of the specification

    The 5 lowest-rank stocks among those with rank at least 1, all of them
    when fewer than 5 are ranked. Where ranks tie the order of the sort
    decides; with distinct ranks the list is determined. *)
Definition top5OfSpec (stocks : list Prisma.StockWithAnalysis)
  : list Prisma.StockWithAnalysis :=
  take 5 (merge_sort Workers.byRank (filter (λ s, 1 ≤ Workers.rankOf s) stocks)).

(** The ranks of the stocks are 1, 2, ..., N, each once: what the ranking
    worker writes for the stocks of a sub-sector. *)
Definition RankedOneToN (stocks : list Prisma.StockWithAnalysis) : Prop :=
  Workers.rankOf <$> stocks ≡ₚ seqZ 1 (Z.of_nat (length stocks)).

(** Every row of the tracker is stored under its job id (the table's
    unique index). *)
Definition JobStatusKeyed (w : World) : Prop :=
  ∀ k row, jobStatus w !! k = Some row → js_jobId row = k.

(** The pair the stream compares between polls. *)
Definition stateOf (job : JobStatusRow) : JobStatusType * Z :=
  (js_status job, js_progress job).

Definition progressOf (job : JobStatusRow) : Stream.Event :=
  Stream.ev_progress (js_jobType job) (js_jobId job) (js_relatedId job) (js_status job)
                     (js_progress job) (js_errorMessage job).
Definition completeOf (job : JobStatusRow) : Stream.Event :=
  Stream.ev_complete (js_jobType job) (js_jobId job) (js_relatedId job) (js_status job).
Definition errorOf (job : JobStatusRow) : Stream.Event :=
  Stream.ev_error (js_jobType job) (js_jobId job) (js_relatedId job) (js_status job)
                  (js_errorMessage job).

(** The judge jobs of the pipeline carry the ids the stock-analysis worker
    gives them, and the tracker has no row under such an id. *)
Definition JudgeJobsUntracked (w : World) : Prop :=
  (∀ job, job ∈ judgeReviewQueue w →
          ∃ stockAnalysisId attemptNumber,
            job_id job = judgeJobId stockAnalysisId attemptNumber) ∧
  (∀ stockAnalysisId attemptNumber,
     jobStatus w !! judgeJobId stockAnalysisId attemptNumber = None).

(** The events a poll owes for a row of the tracker, given the pairs last
    sent: none when the pair last sent for the job id is the row's pair;
    otherwise a progress event, then a complete event when the status is
    completed, and an error event when it is failed. *)
Definition eventsFor (lastJobStates : gmap string (JobStatusType * Z)) (job : JobStatusRow)
  : list Stream.Event :=
  if decide (lastJobStates !! js_jobId job = Some (stateOf job)) then []
  else progressOf job ::
       (if decide (js_status job = completed) then [completeOf job] else []) ++
       (if decide (js_status job = failed) then [errorOf job] else []).

(** The entity [x] is the sector analysis [id] itself, a stock of one of
    its sub-sectors, or the analysis of such a stock. *)
Definition InHierarchy (w : World) (id x : string) : Prop :=
  x = id ∨
  (is_Some (sectorAnalysis w !! id) ∧ x ≠ "" ∧
   ∃ k ss k' s,
     subSector w !! k = Some ss ∧ ss_sectorAnalysisId ss = id ∧
     stock w !! k' = Some s ∧ st_subSectorId s = ss_id ss ∧
     (x = st_id s ∨ ∃ a, Prisma.deepAnalysisOf w (st_id s) = Some a ∧ x = sa_id a)).

(** ** Vocabulary of the further properties *)

(** What a run of the retry wrapper ends with, given the outcome of its
    last invocation. *)
Definition resultOf {T} (context : option string) (last : ErrorHandling.outcome T)
  : T + string :=
  match last with
  | ErrorHandling.Resolved v => inl v
  | ErrorHandling.Rejected e => inr (ErrorHandling.formatErrorMessage e context)
  end.

(** The result the retry helper of the model calls gives up with. *)
Definition gaveUp {T} (emptyContent : T) (maxRetries : Z) (lastError : option string)
  : AiClient.AIResult T :=
  AiClient.mkAIResult emptyContent (AiClient.mkTokenUsage 0 0 0)
    (Some ("Failed after " +:+ Js.show maxRetries +:+ " attempts. Last error: " +:+
           AiClient.showLastError lastError)).

(** What may change in the tracker between two worlds: no row appears or
    disappears; a row keeps its job id, type, related entity and creation
    time; an error message, once there, stays there. *)
Definition TrackerFrame : relation World :=
  λ w w', ∀ jobId,
    match jobStatus w !! jobId, jobStatus w' !! jobId with
    | None, None => True
    | Some row, Some row' =>
        js_jobId row' = js_jobId row ∧
        js_jobType row' = js_jobType row ∧
        js_relatedId row' = js_relatedId row ∧
        js_createdAt row' = js_createdAt row ∧
        (is_Some (js_errorMessage row) → is_Some (js_errorMessage row'))
    | _, _ => False
    end.

(** An execution on the world [w] raises the storage layer's "record not
    found", having added no job and written nothing to the tracker. *)
Definition FailsUntracked {A} (m : M A) (w : World) : Prop :=
  ∃ w', m w = (Throw (Prisma.recordNotFound w), w') ∧
        added w' = added w ∧
        stockAnalysisQueue w' = stockAnalysisQueue w ∧
        judgeReviewQueue w' = judgeReviewQueue w ∧
        formatInsightsQueue w' = formatInsightsQueue w ∧
        jobStatus w' = jobStatus w.

(** The identifiers still to be generated are not in use: what the
    generator of the storage layer guarantees. *)
Definition FreshIds (w : World) : Prop :=
  ∀ n, (idSupply w ≤ n)%nat →
       stockAnalysis w !! Prisma.cuid n = None ∧
       subSector w !! Prisma.cuid n = None ∧
       sectorAnalysis w !! Prisma.cuid n = None.

(** Every stock row is stored under its id (the table's primary key). *)
Definition StockKeyed (w : World) : Prop :=
  ∀ k row, stock w !! k = Some row → st_id row = k.

(** A stock row with another rank. *)
Definition withRank (rank : Z) (row : StockRow) : StockRow :=
  mkStockRow (st_id row) (st_subSectorId row) (st_companyName row) (st_ticker row)
             rank (st_preliminaryNotes row).

(** The stock table once the ranks of [ranked] are written, in order. *)
Definition rankedStocks (ranked : list Workers.RankedCandidate) (m : gmap string StockRow)
  : gmap string StockRow :=
  foldl (λ m r, alter (withRank (Workers.rk_rank r)) (rc_id (Workers.rk_candidate r)) m)
        m ranked.

(** The analysis created for a stock, under the [n]-th identifier. *)
Definition pendingAnalysis (n : nat) (stockId : string) : StockAnalysisRow :=
  mkStockAnalysisRow (Prisma.cuid n) stockId "pending" "" "" EmptyObject 1 None.

Definition pendingAnalyses (n : nat) (ranked : list Workers.RankedCandidate)
  : list StockAnalysisRow :=
  imap (λ k r, pendingAnalysis (n + k) (rc_id (Workers.rk_candidate r))) ranked.

Definition withAnalyses (rows : list StockAnalysisRow) (m : gmap string StockAnalysisRow)
  : gmap string StockAnalysisRow :=
  foldl (λ m a, <[sa_id a := a]> m) m rows.

(** The first-attempt job the ranking worker adds for a ranked candidate
    and its analysis. *)
Definition firstJobOf (subSectorName : string) (r : Workers.RankedCandidate)
  (a : StockAnalysisRow) : Job StockAnalysisJobData :=
  Queue.newJob "stock-analysis"
    (mkStockAnalysisJobData (rc_id (Workers.rk_candidate r)) (sa_id a)
       (rc_companyName (Workers.rk_candidate r)) (rc_ticker (Workers.rk_candidate r))
       subSectorName 1)
    (stockJobId (sa_id a) 1) (Some (Workers.rk_rank r)) None.

(** The job a request handler adds for the first analysis of a stock. *)
Definition requestedJobOf (generatedJobId stockId : string) (stock : StockRow)
  (analysisId subSectorName : string) : Job StockAnalysisJobData :=
  Queue.newJob "stock-analysis"
    (mkStockAnalysisJobData stockId analysisId (st_companyName stock)
       (Routes.tickerOrUndefined (st_ticker stock)) subSectorName 1)
    generatedJobId None None.

Definition alreadyAnalysed : string :=
  "Stock already has an analysis. Delete existing analysis first to reanalyze.".

(** The tracker row a request handler creates for a job it added. *)
Definition waitingRow (jobId : string) (jobType : JobType) (relatedId : string) (at_ : Z)
  : JobStatusRow :=
  mkJobStatusRow jobId jobType relatedId waiting 0 None at_ at_.

(** A sub-sector row with another status. *)
Definition approvedRow (ss : SubSectorRow) (status : string) : SubSectorRow :=
  mkSubSectorRow (ss_id ss) (ss_sectorAnalysisId ss) (ss_name ss) (ss_summary ss) status.

(** The (status, progress) pairs of the progress events of a job, in the
    order of sending. *)
Definition statesOf (jobId : string) (events : list Stream.Event)
  : list (JobStatusType * Z) :=
  omap (λ e, match e with
             | Stream.ev_progress _ j _ status progress _ =>
                 if decide (j = jobId) then Some (status, progress) else None
             | _ => None
             end) events.

(** Whether a key may be in use: an identifier that was not generated, or
    one of the first [supply] generated identifiers. *)
Definition knownKey (supply : nat) (k : string) : bool :=
  negb (Js.startsWith k "c") || bool_decide (k ∈ Prisma.cuid <$> seq 0 supply).

(** A check of [FreshIds] on a given world. *)
Definition freshIdsb (w : World) : bool :=
  forallb (knownKey (idSupply w))
    ((fst <$> map_to_list (stockAnalysis w)) ++ (fst <$> map_to_list (subSector w)) ++
     (fst <$> map_to_list (sectorAnalysis w))).

(** Every sub-sector row is stored under its id (the table's primary key). *)
Definition SubSectorKeyed (w : World) : Prop :=
  ∀ k row, subSector w !! k = Some row → ss_id row = k.

(** No two analyses of one stock (the unique index on the stock of an
    analysis). *)
Definition OneAnalysisPerStock (w : World) : Prop :=
  ∀ k1 a1 k2 a2,
    stockAnalysis w !! k1 = Some a1 → stockAnalysis w !! k2 = Some a2 →
    sa_stockId a1 = sa_stockId a2 → k1 = k2.

(** Every stock of rank at most 5 of a completed sub-sector has a completed
    analysis. *)
Definition CompletedAreAnalysed (w : World) : Prop :=
  ∀ k ss, subSector w !! k = Some ss → ss_status ss = "completed" →
    ∀ s, s ∈ Prisma.stocksOf w k → Workers.rankOf s ≤ 5 →
         Workers.analysisCompleted s = true.

(** The unfinished jobs of the three queues that concern the analysis [a]. *)
Definition formatAttempts (w : World) (a : string) : list Z :=
  Pipeline.pendingAttempts fijd_stockAnalysisId (λ _, 0) a (formatInsightsQueue w).

Definition jobsUnderWay (w : World) (a : string) : nat :=
  (length (Pipeline.stockAttempts w a) + length (Pipeline.judgeAttempts w a) +
   length (formatAttempts w a))%nat.

(** At most one job of an analysis is under way, and none once the analysis
    is completed. *)
Definition OneJobPerAnalysis (w : World) : Prop :=
  ∀ a, (jobsUnderWay w a ≤ 1)%nat ∧
       ∀ row, stockAnalysis w !! a = Some row → sa_status row = "completed" →
              jobsUnderWay w a = 0%nat.

Definition Settled (w : World) : Prop :=
  SubSectorKeyed w ∧ OneAnalysisPerStock w ∧ OneJobPerAnalysis w ∧ CompletedAreAnalysed w.

(** The execution leaves the stocks and the sub-sectors as they are and
    rewrites at most the analysis [a], which keeps its stock and is not
    turned to completed. *)
Definition Reworks (a : string) : relation World :=
  λ w w',
    stock w' = stock w ∧ subSector w' = subSector w ∧
    (∀ k, k ≠ a → stockAnalysis w' !! k = stockAnalysis w !! k) ∧
    match stockAnalysis w !! a, stockAnalysis w' !! a with
    | Some row, Some row' =>
        sa_stockId row' = sa_stockId row ∧
        (sa_status row' = sa_status row ∨ sa_status row' = "analyzing" ∨
         sa_status row' = "review_failed")
    | None, None => True
    | _, _ => False
    end.

(** The call sites in the stacks of the sample worlds. *)
Definition sampleCallSites (_ : string) : string :=
  Js.nl +:+ "    at process (worker.js:1:1)".

(** A world with nothing in it, and the row of a judge job at 70 %. *)
Definition emptyWorld : World :=
  mkWorld ∅ ∅ ∅ ∅ ∅ [] [] [] [] 0 0 sampleCallSites.

Definition sampleJobStatus : JobStatusRow :=
  mkJobStatusRow "judge-c0-1" judge_review "c0" active 70 None 10 20.

(** ** A sample world

    One sector with one sub-sector and one ranked stock whose analysis has
    just been requested; the tracker holds a row for every job id of the
    analysis' pipeline. *)

Module Sample.

Definition tracked (jobId : string) (jobType : JobType) (relatedId : string) : JobStatusRow :=
  mkJobStatusRow jobId jobType relatedId waiting 0 None 0 0.

Definition analysis : StockAnalysisRow :=
  mkStockAnalysisRow "c0" "s0" "pending" "" "" EmptyObject 1 None.

Definition firstJob : Job StockAnalysisJobData :=
  Queue.newJob "stock-analysis"
    (mkStockAnalysisJobData "s0" "c0" "Apple Inc." (Some "AAPL") "Consumer Electronics" 1)
    "stock-c0-attempt-1" (Some 1) None.

Definition world : World :=
  mkWorld
    (list_to_map
       ((λ r, (js_jobId r, r)) <$>
        [ tracked "stock-c0-attempt-1" stock_analysis "s0";
          tracked "judge-c0-1" judge_review "c0";
          tracked "stock-c0-attempt-2" stock_analysis "s0";
          tracked "judge-c0-2" judge_review "c0";
          tracked "stock-c0-attempt-3" stock_analysis "s0";
          tracked "judge-c0-3" judge_review "c0";
          tracked "format-c0" format_insights "c0" ]))
    (<["c0" := analysis]> ∅)
    (<["s0" := mkStockRow "s0" "ss0" "Apple Inc." (Some "AAPL") 1 "Leader in devices"]> ∅)
    (<["ss0" := mkSubSectorRow "ss0" "sec0" "Consumer Electronics" "Devices" "analyzing"]> ∅)
    (<["sec0" := mkSectorAnalysisRow "sec0" "u0" "Technology" "completed" "report"]> ∅)
    [firstJob] [] [] [] 100 1 sampleCallSites.

(** The jobs of the three attempts, as the workers hand them on. *)
Definition judge1 : Job JudgeReviewJobData := judgeJobOf firstJob.
Definition retry2 : Job StockAnalysisJobData := retryJobOf judge1.
Definition judge2 : Job JudgeReviewJobData := judgeJobOf retry2.
Definition retry3 : Job StockAnalysisJobData := retryJobOf judge2.
Definition judge3 : Job JudgeReviewJobData := judgeJobOf retry3.

(** The analysis is rejected by the judge on every attempt. *)
Definition rejectedThrice : res Workers.JudgeReviewResult * World :=
  let w1 := snd (Workers.processStockAnalysis firstJob world) in
  let w2 := snd (Workers.processJudgeReview false judge1 w1) in
  let w3 := snd (Workers.processStockAnalysis retry2 w2) in
  let w4 := snd (Workers.processJudgeReview false judge2 w3) in
  let w5 := snd (Workers.processStockAnalysis retry3 w4) in
  Workers.processJudgeReview false judge3 w5.

(** The sample world after two rejections and the third analysis, each job
    dispatched and settled by the substrate. *)
Definition afterSecondRejection : World :=
  Pipeline.runJudgeReview false judge2
    (Pipeline.runStockAnalysis retry2
       (Pipeline.runJudgeReview false judge1
          (Pipeline.runStockAnalysis firstJob world))).

Definition beforeThirdVerdict : World :=
  Pipeline.runStockAnalysis retry3 afterSecondRejection.

(** The format job of the sample analysis. *)
Definition formatJob : Job FormatInsightsJobData := formatJobOf judge1.

(** The sample world when that job is the only one under way. *)
Definition formatting : World :=
  set_stockAnalysisQueue (λ _, [])
    (set_formatInsightsQueue (λ _, [formatJob]) world).

Definition withStocks (stocks : list StockRow) : World :=
  mkWorld (jobStatus world) (stockAnalysis world)
          (list_to_map ((λ r, (st_id r, r)) <$> stocks))
          (subSector world) (sectorAnalysis world) [] [] [] [] 100 1 sampleCallSites.

(** A sub-sector whose second stock has rank 7 and no analysis. *)
Definition gapWorld : World :=
  withStocks [ mkStockRow "s0" "ss0" "Apple Inc." (Some "AAPL") 1 "Leader in devices";
               mkStockRow "s1" "ss0" "Sonos Inc." (Some "SONO") 7 "Audio" ].

(** A sub-sector that has not been ranked: both stocks have rank 0, and the
    first one is analysed on request. *)
Definition unrankedWorld : World :=
  withStocks [ mkStockRow "s0" "ss0" "Apple Inc." (Some "AAPL") 0 "Leader in devices";
               mkStockRow "s1" "ss0" "Sonos Inc." (Some "SONO") 0 "Audio" ].

(** A sub-sector with eight unranked candidates, approved for ranking. *)
Definition candidates : list RankingCandidate :=
  (λ n, mkRankingCandidate ("t" +:+ Js.show n) ("Company " +:+ Js.show n) None "notes")
    <$> seqZ 1 8.

Definition rankingJob : Job StockRankingJobData :=
  Queue.newJob "stock-ranking" (mkStockRankingJobData "ss0" candidates) "7" None None.

Definition rankingWorld : World :=
  mkWorld
    (<["7" := tracked "7" stock_ranking "ss0"]> ∅)
    ∅
    (list_to_map
       ((λ c, (rc_id c, mkStockRow (rc_id c) "ss0" (rc_companyName c) (rc_ticker c) 0
                                   (rc_preliminaryNotes c))) <$> candidates))
    (<["ss0" := mkSubSectorRow "ss0" "sec0" "Consumer Electronics" "Devices" "approved"]> ∅)
    (sectorAnalysis world) [] [] [] [] 100 1 sampleCallSites.

(** A world that tracks one job of the sector analysis, in a given state. *)
Definition streaming (status : JobStatusType) (progress : Z) : World :=
  mkWorld (<["sector-sec0" :=
             mkJobStatusRow "sector-sec0" sector_research "sec0" status progress None 0 0]> ∅)
          ∅ ∅ ∅ (sectorAnalysis world) [] [] [] [] 100 1 sampleCallSites.

(** The events of successive polls, each seeing one world. *)
Fixpoint polls (lastJobStates : gmap string (JobStatusType * Z)) (seen : list World)
  : list Stream.Event :=
  match seen with
  | [] => []
  | w :: rest =>
      let (events, lastJobStates') := Stream.poll "sec0" w lastJobStates in
      events ++ polls lastJobStates' rest
  end.

End Sample.

(** ** Sample requests

    Worlds for the request handlers and for the first stages of the
    pipeline. *)

Module Requests.

(** The sample world when only the first analysis job is tracked. *)
Definition handoverWorld : World :=
  set_jobStatus
    (λ _, <["stock-c0-attempt-1" := Sample.tracked "stock-c0-attempt-1" stock_analysis "s0"]> ∅)
    Sample.world.

(** A sector analysis that has just been started. *)
Definition researchJob : Job SectorResearchJobData :=
  Queue.newJob "sector-research" (mkSectorResearchJobData "sec0" "u0" "Technology") "1"
               None None.

Definition researchWorld : World :=
  mkWorld (<["1" := Sample.tracked "1" sector_research "sec0"]> ∅) ∅ ∅ ∅
          (<["sec0" := mkSectorAnalysisRow "sec0" "u0" "Technology" "in_progress" ""]> ∅)
          [] [] [] [] 100 1 sampleCallSites.

(** A sub-sector with two ranked stocks and no analysis, before approval. *)
Definition apple : StockRow :=
  mkStockRow "s0" "ss0" "Apple Inc." (Some "AAPL") 1 "Leader in devices".
Definition sonos : StockRow :=
  mkStockRow "s1" "ss0" "Sonos Inc." (Some "SONO") 2 "Audio".
Definition pendingSubSector : SubSectorRow :=
  mkSubSectorRow "ss0" "sec0" "Consumer Electronics" "Devices" "pending".

Definition rankedSite : Routes.Site :=
  Routes.mkSite
    (mkWorld ∅ ∅ (<["s0" := apple]> (<["s1" := sonos]> ∅)) (<["ss0" := pendingSubSector]> ∅)
             (sectorAnalysis Sample.world) [] [] [] [] 100 1 sampleCallSites)
    [] [].

(** The same sub-sector with unranked stocks. *)
Definition unrankedSite : Routes.Site :=
  Routes.mkSite
    (mkWorld ∅ ∅ (<["s0" := withRank 0 apple]> (<["s1" := withRank 0 sonos]> ∅))
             (<["ss0" := pendingSubSector]> ∅)
             (sectorAnalysis Sample.world) [] [] [] [] 100 1 sampleCallSites)
    [] [].

(** Job ids as the substrate generates them: 1, 2, ... *)
Definition counter (k : nat) : string := Js.show (Z.of_nat k + 1).

End Requests.

(* ================================================================== *)
(** * Properties *)

(** ** Strings *)

Section Strings.

Lemma append_nil_l (s : string) : "" +:+ s = s.
Proof. reflexivity. Qed.

Lemma append_cons (c : ascii) (s t : string) : String c s +:+ t = String c (s +:+ t).
Proof. reflexivity. Qed.

Lemma startsWith_nil (s : string) : Js.startsWith s "" = true.
Proof. by destruct s. Qed.

Lemma startsWith_spec (s p : string) :
  Js.startsWith s p = true ↔ ∃ after, s = p +:+ after.
Proof.
  revert s. induction p as [|a p IH]; intros s.
  - rewrite startsWith_nil. split; [intros _; exists s; reflexivity | done].
  - destruct s as [|b s]; simpl.
    + split; [done | intros [after H]; rewrite append_cons in H; discriminate].
    + destruct (ascii_dec a b) as [->|Hne].
      * rewrite IH. split; intros [after H]; exists after;
          rewrite ?append_cons in *; congruence.
      * split; [done | intros [after H]; rewrite append_cons in H; congruence].
Qed.

Lemma includes_nil (p : string) : Js.includes "" p = Js.startsWith "" p || false.
Proof. reflexivity. Qed.

Lemma includes_cons (c : ascii) (s p : string) :
  Js.includes (String c s) p = Js.startsWith (String c s) p || Js.includes s p.
Proof. reflexivity. Qed.

Lemma includes_spec (s p : string) : Js.includes s p = true ↔ Occurs p s.
Proof.
  induction s as [|c s IH].
  - rewrite includes_nil, orb_false_r, startsWith_spec. split.
    + intros [after H]. by exists "", after.
    + intros (before & after & H). destruct before.
      * rewrite append_nil_l in H. by exists after.
      * rewrite append_cons in H. discriminate.
  - rewrite includes_cons, orb_true_iff, IH, startsWith_spec. split.
    + intros [[after H] | (before & after & H)].
      * by exists "", after.
      * exists (String c before), after. rewrite append_cons. by rewrite H.
    + intros (before & after & H). destruct before as [|c' before].
      * left. rewrite append_nil_l in H. by exists after.
      * right. rewrite append_cons in H. exists before, after. congruence.
Qed.

Lemma includes_false (s p : string) : Js.includes s p = false ↔ ¬ Occurs p s.
Proof. rewrite <- includes_spec. by destruct (Js.includes s p). Qed.

Lemma append_assoc (a b c : string) : (a +:+ b) +:+ c = a +:+ (b +:+ c).
Proof. induction a as [|x a IH]; [reflexivity |]. by rewrite !append_cons, IH. Qed.

Lemma append_nil_r (a : string) : a +:+ "" = a.
Proof. induction a as [|x a IH]; [done |]. by rewrite append_cons, IH. Qed.

Lemma toLowerCase_lowered_upto (n : nat) :
  ∀ s, (String.length s ≤ n)%nat → Lowered s (Js.toLowerCase s).
Proof.
  induction n as [|n IH]; intros s Hn.
  - destruct s; [constructor | simpl in Hn; lia].
  - destruct s as [|c [|c1 [|c2 s3]]]; [constructor | ..].
    + cbn [Js.toLowerCase]. apply lowered_char; [by left | by left | constructor].
    + cbn [Js.toLowerCase]. destruct (Js.isDottedCapitalI c c1) eqn:Hd.
      * unfold Js.isDottedCapitalI in Hd.
        apply andb_true_iff in Hd as [->%Ascii.eqb_eq ->%Ascii.eqb_eq].
        apply lowered_dotted. constructor.
      * apply lowered_char.
        -- by left.
        -- intros s'. destruct (decide (c = "196"%char)) as [-> | Hc]; [| by right].
           left. intros [= -> <-]. by vm_compute in Hd.
        -- apply IH. simpl in *. lia.
    + cbn [Js.toLowerCase]. destruct (Js.isDottedCapitalI c c1) eqn:Hd.
      * unfold Js.isDottedCapitalI in Hd.
        apply andb_true_iff in Hd as [->%Ascii.eqb_eq ->%Ascii.eqb_eq].
        apply lowered_dotted. apply IH. simpl in *. lia.
      * destruct (Js.isKelvinSign c c1 c2) eqn:Hk.
        -- unfold Js.isKelvinSign in Hk.
           apply andb_true_iff in Hk as [[->%Ascii.eqb_eq ->%Ascii.eqb_eq]%andb_true_iff ->%Ascii.eqb_eq].
           apply lowered_kelvin. apply IH. simpl in *. lia.
        -- apply lowered_char.
           ++ intros s'. destruct (decide (c = "226"%char)) as [-> | Hc]; [| by right].
              left. intros [= -> -> <-]. by vm_compute in Hk.
           ++ intros s'. destruct (decide (c = "196"%char)) as [-> | Hc]; [| by right].
              left. intros [= -> <-]. by vm_compute in Hd.
           ++ apply IH. simpl in *. lia.
Qed.

Lemma toLowerCase_lowered (s : string) : Lowered s (Js.toLowerCase s).
Proof. by apply (toLowerCase_lowered_upto (String.length s)). Qed.

Lemma plainChar_code (c : ascii) :
  plainChar c = true → (N_of_ascii c < 65 ∨ 90 < N_of_ascii c)%N ∧ (N_of_ascii c < 128)%N.
Proof.
  unfold plainChar. rewrite andb_true_iff, negb_true_iff, andb_false_iff.
  rewrite N.ltb_lt, !N.leb_gt. lia.
Qed.

Lemma plain_not_lead (c : ascii) (n : N) :
  plainChar c = true → (128 ≤ n)%N → (n < 256)%N → c ≠ ascii_of_N n.
Proof.
  intros [_ H]%plainChar_code Hn Hn' ->. rewrite N_ascii_embedding in H; lia.
Qed.

Lemma lower_ascii_plain (c : ascii) : plainChar c = true → Js.lower_ascii c = c.
Proof.
  intros [H _]%plainChar_code. unfold Js.lower_ascii.
  destruct (_ && _)%N eqn:E; [| done].
  apply andb_true_iff in E as [?%N.leb_le ?%N.leb_le]. lia.
Qed.

Lemma capitalOf_code (c : ascii) :
  isSmallLetter c = true →
  (65 ≤ N_of_ascii (capitalOf c) ≤ 90)%N ∧ N_of_ascii c = (N_of_ascii (capitalOf c) + 32)%N.
Proof.
  unfold isSmallLetter, capitalOf.
  intros [?%N.leb_le ?%N.leb_le]%andb_true_iff.
  rewrite N_ascii_embedding; lia.
Qed.

Lemma lower_ascii_capitalOf (c : ascii) :
  isSmallLetter c = true → Js.lower_ascii (capitalOf c) = c.
Proof.
  intros [H E]%capitalOf_code. unfold Js.lower_ascii.
  destruct (_ && _)%N eqn:B.
  - by rewrite <- E, ascii_N_embedding.
  - apply andb_false_iff in B as [?%N.leb_gt | ?%N.leb_gt]; lia.
Qed.

Lemma capitalOf_not_lead (c : ascii) (n : N) :
  isSmallLetter c = true → (128 ≤ n)%N → (n < 256)%N → capitalOf c ≠ ascii_of_N n.
Proof.
  intros [H _]%capitalOf_code Hn Hn' E. rewrite E, N_ascii_embedding in H; lia.
Qed.

(** A plain character of the lower case comes from itself or from its
    capital. *)
Lemma lower_ascii_plain_inv (c x : ascii) :
  plainChar x = true → Js.lower_ascii c = x →
  c = x ∨ (isSmallLetter x = true ∧ c = capitalOf x).
Proof.
  intros Hx. unfold Js.lower_ascii.
  destruct (_ && _)%N eqn:B; [| by left].
  apply andb_true_iff in B as [?%N.leb_le ?%N.leb_le].
  intros <-. right. unfold isSmallLetter, capitalOf.
  rewrite N_ascii_embedding by lia. split.
  - apply andb_true_iff. split; apply N.leb_le; lia.
  - replace (N_of_ascii c + 32 - 32)%N with (N_of_ascii c) by lia.
    by rewrite ascii_N_embedding.
Qed.

Lemma plainPattern_cons (x : ascii) (p : string) :
  plainPattern (String x p) = true → plainChar x = true ∧ plainPattern p = true.
Proof.
  destruct p; cbn [plainPattern]; rewrite andb_true_iff; [| done].
  by intros [? _].
Qed.

Lemma mentions_nil (message : string) : Mentions "" message.
Proof. exists "", "", message. split; [reflexivity | constructor]. Qed.

Lemma mentions_cons (c : ascii) (p message : string) :
  Mentions p message → Mentions p (String c message).
Proof.
  intros (before & text & after & -> & H). by exists (String c before), text, after.
Qed.

(** From the lower case back to the message. *)
Lemma lowered_prefix (m l : string) :
  Lowered m l → ∀ p after, plainPattern p = true → l = p +:+ after →
  ∃ text rest, m = text +:+ rest ∧ ReadsAs text p.
Proof.
  induction 1 as [|s l H IH|s l H IH|c s l Hk Hd H IH]; intros p after Hp E.
  - destruct p; [| discriminate]. exists "", "". split; [reflexivity | constructor].
  - destruct p as [|x p]; [exists ""; eexists; split; [reflexivity | constructor] |].
    rewrite append_cons in E. injection E as <- E.
    apply plainPattern_cons in Hp as [_ Hp].
    destruct (IH _ _ Hp E) as (text & rest & -> & Hr).
    exists (String "226" (String "132" (String "170" text))), rest.
    split; [reflexivity | by constructor].
  - destruct p as [|x [|y p]]; [exists ""; eexists; split; [reflexivity | constructor] | ..].
    + rewrite append_cons in E. injection E as <- E. discriminate Hp.
    + rewrite !append_cons in E. injection E as <- <- E.
      apply plainPattern_cons in Hp as [_ [Hp _]%plainPattern_cons]. discriminate Hp.
  - destruct p as [|x p]; [exists ""; eexists; split; [reflexivity | constructor] |].
    rewrite append_cons in E. injection E as Ex E.
    apply plainPattern_cons in Hp as [Hx Hp].
    destruct (IH _ _ Hp E) as (text & rest & -> & Hr).
    destruct (lower_ascii_plain_inv _ _ Hx Ex) as [-> | [Hs ->]].
    + exists (String x text), rest. split; [reflexivity | by constructor].
    + exists (String (capitalOf x) text), rest. split; [reflexivity | by constructor].
Qed.

Lemma lowered_occurs (m l : string) :
  Lowered m l → ∀ p, plainPattern p = true → Occurs p l → Mentions p m.
Proof.
  induction 1 as [|s l H IH|s l H IH|c s l Hk Hd H IH]; intros p Hp (before & after & E).
  - destruct before, p; try discriminate. apply mentions_nil.
  - destruct before as [|b before].
    + rewrite append_nil_l in E.
      destruct (lowered_prefix _ _ (lowered_kelvin _ _ H) _ _ Hp E) as (text & rest & -> & Hr).
      by exists "", text, rest.
    + rewrite append_cons in E. injection E as _ E.
      do 3 apply mentions_cons. apply IH; [done |]. by exists before, after.
  - destruct before as [|b before].
    + rewrite append_nil_l in E.
      destruct (lowered_prefix _ _ (lowered_dotted _ _ H) _ _ Hp E) as (text & rest & -> & Hr).
      by exists "", text, rest.
    + rewrite append_cons in E. injection E as _ E.
      assert (∀ x q rest, plainPattern q = true → (128 ≤ x)%N → (x < 256)%N →
                String (ascii_of_N x) rest = q +:+ after → q = "") as Hno.
      { intros x [|y q] rest Hq Hx Hx' Eq; [done |].
        rewrite append_cons in Eq. injection Eq as Ey _.
        apply plainPattern_cons in Hq as [Hy _].
        by destruct (plain_not_lead y x Hy Hx Hx'). }
      destruct before as [|b1 before].
      { rewrite append_nil_l in E.
        rewrite (Hno 204%N p _ Hp ltac:(lia) ltac:(lia) E). apply mentions_nil. }
      rewrite append_cons in E. injection E as _ E.
      destruct before as [|b2 before].
      { rewrite append_nil_l in E.
        rewrite (Hno 135%N p _ Hp ltac:(lia) ltac:(lia) E). apply mentions_nil. }
      rewrite append_cons in E. injection E as _ E.
      do 2 apply mentions_cons. apply IH; [done |]. by exists before, after.
  - destruct before as [|b before].
    + rewrite append_nil_l in E.
      destruct (lowered_prefix _ _ (lowered_char _ _ _ Hk Hd H) _ _ Hp E) as (text & rest & -> & Hr).
      by exists "", text, rest.
    + rewrite append_cons in E. injection E as _ E.
      apply mentions_cons. apply IH; [done |]. by exists before, after.
Qed.

(** From the message to its lower case. *)
Lemma readsAs_head (t : ascii) (text p : string) :
  ReadsAs (String t text) p → plainPattern p = true →
  ∀ n, (128 ≤ n)%N → (n < 256)%N → n ≠ 226%N → t ≠ ascii_of_N n.
Proof.
  inversion 1 as [|c text' p' Hr|c text' p' Hs Hr|text' p' Hr]; subst;
    intros Hp n Hn Hn' Hne.
  - apply plainPattern_cons in Hp as [Hc _]. by apply plain_not_lead.
  - by apply capitalOf_not_lead.
  - intros E. apply (f_equal N_of_ascii) in E.
    rewrite N_ascii_embedding in E by lia. apply Hne. rewrite <- E. reflexivity.
Qed.

Lemma lowered_reads (text p : string) :
  ReadsAs text p → plainPattern p = true →
  ∀ after l, Lowered (text +:+ after) l → ∃ rest, l = p +:+ rest.
Proof.
  induction 1 as [|c text p Hr IH|c text p Hs Hr IH|text p Hr IH]; intros Hp after l HL.
  - by exists l.
  - apply plainPattern_cons in Hp as [Hc Hp].
    rewrite append_cons in HL.
    inversion HL as [|s l' H|s l' H|c' s l' Hk Hd H]; subst.
    + by destruct (plain_not_lead _ 226 Hc ltac:(lia) ltac:(lia)).
    + by destruct (plain_not_lead _ 196 Hc ltac:(lia) ltac:(lia)).
    + destruct (IH Hp _ _ H) as [rest ->]. exists rest.
      by rewrite append_cons, lower_ascii_plain.
  - apply plainPattern_cons in Hp as [Hc Hp].
    rewrite append_cons in HL.
    inversion HL as [|s l' H E|s l' H E|c' s l' Hk Hd H]; subst.
    + by destruct (capitalOf_not_lead c 226 Hs ltac:(lia) ltac:(lia)).
    + by destruct (capitalOf_not_lead c 196 Hs ltac:(lia) ltac:(lia)).
    + destruct (IH Hp _ _ H) as [rest ->]. exists rest.
      by rewrite append_cons, lower_ascii_capitalOf.
  - apply plainPattern_cons in Hp as [Hc Hp].
    rewrite !append_cons in HL.
    inversion HL as [|s l' H|s l' H|c' s l' Hk Hd H]; subst.
    + destruct (IH Hp _ _ H) as [rest ->]. by exists rest.
    + by destruct (Hk (text +:+ after)).
Qed.

Lemma readsAs_nil (text : string) : ReadsAs text "" → text = "".
Proof. by inversion 1. Qed.

Lemma occurs_cons (c : ascii) (p l : string) : Occurs p l → Occurs p (String c l).
Proof. intros (before & after & ->). by exists (String c before), after. Qed.

Lemma occurs_nil (l : string) : Occurs "" l.
Proof. by exists "", l. Qed.

Lemma mentions_lowered (m l : string) :
  Lowered m l → ∀ p, plainPattern p = true → Mentions p m → Occurs p l.
Proof.
  intros HL p Hp (before & text & after & E & Hr).
  destruct text as [|t text].
  { inversion Hr; subst. apply occurs_nil. }
  revert before E.
  induction HL as [|s l H IH|s l H IH|c s l Hk Hd H IH]; intros before E.
  - destruct before; discriminate.
  - pose proof (readsAs_head _ _ _ Hr Hp) as Ht.
    destruct before as [|b before].
    + rewrite append_nil_l in E.
      destruct (lowered_reads _ _ Hr Hp after _ (eq_ind _ (λ x, Lowered x _) (lowered_kelvin _ _ H) _ E))
        as [rest ->]. by exists "", rest.
    + rewrite append_cons in E. injection E as _ E.
      destruct before as [|b1 before].
      { rewrite append_nil_l, append_cons in E. injection E as E _.
        by destruct (Ht 132%N ltac:(lia) ltac:(lia) ltac:(lia)). }
      rewrite append_cons in E. injection E as _ E.
      destruct before as [|b2 before].
      { rewrite append_nil_l, append_cons in E. injection E as E _.
        by destruct (Ht 170%N ltac:(lia) ltac:(lia) ltac:(lia)). }
      rewrite append_cons in E. injection E as _ E.
      apply occurs_cons. by apply (IH before).
  - pose proof (readsAs_head _ _ _ Hr Hp) as Ht.
    destruct before as [|b before].
    + rewrite append_nil_l, append_cons in E. injection E as E _.
      by destruct (Ht 196%N ltac:(lia) ltac:(lia) ltac:(lia)).
    + rewrite append_cons in E. injection E as _ E.
      destruct before as [|b1 before].
      { rewrite append_nil_l, append_cons in E. injection E as E _.
        by destruct (Ht 176%N ltac:(lia) ltac:(lia) ltac:(lia)). }
      rewrite append_cons in E. injection E as _ E.
      do 3 apply occurs_cons. by apply (IH before).
  - destruct before as [|b before].
    + rewrite append_nil_l in E.
      destruct (lowered_reads _ _ Hr Hp after _ (eq_ind _ (λ x, Lowered x _) (lowered_char _ _ _ Hk Hd H) _ E))
        as [rest ->]. by exists "", rest.
    + rewrite append_cons in E. injection E as _ E.
      apply occurs_cons. by apply (IH before).
Qed.

(** Looking for a plain pattern in the lower-cased message finds it exactly
    when the message mentions it. *)
Lemma includes_lowered (message p : string) :
  plainPattern p = true →
  Js.includes (Js.toLowerCase message) p = true ↔ Mentions p message.
Proof.
  intros Hp. rewrite includes_spec. split.
  - by apply (lowered_occurs _ _ (toLowerCase_lowered message)).
  - by apply (mentions_lowered _ _ (toLowerCase_lowered message)).
Qed.

Lemma mentions_inside (p message before after : string) :
  Mentions p message → Mentions p (before +:+ message +:+ after).
Proof.
  intros (b & text & a & -> & H). exists (before +:+ b), text, (a +:+ after).
  by rewrite !append_assoc.
Qed.

End Strings.

(** ** The error classifier *)

Section Classifier.
Import ErrorHandling.








(** The classifier on sample messages: upper case is folded, also the
    Kelvin sign, and a message that matches several rows gets the first. *)
Example classifyError_samples :
  je_type (classifyError (Js.ErrorObj "HTTP 429 Too Many Requests" None)) = RATE_LIMIT ∧
  classifyError (Js.Other ("NETWOR" +:+ kelvinSign +:+ " unreachable")) =
    mkJobError NETWORK_ERROR ("NETWOR" +:+ kelvinSign +:+ " unreachable") true (Some 10000) ∧
  je_type (classifyError (Js.Other "Request timeout after Rate Limit")) = RATE_LIMIT ∧
  je_type (classifyError (Js.Other "Invalid response: network timeout")) = VALIDATION_ERROR ∧
  je_type (classifyError (Js.Other "403 Forbidden")) = API_ERROR ∧
  je_type (classifyError (Js.Other "connect ECONNREFUSED 127.0.0.1:6379")) = NETWORK_ERROR ∧
  je_type (classifyError (Js.Other "Judge rejected the analysis")) = JUDGE_REJECTION ∧
  je_type (classifyError (Js.Other "something else")) = UNKNOWN.
Proof. vm_compute. repeat split. Qed.

End Classifier.

(** ** Retry admission, backoff and the retry wrapper *)

Section Retry.
Import ErrorHandling.

Lemma shouldRetry_true (error : JobError) (attemptNumber maxAttempts : Z) :
  shouldRetry error attemptNumber maxAttempts = true ↔
  je_retryable error = true ∧ attemptNumber < maxAttempts.
Proof.
  unfold shouldRetry. destruct (je_retryable error); simpl.
  - destruct (Z.geb_spec attemptNumber maxAttempts); split; intros; try done; lia.
  - split; [done | intros [? _]; done].
Qed.

(** The kinds the classifier marks as not retryable. *)
Lemma classifyError_not_retryable (error : Js.value) :
  je_retryable (classifyError error) = false ↔
  je_type (classifyError error) = VALIDATION_ERROR ∨
  je_type (classifyError error) = API_ERROR.
Proof.
  unfold classifyError.
  repeat match goal with |- context [if ?b then _ else _] => destruct b end;
    simpl; split; intros; try done; try (by left); try (by right);
    match goal with H : _ ∨ _ |- _ => destruct H; discriminate end.
Qed.

Context {St T : Type}.
Variable fn : St → outcome T * St.
Variable maxAttempts : Z.
Variable context : option string.

Lemma withRetry_loop_calls (attempts : list Z) (lastError : option JobError) (s : St) :
  (length (run_calls (withRetry_loop fn maxAttempts context attempts lastError s))
   ≤ length attempts)%nat.
Proof.
  revert lastError s. induction attempts as [|attempt rest IH]; intros lastError s; simpl.
  - lia.
  - destruct (fn s) as [[v|e] s']; simpl; [lia |].
    destruct (shouldRetry (classifyError e) attempt maxAttempts); simpl; [| lia].
    specialize (IH (Some (classifyError e)) s'). lia.
Qed.

Lemma withRetry_loop_fail_fast (attempts : list Z) (lastError : option JobError) (s : St)
  (i : nat) (e : Js.value) :
  run_calls (withRetry_loop fn maxAttempts context attempts lastError s) !! i
    = Some (Rejected e) →
  je_retryable (classifyError e) = false →
  length (run_calls (withRetry_loop fn maxAttempts context attempts lastError s)) = S i ∧
  run_result (withRetry_loop fn maxAttempts context attempts lastError s)
    = inr (formatErrorMessage e context).
Proof.
  revert lastError s i.
  induction attempts as [|attempt rest IH]; intros lastError s i; simpl.
  - done.
  - destruct (fn s) as [[v|e'] s']; simpl.
    + destruct i; simpl; [done | by rewrite lookup_nil].
    + destruct (shouldRetry (classifyError e') attempt maxAttempts) eqn:Hretry; simpl.
      * destruct i as [|i]; simpl.
        -- intros [= ->] Hno. apply shouldRetry_true in Hretry as [Hyes _]. congruence.
        -- intros Hi Hno. destruct (IH _ _ _ Hi Hno) as [Hlen Hres]. by rewrite Hlen, Hres.
      * destruct i as [|i]; simpl; [| by rewrite lookup_nil].
        by intros [= ->] _.
Qed.

(** C6. The retry wrapper fails fast on a classification that is not
    retryable (which is VALIDATION_ERROR or API_ERROR): the invocation that
    raised it is the last one and the run ends with that error; the wrapped
    function is invoked at most [maxAttempts] times, so at most 3 times with
    the default; and the retry-admission function denies a retry whenever
    [attempt >= maxAttempts], also for a retryable kind. *)
Theorem withRetry_policy (s : St) :
  let r := withRetry fn maxAttempts context s in
  (∀ (i : nat) (e : Js.value),
     run_calls r !! i = Some (Rejected e) →
     je_type (classifyError e) = VALIDATION_ERROR ∨ je_type (classifyError e) = API_ERROR →
     length (run_calls r) = S i ∧
     run_result r = inr (formatErrorMessage e context)) ∧
  (length (run_calls r) ≤ Z.to_nat maxAttempts)%nat ∧
  (maxAttempts = defaultMaxAttempts → (length (run_calls r) ≤ 3)%nat) ∧
  (∀ (error : JobError) (attempt : Z),
     maxAttempts ≤ attempt → shouldRetry error attempt maxAttempts = false).
Proof.
  intros r. subst r. unfold withRetry.
  pose proof (withRetry_loop_calls (seqZ 1 maxAttempts) None s) as Hcalls.
  rewrite length_seqZ in Hcalls.
  repeat split.
  - eapply withRetry_loop_fail_fast; [done |]. by apply classifyError_not_retryable.
  - eapply withRetry_loop_fail_fast; [done |]. by apply classifyError_not_retryable.
  - done.
  - intros Heq. replace (Z.to_nat maxAttempts) with 3%nat in Hcalls; [exact Hcalls |].
    by rewrite Heq.
  - intros error attempt Hge.
    destruct (shouldRetry error attempt maxAttempts) eqn:H; [| done].
    apply shouldRetry_true in H. lia.
Qed.

End Retry.

(** A run of the wrapper around a function that first times out and then
    meets an authorisation error: two invocations, one pause of 10 s, and
    the second error surfaces although an attempt is left. *)
Example withRetry_sample :
  let fn (n : nat) :=
    match n with
    | O => (ErrorHandling.Rejected (T:=Z) (Js.Other "socket timeout"), 1%nat)
    | _ => (ErrorHandling.Rejected (Js.Other "401 Unauthorized"), Datatypes.S n)
    end in
  let r := ErrorHandling.withRetry fn 3 (Some "AI API call") 0%nat in
  length (ErrorHandling.run_calls r) = 2%nat ∧
  ErrorHandling.run_result r = inr "AI API call: 401 Unauthorized" ∧
  ErrorHandling.run_pauses r = [Js.numberOfZ 10000].
Proof. vm_compute. repeat split. Qed.

Section Backoff.
Import ErrorHandling.

Lemma digits2_pos_size (p : positive) : digits2_pos p = Pos.size p.
Proof. induction p; simpl; congruence. Qed.

Lemma digits2_pos_bounds (p : positive) :
  2 ^ (Z.pos (digits2_pos p) - 1) ≤ Z.pos p < 2 ^ Z.pos (digits2_pos p).
Proof.
  induction p as [p IH|p IH|]; cbn [digits2_pos].
  - rewrite Pos2Z.inj_succ, Pos2Z.inj_xI.
    replace (Z.succ (Z.pos (digits2_pos p)) - 1) with (Z.succ (Z.pos (digits2_pos p) - 1)) by lia.
    rewrite !Z.pow_succ_r by lia. lia.
  - rewrite Pos2Z.inj_succ. change (Z.pos p~0) with (2 * Z.pos p).
    replace (Z.succ (Z.pos (digits2_pos p)) - 1) with (Z.succ (Z.pos (digits2_pos p) - 1)) by lia.
    rewrite !Z.pow_succ_r by lia. lia.
  - by vm_compute.
Qed.

Lemma iter_xO (j m : positive) : Z.pos (Pos.iter xO m j) = Z.pos m * 2 ^ Z.pos j.
Proof.
  induction j as [|j IH] using Pos.peano_ind.
  - cbn [Pos.iter]. change (Z.pos m~0) with (2 * Z.pos m). lia.
  - rewrite Pos.iter_succ, Pos2Z.inj_succ, Z.pow_succ_r by lia.
    change (Z.pos (Pos.iter xO m j)~0) with (2 * Z.pos (Pos.iter xO m j)). lia.
Qed.

Lemma digits2_iter_xO (j m : positive) :
  digits2_pos (Pos.iter xO m j) = (digits2_pos m + j)%positive.
Proof.
  induction j as [|j IH] using Pos.peano_ind.
  - cbn. lia.
  - rewrite Pos.iter_succ. cbn [digits2_pos]. rewrite IH. lia.
Qed.

(** Rounding a mantissa of 53 digits changes nothing. *)
Lemma binary_round_aux_normal (s : bool) (m : positive) (e : Z) :
  digits2_pos m = 53%positive → -1074 ≤ e →
  binary_round_aux 53 1024 s (Z.pos m) e loc_Exact
  = if e <=? 971 then S754_finite s m e else S754_infinity s.
Proof.
  intros Hm He. unfold binary_round_aux, shr_fexp. cbn [Zdigits2 shr_record_of_loc].
  rewrite Hm.
  assert (fexp 53 1024 (53 + e) - e = 0) as ->.
  { unfold fexp, emin. lia. }
  cbn [shr shr_m loc_of_shr_record round_nearest_even Zdigits2]. rewrite Hm.
  assert (fexp 53 1024 (53 + e) - e = 0) as ->.
  { unfold fexp, emin. lia. }
  cbn [shr shr_m]. reflexivity.
Qed.

(** A product with the mantissa of a power of two: the 52 low bits are zero
    and shifting them out is exact. *)
Lemma binary_round_aux_shift (s : bool) (m : positive) (e : Z) :
  digits2_pos m = 53%positive → -1074 ≤ e + 52 →
  binary_round_aux 53 1024 s (Z.pos (m * 4503599627370496)) e loc_Exact
  = if e + 52 <=? 971 then S754_finite s m (e + 52) else S754_infinity s.
Proof.
  intros Hm He. rewrite Pos.mul_comm.
  change (4503599627370496 * m)%positive with (Pos.iter xO m 52).
  unfold binary_round_aux, shr_fexp. cbn [Zdigits2 shr_record_of_loc].
  rewrite digits2_iter_xO, Hm.
  assert (fexp 53 1024 (Z.pos (53 + 52) + e) - e = 52) as ->.
  { unfold fexp, emin. lia. }
  assert (shr {| shr_m := Z.pos (Pos.iter xO m 52); shr_r := false; shr_s := false |} e 52
          = ({| shr_m := Z.pos m; shr_r := false; shr_s := false |}, e + 52)) as ->
    by reflexivity.
  cbn [shr_m loc_of_shr_record round_nearest_even Zdigits2].
  rewrite Hm.
  assert (fexp 53 1024 (53 + (e + 52)) - (e + 52) = 0) as ->.
  { unfold fexp, emin. lia. }
  cbn [shr shr_m]. reflexivity.
Qed.

(** The double of a positive integer below [2^53]: the integer itself, with
    its mantissa shifted to 53 digits. *)
Definition normalMantissa (d : positive) : positive :=
  match (Z.pos (digits2_pos d) - 53)%Z with
  | Z.neg j => Pos.iter xO d j
  | _ => d
  end.

Lemma normalMantissa_digits (d : positive) :
  Z.pos d < 2 ^ 53 → digits2_pos (normalMantissa d) = 53%positive.
Proof.
  intros Hd. pose proof (digits2_pos_bounds d) as [Hlo _].
  assert (Z.pos (digits2_pos d) ≤ 53) as Hn.
  { destruct (Z.le_gt_cases (Z.pos (digits2_pos d)) 53) as [|Hgt]; [done |].
    assert (2 ^ 53 ≤ 2 ^ (Z.pos (digits2_pos d) - 1)) by (apply Z.pow_le_mono_r; lia). lia. }
  unfold normalMantissa. destruct (Z.pos (digits2_pos d) - 53) as [|j|j] eqn:E; try lia.
  rewrite digits2_iter_xO. lia.
Qed.

Lemma normalMantissa_value (d : positive) :
  Z.pos d < 2 ^ 53 →
  Z.pos (normalMantissa d) = Z.pos d * 2 ^ (53 - Z.pos (digits2_pos d)).
Proof.
  intros Hd. pose proof (digits2_pos_bounds d) as [Hlo _].
  assert (Z.pos (digits2_pos d) ≤ 53) as Hn.
  { destruct (Z.le_gt_cases (Z.pos (digits2_pos d)) 53) as [|Hgt]; [done |].
    assert (2 ^ 53 ≤ 2 ^ (Z.pos (digits2_pos d) - 1)) by (apply Z.pow_le_mono_r; lia). lia. }
  unfold normalMantissa. destruct (Z.pos (digits2_pos d) - 53) as [|j|j] eqn:E; try lia.
  - replace (53 - Z.pos (digits2_pos d)) with 0 by lia. lia.
  - rewrite iter_xO. f_equal. f_equal. lia.
Qed.

Lemma numberOfZ_pos (d : positive) :
  Z.pos d < 2 ^ 53 →
  Js.numberOfZ (Z.pos d)
  = S754_finite false (normalMantissa d) (Z.pos (digits2_pos d) - 53).
Proof.
  intros Hd. pose proof (normalMantissa_digits d Hd) as Hm.
  pose proof (digits2_pos_bounds d) as [Hlo _].
  assert (Z.pos (digits2_pos d) ≤ 53) as Hn.
  { destruct (Z.le_gt_cases (Z.pos (digits2_pos d)) 53) as [|Hgt]; [done |].
    assert (2 ^ 53 ≤ 2 ^ (Z.pos (digits2_pos d) - 1)) by (apply Z.pow_le_mono_r; lia). lia. }
  unfold Js.numberOfZ, binary_normalize, binary_round, shl_align.
  assert (fexp 53 1024 (Z.pos (digits2_pos d) + 0) = Z.pos (digits2_pos d) - 53) as ->.
  { unfold fexp, emin. lia. }
  rewrite Z.sub_0_r. unfold normalMantissa in *.
  destruct (Z.pos (digits2_pos d) - 53) as [|j|j] eqn:E; try lia.
  - rewrite binary_round_aux_normal by (done || lia). reflexivity.
  - rewrite binary_round_aux_normal by (done || lia).
    destruct (Z.neg j <=? 971) eqn:L; [done | apply Z.leb_gt in L; lia].
Qed.

Lemma pow2_normal (k : Z) :
  -1022 ≤ k →
  Js.pow2 k = if k <=? 1023 then S754_finite false 4503599627370496 (k - 52)
              else S754_infinity false.
Proof.
  intros Hk. unfold Js.pow2, binary_normalize, binary_round, shl_align.
  cbn [digits2_pos].
  assert (fexp 53 1024 (1 + k) = k - 52) as ->.
  { unfold fexp, emin. lia. }
  replace (k - 52 - k) with (-52) by lia. cbn [Pos.iter].
  rewrite binary_round_aux_normal by (reflexivity || lia).
  destruct (k <=? 1023) eqn:A, (k - 52 <=? 971) eqn:B; try reflexivity;
    apply Z.leb_le in A || apply Z.leb_gt in A; apply Z.leb_le in B || apply Z.leb_gt in B; lia.
Qed.

(** The product of a positive integer below [2^53] and a power of two. *)
Lemma times_pow2 (d : positive) (k : Z) :
  Z.pos d < 2 ^ 53 → -1022 ≤ k →
  Js.times (Js.numberOfZ (Z.pos d)) (Js.pow2 k)
  = if Z.pos (digits2_pos d) + k <=? 1024
    then S754_finite false (normalMantissa d) (Z.pos (digits2_pos d) + k - 53)
    else S754_infinity false.
Proof.
  intros Hd Hk. rewrite numberOfZ_pos, pow2_normal by done.
  pose proof (normalMantissa_digits d Hd) as Hm.
  assert (1 ≤ Z.pos (digits2_pos d)) by lia.
  destruct (k <=? 1023) eqn:A.
  - apply Z.leb_le in A. unfold Js.times, SFmul. cbn [xorb].
    rewrite binary_round_aux_shift by (done || lia).
    replace (Z.pos (digits2_pos d) - 53 + (k - 52) + 52) with (Z.pos (digits2_pos d) + k - 53) by lia.
    destruct (_ + k - 53 <=? 971) eqn:B, (_ + k <=? 1024) eqn:C; try reflexivity;
      apply Z.leb_le in C || apply Z.leb_gt in C; apply Z.leb_le in B || apply Z.leb_gt in B; lia.
  - apply Z.leb_gt in A. unfold Js.times, SFmul. cbn [xorb].
    destruct (_ + k <=? 1024) eqn:C; [apply Z.leb_le in C; lia | reflexivity].
Qed.

Lemma digits2_pos_le_53 (d : positive) : Z.pos d < 2 ^ 53 → Z.pos (digits2_pos d) ≤ 53.
Proof.
  intros Hd. pose proof (digits2_pos_bounds d) as [Hlo _].
  destruct (Z.le_gt_cases (Z.pos (digits2_pos d)) 53) as [|Hgt]; [done |].
  assert (2 ^ 53 ≤ 2 ^ (Z.pos (digits2_pos d) - 1)) by (apply Z.pow_le_mono_r; lia). lia.
Qed.

Lemma Qpower_2_nonneg (n : Z) : 0 ≤ n → (Qpower 2 n == inject_Z (2 ^ n))%Q.
Proof.
  intros Hn. change (2%Q) with (inject_Z 2).
  symmetry. apply Zpower_Qpower. done.
Qed.

Lemma exactly_eq (x : Js.number) (q q' : Q) : (q == q')%Q → Exactly x q → Exactly x q'.
Proof. intros E. destruct x; cbn [Exactly]; try done; intros H; by rewrite <- E. Qed.

(** The product is exact below [2^1024] and infinite from there on. *)
Lemma times_pow2_exact (d k : Z) :
  0 < d < 2 ^ 53 → -1022 ≤ k →
  (k < 0 ∨ d * 2 ^ k < 2 ^ 1024 →
     Exactly (Js.times (Js.numberOfZ d) (Js.pow2 k)) (inject_Z d * Qpower 2 k)) ∧
  (0 ≤ k → 2 ^ 1024 ≤ d * 2 ^ k →
     Js.times (Js.numberOfZ d) (Js.pow2 k) = Js.infinity).
Proof.
  intros [Hd0 Hd] Hk. destruct d as [|d|d]; try lia.
  rewrite times_pow2 by done.
  pose proof (digits2_pos_bounds d) as [Hlo Hhi].
  pose proof (digits2_pos_le_53 d Hd) as Hn.
  set (n := Z.pos (digits2_pos d)) in *.
  split.
  - intros Hsmall.
    assert (n + k ≤ 1024) as Hle.
    { destruct Hsmall as [? | Hlt]; [lia |].
      destruct (Z.le_gt_cases (n + k) 1024) as [|Hgt]; [done |].
      destruct (Z.lt_ge_cases k 0) as [|Hk0]; [lia |].
      assert (2 ^ 1024 ≤ 2 ^ (n - 1 + k)) as Hp by (apply Z.pow_le_mono_r; lia).
      rewrite Z.pow_add_r in Hp by lia.
      assert (2 ^ (n - 1) * 2 ^ k ≤ Z.pos d * 2 ^ k)
        by (apply Z.mul_le_mono_nonneg_r; [apply Z.pow_nonneg |]; lia).
      lia. }
    destruct (n + k <=? 1024) eqn:E; [| apply Z.leb_gt in E; lia].
    cbn [Exactly]. rewrite normalMantissa_value by done. fold n.
    rewrite inject_Z_mult, <- Qpower_2_nonneg by lia.
    rewrite <- Qmult_assoc. apply Qmult_comp; [reflexivity |].
    rewrite <- Qpower_plus by done. by replace (53 - n + (n + k - 53)) with k by lia.
  - intros Hk0 Hbig.
    destruct (n + k <=? 1024) eqn:E; [| reflexivity].
    apply Z.leb_le in E.
    assert (2 ^ (n + k) ≤ 2 ^ 1024) as Hp by (apply Z.pow_le_mono_r; lia).
    rewrite Z.pow_add_r in Hp by lia.
    assert (Z.pos d * 2 ^ k < 2 ^ n * 2 ^ k)
      by (apply Z.mul_lt_mono_pos_r; [apply Z.pow_pos_nonneg |]; lia).
    lia.
Qed.

(** C7 (as amended). The backoff is [d × 2^(attempt-1)], where [d] is the
    delay the error itself carries when it carries a non-zero one, and
    [baseDelay] otherwise. For a whole number [d] of milliseconds below
    [2^53] and an attempt number from -1021 on, the double that the code
    returns has exactly this value as long as the product is below [2^1024];
    from there on the code returns [Infinity]. An error without a delay of
    its own, with [baseDelay = 5000] and [attempt = 3], gives exactly
    20000. *)
Theorem calculateRetryDelay_backoff (error : JobError) (attempt baseDelay : Z) :
  let d := initialDelay error baseDelay in
  0 < d < 2 ^ 53 → -1021 ≤ attempt →
  (je_retryDelay error = None ∨ je_retryDelay error = Some 0 → d = baseDelay) ∧
  (∀ d', je_retryDelay error = Some d' → d' ≠ 0 → d = d') ∧
  (attempt < 1 ∨ d * 2 ^ (attempt - 1) < 2 ^ 1024 →
     Exactly (calculateRetryDelay error attempt baseDelay)
             (inject_Z d * Qpower 2 (attempt - 1))) ∧
  (1 ≤ attempt → 2 ^ 1024 ≤ d * 2 ^ (attempt - 1) →
     calculateRetryDelay error attempt baseDelay = Js.infinity) ∧
  (je_retryDelay error = None →
     calculateRetryDelay error 3 5000 = Js.numberOfZ 20000 ∧
     Exactly (calculateRetryDelay error 3 5000) 20000).
Proof.
  intros d Hd Ha.
  destruct (times_pow2_exact d (attempt - 1) Hd ltac:(lia)) as [Hexact Hinf].
  subst d. unfold calculateRetryDelay. split; [| split; [| split; [| split]]].
  - unfold initialDelay. intros [-> | ->]; reflexivity.
  - unfold initialDelay. intros d' -> Hd'. destruct (Z.eqb_spec d' 0); [done | reflexivity].
  - intros [H | H]; apply Hexact; [left; lia | by right].
  - intros H1 H2. apply Hinf; [lia | done].
  - unfold initialDelay. intros ->. split; [reflexivity |]. vm_compute. reflexivity.
Qed.

(** The backoff of an error that timed out, at the second attempt and with a
    base delay of 5 s: 20 s, the delay of the network kind doubled once. *)
Lemma calculateRetryDelay_backoff_witness :
  let error := classifyError (Js.Other "socket timeout") in
  Exactly (calculateRetryDelay error 2 5000) (inject_Z 10000 * Qpower 2 (2 - 1)).
Proof.
  intros error.
  refine (proj1 (proj2 (proj2 (calculateRetryDelay_backoff error 2 5000 _ _))) _).
  - vm_compute. split; reflexivity.
  - lia.
  - right. vm_compute. reflexivity.
Defined.

(** C7, the claim as stated fails. For a rate-limit error, which carries its
    own delay of 60 s, [baseDelay = 5000] and [attempt = 3] give 240000, not
    [5000 × 2^2 = 20000]; and at attempt 1100 the code returns [Infinity],
    which is not the value of [5000 × 2^1099]. *)
Lemma calculateRetryDelay_ignores_baseDelay :
  let error := classifyError (Js.Other "429 Too Many Requests") in
  let unknown := classifyError (Js.Other "something else") in
  calculateRetryDelay error 3 5000 = Js.numberOfZ 240000 ∧
  Exactly (calculateRetryDelay error 3 5000) 240000 ∧
  ¬ Exactly (calculateRetryDelay error 3 5000) (inject_Z 5000 * Qpower 2 (3 - 1)) ∧
  calculateRetryDelay unknown 1100 5000 = Js.infinity ∧
  ¬ Exactly (calculateRetryDelay unknown 1100 5000) (inject_Z 5000 * Qpower 2 (1100 - 1)).
Proof.
  vm_compute. repeat split; try reflexivity.
  - discriminate.
  - intros [].
Qed.

End Backoff.

(** ** The job status tracker *)

Section Tracker.
Import JobStatus.

Lemma updateJobStatus_found (w : World) (jobId : string) (row : JobStatusRow)
  (status : option JobStatusType) (progress : option Z) (errorMessage : option string) :
  jobStatus w !! jobId = Some row →
  updateJobStatus jobId status progress errorMessage w =
    let row' := Prisma.jobStatus_apply
                  (Prisma.mkJobStatusData status progress errorMessage (Some (now w))) row in
    (Ok row', set_jobStatus (insert jobId row') w).
Proof.
  intros H. unfold updateJobStatus, bind, get, Prisma.jobStatus_update. by rewrite H.
Qed.

Lemma updateJobStatus_missing (w : World) (jobId : string)
  (status : option JobStatusType) (progress : option Z) (errorMessage : option string) :
  jobStatus w !! jobId = None →
  updateJobStatus jobId status progress errorMessage w = (Throw (Prisma.recordNotFound w), w).
Proof.
  intros H. unfold updateJobStatus, bind, get, Prisma.jobStatus_update. by rewrite H.
Qed.

(** C8. On a tracked job, [updateJobProgress] stores the progress clamped to
    [0,100] and leaves the status as it is; [markJobCompleted] sets the
    status to completed and the progress to 100; [markJobFailed] sets the
    status to failed and stores the message. No other job's row changes. *)
Theorem tracker_writes (w : World) (jobId : string) (row : JobStatusRow)
  (progress : Z) (message : string) :
  jobStatus w !! jobId = Some row →
  (∃ row' w',
     updateJobProgress jobId progress w = (Ok row', w') ∧
     jobStatus w' !! jobId = Some row' ∧
     js_progress row' = Z.min 100 (Z.max 0 progress) ∧
     0 ≤ js_progress row' ≤ 100 ∧
     (progress < 0 → js_progress row' = 0) ∧
     (0 ≤ progress ≤ 100 → js_progress row' = progress) ∧
     (100 < progress → js_progress row' = 100) ∧
     js_status row' = js_status row ∧
     ∀ other, other ≠ jobId → jobStatus w' !! other = jobStatus w !! other) ∧
  (∃ row' w',
     markJobCompleted jobId w = (Ok row', w') ∧
     jobStatus w' !! jobId = Some row' ∧
     js_status row' = completed ∧
     js_progress row' = 100 ∧
     ∀ other, other ≠ jobId → jobStatus w' !! other = jobStatus w !! other) ∧
  (∃ row' w',
     markJobFailed jobId message w = (Ok row', w') ∧
     jobStatus w' !! jobId = Some row' ∧
     js_status row' = failed ∧
     js_errorMessage row' = Some message ∧
     ∀ other, other ≠ jobId → jobStatus w' !! other = jobStatus w !! other).
Proof.
  intros Hrow. unfold updateJobProgress, markJobCompleted, markJobFailed.
  rewrite !(updateJobStatus_found _ _ row) by done. cbn zeta.
  repeat split; eexists _, _; (split; [reflexivity |]); simpl;
    rewrite lookup_insert_eq; repeat split; try lia;
    intros; by rewrite lookup_insert_ne.
Qed.

Lemma tracker_writes_witness :
  ∃ row' w',
    updateJobProgress "judge-c0-1" 150
      (set_jobStatus (insert "judge-c0-1" sampleJobStatus) emptyWorld) = (Ok row', w') ∧
    js_progress row' = 100 ∧ js_status row' = active.
Proof.
  assert (jobStatus (set_jobStatus (insert "judge-c0-1" sampleJobStatus) emptyWorld)
            !! "judge-c0-1" = Some sampleJobStatus) as Hrow by (vm_compute; reflexivity).
  destruct (tracker_writes _ "judge-c0-1" sampleJobStatus 150 "" Hrow)
    as [(row' & w' & Hrun & _ & Hp & _ & _ & _ & _ & Hs & _) _].
  exists row', w'. repeat split; [exact Hrun | exact Hp | exact Hs].
Defined.

(** The two inputs of the specification: 150 is stored as 100, -10 as 0. *)
Example updateJobProgress_clamps :
  let w := set_jobStatus (insert "judge-c0-1" sampleJobStatus) emptyWorld in
  (js_progress <$> jobStatus (snd (updateJobProgress "judge-c0-1" 150 w)) !! "judge-c0-1")
    = Some 100 ∧
  (js_progress <$> jobStatus (snd (updateJobProgress "judge-c0-1" (-10) w)) !! "judge-c0-1")
    = Some 0 ∧
  (js_status <$> jobStatus (snd (updateJobProgress "judge-c0-1" 150 w)) !! "judge-c0-1")
    = Some active.
Proof. vm_compute. repeat split. Qed.

End Tracker.

(** ** Executing worker bodies *)

Section Execution.
Import JobStatus.

Lemma stockAnalysis_update_found (w : World) (id : string) (row : StockAnalysisRow)
  (data : Prisma.StockAnalysisData) :
  stockAnalysis w !! id = Some row →
  Prisma.stockAnalysis_update id data w =
    (Ok (Prisma.stockAnalysis_apply data row),
     set_stockAnalysis (insert id (Prisma.stockAnalysis_apply data row)) w).
Proof. intros H. unfold Prisma.stockAnalysis_update. by rewrite H. Qed.

Lemma stockAnalysis_update_missing (w : World) (id : string)
  (data : Prisma.StockAnalysisData) :
  stockAnalysis w !! id = None →
  Prisma.stockAnalysis_update id data w = (Throw (Prisma.recordNotFound w), w).
Proof. intros H. unfold Prisma.stockAnalysis_update. by rewrite H. Qed.

End Execution.

Ltac world_simpl :=
  cbn [jobStatus stockAnalysis stock subSector sectorAnalysis stockAnalysisQueue
       judgeReviewQueue formatInsightsQueue added now idSupply callSites
       set_jobStatus set_stockAnalysis set_stock set_subSector set_stockAnalysisQueue
       set_judgeReviewQueue set_formatInsightsQueue set_added set_idSupply
       set_sectorAnalysis] in *.

(** One database call of a worker body whose row is known to be there. *)
Ltac run_found :=
  world_simpl;
  match goal with
  | |- context [JobStatus.updateJobStatus ?j ?s ?p ?e ?w] =>
      erewrite (updateJobStatus_found w j _ s p e)
        by (world_simpl; first [eassumption | apply lookup_insert_eq])
  | |- context [Prisma.stockAnalysis_update ?i ?d ?w] =>
      erewrite (stockAnalysis_update_found w i _ d)
        by (world_simpl; first [eassumption | apply lookup_insert_eq])
  end;
  cbv beta iota zeta.

(** One database call whose row is known to be missing. *)
Ltac run_missing :=
  world_simpl;
  match goal with
  | |- context [JobStatus.updateJobStatus ?j ?s ?p ?e ?w] =>
      rewrite (updateJobStatus_missing w j s p e) by (world_simpl; assumption)
  | |- context [Prisma.stockAnalysis_update ?i ?d ?w] =>
      rewrite (stockAnalysis_update_missing w i d) by (world_simpl; assumption)
  end;
  cbv beta iota zeta.

Ltac run_add :=
  unfold Queue.formatInsightsQueue_add, Queue.stockAnalysisQueue_add,
         Queue.judgeReviewQueue_add, ret, throw;
  cbv beta iota zeta.

Lemma world_eq (w1 w2 : World) :
  jobStatus w1 = jobStatus w2 →
  stockAnalysis w1 = stockAnalysis w2 →
  stock w1 = stock w2 →
  subSector w1 = subSector w2 →
  sectorAnalysis w1 = sectorAnalysis w2 →
  stockAnalysisQueue w1 = stockAnalysisQueue w2 →
  judgeReviewQueue w1 = judgeReviewQueue w2 →
  formatInsightsQueue w1 = formatInsightsQueue w2 →
  added w1 = added w2 →
  now w1 = now w2 →
  idSupply w1 = idSupply w2 →
  callSites w1 = callSites w2 →
  w1 = w2.
Proof. destruct w1, w2. simpl. by intros -> -> -> -> -> -> -> -> -> -> -> ->. Qed.

(** Two worlds are equal when their tables, queues and counters are. *)
Ltac settle_world :=
  apply world_eq; world_simpl; rewrite ?insert_insert_eq; try reflexivity.

Ltac unfold_worker :=
  unfold Workers.processJudgeReview, Workers.processStockAnalysis,
         Workers.processFormatInsights, try_catch, bind,
         JobStatus.markJobActive, JobStatus.updateJobProgress,
         JobStatus.markJobCompleted, JobStatus.markJobFailed;
  cbv beta iota zeta.

Section JudgeReview.
Import JobStatus Workers.

(** The branches of the judge-review worker. On a job whose JobStatus row
    and StockAnalysis row exist, an execution of the worker takes exactly
    one of three branches. Approved: one [add] to the
    format-insights queue. Rejected below the ceiling of 3: one [add] to the
    stock-analysis queue, for the same stock and analysis, with
    [attemptNumber + 1], a delay of 5000 ms and the job id
    [stock-<analysisId>-attempt-<attemptNumber + 1>]. Rejected at or above
    the ceiling: no [add], and the StockAnalysis becomes review_failed with
    a reason that cites the exhausted retries. In each branch the worker
    returns normally and the judge job's JobStatus ends completed. *)
Theorem processJudgeReview_branches (w : World) (job : Job JudgeReviewJobData)
  (mockApproved : bool) (row : JobStatusRow) (sa : StockAnalysisRow) :
  jobStatus w !! job_id job = Some row →
  stockAnalysis w !! jrjd_stockAnalysisId (job_data job) = Some sa →
  let stockAnalysisId := jrjd_stockAnalysisId (job_data job) in
  let companyName := jrjd_companyName (job_data job) in
  let attemptNumber := jrjd_attemptNumber (job_data job) in
  let review := mockJudgeReview mockApproved companyName in
  ∃ (result : JudgeReviewResult) (w' : World) (row' : JobStatusRow) (sa' : StockAnalysisRow),
    processJudgeReview mockApproved job w = (Ok result, w') ∧
    jobStatus w' !! job_id job = Some row' ∧
    js_status row' = completed ∧
    js_progress row' = 100 ∧
    stockAnalysis w' !! stockAnalysisId = Some sa' ∧
    sa_judgeReview sa' = review ∧
    ((mockApproved = true ∧
      result = Approved ("format-" +:+ stockAnalysisId) ∧
      added w' = added w ++
        [AddFormatInsights
           (Queue.newJob "format-insights"
              (mkFormatInsightsJobData stockAnalysisId (jrjd_rawAnalysis (job_data job))
                                       review companyName)
              ("format-" +:+ stockAnalysisId) None None)] ∧
      sa_status sa' = sa_status sa)
     ∨
     (mockApproved = false ∧ attemptNumber < 3 ∧
      result = RetryQueued ("stock-" +:+ stockAnalysisId +:+ "-attempt-" +:+
                            Js.show (attemptNumber + 1)) ∧
      added w' = added w ++
        [AddStockAnalysis
           (Queue.newJob "stock-analysis-retry"
              (mkStockAnalysisJobData (jrjd_stockId (job_data job)) stockAnalysisId
                 companyName (Some companyName) "Unknown" (attemptNumber + 1))
              ("stock-" +:+ stockAnalysisId +:+ "-attempt-" +:+ Js.show (attemptNumber + 1))
              None (Some 5000))] ∧
      sa_status sa' = sa_status sa)
     ∨
     (mockApproved = false ∧ 3 ≤ attemptNumber ∧
      result = MaxRetriesExceeded ∧
      added w' = added w ∧
      sa_status sa' = "review_failed" ∧
      sa_failureReason sa' = Some ("Judge rejected after 3 attempts: " +:+ review))).
Proof.
  intros Hrow Hsa stockAnalysisId companyName attemptNumber review.
  destruct mockApproved; [| destruct (Z.ltb_spec attemptNumber 3) as [Hlt | Hge]].
  - eexists _, _, _, _. split.
    { unfold_worker. do 5 run_found. run_add. run_found. reflexivity. }
    world_simpl. rewrite !lookup_insert_eq.
    repeat split. left. repeat split.
  - eexists _, _, _, _. split.
    { unfold_worker. do 4 run_found.
      fold attemptNumber. unfold MAX_RETRY_ATTEMPTS.
      destruct (Z.ltb_spec attemptNumber 3); [| lia].
      run_found. run_add. run_found. reflexivity. }
    world_simpl. rewrite !lookup_insert_eq.
    repeat split. right. left. repeat split. done.
  - eexists _, _, _, _. split.
    { unfold_worker. do 4 run_found.
      fold attemptNumber. unfold MAX_RETRY_ATTEMPTS.
      destruct (Z.ltb_spec attemptNumber 3); [lia |].
      run_found. run_found. run_add. reflexivity. }
    world_simpl. rewrite !lookup_insert_eq.
    repeat split. right. right. repeat split. done.
Qed.

End JudgeReview.

(** ** Computations that respect a relation *)

Section Respects.
Context (R : relation World) `{!PreOrder R}.

Lemma respects_ret {A} (a : A) : Respects R (ret a).
Proof. intros w r w' [= <- <-]. reflexivity. Qed.

Lemma respects_throw {A} (e : Js.value) : Respects R (throw (A:=A) e).
Proof. intros w r w' [= <- <-]. reflexivity. Qed.

Lemma respects_throwNew {A} (message : string) : Respects R (throwNew (A:=A) message).
Proof. intros w r w' [= <- <-]. reflexivity. Qed.

Lemma respects_throwTypeError {A} (message : string) :
  Respects R (throwTypeError (A:=A) message).
Proof. intros w r w' [= <- <-]. reflexivity. Qed.

Lemma respects_get : Respects R get.
Proof. intros w r w' [= <- <-]. reflexivity. Qed.

Lemma respects_bind {A B} (m : M A) (k : A → M B) :
  Respects R m → (∀ a, Respects R (k a)) → Respects R (bind m k).
Proof.
  intros Hm Hk w r w'. unfold bind.
  destruct (m w) as [[a|e] w1] eqn:E.
  - intros H. etransitivity; [by eapply Hm | by eapply Hk].
  - intros [= <- <-]. by eapply Hm.
Qed.

Lemma respects_try_catch {A} (m : M A) (handler : Js.value → M A) :
  Respects R m → (∀ e, Respects R (handler e)) → Respects R (try_catch m handler).
Proof.
  intros Hm Hh w r w'. unfold try_catch.
  destruct (m w) as [[a|e] w1] eqn:E.
  - intros [= <- <-]. by eapply Hm.
  - intros H. etransitivity; [by eapply Hm | by eapply Hh].
Qed.

Lemma respects_forOf {A} (xs : list A) (body : A → M unit) :
  (∀ x, Respects R (body x)) → Respects R (forOf xs body).
Proof.
  intros Hbody. induction xs as [|x xs IH]; simpl.
  - apply respects_ret.
  - apply respects_bind; [apply Hbody | intros _; apply IH].
Qed.

Lemma respects_promiseAllFrom {A B} (index : nat) (xs : list A) (body : A → nat → M B) :
  (∀ x i, Respects R (body x i)) → Respects R (promiseAllFrom index xs body).
Proof.
  intros Hbody. revert index. induction xs as [|x xs IH]; intros index; simpl.
  - apply respects_ret.
  - intros w r w'.
    destruct (body x index w) as [[b|e] w1] eqn:E1;
      destruct (promiseAllFrom (S index) xs body w1) as [[bs|e'] w2] eqn:E2;
      simpl; intros [= <- <-];
      (etransitivity; [by eapply Hbody | by eapply IH]).
Qed.

Lemma respects_promiseAll {A B} (xs : list A) (body : A → nat → M B) :
  (∀ x i, Respects R (body x i)) → Respects R (promiseAll xs body).
Proof. apply respects_promiseAllFrom. Qed.

(** The database calls, for a relation that holds across the write. *)
Lemma respects_updateJobStatus jobId status progress errorMessage :
  (∀ f w, R w (set_jobStatus f w)) →
  Respects R (JobStatus.updateJobStatus jobId status progress errorMessage).
Proof.
  intros HR w r w'.
  unfold JobStatus.updateJobStatus, bind, get, Prisma.jobStatus_update.
  destruct (jobStatus w !! jobId); intros [= <- <-]; [apply HR | reflexivity].
Qed.

Lemma respects_stockAnalysis_update id data :
  (∀ f w, R w (set_stockAnalysis f w)) →
  Respects R (Prisma.stockAnalysis_update id data).
Proof.
  intros HR w r w'. unfold Prisma.stockAnalysis_update.
  destruct (stockAnalysis w !! id); intros [= <- <-]; [apply HR | reflexivity].
Qed.

Lemma respects_stockAnalysis_update_row id data :
  (∀ w row, stockAnalysis w !! id = Some row →
            R w (set_stockAnalysis (insert id (Prisma.stockAnalysis_apply data row)) w)) →
  Respects R (Prisma.stockAnalysis_update id data).
Proof.
  intros HR w r w'. unfold Prisma.stockAnalysis_update.
  destruct (stockAnalysis w !! id) eqn:E; intros [= <- <-]; [by apply HR | reflexivity].
Qed.

Lemma respects_stockAnalysis_create stockId status raw review insights attemptCount :
  (∀ f w, R w (set_stockAnalysis f w)) →
  (∀ f w, R w (set_idSupply f w)) →
  Respects R (Prisma.stockAnalysis_create stockId status raw review insights attemptCount).
Proof.
  intros HR1 HR2 w r w'. unfold Prisma.stockAnalysis_create.
  destruct (stock w !! stockId), (Prisma.deepAnalysisOf w stockId),
    (stockAnalysis w !! Prisma.cuid (idSupply w));
    intros [= <- <-]; try reflexivity.
  etransitivity; [apply HR1 | apply HR2].
Qed.

Lemma respects_stock_updateRank id rank :
  (∀ f w, R w (set_stock f w)) →
  Respects R (Prisma.stock_updateRank id rank).
Proof.
  intros HR w r w'. unfold Prisma.stock_updateRank.
  destruct (stock w !! id); intros [= <- <-]; [apply HR | reflexivity].
Qed.

Lemma respects_subSector_updateStatus id status :
  (∀ f w, R w (set_subSector f w)) →
  Respects R (Prisma.subSector_updateStatus id status).
Proof.
  intros HR w r w'. unfold Prisma.subSector_updateStatus.
  destruct (subSector w !! id); intros [= <- <-]; [apply HR | reflexivity].
Qed.

Lemma respects_subSector_updateStatus_row id status :
  (∀ w row, subSector w !! id = Some row →
            R w (set_subSector
                   (insert id (mkSubSectorRow (ss_id row) (ss_sectorAnalysisId row)
                                              (ss_name row) (ss_summary row) status)) w)) →
  Respects R (Prisma.subSector_updateStatus id status).
Proof.
  intros HR w r w'. unfold Prisma.subSector_updateStatus.
  destruct (subSector w !! id) eqn:E; intros [= <- <-]; [by apply HR | reflexivity].
Qed.

Lemma respects_subSector_findName id : Respects R (Prisma.subSector_findName id).
Proof. intros w r w' [= <- <-]. reflexivity. Qed.

Lemma respects_findWithSubSector id : Respects R (Prisma.stockAnalysis_findWithSubSector id).
Proof. intros w r w' [= <- <-]. reflexivity. Qed.

End Respects.

(** ** Job ids *)

Section JobIds.
Import JobStatus Workers.

#[local] Instance addsOnly_preorder (P : AddCall → Prop) : PreOrder (AddsOnly P).
Proof.
  split.
  - intros w. exists []. by rewrite app_nil_r.
  - intros w1 w2 w3 (n1 & H1 & F1) (n2 & H2 & F2). exists (n1 ++ n2). split.
    + by rewrite H2, H1, app_assoc.
    + by apply Forall_app.
Qed.

#[local] Instance keepsUniqueIds_preorder : PreOrder KeepsUniqueIds.
Proof. split; unfold KeepsUniqueIds; [intros w | intros w1 w2 w3]; tauto. Qed.

Lemma queue_add_ids {D} (j : Job D) (q : list (Job D)) :
  NoDup (job_id <$> q) → NoDup (job_id <$> Queue.add j q).
Proof.
  intros Hq. unfold Queue.add, Queue.knows. case_bool_decide as Hin; [done |].
  rewrite fmap_app. apply NoDup_app. repeat split; [done | | apply NoDup_singleton].
  intros x Hx [= ->]%list_elem_of_singleton. done.
Qed.

Lemma addsOnly_stockAnalysisQueue_add (P : AddCall → Prop) name data jobId priority delay :
  P (AddStockAnalysis (Queue.newJob name data jobId priority delay)) →
  Respects (AddsOnly P) (Queue.stockAnalysisQueue_add name data jobId priority delay).
Proof. intros HP w r w' [= <- <-]. eexists [_]. split; [reflexivity | by constructor]. Qed.

Lemma addsOnly_judgeReviewQueue_add (P : AddCall → Prop) name data jobId priority delay :
  P (AddJudgeReview (Queue.newJob name data jobId priority delay)) →
  Respects (AddsOnly P) (Queue.judgeReviewQueue_add name data jobId priority delay).
Proof. intros HP w r w' [= <- <-]. eexists [_]. split; [reflexivity | by constructor]. Qed.

Lemma addsOnly_formatInsightsQueue_add (P : AddCall → Prop) name data jobId priority delay :
  P (AddFormatInsights (Queue.newJob name data jobId priority delay)) →
  Respects (AddsOnly P) (Queue.formatInsightsQueue_add name data jobId priority delay).
Proof. intros HP w r w' [= <- <-]. eexists [_]. split; [reflexivity | by constructor]. Qed.

Lemma keepsUniqueIds_stockAnalysisQueue_add name data jobId priority delay :
  Respects KeepsUniqueIds (Queue.stockAnalysisQueue_add name data jobId priority delay).
Proof.
  intros w r w' [= <- <-] (H1 & H2 & H3). repeat split; world_simpl; try done.
  by apply queue_add_ids.
Qed.

Lemma keepsUniqueIds_judgeReviewQueue_add name data jobId priority delay :
  Respects KeepsUniqueIds (Queue.judgeReviewQueue_add name data jobId priority delay).
Proof.
  intros w r w' [= <- <-] (H1 & H2 & H3). repeat split; world_simpl; try done.
  by apply queue_add_ids.
Qed.

Lemma keepsUniqueIds_formatInsightsQueue_add name data jobId priority delay :
  Respects KeepsUniqueIds (Queue.formatInsightsQueue_add name data jobId priority delay).
Proof.
  intros w r w' [= <- <-] (H1 & H2 & H3). repeat split; world_simpl; try done.
  by apply queue_add_ids.
Qed.

(** Decomposes a worker body along its control structure. *)
Ltac respects :=
  unfold processStockRanking, processStockAnalysis, processJudgeReview,
         processFormatInsights, completionCascade,
         markJobActive, updateJobProgress, markJobCompleted, markJobFailed;
  repeat first
    [ progress cbv beta zeta
    | match goal with |- PreOrder _ => typeclasses eauto end
    | apply respects_subSector_findName | apply respects_findWithSubSector
    | apply respects_updateJobStatus | apply respects_stockAnalysis_update_row
    | apply respects_stockAnalysis_create | apply respects_stock_updateRank
    | apply respects_subSector_updateStatus
    | apply keepsUniqueIds_stockAnalysisQueue_add
    | apply keepsUniqueIds_judgeReviewQueue_add
    | apply keepsUniqueIds_formatInsightsQueue_add
    | apply addsOnly_stockAnalysisQueue_add
    | apply addsOnly_judgeReviewQueue_add
    | apply addsOnly_formatInsightsQueue_add
    | apply respects_try_catch | apply respects_bind | apply respects_ret
    | apply respects_throw | apply respects_throwNew
    | apply respects_throwTypeError | apply respects_get
    | apply respects_forOf | apply respects_promiseAll
    | match goal with |- Respects _ (if ?b then _ else _) => destruct b end
    | match goal with |- Respects _ (match ?x with _ => _ end) => destruct x end
    | match goal with |- ∀ _, _ => intro end ].

Ltac blind_adds :=
  match goal with
  | |- AddsOnly _ ?w _ => exists []; split; [symmetry; apply app_nil_r | constructor]
  end.

Ltac blind_ids :=
  match goal with
  | |- KeepsUniqueIds ?w _ => exact (λ H, H)
  end.

Lemma processStockRanking_adds job : Respects (AddsOnly rankingAdd) (processStockRanking job).
Proof.
  respects; try blind_adds.
  eexists. repeat split.
Qed.

Lemma processStockAnalysis_adds job :
  Respects (AddsOnly (analysisAdd job)) (processStockAnalysis job).
Proof.
  respects; try blind_adds.
  eexists. repeat split.
Qed.

Lemma processJudgeReview_adds mockApproved job :
  Respects (AddsOnly (judgeAdd job)) (processJudgeReview mockApproved job).
Proof.
  respects; try blind_adds.
  - left. eexists. repeat split.
  - right. eexists. repeat split.
Qed.

Lemma processFormatInsights_adds job :
  Respects (AddsOnly (λ _, False)) (processFormatInsights job).
Proof. respects; blind_adds. Qed.

Lemma processStockRanking_ids job : Respects KeepsUniqueIds (processStockRanking job).
Proof. respects; blind_ids. Qed.

Lemma processStockAnalysis_ids job : Respects KeepsUniqueIds (processStockAnalysis job).
Proof. respects; blind_ids. Qed.

Lemma processJudgeReview_ids mockApproved job :
  Respects KeepsUniqueIds (processJudgeReview mockApproved job).
Proof. respects; blind_ids. Qed.

Lemma processFormatInsights_ids job : Respects KeepsUniqueIds (processFormatInsights job).
Proof. respects; blind_ids. Qed.

Lemma jobsWithId_unique {D} (jobId : string) (q : list (Job D)) :
  NoDup (job_id <$> q) → (length (jobsWithId jobId q) ≤ 1)%nat.
Proof.
  unfold jobsWithId. induction q as [|j q IH]; [simpl; lia |].
  rewrite fmap_cons, NoDup_cons. intros [Hj Hq]. rewrite filter_cons.
  case_decide as Hid; [| by apply IH].
  destruct (filter (λ j0 : Job D, job_id j0 = jobId) q) as [|x l] eqn:E; [simpl; lia |].
  exfalso. assert (x ∈ filter (λ j0 : Job D, job_id j0 = jobId) q) as Hx
    by (rewrite E; apply list_elem_of_here).
  apply list_elem_of_filter in Hx as [Hxid Hxq].
  apply Hj. rewrite Hid, <- Hxid. by apply list_elem_of_fmap_2.
Qed.

End JobIds.

(** ** What one execution of a worker changes *)

Section Effects.
Import JobStatus Workers.

Lemma sameAttempts_refl m : SameAttempts m m.
Proof. by intros id. Qed.

Lemma sameAttempts_update (m : gmap string StockAnalysisRow) id row data :
  m !! id = Some row →
  Prisma.sad_attemptCount data = None →
  SameAttempts m (<[id := Prisma.stockAnalysis_apply data row]> m).
Proof.
  intros Hrow Hdata id'. destruct (decide (id = id')) as [<- | Hne].
  - rewrite lookup_insert_eq, Hrow. simpl. by rewrite Hdata.
  - by rewrite lookup_insert_ne.
Qed.

(** An execution of the stock-analysis worker either succeeds, having set
    the attempt counter of its analysis to the job's attempt number and
    added the judge job, or fails, having added nothing and changed no
    attempt counter. *)
Lemma processStockAnalysis_effect (job : Job StockAnalysisJobData) (w : World) r w' :
  processStockAnalysis job w = (r, w') →
  stockAnalysisQueue w' = stockAnalysisQueue w ∧
  formatInsightsQueue w' = formatInsightsQueue w ∧
  ((∃ res sa sa',
      r = Ok res ∧
      stockAnalysis w !! sajd_stockAnalysisId (job_data job) = Some sa ∧
      stockAnalysis w' = <[sajd_stockAnalysisId (job_data job) := sa']> (stockAnalysis w) ∧
      sa_attemptCount sa' = sajd_attemptNumber (job_data job) ∧
      judgeReviewQueue w' = Queue.add (judgeJobOf job) (judgeReviewQueue w))
   ∨
   (∃ e, r = Throw e ∧
      judgeReviewQueue w' = judgeReviewQueue w ∧
      SameAttempts (stockAnalysis w) (stockAnalysis w'))).
Proof.
  destruct (jobStatus w !! job_id job) as [row|] eqn:Hrow;
    destruct (stockAnalysis w !! sajd_stockAnalysisId (job_data job)) as [sa|] eqn:Hsa;
    unfold_worker.
  - do 6 run_found. run_add. run_found. intros [= <- <-]. world_simpl.
    repeat split. left. eexists _, sa, _. repeat split.
    + apply insert_insert_eq.
    + reflexivity.
  - run_found. run_missing. run_missing. intros [= <- <-]. world_simpl.
    repeat split. right. eexists. split; [done |]. split; [done |]. apply sameAttempts_refl.
  - run_missing. run_found. run_missing. intros [= <- <-]. world_simpl.
    repeat split. right. eexists. split; [done |]. split; [done |].
    by apply sameAttempts_update.
  - run_missing. run_missing. intros [= <- <-]. world_simpl.
    repeat split. right. eexists. split; [done |]. split; [done |]. apply sameAttempts_refl.
Qed.

Lemma sameAttempts_insert (m : gmap string StockAnalysisRow) id row row' :
  m !! id = Some row →
  sa_attemptCount row' = sa_attemptCount row →
  SameAttempts m (<[id := row']> m).
Proof.
  intros Hrow Hcount id'. destruct (decide (id = id')) as [<- | Hne].
  - rewrite lookup_insert_eq, Hrow. simpl. by rewrite Hcount.
  - by rewrite lookup_insert_ne.
Qed.

(** An execution of the judge-review worker never touches its own queue nor
    an attempt counter; it adds the format job when it approves, the retry
    job when it rejects below the ceiling, and nothing otherwise. *)
Lemma processJudgeReview_effect (mockApproved : bool) (job : Job JudgeReviewJobData)
  (w : World) r w' :
  processJudgeReview mockApproved job w = (r, w') →
  let stockAnalysisId := jrjd_stockAnalysisId (job_data job) in
  let attemptNumber := jrjd_attemptNumber (job_data job) in
  judgeReviewQueue w' = judgeReviewQueue w ∧
  SameAttempts (stockAnalysis w) (stockAnalysis w') ∧
  ((∃ id, r = Ok (Approved id) ∧ mockApproved = true ∧
      stockAnalysisQueue w' = stockAnalysisQueue w ∧
      formatInsightsQueue w' = Queue.add (formatJobOf job) (formatInsightsQueue w))
   ∨
   (∃ id, r = Ok (RetryQueued id) ∧ mockApproved = false ∧ attemptNumber < 3 ∧
      stockAnalysisQueue w' = Queue.add (retryJobOf job) (stockAnalysisQueue w) ∧
      formatInsightsQueue w' = formatInsightsQueue w)
   ∨
   (r = Ok MaxRetriesExceeded ∧ mockApproved = false ∧ 3 ≤ attemptNumber ∧
      stockAnalysisQueue w' = stockAnalysisQueue w ∧
      formatInsightsQueue w' = formatInsightsQueue w ∧
      ∃ sa', stockAnalysis w' !! stockAnalysisId = Some sa' ∧
             sa_status sa' = "review_failed")
   ∨
   (∃ e, r = Throw e ∧
      stockAnalysisQueue w' = stockAnalysisQueue w ∧
      formatInsightsQueue w' = formatInsightsQueue w)).
Proof.
  intros Hrun stockAnalysisId attemptNumber. revert Hrun.
  destruct (jobStatus w !! job_id job) as [row|] eqn:Hrow;
    [destruct (stockAnalysis w !! jrjd_stockAnalysisId (job_data job)) as [sa|] eqn:Hsa;
     [destruct mockApproved;
      [| destruct (Z.ltb_spec (jrjd_attemptNumber (job_data job)) 3) as [Hlt | Hge]] |] |];
    unfold_worker.
  - do 5 run_found. run_add. run_found. intros [= <- <-]. world_simpl.
    split; [done |]. split; [by eapply sameAttempts_insert |].
    left. by eexists.
  - do 4 run_found. unfold MAX_RETRY_ATTEMPTS.
    destruct (Z.ltb_spec (jrjd_attemptNumber (job_data job)) 3); [| lia].
    run_found. run_add. run_found. intros [= <- <-]. world_simpl.
    split; [done |]. split; [by eapply sameAttempts_insert |].
    right; left. by eexists.
  - do 4 run_found. unfold MAX_RETRY_ATTEMPTS.
    destruct (Z.ltb_spec (jrjd_attemptNumber (job_data job)) 3); [lia |].
    run_found. run_found. run_add. intros [= <- <-]. world_simpl.
    split; [done |]. rewrite insert_insert_eq.
    split; [by eapply sameAttempts_insert |].
    right; right; left. repeat split; try done.
    eexists. rewrite lookup_insert_eq. split; reflexivity.
  - do 3 run_found. run_missing. run_found. run_add. intros [= <- <-]. world_simpl.
    split; [done |]. split; [apply sameAttempts_refl |].
    right; right; right. by eexists.
  - run_missing. run_missing. intros [= <- <-]. world_simpl.
    split; [done |]. split; [apply sameAttempts_refl |].
    right; right; right. by eexists.
Qed.

End Effects.

(** ** The attempt counter along the pipeline *)

Section PipelineInvariant.
Import JobStatus Workers Pipeline.

Section Pending.
Context {D : Type} (analysisOf : D → string) (attemptOf : D → Z).

Abbreviation pending a q := (pendingAttempts analysisOf attemptOf a q).

Lemma pending_nil a : pending a [] = [].
Proof. reflexivity. Qed.

Lemma pending_cons a (j : Job D) q :
  pending a (j :: q) =
    if decide (job_finished j = false ∧ analysisOf (job_data j) = a)
    then attemptOf (job_data j) :: pending a q
    else pending a q.
Proof.
  unfold pendingAttempts. rewrite filter_cons. by case_decide.
Qed.

Lemma pending_app a q1 q2 : pending a (q1 ++ q2) = pending a q1 ++ pending a q2.
Proof. unfold pendingAttempts. by rewrite filter_app, fmap_app. Qed.

Lemma pending_elem a (j : Job D) q :
  j ∈ q → job_finished j = false → analysisOf (job_data j) = a →
  attemptOf (job_data j) ∈ pending a q.
Proof.
  intros Hj Hf Ha. unfold pendingAttempts.
  apply (list_elem_of_fmap_2 (attemptOf ∘ job_data)).
  by apply list_elem_of_filter.
Qed.

(** Settling a job never makes a job pending. *)
Lemma pending_settle_sublist a attempts jobId ok q :
  pending a (settle attempts jobId ok q) `sublist_of` pending a q.
Proof.
  induction q as [|j q IH]; [done |].
  unfold settle in *. rewrite fmap_cons, !pending_cons.
  destruct (decide (job_id j = jobId)) as [Hid | Hid].
  - destruct (decide (job_finished j = false ∧ analysisOf (job_data j) = a)) as [Hold | Hold];
      destruct (decide (job_finished (settleJob attempts ok j) = false ∧
                        analysisOf (job_data (settleJob attempts ok j)) = a))
        as [Hnew | Hnew]; simpl in *.
    + by apply sublist_skip.
    + by apply sublist_cons.
    + exfalso. apply Hold. destruct Hnew as [Hf Ha]. split; [| done].
      by destruct (job_finished j).
    + done.
  - case_decide; [by apply sublist_skip | done].
Qed.

(** Finishing the only pending job of an analysis leaves none. *)
Lemma pending_settle_finished a attempts ok (job : Job D) q :
  job ∈ q → job_finished job = false → analysisOf (job_data job) = a →
  length (pending a q) = 1%nat →
  ok = true ∨ (attempts ≤ 1)%nat →
  pending a (settle attempts (job_id job) ok q) = [].
Proof.
  intros Hjob Hf Ha Hlen Hdone.
  assert (∀ j, j ∈ q → job_finished j = false → analysisOf (job_data j) = a → j = job)
    as Honly.
  { intros j Hj Hjf Hja. unfold pendingAttempts in Hlen. rewrite length_fmap in Hlen.
    destruct (filter (λ j0 : Job D, job_finished j0 = false ∧ analysisOf (job_data j0) = a) q)
      as [|x [|y l]] eqn:E; simpl in Hlen; try lia.
    assert (j ∈ [x]) as Hjx by (rewrite <- E; by apply list_elem_of_filter).
    assert (job ∈ [x]) as Hjobx by (rewrite <- E; by apply list_elem_of_filter).
    apply list_elem_of_singleton in Hjx, Hjobx. congruence. }
  clear Hlen Hjob.
  induction q as [|j q IH]; [done |].
  unfold settle in *. rewrite fmap_cons, pending_cons.
  rewrite IH by (intros; apply Honly; [by apply list_elem_of_further | done..]).
  case_decide as Hp; [| done]. exfalso. destruct Hp as [Hpf Hpa].
  destruct (decide (job_id j = job_id job)) as [Hid | Hid]; simpl in *.
  - destruct (job_finished j); simpl in Hpf; [done |].
    destruct Hdone as [-> | Hle]; simpl in Hpf; [done |].
    rewrite bool_decide_true, orb_true_r in Hpf by lia. done.
  - apply Hid. f_equal. apply Honly; [apply list_elem_of_here | done..].
Qed.

(** Adding a job makes at most that job pending. *)
Lemma pending_add a (j : Job D) q :
  pending a (Queue.add j q) = pending a q ∨
  (analysisOf (job_data j) = a ∧
   pending a (Queue.add j q) = pending a q ++ [attemptOf (job_data j)]).
Proof.
  unfold Queue.add. destruct (Queue.knows q (job_id j)); [by left |].
  rewrite pending_app, pending_cons, pending_nil.
  case_decide as Hp; [right; by destruct Hp | left; by rewrite app_nil_r].
Qed.

Lemma pending_add_other a (j : Job D) q :
  analysisOf (job_data j) ≠ a → pending a (Queue.add j q) = pending a q.
Proof. intros Hne. destruct (pending_add a j q) as [H | [H _]]; done. Qed.

End Pending.

Lemma sublist_singleton (n : Z) (l : list Z) : l `sublist_of` [n] → l = [] ∨ l = [n].
Proof.
  intros H. apply sublist_cons_r in H as [H | (l' & -> & H)].
  - left. by apply sublist_nil_r.
  - right. apply sublist_nil_r in H. by subst.
Qed.

Lemma oneToken_shrink (w w' : World) (a : string) :
  OneToken w a →
  stockAttempts w' a `sublist_of` stockAttempts w a →
  judgeAttempts w' a `sublist_of` judgeAttempts w a →
  sa_attemptCount <$> stockAnalysis w' !! a = sa_attemptCount <$> stockAnalysis w !! a →
  OneToken w' a.
Proof.
  intros [[HS HJ] | [(n & HS & HJ & Hn) | (n & HS & HJ & Hn & Hrow)]] HS' HJ' Hcount;
    rewrite HS in HS'; rewrite HJ in HJ'.
  - apply sublist_nil_r in HS', HJ'. by left.
  - apply sublist_nil_r in HJ'. apply sublist_singleton in HS' as [HS' | HS'].
    + by left.
    + right; left. by exists n.
  - apply sublist_nil_r in HS'. apply sublist_singleton in HJ' as [HJ' | HJ'].
    + by left.
    + right; right. exists n. repeat split; try done.
      intros row' Hrow'. rewrite Hrow' in Hcount. simpl in Hcount.
      destruct (stockAnalysis w !! a) as [row|] eqn:E; [| done].
      simpl in Hcount. injection Hcount as ->. by apply Hrow.
Qed.

Lemma bounded_sameAttempts (m m' : gmap string StockAnalysisRow) :
  SameAttempts m m' → Bounded m → Bounded m'.
Proof.
  intros Hsame Hb id row' Hrow'. specialize (Hsame id). rewrite Hrow' in Hsame.
  destruct (m !! id) as [row|] eqn:E; [| done].
  simpl in Hsame. injection Hsame as ->. by eapply Hb.
Qed.

#[local] Instance keepsAttempts_preorder : PreOrder KeepsAttempts.
Proof.
  split.
  - intros w. by repeat split.
  - intros w1 w2 w3 (H1 & H2 & H3) (H1' & H2' & H3').
    split; [congruence |]. split; [congruence |].
    intros id. by rewrite H3', H3.
Qed.

Lemma processFormatInsights_effect (job : Job FormatInsightsJobData) :
  Respects KeepsAttempts (processFormatInsights job).
Proof.
  unfold processFormatInsights, completionCascade,
         markJobActive, updateJobProgress, markJobCompleted, markJobFailed.
  repeat first
    [ progress cbv beta zeta
    | match goal with |- PreOrder _ => typeclasses eauto end
    | apply respects_findWithSubSector
    | apply respects_updateJobStatus | apply respects_stockAnalysis_update_row
    | apply respects_subSector_updateStatus
    | apply respects_try_catch | apply respects_bind | apply respects_ret
    | apply respects_throw | apply respects_throwNew
    | apply respects_throwTypeError
    | match goal with |- Respects _ (if ?b then _ else _) => destruct b end
    | match goal with |- Respects _ (match ?x with _ => _ end) => destruct x end
    | match goal with |- ∀ _, _ => intro end ];
    (split; [done | split; [done |]]); world_simpl;
    first [apply sameAttempts_refl | by eapply sameAttempts_update].
Qed.

Lemma init_inv (w : World) : Init w → Inv w.
Proof.
  intros (HJ & H1 & Hnd & Hrows). split.
  - intros id row Hrow. rewrite (Hrows _ _ Hrow). lia.
  - intros a. unfold OneToken, stockAttempts, judgeAttempts. rewrite HJ, pending_nil.
    induction (stockAnalysisQueue w) as [|j q IH]; [by left |].
    rewrite fmap_cons, NoDup_cons in Hnd. destruct Hnd as [Hj Hq].
    apply Forall_cons in H1 as [Hj1 Hq1].
    rewrite pending_cons. case_decide as Hp.
    + destruct Hp as [_ Ha]. right; left. exists 1. rewrite Hj1. repeat split; [| lia].
      f_equal. unfold pendingAttempts.
      destruct (filter _ q) as [|x l] eqn:E; [done |]. exfalso.
      assert (x ∈ filter (λ j0 : Job StockAnalysisJobData,
                            job_finished j0 = false ∧ sajd_stockAnalysisId (job_data j0) = a) q)
        as Hx by (rewrite E; apply list_elem_of_here).
      apply list_elem_of_filter in Hx as [[_ Hxa] Hxq].
      apply Hj. simpl. rewrite Ha, <- Hxa.
      by apply (list_elem_of_fmap_2 (sajd_stockAnalysisId ∘ job_data)).
    + by apply IH.
Qed.

Lemma step_inv (w w' : World) : Inv w → step w w' → Inv w'.
Proof.
  intros [Hb Ht] Hstep.
  destruct Hstep as [w job r w1 Hin Hunf Hrun | w job b r w1 Hin Hunf Hrun
                    | w job r w1 Hin Hunf Hrun].
  - (* an execution of the stock-analysis worker *)
    apply processStockAnalysis_effect in Hrun
      as (HqS & HqF & [(res & sa & sa' & -> & Hsa & Hsa' & Hcount & HqJ)
                      | (e & -> & HqJ & Hsame)]).
    + set (a := sajd_stockAnalysisId (job_data job)) in *.
      set (n := sajd_attemptNumber (job_data job)) in *.
      pose proof (pending_elem sajd_stockAnalysisId sajd_attemptNumber a job _
                    Hin Hunf eq_refl) as Hn.
      fold (stockAttempts w a) in Hn. fold n in Hn.
      assert (stockAttempts w a = [n] ∧ judgeAttempts w a = [] ∧ n ≤ 3) as (HS & HJ & Hn3).
      { destruct (Ht a) as [[HS HJ] | [(m & HS & HJ & Hm) | (m & HS & HJ & Hm & _)]];
          rewrite HS in Hn.
        - by apply not_elem_of_nil in Hn.
        - apply list_elem_of_singleton in Hn. by subst.
        - by apply not_elem_of_nil in Hn. }
      split.
      * intros id row. world_simpl. rewrite Hsa'.
        destruct (decide (a = id)) as [<- | Hne].
        -- rewrite lookup_insert_eq. intros [= <-]. by rewrite Hcount.
        -- rewrite lookup_insert_ne by done. apply Hb.
      * intros a'. destruct (decide (a' = a)) as [-> | Hne].
        -- assert (stockAttempts (set_stockAnalysisQueue
                     (settle stockAnalysisAttempts (job_id job) (returned (Ok res))) w1) a = [])
             as HS'.
           { unfold stockAttempts. world_simpl. rewrite HqS.
             apply pending_settle_finished; try done.
             - fold (stockAttempts w a). by rewrite HS.
             - by left. }
           unfold OneToken. rewrite HS'.
           unfold judgeAttempts. world_simpl. rewrite HqJ.
           destruct (pending_add jrjd_stockAnalysisId jrjd_attemptNumber a (judgeJobOf job)
                       (judgeReviewQueue w)) as [-> | [_ ->]];
             fold (judgeAttempts w a); rewrite HJ.
           ++ by left.
           ++ right; right. exists n. repeat split; try done.
              intros row. rewrite Hsa', lookup_insert_eq. intros [= <-]. done.
        -- eapply oneToken_shrink; [apply (Ht a') | | |].
           ++ unfold stockAttempts. world_simpl. rewrite HqS.
              apply pending_settle_sublist.
           ++ unfold judgeAttempts. world_simpl. rewrite HqJ.
              rewrite pending_add_other; [done | done].
           ++ world_simpl. rewrite Hsa'. by rewrite lookup_insert_ne.
    + split.
      * world_simpl. by eapply bounded_sameAttempts.
      * intros a'. eapply oneToken_shrink; [apply (Ht a') | | |].
        -- unfold stockAttempts. world_simpl. rewrite HqS. apply pending_settle_sublist.
        -- unfold judgeAttempts. world_simpl. by rewrite HqJ.
        -- world_simpl. apply Hsame.
  - (* an execution of the judge-review worker *)
    apply processJudgeReview_effect in Hrun as (HqJ & Hsame & Hcases).
    split; [world_simpl; by eapply bounded_sameAttempts |].
    set (a := jrjd_stockAnalysisId (job_data job)) in *.
    set (n := jrjd_attemptNumber (job_data job)) in *.
    pose proof (pending_elem jrjd_stockAnalysisId jrjd_attemptNumber a job _
                  Hin Hunf eq_refl) as Hn.
    fold (judgeAttempts w a) in Hn. fold n in Hn.
    assert (stockAttempts w a = [] ∧ judgeAttempts w a = [n] ∧ n ≤ 3) as (HS & HJ & Hn3).
    { destruct (Ht a) as [[HS HJ] | [(m & HS & HJ & Hm) | (m & HS & HJ & Hm & _)]];
        rewrite HJ in Hn.
      - by apply not_elem_of_nil in Hn.
      - by apply not_elem_of_nil in Hn.
      - apply list_elem_of_singleton in Hn. by subst. }
    assert (∀ a', judgeAttempts (set_judgeReviewQueue
                     (settle judgeReviewAttempts (job_id job) (returned r)) w1) a'
                  `sublist_of` judgeAttempts w a') as HJsub.
    { intros a'. unfold judgeAttempts. world_simpl. rewrite HqJ.
      apply pending_settle_sublist. }
    intros a'.
    destruct Hcases as [(id & -> & _ & HqS & _) | [(id & -> & _ & Hlt & HqS & _)
                       | [(-> & _ & _ & HqS & _) | (e & -> & HqS & _)]]];
      try (eapply oneToken_shrink; [apply (Ht a') | | apply HJsub | world_simpl; apply Hsame];
           unfold stockAttempts; world_simpl; by rewrite HqS).
    destruct (decide (a' = a)) as [-> | Hne].
    + assert (judgeAttempts (set_judgeReviewQueue
                 (settle judgeReviewAttempts (job_id job) (returned (Ok (RetryQueued id)))) w1) a
              = []) as HJ'.
      { unfold judgeAttempts. world_simpl. rewrite HqJ.
        apply pending_settle_finished; try done.
        - fold (judgeAttempts w a). by rewrite HJ.
        - by left. }
      unfold OneToken. rewrite HJ'.
      unfold stockAttempts. world_simpl. rewrite HqS.
      destruct (pending_add sajd_stockAnalysisId sajd_attemptNumber a (retryJobOf job)
                  (stockAnalysisQueue w)) as [-> | [_ ->]];
        fold (stockAttempts w a); rewrite HS.
      * by left.
      * right; left. exists (n + 1). repeat split; try done. fold n in Hlt. simpl. lia.
    + eapply oneToken_shrink; [apply (Ht a') | | apply HJsub | world_simpl; apply Hsame].
      unfold stockAttempts. world_simpl. rewrite HqS.
      rewrite pending_add_other; [done | done].
  - (* an execution of the format-insights worker *)
    apply processFormatInsights_effect in Hrun as (HqS & HqJ & Hsame).
    split; [world_simpl; by eapply bounded_sameAttempts |].
    intros a'. eapply oneToken_shrink; [apply (Ht a') | | |].
    + unfold stockAttempts. world_simpl. by rewrite HqS.
    + unfold judgeAttempts. world_simpl. by rewrite HqJ.
    + world_simpl. apply Hsame.
Qed.

Lemma reachable_inv (w0 w : World) : Init w0 → rtc step w0 w → Inv w.
Proof.
  intros Hinit Hreach. apply init_inv in Hinit.
  induction Hreach as [w | w1 w2 w3 Hstep _ IH]; [done |].
  apply IH. by eapply step_inv.
Qed.

(** C3. Along the pipeline, started where the entry points leave it (first
    attempts only), no StockAnalysis ever has an attempt counter above 3;
    and whenever the judge-review worker takes its max-retries branch, the
    analysis it marks review_failed has its attempt counter at exactly 3. *)
Theorem attemptCount_bounded (w0 w : World) :
  Init w0 → rtc step w0 w →
  (∀ id row, stockAnalysis w !! id = Some row → sa_attemptCount row ≤ 3) ∧
  (∀ (job : Job JudgeReviewJobData) (mockApproved : bool) (w' : World),
     job ∈ judgeReviewQueue w → job_finished job = false →
     processJudgeReview mockApproved job w = (Ok MaxRetriesExceeded, w') →
     ∃ row, stockAnalysis w' !! jrjd_stockAnalysisId (job_data job) = Some row ∧
            sa_status row = "review_failed" ∧
            sa_attemptCount row = 3).
Proof.
  intros Hinit Hreach. destruct (reachable_inv _ _ Hinit Hreach) as [Hb Ht].
  split; [exact Hb |].
  intros job mockApproved w' Hin Hunf Hrun.
  apply processJudgeReview_effect in Hrun as (_ & Hsame & Hcases).
  destruct Hcases as [(id & [=] & _) | [(id & [=] & _)
                     | [(_ & _ & Hge & _ & _ & row' & Hrow' & Hstatus) | (e & [=] & _)]]].
  exists row'. repeat split; try done.
  set (a := jrjd_stockAnalysisId (job_data job)) in *.
  pose proof (pending_elem jrjd_stockAnalysisId jrjd_attemptNumber a job _
                Hin Hunf eq_refl) as Hn.
  fold (judgeAttempts w a) in Hn.
  specialize (Hsame a). rewrite Hrow' in Hsame. simpl in Hsame.
  destruct (stockAnalysis w !! a) as [row|] eqn:Hrow; [| done].
  simpl in Hsame. injection Hsame as Hsame.
  destruct (Ht a) as [[HS HJ] | [(m & HS & HJ & Hm) | (m & HS & HJ & Hm & Hcount)]];
    rewrite HJ in Hn.
  - by apply not_elem_of_nil in Hn.
  - by apply not_elem_of_nil in Hn.
  - apply list_elem_of_singleton in Hn. specialize (Hcount _ Hrow). lia.
Qed.

Lemma sample_init : Init Sample.world.
Proof.
  repeat split.
  - repeat constructor.
  - simpl. apply NoDup_singleton.
  - simpl. intros id row [[_ <-] | [_ H]]%lookup_insert_Some; [done |].
    by rewrite lookup_empty in H.
Qed.

Lemma step_runStockAnalysis (w : World) (job : Job StockAnalysisJobData) :
  job ∈ stockAnalysisQueue w → job_finished job = false →
  step w (runStockAnalysis job w).
Proof.
  intros Hin Hunf. eapply step_stockAnalysis; [done | done |]. apply surjective_pairing.
Qed.

Lemma step_runJudgeReview (w : World) (mockApproved : bool) (job : Job JudgeReviewJobData) :
  job ∈ judgeReviewQueue w → job_finished job = false →
  step w (runJudgeReview mockApproved job w).
Proof.
  intros Hin Hunf. eapply step_judgeReview; [done | done |]. apply surjective_pairing.
Qed.

Lemma sample_reaches_third_verdict : rtc step Sample.world Sample.beforeThirdVerdict.
Proof.
  unfold Sample.beforeThirdVerdict, Sample.afterSecondRejection.
  eapply rtc_l; [apply (step_runStockAnalysis _ Sample.firstJob) |];
    [vm_compute; apply list_elem_of_here | reflexivity |].
  eapply rtc_l; [apply (step_runJudgeReview _ false Sample.judge1) |];
    [vm_compute; apply list_elem_of_here | reflexivity |].
  eapply rtc_l; [apply (step_runStockAnalysis _ Sample.retry2) |];
    [vm_compute; apply list_elem_of_further, list_elem_of_here | reflexivity |].
  eapply rtc_l; [apply (step_runJudgeReview _ false Sample.judge2) |];
    [vm_compute; apply list_elem_of_further, list_elem_of_here | reflexivity |].
  eapply rtc_l; [apply (step_runStockAnalysis _ Sample.retry3) |];
    [vm_compute; do 2 apply list_elem_of_further; apply list_elem_of_here | reflexivity |].
  apply rtc_refl.
Qed.

Lemma pair_of_fst {A B} (p : A * B) (a : A) : fst p = a → p = (a, snd p).
Proof. destruct p. simpl. congruence. Qed.

Lemma attemptCount_bounded_witness :
  ∃ row,
    stockAnalysis (snd (processJudgeReview false Sample.judge3 Sample.beforeThirdVerdict))
      !! "c0" = Some row ∧
    sa_status row = "review_failed" ∧
    sa_attemptCount row = 3.
Proof.
  assert (Sample.judge3 ∈ judgeReviewQueue Sample.beforeThirdVerdict) as Hin
    by (vm_compute; do 2 apply list_elem_of_further; apply list_elem_of_here).
  assert (processJudgeReview false Sample.judge3 Sample.beforeThirdVerdict
          = (Ok MaxRetriesExceeded,
             snd (processJudgeReview false Sample.judge3 Sample.beforeThirdVerdict))) as Hrun.
  { apply pair_of_fst. by vm_compute. }
  exact (proj2 (attemptCount_bounded Sample.world Sample.beforeThirdVerdict
                  sample_init sample_reaches_third_verdict)
               Sample.judge3 false _ Hin eq_refl Hrun).
Defined.

(** The analysis of the sample world, rejected on all three attempts, ends
    review_failed with its attempt counter at 3 and a reason that cites the
    exhausted retries; the third rejection adds no further job. *)
Example rejected_on_all_attempts :
  fst Sample.rejectedThrice = Ok MaxRetriesExceeded ∧
  (sa_status <$> stockAnalysis (snd Sample.rejectedThrice) !! "c0") = Some "review_failed" ∧
  (sa_attemptCount <$> stockAnalysis (snd Sample.rejectedThrice) !! "c0") = Some 3 ∧
  (sa_failureReason <$> stockAnalysis (snd Sample.rejectedThrice) !! "c0") =
    Some (Some ("Judge rejected after 3 attempts: " +:+ mockJudgeReview false "Apple Inc.")) ∧
  (job_id <$> stockAnalysisQueue (snd Sample.rejectedThrice)) =
    ["stock-c0-attempt-1"; "stock-c0-attempt-2"; "stock-c0-attempt-3"] ∧
  (job_id <$> judgeReviewQueue (snd Sample.rejectedThrice)) =
    ["judge-c0-1"; "judge-c0-2"; "judge-c0-3"] ∧
  (js_status <$> jobStatus (snd Sample.rejectedThrice) !! "judge-c0-3") = Some completed.
Proof. vm_compute. repeat split. Qed.

End PipelineInvariant.

(** ** The pipeline's job ids and payloads *)

Section Handover.
Import JobStatus Workers.

Lemma processJudgeReview_branches_witness :
  ∃ (result : JudgeReviewResult) (w' : World),
    processJudgeReview false Sample.judge1 Sample.world = (Ok result, w').
Proof.
  assert (jobStatus Sample.world !! job_id Sample.judge1
          = Some (Sample.tracked "judge-c0-1" judge_review "c0")) as Hrow
    by (vm_compute; reflexivity).
  assert (stockAnalysis Sample.world !! jrjd_stockAnalysisId (job_data Sample.judge1)
          = Some Sample.analysis) as Hsa
    by (vm_compute; reflexivity).
  destruct (processJudgeReview_branches Sample.world Sample.judge1 false _ _ Hrow Hsa)
    as (result & w' & _ & _ & Hrun & _).
  exists result, w'. exact Hrun.
Defined.

(** C4, on the code. The stock-analysis job of the sample world carries the
    ticker AAPL and the sub-sector name Consumer Electronics; the retry job
    the judge-review worker adds after rejecting its analysis carries the
    company name as ticker and the placeholder Unknown as sub-sector name. *)
Theorem retry_payload_not_threaded :
  let w1 := snd (processStockAnalysis Sample.firstJob Sample.world) in
  let w2 := snd (processJudgeReview false Sample.judge1 w1) in
  added w2 = [AddJudgeReview Sample.judge1; AddStockAnalysis Sample.retry2] ∧
  sajd_attemptNumber (job_data Sample.retry2) = 2 ∧
  sajd_ticker (job_data Sample.firstJob) = Some "AAPL" ∧
  sajd_ticker (job_data Sample.retry2) = Some "Apple Inc." ∧
  sajd_subSectorName (job_data Sample.firstJob) = "Consumer Electronics" ∧
  sajd_subSectorName (job_data Sample.retry2) = "Unknown".
Proof. vm_compute. repeat split. Qed.

(** Whatever the job, the retry payload takes its ticker from the company
    name and its sub-sector name from a constant. *)
Lemma retry_payload_shape (job : Job JudgeReviewJobData) :
  sajd_ticker (job_data (retryJobOf job)) = Some (jrjd_companyName (job_data job)) ∧
  sajd_subSectorName (job_data (retryJobOf job)) = "Unknown".
Proof. done. Qed.

Lemma queue_add_idempotent {D} (j : Job D) (q : list (Job D)) :
  Queue.add j (Queue.add j q) = Queue.add j q.
Proof.
  unfold Queue.add. destruct (Queue.knows q (job_id j)) eqn:E.
  - by rewrite E.
  - unfold Queue.knows. rewrite bool_decide_true; [done |].
    rewrite fmap_app. apply elem_of_app. right. simpl. apply list_elem_of_here.
Qed.

(** C10. Every job a worker of the pipeline adds carries an id computed
    from the stage, the StockAnalysis id and, where relevant, the attempt
    number: [stock-<id>-attempt-1] for the first analysis job added by the
    ranking worker, [judge-<id>-<n>] for the judge job of attempt [n],
    [stock-<id>-attempt-<n+1>] for the retry and [format-<id>] for the
    format job. The substrate keeps the ids of a queue distinct across every
    execution, so a queue never holds two jobs with one of these ids, and an
    execution repeated after one that returned adds nothing. *)
Theorem deterministic_job_ids :
  (∀ job, Respects (AddsOnly rankingAdd) (processStockRanking job)) ∧
  (∀ job, Respects (AddsOnly (analysisAdd job)) (processStockAnalysis job)) ∧
  (∀ mockApproved job,
     Respects (AddsOnly (judgeAdd job)) (processJudgeReview mockApproved job)) ∧
  (stockJobId "c0" 1 = "stock-c0-attempt-1" ∧
   judgeJobId "c0" 2 = "judge-c0-2" ∧
   stockJobId "c0" 3 = "stock-c0-attempt-3" ∧
   formatJobId "c0" = "format-c0") ∧
  (∀ job, Respects KeepsUniqueIds (processStockRanking job)) ∧
  (∀ job, Respects KeepsUniqueIds (processStockAnalysis job)) ∧
  (∀ mockApproved job, Respects KeepsUniqueIds (processJudgeReview mockApproved job)) ∧
  (∀ job, Respects KeepsUniqueIds (processFormatInsights job)) ∧
  (∀ w jobId, UniqueIds w →
     (length (jobsWithId jobId (stockAnalysisQueue w)) ≤ 1)%nat ∧
     (length (jobsWithId jobId (judgeReviewQueue w)) ≤ 1)%nat ∧
     (length (jobsWithId jobId (formatInsightsQueue w)) ≤ 1)%nat) ∧
  (∀ job w res1 w1 r2 w2,
     processStockAnalysis job w = (Ok res1, w1) →
     processStockAnalysis job w1 = (r2, w2) →
     judgeReviewQueue w2 = judgeReviewQueue w1) ∧
  (∀ mockApproved job w res1 w1 r2 w2,
     processJudgeReview mockApproved job w = (Ok res1, w1) →
     processJudgeReview mockApproved job w1 = (r2, w2) →
     formatInsightsQueue w2 = formatInsightsQueue w1 ∧
     stockAnalysisQueue w2 = stockAnalysisQueue w1).
Proof.
  split; [exact processStockRanking_adds |].
  split; [exact processStockAnalysis_adds |].
  split; [exact processJudgeReview_adds |].
  split; [by vm_compute |].
  split; [exact processStockRanking_ids |].
  split; [exact processStockAnalysis_ids |].
  split; [exact processJudgeReview_ids |].
  split; [exact processFormatInsights_ids |].
  split; [| split].
  - intros w jobId (H1 & H2 & H3). repeat split; by apply jobsWithId_unique.
  - intros job w res1 w1 r2 w2 Hrun1 Hrun2.
    apply processStockAnalysis_effect in Hrun1
      as (_ & _ & [(? & ? & ? & _ & _ & _ & _ & Hq1) | (e & [=] & _)]).
    apply processStockAnalysis_effect in Hrun2
      as (_ & _ & [(? & ? & ? & _ & _ & _ & _ & Hq2) | (e & _ & Hq2 & _)]); [| done].
    by rewrite Hq2, Hq1, queue_add_idempotent.
  - intros mockApproved job w res1 w1 r2 w2 Hrun1 Hrun2.
    apply processJudgeReview_effect in Hrun1 as (_ & _ & Hc1).
    apply processJudgeReview_effect in Hrun2 as (_ & _ & Hc2).
    destruct Hc1 as [(? & _ & Hb1 & HS1 & HF1) | [(? & _ & Hb1 & _ & HS1 & HF1)
                    | [(_ & Hb1 & Hge1 & HS1 & HF1 & _) | (e & [=] & _)]]];
      destruct Hc2 as [(? & _ & Hb2 & HS2 & HF2) | [(? & _ & Hb2 & Hlt2 & HS2 & HF2)
                      | [(_ & Hb2 & Hge2 & HS2 & HF2 & _) | (e & _ & HS2 & HF2)]]];
      try congruence; try lia; try done.
    + split; [| done]. by rewrite HF2, HF1, queue_add_idempotent.
    + split; [done |]. by rewrite HS2, HS1, queue_add_idempotent.
Qed.

(** The stock-analysis worker of the sample world executed twice: the judge
    queue holds one job, [judge-c0-1]. *)
Example processStockAnalysis_twice :
  let w1 := snd (processStockAnalysis Sample.firstJob Sample.world) in
  let w2 := snd (processStockAnalysis Sample.firstJob w1) in
  job_id <$> judgeReviewQueue w2 = ["judge-c0-1"] ∧
  length (added w2) = 2%nat.
Proof. vm_compute. repeat split. Qed.

End Handover.

(** ** The completion cascade *)

Section Cascade.
Import JobStatus Workers.

#[local] Instance byRank_transitive : Transitive byRank.
Proof. unfold byRank. intros a b c. lia. Qed.

#[local] Instance byRank_total : Total byRank.
Proof. unfold byRank. intros a b. lia. Qed.

Lemma stocksOf_ext (w1 w2 : World) (subSectorId : string) :
  stock w1 = stock w2 → stockAnalysis w1 = stockAnalysis w2 →
  Prisma.stocksOf w1 subSectorId = Prisma.stocksOf w2 subSectorId.
Proof.
  intros Hst Hsa. unfold Prisma.stocksOf, Prisma.deepAnalysisOf. by rewrite Hst, Hsa.
Qed.

(** The test of the worker: every stock of rank at most 5 is analysed. *)
Lemma allCompleted_spec (stocks : list Prisma.StockWithAnalysis) :
  allCompleted stocks = true ↔
  ∀ s, s ∈ stocks → rankOf s ≤ 5 → analysisCompleted s = true.
Proof.
  unfold allCompleted, topStocks.
  rewrite <- Is_true_true, forallb_True, Forall_forall.
  setoid_rewrite merge_sort_Permutation. setoid_rewrite list_elem_of_filter.
  setoid_rewrite Is_true_true. firstorder.
Qed.

Lemma seqZ_sorted (m n : Z) : StronglySorted Z.le (seqZ m n).
Proof.
  destruct (Z.le_gt_cases n 0) as [Hn | Hn]; [rewrite seqZ_nil by done; constructor |].
  rewrite <- (Z2Nat.id n) by lia. generalize (Z.to_nat n) as k. clear. intros k. revert m.
  induction k as [|k IH]; intros m; [rewrite seqZ_nil by done; constructor |].
  rewrite seqZ_cons by lia. constructor.
  - replace (Z.pred (Z.of_nat (S k))) with (Z.of_nat k) by lia. apply IH.
  - apply Forall_seqZ. intros. lia.
Qed.

Lemma ranked_sorted (stocks : list Prisma.StockWithAnalysis) :
  RankedOneToN stocks →
  rankOf <$> merge_sort byRank stocks = seqZ 1 (Z.of_nat (length stocks)).
Proof.
  intros Hranked. apply (StronglySorted_unique Z.le).
  - apply (StronglySorted_fmap _ byRank); [done |].
    apply StronglySorted_merge_sort; apply _.
  - apply seqZ_sorted.
  - by rewrite merge_sort_Permutation.
Qed.

Lemma filter_all {A} (P : A → Prop) `{∀ x, Decision (P x)} (l : list A) :
  Forall P l → filter P l = l.
Proof.
  induction 1 as [|x l Hx _ IH]; [done |]. by rewrite filter_cons_True, IH.
Qed.

(** With the ranks 1..N the stocks of rank at most 5 are the top 5. *)
Lemma top5_ranked (stocks : list Prisma.StockWithAnalysis) (s : Prisma.StockWithAnalysis) :
  RankedOneToN stocks →
  s ∈ top5OfSpec stocks ↔ s ∈ stocks ∧ rankOf s ≤ 5.
Proof.
  intros Hranked. unfold top5OfSpec.
  assert (filter (λ s, 1 ≤ rankOf s) stocks = stocks) as ->.
  { apply filter_all. apply Forall_forall. intros x Hx.
    assert (rankOf x ∈ seqZ 1 (Z.of_nat (length stocks))) as Hr
      by (unfold RankedOneToN in Hranked; rewrite <- Hranked; by apply list_elem_of_fmap_2).
    apply elem_of_seqZ in Hr. lia. }
  pose proof (ranked_sorted stocks Hranked) as Hsorted.
  assert (∀ i x, merge_sort byRank stocks !! i = Some x → rankOf x = 1 + Z.of_nat i) as Hrank.
  { intros i x Hi.
    assert ((rankOf <$> merge_sort byRank stocks) !! i = Some (rankOf x)) as Hi'
      by (by rewrite list_lookup_fmap, Hi).
    rewrite Hsorted in Hi'. by apply lookup_seqZ in Hi' as [-> _]. }
  rewrite elem_of_take. split.
  - intros (i & Hi & Hlt). split.
    + rewrite <- (merge_sort_Permutation byRank). by eapply list_elem_of_lookup_2.
    + rewrite (Hrank _ _ Hi). lia.
  - intros [Hin Hle]. rewrite <- (merge_sort_Permutation byRank) in Hin.
    apply list_elem_of_lookup_1 in Hin as [i Hi]. exists i. split; [done |].
    rewrite (Hrank _ _ Hi) in Hle. lia.
Qed.

Lemma analysisCompleted_spec (s : Prisma.StockWithAnalysis) :
  analysisCompleted s = true ↔
  ∃ a, Prisma.swa_deepAnalysis s = Some a ∧ sa_status a = "completed".
Proof.
  unfold analysisCompleted. destruct (Prisma.swa_deepAnalysis s) as [a|].
  - rewrite String.eqb_eq. split.
    + intros H. by exists a.
    + by intros (a' & [= <-] & H).
  - split; [done | by intros (a' & [=] & _)].
Qed.

Import Pipeline.

#[local] Instance reworks_preorder (a : string) : PreOrder (Reworks a).
Proof.
  split.
  - intros w. repeat split. destruct (stockAnalysis w !! a); [by split; [| left] | done].
  - intros w1 w2 w3 (Hs & Hss & Ho & Ha) (Hs' & Hss' & Ho' & Ha').
    split; [congruence |]. split; [congruence |].
    split; [intros k Hk; by rewrite Ho', Ho |].
    destruct (stockAnalysis w1 !! a), (stockAnalysis w2 !! a), (stockAnalysis w3 !! a);
      try done.
    destruct Ha as [E H], Ha' as [E' H']. split; [congruence |].
    destruct H' as [H' | H']; [rewrite H'; exact H | tauto].
Qed.

Lemma reworks_frame (a : string) (w w' : World) :
  stock w' = stock w → subSector w' = subSector w → stockAnalysis w' = stockAnalysis w →
  Reworks a w w'.
Proof.
  intros Hs Hss Ha. repeat split; [done | done | by rewrite Ha |].
  rewrite Ha. destruct (stockAnalysis w !! a); [by split; [| left] | done].
Qed.

Lemma reworks_update (a : string) (w : World) (row : StockAnalysisRow)
  (data : Prisma.StockAnalysisData) :
  stockAnalysis w !! a = Some row →
  Prisma.sad_status data = None ∨ Prisma.sad_status data = Some "analyzing" ∨
  Prisma.sad_status data = Some "review_failed" →
  Reworks a w (set_stockAnalysis (insert a (Prisma.stockAnalysis_apply data row)) w).
Proof.
  intros Hrow Hdata. repeat split; world_simpl; [by intros k Hk; rewrite lookup_insert_ne |].
  rewrite Hrow, lookup_insert_eq. split; [reflexivity |]. simpl.
  destruct Hdata as [-> | [-> | ->]]; simpl; tauto.
Qed.

Lemma respects_judgeReviewQueue_add (R : relation World) `{!PreOrder R}
  name data jobId priority delay :
  (∀ f g w, R w (set_added f (set_judgeReviewQueue g w))) →
  Respects R (Queue.judgeReviewQueue_add name data jobId priority delay).
Proof. intros HR w r w' [= <- <-]. apply HR. Qed.

Lemma respects_stockAnalysisQueue_add (R : relation World) `{!PreOrder R}
  name data jobId priority delay :
  (∀ f g w, R w (set_added f (set_stockAnalysisQueue g w))) →
  Respects R (Queue.stockAnalysisQueue_add name data jobId priority delay).
Proof. intros HR w r w' [= <- <-]. apply HR. Qed.

Lemma respects_formatInsightsQueue_add (R : relation World) `{!PreOrder R}
  name data jobId priority delay :
  (∀ f g w, R w (set_added f (set_formatInsightsQueue g w))) →
  Respects R (Queue.formatInsightsQueue_add name data jobId priority delay).
Proof. intros HR w r w' [= <- <-]. apply HR. Qed.

Ltac reworks :=
  unfold processStockAnalysis, processJudgeReview,
         markJobActive, updateJobProgress, markJobCompleted, markJobFailed;
  repeat first
    [ progress cbv beta zeta
    | match goal with |- PreOrder _ => typeclasses eauto end
    | apply respects_updateJobStatus | apply respects_stockAnalysis_update_row
    | apply respects_judgeReviewQueue_add | apply respects_stockAnalysisQueue_add
    | apply respects_formatInsightsQueue_add
    | apply respects_try_catch | apply respects_bind | apply respects_ret
    | apply respects_throw | apply respects_throwNew | apply respects_throwTypeError
    | match goal with |- Respects _ (if ?b then _ else _) => destruct b end
    | match goal with |- Respects _ (match ?x with _ => _ end) => destruct x end
    | match goal with |- ∀ _, _ => intro end ];
  first [ by apply reworks_frame
        | apply reworks_update; [assumption | simpl; tauto] ].

Lemma processStockAnalysis_reworks (job : Job StockAnalysisJobData) :
  Respects (Reworks (sajd_stockAnalysisId (job_data job))) (processStockAnalysis job).
Proof. reworks. Qed.

Lemma processJudgeReview_reworks (mockApproved : bool) (job : Job JudgeReviewJobData) :
  Respects (Reworks (jrjd_stockAnalysisId (job_data job)))
           (processJudgeReview mockApproved job).
Proof. reworks. Qed.

(** The executions of the format-insights worker, case by case. *)
Lemma processFormatInsights_cases (job : Job FormatInsightsJobData) (w : World) r w1 :
  let a := fijd_stockAnalysisId (job_data job) in
  processFormatInsights job w = (r, w1) →
  SubSectorKeyed w →
  stock w1 = stock w ∧
  stockAnalysisQueue w1 = stockAnalysisQueue w ∧
  judgeReviewQueue w1 = judgeReviewQueue w ∧
  formatInsightsQueue w1 = formatInsightsQueue w ∧
  (∀ k, k ≠ a → stockAnalysis w1 !! k = stockAnalysis w !! k) ∧
  ((∃ e, r = Throw e ∧ Reworks a w w1 ∧
          (jobStatus w !! job_id job = None ∨ stockAnalysis w !! a = None ∨
           ∃ row, stockAnalysis w !! a = Some row ∧ stock w !! sa_stockId row = None))
   ∨
   (∃ row st,
      r = Ok (mkFormatInsightsResult a (mockInsights (fijd_companyName (job_data job)))) ∧
      is_Some (jobStatus w !! job_id job) ∧
      stockAnalysis w !! a = Some row ∧
      stockAnalysis w1 !! a
        = Some (Prisma.stockAnalysis_apply
                  (Prisma.mkStockAnalysisData (Some "completed") None None
                     (Some (Insights (mockInsights (fijd_companyName (job_data job)))))
                     None None) row) ∧
      stock w !! sa_stockId row = Some st ∧
      match subSector w !! st_subSectorId st with
      | None => subSector w1 = subSector w
      | Some ss =>
          subSector w1 =
            if allCompleted (Prisma.stocksOf w1 (st_subSectorId st))
            then <[st_subSectorId st :=
                     mkSubSectorRow (ss_id ss) (ss_sectorAnalysisId ss) (ss_name ss)
                                    (ss_summary ss) "completed"]> (subSector w)
            else subSector w
      end)).
Proof.
  intros a Hrun Hkeyed. subst a. revert Hrun.
  destruct (jobStatus w !! job_id job) as [tracked|] eqn:Hrow;
    destruct (stockAnalysis w !! fijd_stockAnalysisId (job_data job)) as [sa|] eqn:Hsa;
    unfold_worker.
  - do 5 run_found.
    unfold completionCascade, bind, Prisma.stockAnalysis_findWithSubSector,
           Prisma.subSectorWithStocks.
    world_simpl. rewrite lookup_insert_eq.
    cbn [fmap option_fmap option_map Prisma.stockAnalysis_apply sa_stockId].
    destruct (stock w !! sa_stockId sa) as [st|] eqn:Hst;
      cbn [fmap option_fmap option_map].
    + destruct (subSector w !! st_subSectorId st) as [ss|] eqn:Hss;
        cbn [fmap option_fmap option_map Prisma.sws_stocks Prisma.sws_subSector].
      * match goal with
        | |- context [allCompleted (Prisma.stocksOf ?wc ?k)] =>
            set (stocks := Prisma.stocksOf wc k);
            assert (∀ w2, stock w2 = stock w →
                          stockAnalysis w2 = stockAnalysis wc →
                          Prisma.stocksOf w2 (st_subSectorId st) = stocks) as Hstocks
              by (intros w2 H1 H2; by apply stocksOf_ext)
        end.
        destruct (allCompleted stocks) eqn:Hall.
        -- unfold Prisma.subSector_updateStatus. world_simpl.
           rewrite (Hkeyed _ _ Hss), Hss.
           run_add. run_found. intros [= <- <-]. world_simpl.
           repeat split; [by intros k Hk; rewrite lookup_insert_ne |].
           right. exists sa, st. rewrite lookup_insert_eq, Hss, Hstocks, Hall by done.
           repeat split; by eauto.
        -- run_add. run_found. intros [= <- <-]. world_simpl.
           repeat split; [by intros k Hk; rewrite lookup_insert_ne |].
           right. exists sa, st. rewrite lookup_insert_eq, Hss, Hstocks, Hall by done.
           repeat split; by eauto.
      * run_add. run_found. intros [= <- <-]. world_simpl.
        repeat split; [by intros k Hk; rewrite lookup_insert_ne |].
        right. exists sa, st. rewrite lookup_insert_eq, Hss.
        repeat split; by eauto.
    + unfold throwTypeError. run_found. run_found. unfold throwNew.
      intros [= <- <-]. world_simpl.
      repeat split; [by intros k Hk; rewrite !lookup_insert_ne |].
      left. eexists. split; [reflexivity |]. split; [| right; right; by exists sa].
      repeat split; world_simpl; [by intros k Hk; rewrite !lookup_insert_ne |].
      rewrite Hsa, lookup_insert_eq. split; [reflexivity | by right; right].
  - do 3 run_found. run_missing. run_missing. intros [= <- <-]. world_simpl.
    repeat split. left. eexists. split; [reflexivity |].
    split; [by apply reworks_frame | by right; left].
  - run_missing. run_found. run_missing. intros [= <- <-]. world_simpl.
    repeat split; [by intros k Hk; rewrite lookup_insert_ne |].
    left. eexists. split; [reflexivity |].
    split; [apply reworks_update; [done | simpl; tauto] | by left].
  - run_missing. run_missing. intros [= <- <-]. world_simpl.
    repeat split. left. eexists. split; [reflexivity |].
    split; [by apply reworks_frame | by left].
Qed.

Lemma deepAnalysisOf_Some (w : World) (stockId : string) (x : StockAnalysisRow) :
  Prisma.deepAnalysisOf w stockId = Some x →
  ∃ k, stockAnalysis w !! k = Some x ∧ sa_stockId x = stockId.
Proof.
  unfold Prisma.deepAnalysisOf. intros H. apply find_some in H as [Hin Heq].
  apply String.eqb_eq in Heq.
  apply list_elem_of_In, list_elem_of_fmap in Hin as ([k y] & -> & Hk%elem_of_map_to_list).
  by exists k.
Qed.

Lemma deepAnalysisOf_unique (w : World) (stockId k : string) (x : StockAnalysisRow) :
  OneAnalysisPerStock w →
  stockAnalysis w !! k = Some x → sa_stockId x = stockId →
  Prisma.deepAnalysisOf w stockId = Some x.
Proof.
  intros Hone Hk Hx. destruct (Prisma.deepAnalysisOf w stockId) as [y|] eqn:E.
  - apply deepAnalysisOf_Some in E as (k' & Hk' & Hy).
    assert (k = k') as <- by (eapply Hone; [done | done | congruence]). congruence.
  - exfalso. unfold Prisma.deepAnalysisOf in E.
    assert ((sa_stockId x =? stockId)%string = false) as Hno.
    { apply (find_none _ _ E x).
      apply list_elem_of_In, list_elem_of_fmap. exists (k, x). split; [done |].
      by apply elem_of_map_to_list. }
    apply String.eqb_neq in Hno. done.
Qed.

Lemma completedAreAnalysed_keeps (w w' : World) :
  OneAnalysisPerStock w' →
  stock w' = stock w →
  (∀ k ss', subSector w' !! k = Some ss' → ss_status ss' = "completed" →
     (∃ ss, subSector w !! k = Some ss ∧ ss_status ss = "completed") ∨
     (∀ s, s ∈ Prisma.stocksOf w' k → rankOf s ≤ 5 → analysisCompleted s = true)) →
  (∀ k row, stockAnalysis w !! k = Some row → sa_status row = "completed" →
     ∃ row', stockAnalysis w' !! k = Some row' ∧ sa_stockId row' = sa_stockId row ∧
             sa_status row' = "completed") →
  CompletedAreAnalysed w → CompletedAreAnalysed w'.
Proof.
  intros Hone Hstock Hsub Hrows HJ k ss' Hss' Hdone s Hs Hrank.
  destruct (Hsub k ss' Hss' Hdone) as [(ss & Hss & Hssdone) | Hnew]; [| by apply Hnew].
  unfold Prisma.stocksOf in Hs. apply list_elem_of_fmap in Hs as (st & -> & Hst).
  rewrite Hstock in Hst.
  assert (analysisCompleted (Prisma.mkStockWithAnalysis st (Prisma.deepAnalysisOf w (st_id st)))
          = true) as Hold.
  { apply (HJ k ss Hss Hssdone); [| exact Hrank].
    unfold Prisma.stocksOf. apply list_elem_of_fmap. by exists st. }
  unfold analysisCompleted in *. cbn [Prisma.swa_deepAnalysis] in *.
  destruct (Prisma.deepAnalysisOf w (st_id st)) as [a0|] eqn:E; [| done].
  apply String.eqb_eq in Hold.
  apply deepAnalysisOf_Some in E as (k0 & Hk0 & Hid).
  destruct (Hrows k0 a0 Hk0 Hold) as (row' & Hrow' & Hsid & Hst').
  rewrite (deepAnalysisOf_unique w' (st_id st) k0 row' Hone Hrow') by congruence.
  by apply String.eqb_eq.
Qed.

Lemma oneAnalysisPerStock_keeps (w w' : World) :
  (∀ k row', stockAnalysis w' !! k = Some row' →
     ∃ row, stockAnalysis w !! k = Some row ∧ sa_stockId row' = sa_stockId row) →
  OneAnalysisPerStock w → OneAnalysisPerStock w'.
Proof.
  intros Hrows Hone k1 a1 k2 a2 H1 H2 Heq.
  destruct (Hrows k1 a1 H1) as (r1 & Hr1 & E1), (Hrows k2 a2 H2) as (r2 & Hr2 & E2).
  eapply Hone; [done | done | congruence].
Qed.

Lemma reworks_rows (a : string) (w w' : World) :
  Reworks a w w' →
  ∀ k row', stockAnalysis w' !! k = Some row' →
    ∃ row, stockAnalysis w !! k = Some row ∧ sa_stockId row' = sa_stockId row ∧
           (sa_status row' = "completed" → sa_status row = "completed").
Proof.
  intros (_ & _ & Ho & Ha) k row' Hrow'.
  destruct (decide (k = a)) as [-> | Hne].
  - rewrite Hrow' in Ha. destruct (stockAnalysis w !! a) as [row|]; [| done].
    destruct Ha as [E [H | [H | H]]]; exists row; repeat split; try done;
      rewrite H; try done.
  - rewrite Ho in Hrow' by done. by exists row'.
Qed.

(** An execution that reworks an analysis that is not completed keeps
    every completed sub-sector analysed. *)
Lemma reworks_settled_tables (a : string) (w w' : World) :
  Reworks a w w' →
  (∀ row, stockAnalysis w !! a = Some row → sa_status row ≠ "completed") →
  SubSectorKeyed w → OneAnalysisPerStock w → CompletedAreAnalysed w →
  SubSectorKeyed w' ∧ OneAnalysisPerStock w' ∧ CompletedAreAnalysed w'.
Proof.
  intros HR Hnot Hkeyed Hone HJ.
  pose proof (reworks_rows a w w' HR) as Hrows.
  destruct HR as (Hs & Hss & Ho & Ha).
  assert (OneAnalysisPerStock w') as Hone'.
  { apply (oneAnalysisPerStock_keeps w w'); [| done].
    intros k row' Hrow'. destruct (Hrows k row' Hrow') as (row & ? & ? & _). by exists row. }
  split; [unfold SubSectorKeyed; by rewrite Hss |]. split; [done |].
  apply (completedAreAnalysed_keeps w w'); try done.
  - intros k ss' Hss' Hdone. left. exists ss'. by rewrite <- Hss.
  - intros k row Hrow Hdone. destruct (decide (k = a)) as [-> | Hne].
    + by destruct (Hnot row Hrow).
    + exists row. by rewrite Ho.
Qed.

Lemma pending_settle_length {D} (analysisOf : D → string) (attemptOf : D → Z) a attempts
  jobId ok (q : list (Job D)) :
  (length (pendingAttempts analysisOf attemptOf a (settle attempts jobId ok q))
   ≤ length (pendingAttempts analysisOf attemptOf a q))%nat.
Proof. apply sublist_length, pending_settle_sublist. Qed.

Lemma pending_add_length {D} (analysisOf : D → string) (attemptOf : D → Z) a (j : Job D)
  (q : list (Job D)) :
  (length (pendingAttempts analysisOf attemptOf a (Queue.add j q))
   ≤ S (length (pendingAttempts analysisOf attemptOf a q)))%nat.
Proof.
  destruct (pending_add analysisOf attemptOf a j q) as [-> | [_ ->]]; [lia |].
  rewrite length_app. simpl. lia.
Qed.

Lemma pending_present {D} (analysisOf : D → string) (attemptOf : D → Z) a (j : Job D)
  (q : list (Job D)) :
  j ∈ q → job_finished j = false → analysisOf (job_data j) = a →
  (1 ≤ length (pendingAttempts analysisOf attemptOf a q))%nat.
Proof.
  intros Hj Hf Ha. pose proof (pending_elem analysisOf attemptOf a j q Hj Hf Ha) as Hin.
  destruct (pendingAttempts analysisOf attemptOf a q); [by apply not_elem_of_nil in Hin |].
  simpl. lia.
Qed.

Lemma length_0_nil {A} (l : list A) : length l = 0%nat → l = [].
Proof. by destruct l. Qed.

(** The step of an analysis with a job under way. *)
Lemma oneJob_step (a : string) (w w' : World) :
  OneJobPerAnalysis w →
  (∀ a', a' ≠ a → (jobsUnderWay w' a' ≤ jobsUnderWay w a')%nat) →
  (∀ a', a' ≠ a → stockAnalysis w' !! a' = stockAnalysis w !! a') →
  (jobsUnderWay w' a ≤ 1)%nat →
  (∀ row, stockAnalysis w' !! a = Some row → sa_status row = "completed" →
          jobsUnderWay w' a = 0%nat) →
  OneJobPerAnalysis w'.
Proof.
  intros Hone Hother Hrows Ha Hdone a'. destruct (decide (a' = a)) as [-> | Hne]; [done |].
  destruct (Hone a') as [Hle Hzero]. specialize (Hother a' Hne). split; [lia |].
  intros row Hrow Hcompleted. rewrite Hrows in Hrow by done.
  specialize (Hzero row Hrow Hcompleted). lia.
Qed.

Lemma step_settled (w w' : World) : Settled w → step w w' → Settled w'.
Proof.
  intros (Hkeyed & Hone & Hjobs & HJ) Hstep.
  destruct Hstep as [w job r w1 Hin Hunf Hrun | w job b r w1 Hin Hunf Hrun
                    | w job r w1 Hin Hunf Hrun].
  - (* an execution of the stock-analysis worker *)
    set (a := sajd_stockAnalysisId (job_data job)) in *.
    pose proof (processStockAnalysis_reworks job w r w1 Hrun) as HR. fold a in HR.
    pose proof (pending_present sajd_stockAnalysisId sajd_attemptNumber a job _
                  Hin Hunf eq_refl) as Hpresent.
    destruct (Hjobs a) as [Hle Hzero].
    unfold jobsUnderWay, stockAttempts, judgeAttempts, formatAttempts in Hle, Hzero.
    assert (∀ row, stockAnalysis w !! a = Some row → sa_status row ≠ "completed") as Hnot.
    { intros row Hrow Hdone. specialize (Hzero row Hrow Hdone). lia. }
    destruct (reworks_settled_tables a w w1 HR Hnot Hkeyed Hone HJ) as (Hk1 & Ho1 & HJ1).
    apply processStockAnalysis_effect in Hrun as (HqS & HqF & Hcases).
    split; [exact Hk1 |]. split; [exact Ho1 |]. split; [| exact HJ1].
    assert (∀ x, (length (judgeAttempts w1 x)
                  ≤ length (judgeAttempts w x) + (if decide (x = a) then 1 else 0))%nat ∧
                 (returned r = false → judgeAttempts w1 x = judgeAttempts w x)) as HqJ.
    { intros x. unfold judgeAttempts.
      destruct Hcases as [(res & sa & sa' & -> & _ & _ & _ & ->) | (e & -> & -> & _)];
        [| split; [lia | done]].
      split; [| done]. case_decide as Hx.
      - pose proof (pending_add_length jrjd_stockAnalysisId jrjd_attemptNumber x
                      (judgeJobOf job) (judgeReviewQueue w)). lia.
      - rewrite pending_add_other; [lia | by intros ?]. }
    apply (oneJob_step a w); [done | | | |].
    + intros a' Hne.
      pose proof (pending_settle_length sajd_stockAnalysisId sajd_attemptNumber a'
                    stockAnalysisAttempts (job_id job) (returned r) (stockAnalysisQueue w)).
      destruct (HqJ a') as [HJa' _]. rewrite decide_False in HJa' by done.
      unfold jobsUnderWay, stockAttempts, judgeAttempts, formatAttempts in *. world_simpl.
      rewrite HqS, HqF. lia.
    + intros a' Hne. world_simpl. by apply HR.
    + destruct (HqJ a) as [HJa HJsame]. rewrite decide_True in HJa by done.
      unfold jobsUnderWay, stockAttempts, judgeAttempts, formatAttempts in *. world_simpl.
      rewrite HqS, HqF.
      destruct (returned r) eqn:Hret.
      * rewrite (pending_settle_finished sajd_stockAnalysisId sajd_attemptNumber a
                   stockAnalysisAttempts true job); try done; [simpl | | by left]; lia.
      * pose proof (pending_settle_length sajd_stockAnalysisId sajd_attemptNumber a
                      stockAnalysisAttempts (job_id job) false (stockAnalysisQueue w)).
        rewrite HJsame by done. lia.
    + intros row Hrow Hdone. exfalso. world_simpl.
      destruct (reworks_rows a w w1 HR a row Hrow) as (row0 & Hrow0 & _ & Hst).
      by apply (Hnot row0 Hrow0), Hst.
  - (* an execution of the judge-review worker *)
    set (a := jrjd_stockAnalysisId (job_data job)) in *.
    pose proof (processJudgeReview_reworks b job w r w1 Hrun) as HR. fold a in HR.
    pose proof (pending_present jrjd_stockAnalysisId jrjd_attemptNumber a job _
                  Hin Hunf eq_refl) as Hpresent.
    destruct (Hjobs a) as [Hle Hzero].
    unfold jobsUnderWay, stockAttempts, judgeAttempts, formatAttempts in Hle, Hzero.
    assert (∀ row, stockAnalysis w !! a = Some row → sa_status row ≠ "completed") as Hnot.
    { intros row Hrow Hdone. specialize (Hzero row Hrow Hdone). lia. }
    destruct (reworks_settled_tables a w w1 HR Hnot Hkeyed Hone HJ) as (Hk1 & Ho1 & HJ1).
    apply processJudgeReview_effect in Hrun as (HqJ & _ & Hcases).
    split; [exact Hk1 |]. split; [exact Ho1 |]. split; [| exact HJ1].
    assert (∀ x, (length (stockAttempts w1 x) + length (formatAttempts w1 x)
                  ≤ length (stockAttempts w x) + length (formatAttempts w x)
                    + (if decide (x = a) then 1 else 0))%nat ∧
                 (returned r = false →
                  stockAttempts w1 x = stockAttempts w x ∧
                  formatAttempts w1 x = formatAttempts w x)) as Hq.
    { intros x. unfold stockAttempts, formatAttempts.
      destruct Hcases as [(id & -> & _ & -> & ->) | [(id & -> & _ & _ & -> & ->)
                         | [(-> & _ & _ & -> & -> & _) | (e & -> & -> & ->)]]];
        try (split; [lia | done]).
      - split; [| done]. case_decide as Hx.
        + pose proof (pending_add_length fijd_stockAnalysisId (λ _, 0) x
                        (formatJobOf job) (formatInsightsQueue w)). lia.
        + rewrite pending_add_other; [lia | by intros ?].
      - split; [| done]. case_decide as Hx.
        + pose proof (pending_add_length sajd_stockAnalysisId sajd_attemptNumber x
                        (retryJobOf job) (stockAnalysisQueue w)). lia.
        + rewrite pending_add_other; [lia | by intros ?]. }
    apply (oneJob_step a w); [done | | | |].
    + intros a' Hne.
      pose proof (pending_settle_length jrjd_stockAnalysisId jrjd_attemptNumber a'
                    judgeReviewAttempts (job_id job) (returned r) (judgeReviewQueue w)).
      destruct (Hq a') as [Ha' _]. rewrite decide_False in Ha' by done.
      unfold jobsUnderWay, stockAttempts, judgeAttempts, formatAttempts in *. world_simpl.
      rewrite HqJ. lia.
    + intros a' Hne. world_simpl. by apply HR.
    + destruct (Hq a) as [Ha Hsame]. rewrite decide_True in Ha by done.
      unfold jobsUnderWay, stockAttempts, judgeAttempts, formatAttempts in *. world_simpl.
      rewrite HqJ.
      destruct (returned r) eqn:Hret.
      * rewrite (pending_settle_finished jrjd_stockAnalysisId jrjd_attemptNumber a
                   judgeReviewAttempts true job); try done; [simpl | | by left]; lia.
      * pose proof (pending_settle_length jrjd_stockAnalysisId jrjd_attemptNumber a
                      judgeReviewAttempts (job_id job) false (judgeReviewQueue w)).
        destruct (Hsame eq_refl) as [HS HF]. rewrite HS, HF. lia.
    + intros row Hrow Hdone. exfalso. world_simpl.
      destruct (reworks_rows a w w1 HR a row Hrow) as (row0 & Hrow0 & _ & Hst).
      by apply (Hnot row0 Hrow0), Hst.
  - (* an execution of the format-insights worker *)
    set (a := fijd_stockAnalysisId (job_data job)) in *.
    pose proof (pending_present fijd_stockAnalysisId (λ _, 0) a job _
                  Hin Hunf eq_refl) as Hpresent.
    destruct (Hjobs a) as [Hle Hzero].
    unfold jobsUnderWay, stockAttempts, judgeAttempts, formatAttempts in Hle, Hzero.
    assert (∀ row, stockAnalysis w !! a = Some row → sa_status row ≠ "completed") as Hnot.
    { intros row Hrow Hdone. specialize (Hzero row Hrow Hdone). lia. }
    destruct (processFormatInsights_cases job w r w1 Hrun Hkeyed)
      as (Hstock & HqS & HqJ & HqF & Hother & Hcases). fold a in Hother, Hcases.
    assert (∀ x, (jobsUnderWay (set_formatInsightsQueue
                    (settle formatInsightsAttempts (job_id job) (returned r)) w1) x
                  ≤ jobsUnderWay w x)%nat) as Hcount.
    { intros x. unfold jobsUnderWay, stockAttempts, judgeAttempts, formatAttempts.
      world_simpl. rewrite HqS, HqJ, HqF.
      pose proof (pending_settle_length fijd_stockAnalysisId (λ _, 0) x
                    formatInsightsAttempts (job_id job) (returned r) (formatInsightsQueue w)).
      lia. }
    assert (OneJobPerAnalysis (set_formatInsightsQueue
              (settle formatInsightsAttempts (job_id job) (returned r)) w1)) as Hjobs'.
    { apply (oneJob_step a w); [done | by intros a' _ | | |].
      - intros a' Hne. world_simpl. by apply Hother.
      - pose proof (Hcount a) as Hc.
        unfold jobsUnderWay, stockAttempts, judgeAttempts, formatAttempts in *. lia.
      - intros row Hrow Hdone. world_simpl.
        destruct Hcases as [(e & -> & HR & _) | (row0 & st & -> & _)].
        + exfalso. destruct (reworks_rows a w w1 HR a row Hrow) as (row0 & Hrow0 & _ & Hst).
          by apply (Hnot row0 Hrow0), Hst.
        + unfold jobsUnderWay, stockAttempts, judgeAttempts, formatAttempts. world_simpl.
          rewrite HqS, HqJ, HqF.
          rewrite (pending_settle_finished fijd_stockAnalysisId (λ _, 0) a
                     formatInsightsAttempts true job); try done; [simpl | | by left]; lia. }
    destruct Hcases as [(e & -> & HR & _) | (row & st & -> & _ & Hrow & Hrow1 & Hst & Hsub)].
    + destruct (reworks_settled_tables a w w1 HR Hnot Hkeyed Hone HJ) as (Hk1 & Ho1 & HJ1).
      split; [exact Hk1 | split; [exact Ho1 | split; [exact Hjobs' | exact HJ1]]].
    + assert (OneAnalysisPerStock w1) as Ho1.
      { apply (oneAnalysisPerStock_keeps w w1); [| done].
        intros k row' Hrow'. destruct (decide (k = a)) as [-> | Hne].
        - rewrite Hrow1 in Hrow'. injection Hrow' as <-. by exists row.
        - rewrite Hother in Hrow' by done. by exists row'. }
      assert (subSector w1 = subSector w ∨
              ∃ ss, subSector w !! st_subSectorId st = Some ss ∧
                    allCompleted (Prisma.stocksOf w1 (st_subSectorId st)) = true ∧
                    subSector w1 = <[st_subSectorId st :=
                                       mkSubSectorRow (ss_id ss) (ss_sectorAnalysisId ss)
                                         (ss_name ss) (ss_summary ss) "completed"]>
                                     (subSector w)) as Hsub'.
      { destruct (subSector w !! st_subSectorId st) as [ss|] eqn:Hss; [| by left].
        destruct (allCompleted _) eqn:Hall; [right; by exists ss | by left]. }
      split; [| split; [exact Ho1 | split; [exact Hjobs' |]]].
      * intros k ss'. world_simpl.
        destruct Hsub' as [-> | (ss & Hss & _ & ->)]; [apply Hkeyed |].
        destruct (decide (st_subSectorId st = k)) as [<- | Hne].
        -- rewrite lookup_insert_eq. intros [= <-]. simpl. by apply Hkeyed.
        -- rewrite lookup_insert_ne by done. apply Hkeyed.
      * apply (completedAreAnalysed_keeps w); try done.
        -- intros k ss' Hss' Hdone. world_simpl.
           destruct Hsub' as [Hsame | (ss & Hss & Hall & Hins)].
           ++ left. exists ss'. by rewrite <- Hsame.
           ++ rewrite Hins in Hss'. destruct (decide (st_subSectorId st = k)) as [<- | Hne].
              ** right. intros s Hs Hrank.
                 assert (Prisma.stocksOf
                           (set_formatInsightsQueue
                              (settle formatInsightsAttempts (job_id job) (returned (Ok
                                 (mkFormatInsightsResult a
                                    (mockInsights (fijd_companyName (job_data job))))))) w1)
                           (st_subSectorId st)
                         = Prisma.stocksOf w1 (st_subSectorId st)) as Hsame
                   by (by apply stocksOf_ext).
                 rewrite Hsame in Hs.
                 unfold allCompleted, topStocks in Hall.
                 rewrite <- Is_true_true, forallb_True, Forall_forall in Hall.
                 apply Is_true_true, Hall.
                 rewrite merge_sort_Permutation. by apply list_elem_of_filter.
              ** left. rewrite lookup_insert_ne in Hss' by done. by exists ss'.
        -- intros k row0 Hrow0 Hdone. world_simpl.
           destruct (decide (k = a)) as [-> | Hne].
           ++ by destruct (Hnot row0 Hrow0).
           ++ exists row0. by rewrite Hother.
Qed.

Lemma reachable_settled (w w' : World) : Settled w → rtc step w w' → Settled w'.
Proof.
  intros Hs Hreach. induction Hreach as [w | w1 w2 w3 Hstep _ IH]; [done |].
  apply IH. by eapply step_settled.
Qed.

(** C2 (as amended). An execution of the format-insights worker returns
    normally exactly when its job is tracked and its analysis and the stock
    of the analysis exist. An execution that fails leaves every sub-sector
    as it is. One that returns leaves every sub-sector but that of its
    analysis as it is, and that one is completed afterwards exactly when it
    was so before or every stock of the sub-sector with rank at most 5
    (unranked stocks, of rank 0, included) has a completed StockAnalysis.
    Hence, along the executions of the stock-analysis, judge-review and
    format-insights workers, from a state in which every completed
    sub-sector has a completed StockAnalysis for each of its stocks of rank
    at most 5 (and rows are stored under their keys, a stock has one
    analysis, and an analysis has at most one job under way, none when it is
    completed), every sub-sector in status completed has a completed
    StockAnalysis for each of its stocks of rank at most 5; when the stocks
    of the sub-sector carry the ranks 1..N, these are its top 5 (all of them
    if N < 5). *)
Theorem subSector_completed_iff :
  (∀ (job : Job FormatInsightsJobData) (w : World) r w',
     let a := fijd_stockAnalysisId (job_data job) in
     processFormatInsights job w = (r, w') → SubSectorKeyed w →
     ((∃ result, r = Ok result) ↔
        is_Some (jobStatus w !! job_id job) ∧
        ∃ row, stockAnalysis w !! a = Some row ∧ is_Some (stock w !! sa_stockId row)) ∧
     (∀ e, r = Throw e → subSector w' = subSector w) ∧
     (∀ result, r = Ok result →
        ∃ row st,
          stockAnalysis w !! a = Some row ∧ stock w !! sa_stockId row = Some st ∧
          (∀ k, k ≠ st_subSectorId st → subSector w' !! k = subSector w !! k) ∧
          match subSector w !! st_subSectorId st with
          | None => subSector w' !! st_subSectorId st = None
          | Some ss =>
              ∃ ss', subSector w' !! st_subSectorId st = Some ss' ∧
                (ss_status ss' = "completed" ↔
                   ss_status ss = "completed" ∨
                   ∀ s, s ∈ Prisma.stocksOf w' (st_subSectorId st) → rankOf s ≤ 5 →
                        analysisCompleted s = true)
          end)) ∧
  (∀ w w', Settled w → rtc step w w' →
     Settled w' ∧
     ∀ k ss, subSector w' !! k = Some ss → ss_status ss = "completed" →
       (∀ s, s ∈ Prisma.stocksOf w' k → rankOf s ≤ 5 →
             ∃ a, Prisma.swa_deepAnalysis s = Some a ∧ sa_status a = "completed") ∧
       (RankedOneToN (Prisma.stocksOf w' k) →
          ∀ s, s ∈ top5OfSpec (Prisma.stocksOf w' k) →
               ∃ a, Prisma.swa_deepAnalysis s = Some a ∧ sa_status a = "completed")).
Proof.
  split.
  - intros job w r w' a Hrun Hkeyed.
    destruct (processFormatInsights_cases job w r w' Hrun Hkeyed)
      as (_ & _ & _ & _ & _ & Hcases). fold a in Hcases.
    destruct Hcases as [(e & -> & HR & Hwhy)
                       | (row & st & -> & Htracked & Hrow & Hrow' & Hst & Hsub)].
    + split; [| split; [| by intros result [=]]].
      * split; [by intros [result [=]] |].
        intros (Htr & row & Hrow & Hstock). exfalso.
        destruct Hwhy as [Hno | [Hno | (row0 & Hrow0 & Hno)]].
        -- rewrite Hno in Htr. by destruct Htr.
        -- congruence.
        -- rewrite Hrow in Hrow0. injection Hrow0 as <-. rewrite Hno in Hstock.
           by destruct Hstock.
      * intros _ _. by destruct HR as (_ & ? & _).
    + split; [| split; [by intros e [=] |]].
      * split; [| by eexists]. intros _. split; [done |]. exists row. by rewrite Hst.
      * intros result _. exists row, st. split; [done |]. split; [done |].
        destruct (subSector w !! st_subSectorId st) as [ss|] eqn:Hss.
        -- destruct (allCompleted (Prisma.stocksOf w' (st_subSectorId st))) eqn:Hall.
           ++ rewrite Hsub. split; [by intros k Hk; rewrite lookup_insert_ne |].
              eexists. rewrite lookup_insert_eq. split; [reflexivity |]. simpl.
              pose proof (proj1 (allCompleted_spec _) Hall). tauto.
           ++ rewrite Hsub. split; [done |]. exists ss. split; [done |].
              split; [tauto |]. intros [? | Hall']; [done |].
              apply (proj2 (allCompleted_spec _)) in Hall'. congruence.
        -- rewrite Hsub. by split.
  - intros w w' Hsettled Hreach.
    pose proof (reachable_settled w w' Hsettled Hreach) as Hs'.
    split; [exact Hs' |]. destruct Hs' as (_ & _ & _ & HJ).
    intros k ss Hss Hdone.
    assert (∀ s, s ∈ Prisma.stocksOf w' k → rankOf s ≤ 5 →
                 ∃ a, Prisma.swa_deepAnalysis s = Some a ∧ sa_status a = "completed") as Hall.
    { intros s Hs Hrank. apply analysisCompleted_spec. by eapply HJ. }
    split; [exact Hall |].
    intros Hranked s Hs. apply (top5_ranked _ _ Hranked) in Hs as [Hs Hrank].
    by apply Hall.
Qed.

Lemma formatting_settled : Settled Sample.formatting.
Proof.
  split; [| split; [| split]].
  - intros k row. unfold Sample.formatting, Sample.world. world_simpl.
    intros [[<- <-] | [_ H]]%lookup_insert_Some; [done | by rewrite lookup_empty in H].
  - intros k1 a1 k2 a2. unfold Sample.formatting, Sample.world. world_simpl.
    intros [[<- <-] | [_ H]]%lookup_insert_Some; [| by rewrite lookup_empty in H].
    intros [[<- <-] | [_ H]]%lookup_insert_Some; [done | by rewrite lookup_empty in H].
  - intros a. split.
    + unfold jobsUnderWay, stockAttempts, judgeAttempts, formatAttempts, Sample.formatting,
             Sample.world.
      world_simpl. rewrite pending_cons. case_decide; simpl; lia.
    + intros row. unfold Sample.formatting, Sample.world. world_simpl.
      intros [[<- <-] | [_ H]]%lookup_insert_Some; [done | by rewrite lookup_empty in H].
  - intros k ss. unfold Sample.formatting, Sample.world. world_simpl.
    intros [[<- <-] | [_ H]]%lookup_insert_Some; [done | by rewrite lookup_empty in H].
Qed.

Lemma subSector_completed_iff_witness :
  ∃ w',
    rtc step Sample.formatting w' ∧
    (ss_status <$> subSector w' !! "ss0") = Some "completed" ∧
    ∀ s, s ∈ Prisma.stocksOf w' "ss0" → rankOf s ≤ 5 →
         ∃ a, Prisma.swa_deepAnalysis s = Some a ∧ sa_status a = "completed".
Proof.
  set (run := processFormatInsights Sample.formatJob Sample.formatting).
  set (w' := set_formatInsightsQueue
               (settle formatInsightsAttempts (job_id Sample.formatJob) (returned (fst run)))
               (snd run)).
  assert (rtc step Sample.formatting w') as Hreach.
  { apply rtc_once. apply (step_formatInsights Sample.formatting Sample.formatJob);
      [apply list_elem_of_here | reflexivity | apply surjective_pairing]. }
  assert (subSector w' !! "ss0"
          = Some (mkSubSectorRow "ss0" "sec0" "Consumer Electronics" "Devices" "completed"))
    as Hss by (vm_compute; reflexivity).
  exists w'. split; [exact Hreach |]. split; [by rewrite Hss |].
  exact (proj1 (proj2 (proj2 subSector_completed_iff Sample.formatting w'
                         formatting_settled Hreach) "ss0" _ Hss eq_refl)).
Defined.

(** Why the jobs under way matter: in the sample world after its format job
    (the analysis and the sub-sector completed), a stock-analysis job that
    still concerns the analysis takes it back to analyzing, and the
    sub-sector stays completed. *)
Example completed_analysis_reopened :
  let w := snd (processFormatInsights Sample.formatJob Sample.world) in
  let w' := snd (processStockAnalysis Sample.firstJob w) in
  (sa_status <$> stockAnalysis w !! "c0") = Some "completed" ∧
  (ss_status <$> subSector w !! "ss0") = Some "completed" ∧
  (sa_status <$> stockAnalysis w' !! "c0") = Some "analyzing" ∧
  (ss_status <$> subSector w' !! "ss0") = Some "completed".
Proof. vm_compute. repeat split. Qed.

(** C2, the claim as stated fails in both directions. In a sub-sector whose
    stocks have the ranks 1 and 7, the worker completes the sub-sector once
    the first stock is analysed, although the second, one of its (fewer
    than 5) ranked stocks, has no analysis. In a sub-sector whose two stocks
    are still unranked (rank 0), no stock is among the 5 lowest ranks of at
    least 1, yet the worker leaves the sub-sector as it is, because the
    unranked second stock has no analysis. *)
Lemma top5_is_a_rank_threshold :
  (let w' := snd (processFormatInsights Sample.formatJob Sample.gapWorld) in
   fst (processFormatInsights Sample.formatJob Sample.gapWorld)
     = Ok (mkFormatInsightsResult "c0" (mockInsights "Apple Inc.")) ∧
   (ss_status <$> subSector Sample.gapWorld !! "ss0") = Some "analyzing" ∧
   (ss_status <$> subSector w' !! "ss0") = Some "completed" ∧
   (rankOf <$> top5OfSpec (Prisma.stocksOf w' "ss0")) = [1; 7] ∧
   forallb analysisCompleted (top5OfSpec (Prisma.stocksOf w' "ss0")) = false) ∧
  (let w' := snd (processFormatInsights Sample.formatJob Sample.unrankedWorld) in
   fst (processFormatInsights Sample.formatJob Sample.unrankedWorld)
     = Ok (mkFormatInsightsResult "c0" (mockInsights "Apple Inc.")) ∧
   (ss_status <$> subSector w' !! "ss0") = Some "analyzing" ∧
   top5OfSpec (Prisma.stocksOf w' "ss0") = [] ∧
   forallb analysisCompleted (top5OfSpec (Prisma.stocksOf w' "ss0")) = true).
Proof. vm_compute. repeat split. Qed.

(** In the sample world, whose only stock has rank 1, the format stage
    completes the analysis and with it the sub-sector. *)
Example cascade_completes_sample :
  let w' := snd (processFormatInsights Sample.formatJob Sample.world) in
  (sa_status <$> stockAnalysis w' !! "c0") = Some "completed" ∧
  (ss_status <$> subSector w' !! "ss0") = Some "completed" ∧
  (rankOf <$> top5OfSpec (Prisma.stocksOf w' "ss0")) = [1].
Proof. vm_compute. repeat split. Qed.

#[local] Instance staysCompleted_preorder : PreOrder StaysCompleted.
Proof.
  split.
  - intros w k row Hrow Hdone. by exists row.
  - intros w1 w2 w3 H12 H23 k row Hrow Hdone.
    destruct (H12 k row Hrow Hdone) as (row2 & Hrow2 & Hdone2). by eapply H23.
Qed.

(** The format stage never takes a completed sub-sector back: its only
    write to a sub-sector sets the status completed, so a repeated
    completion check leaves a completed sub-sector completed. *)
Theorem cascade_keeps_completed (job : Job FormatInsightsJobData) :
  Respects StaysCompleted (processFormatInsights job) ∧
  ∀ w r1 w1 r2 w2 k row,
    processFormatInsights job w = (r1, w1) →
    processFormatInsights job w1 = (r2, w2) →
    subSector w1 !! k = Some row → ss_status row = "completed" →
    ∃ row', subSector w2 !! k = Some row' ∧ ss_status row' = "completed".
Proof.
  assert (Respects StaysCompleted (processFormatInsights job)) as Hrespects.
  { unfold processFormatInsights, completionCascade,
           markJobActive, updateJobProgress, markJobCompleted, markJobFailed.
    repeat first
      [ progress cbv beta zeta
      | match goal with |- PreOrder _ => typeclasses eauto end
      | apply respects_findWithSubSector
      | apply respects_updateJobStatus | apply respects_stockAnalysis_update_row
      | apply respects_subSector_updateStatus_row
      | apply respects_try_catch | apply respects_bind | apply respects_ret
      | apply respects_throw | apply respects_throwNew
      | apply respects_throwTypeError
      | match goal with |- Respects _ (if ?b then _ else _) => destruct b end
      | match goal with |- Respects _ (match ?x with _ => _ end) => destruct x end
      | match goal with |- ∀ _, _ => intro end ];
      intros k row' Hrow' Hdone; world_simpl; try (by exists row').
    match goal with
    | |- context [<[?i := ?x]> _ !! k] =>
        destruct (decide (i = k)) as [<- | Hne];
          [exists x; by rewrite lookup_insert_eq
          | exists row'; by rewrite lookup_insert_ne]
    end. }
  split; [exact Hrespects |].
  intros w r1 w1 r2 w2 k row _ Hrun2. by eapply Hrespects.
Qed.

End Cascade.

(** ** The update stream *)

Section Streaming.
Import Stream.

Lemma changed_spec (lastState : option (JobStatusType * Z)) (job : JobStatusRow) :
  changed lastState job = true ↔ lastState ≠ Some (stateOf job).
Proof.
  unfold changed, stateOf. destruct lastState as [[status progress]|]; [| done].
  rewrite orb_true_iff, !negb_true_iff, !bool_decide_eq_false.
  split.
  - intros [H | H] [= -> ->]; by apply H.
  - intros H. destruct (decide (status = js_status job)) as [-> | ?]; [| by left].
    right. intros ->. by apply H.
Qed.

Lemma publishJob_events (lastJobStates : gmap string (JobStatusType * Z))
  (job : JobStatusRow) (e : Event) :
  e ∈ fst (publishJob lastJobStates job) ↔
  lastJobStates !! js_jobId job ≠ Some (stateOf job) ∧
  (e = progressOf job ∨
   (e = completeOf job ∧ js_status job = completed) ∨
   (e = errorOf job ∧ js_status job = failed)).
Proof.
  unfold publishJob. rewrite <- changed_spec.
  destruct (changed (lastJobStates !! js_jobId job) job); simpl.
  - rewrite elem_of_cons, elem_of_app.
    repeat case_bool_decide; rewrite ?list_elem_of_singleton, ?elem_of_nil;
      unfold progressOf, completeOf, errorOf; intuition congruence.
  - rewrite elem_of_nil. intuition congruence.
Qed.

Lemma publishJob_remembers (lastJobStates : gmap string (JobStatusType * Z))
  (job : JobStatusRow) :
  snd (publishJob lastJobStates job) !! js_jobId job = Some (stateOf job) ∧
  ∀ k, k ≠ js_jobId job → snd (publishJob lastJobStates job) !! k = lastJobStates !! k.
Proof.
  unfold publishJob.
  destruct (changed (lastJobStates !! js_jobId job) job) eqn:E; simpl.
  - split; [apply lookup_insert_eq | intros; by apply lookup_insert_ne].
  - split; [| done].
    destruct (lastJobStates !! js_jobId job) as [s|] eqn:El.
    + destruct (decide (s = stateOf job)) as [-> | Hne]; [done |].
      assert (changed (Some s) job = true) by (apply changed_spec; congruence). congruence.
    + done.
Qed.

Lemma publishJob_local (last1 last2 : gmap string (JobStatusType * Z)) (job : JobStatusRow) :
  last1 !! js_jobId job = last2 !! js_jobId job →
  fst (publishJob last1 job) = fst (publishJob last2 job).
Proof.
  intros H. unfold publishJob. rewrite H.
  by destruct (changed (last2 !! js_jobId job) job).
Qed.

Lemma publish_cons lastJobStates job rest :
  publish lastJobStates (job :: rest) =
    (fst (publishJob lastJobStates job)
       ++ fst (publish (snd (publishJob lastJobStates job)) rest),
     snd (publish (snd (publishJob lastJobStates job)) rest)).
Proof.
  change (publish lastJobStates (job :: rest))
    with (let (events, last') := publishJob lastJobStates job in
          let (events', last'') := publish last' rest in
          (events ++ events', last'')).
  destruct (publishJob lastJobStates job) as [events last'].
  simpl. by destruct (publish last' rest).
Qed.

(** A poll over rows with distinct job ids sends what each row sends on
    its own, and remembers the state of every row. *)
Lemma publish_spec (jobs : list JobStatusRow) :
  NoDup (js_jobId <$> jobs) →
  ∀ lastJobStates,
    (∀ e, e ∈ fst (publish lastJobStates jobs) ↔
          ∃ job, job ∈ jobs ∧ e ∈ fst (publishJob lastJobStates job)) ∧
    (∀ job, job ∈ jobs → snd (publish lastJobStates jobs) !! js_jobId job = Some (stateOf job)) ∧
    (∀ k, k ∉ js_jobId <$> jobs → snd (publish lastJobStates jobs) !! k = lastJobStates !! k).
Proof.
  induction jobs as [|job rest IH]; intros Hnd lastJobStates.
  - simpl. repeat split; try done.
    + by intros ?%elem_of_nil.
    + intros (job & ?%elem_of_nil & _). done.
    + by intros job ?%elem_of_nil.
  - rewrite fmap_cons, NoDup_cons in Hnd. destruct Hnd as [Hjob Hrest].
    rewrite publish_cons. simpl.
    destruct (publishJob_remembers lastJobStates job) as [Hself Hother].
    destruct (IH Hrest (snd (publishJob lastJobStates job))) as (IHe & IHs & IHk).
    assert (∀ job', job' ∈ rest →
              fst (publishJob (snd (publishJob lastJobStates job)) job')
              = fst (publishJob lastJobStates job')) as Hlocal.
    { intros job' Hin. apply publishJob_local, Hother.
      intros Heq. apply Hjob. rewrite <- Heq. by apply list_elem_of_fmap_2. }
    repeat split.
    + rewrite elem_of_app, IHe. intros [He | (job' & Hin & He)].
      * exists job. split; [apply list_elem_of_here | done].
      * exists job'. split; [by apply list_elem_of_further | by rewrite <- Hlocal].
    + rewrite elem_of_app, IHe. intros (job' & Hin & He).
      apply elem_of_cons in Hin as [-> | Hin]; [by left |].
      right. exists job'. split; [done | by rewrite Hlocal].
    + intros job' Hin. apply elem_of_cons in Hin as [-> | Hin]; [| by apply IHs].
      rewrite IHk by done. exact Hself.
    + intros k Hk. apply not_elem_of_cons in Hk as [Hk1 Hk2].
      rewrite IHk by done. by apply Hother.
Qed.

Lemma relatedJobs_ids (w : World) (id : string) :
  JobStatusKeyed w → NoDup (js_jobId <$> relatedJobs w id).
Proof.
  intros Hkeyed. unfold relatedJobs. rewrite merge_sort_Permutation.
  eapply (sublist_NoDup _ (js_jobId <$> (snd <$> map_to_list (jobStatus w)))).
  - replace (js_jobId <$> (snd <$> map_to_list (jobStatus w)))
      with (fst <$> map_to_list (jobStatus w)); [apply NoDup_fst_map_to_list |].
    rewrite <- list_fmap_compose. apply list_fmap_ext.
    intros i [k row] Hi. simpl. symmetry. apply Hkeyed.
    apply elem_of_map_to_list. by eapply list_elem_of_lookup_2.
  - apply fmap_sublist, sublist_filter.
Qed.

Lemma same_job (jobs : list JobStatusRow) (job job' : JobStatusRow) :
  NoDup (js_jobId <$> jobs) → job ∈ jobs → job' ∈ jobs →
  js_jobId job' = js_jobId job → job' = job.
Proof.
  induction jobs as [|x l IH]; [by intros _ ?%elem_of_nil |].
  rewrite fmap_cons, NoDup_cons. intros [Hx Hl] Hin Hin' Hid.
  apply elem_of_cons in Hin as [-> | Hin]; apply elem_of_cons in Hin' as [-> | Hin'].
  - done.
  - exfalso. apply Hx. rewrite <- Hid. by apply list_elem_of_fmap_2.
  - exfalso. apply Hx. rewrite Hid. by apply list_elem_of_fmap_2.
  - by apply IH.
Qed.

Lemma truthy_Some (x : string) : Js.truthy (Some x) = true ↔ x ≠ "".
Proof. destruct x; simpl; split; done. Qed.

Lemma stockJobs_spec (w : World) (id x : string) :
  x ∈ stockJobs w id ↔
  is_Some (sectorAnalysis w !! id) ∧ x ≠ "" ∧
  ∃ k ss k' s,
    subSector w !! k = Some ss ∧ ss_sectorAnalysisId ss = id ∧
    stock w !! k' = Some s ∧ st_subSectorId s = ss_id ss ∧
    (x = st_id s ∨ ∃ a, Prisma.deepAnalysisOf w (st_id s) = Some a ∧ x = sa_id a).
Proof.
  unfold stockJobs. split.
  - destruct (sectorAnalysis w !! id) as [sec|]; [| by intros ?%elem_of_nil].
    intros (ss & Hx & Hss)%list_elem_of_bind. split; [by eexists |].
    apply list_elem_of_filter in Hss as [Hid Hss].
    apply list_elem_of_fmap in Hss as ([k ss'] & -> & Hk%elem_of_map_to_list). simpl in *.
    apply list_elem_of_bind in Hx as (swa & Hx & Hswa).
    unfold Prisma.stocksOf in Hswa.
    apply list_elem_of_fmap in Hswa as (s & -> & Hs).
    apply list_elem_of_filter in Hs as [Hsub Hs].
    apply list_elem_of_fmap in Hs as ([k' s'] & -> & Hk'%elem_of_map_to_list). simpl in *.
    unfold idsOf in Hx. apply list_elem_of_filter in Hx as [Hne%truthy_Some Hx].
    split; [done |]. exists k, ss', k', s'. repeat split; try done.
    simpl in Hx. apply elem_of_cons in Hx as [-> | Hx]; [by left |].
    destruct (Prisma.deepAnalysisOf w (st_id s')) as [a|]; [| by apply elem_of_nil in Hx].
    apply list_elem_of_singleton in Hx as ->. right. by exists a.
  - intros ([sec ->] & Hne & k & ss & k' & s & Hss & Hid & Hs & Hsub & Hx).
    apply list_elem_of_bind. exists ss. split.
    + apply list_elem_of_bind.
      exists (Prisma.mkStockWithAnalysis s (Prisma.deepAnalysisOf w (st_id s))). split.
      * unfold idsOf. apply list_elem_of_filter. split; [by apply truthy_Some |].
        simpl. destruct Hx as [-> | (a & -> & ->)]; [apply list_elem_of_here |].
        apply list_elem_of_further, list_elem_of_here.
      * unfold Prisma.stocksOf. apply list_elem_of_fmap. exists s. split; [done |].
        apply list_elem_of_filter. split; [done |].
        apply list_elem_of_fmap. exists (k', s). split; [done |].
        by apply elem_of_map_to_list.
    + apply list_elem_of_filter. split; [done |].
      apply list_elem_of_fmap. exists (k, ss). split; [done |]. by apply elem_of_map_to_list.
Qed.

Lemma relatedJobs_spec (w : World) (id : string) (job : JobStatusRow) :
  job ∈ relatedJobs w id ↔
  (∃ jobId, jobStatus w !! jobId = Some job) ∧ InHierarchy w id (js_relatedId job).
Proof.
  unfold relatedJobs, InHierarchy.
  rewrite merge_sort_Permutation, list_elem_of_filter, list_elem_of_fmap, stockJobs_spec.
  split.
  - intros [Hrel ([k row] & -> & Hin%elem_of_map_to_list)]. split; [by exists k | done].
  - intros [[k Hk] Hrel]. split; [done |]. exists (k, job). split; [done |].
    by apply elem_of_map_to_list.
Qed.

#[local] Instance newerFirst_transitive : Transitive newerFirst.
Proof. unfold newerFirst. intros a b c. lia. Qed.

#[local] Instance newerFirst_total : Total newerFirst.
Proof. unfold newerFirst. intros a b. lia. Qed.

Lemma publishJob_eventsFor (last : gmap string (JobStatusType * Z)) (job : JobStatusRow) :
  fst (publishJob last job) = eventsFor last job.
Proof.
  unfold publishJob, eventsFor.
  pose proof (changed_spec (last !! js_jobId job) job) as Hch.
  destruct (changed (last !! js_jobId job) job); case_decide as Hd.
  - exfalso. by apply (proj1 Hch).
  - simpl. repeat case_bool_decide; repeat case_decide; done.
  - done.
  - destruct Hch as [_ Hch]. by specialize (Hch Hd).
Qed.

Lemma bind_ext_in {A B} (f g : A → list B) (l : list A) :
  (∀ x, x ∈ l → f x = g x) → l ≫= f = l ≫= g.
Proof.
  induction l as [|x l IH]; intros H; [done |].
  rewrite !bind_cons, IH, H; [done | apply list_elem_of_here |].
  intros y Hy. apply H. by apply list_elem_of_further.
Qed.

Lemma bind_nil_in {A B} (f : A → list B) (l : list A) :
  (∀ x, x ∈ l → f x = []) → l ≫= f = [].
Proof.
  induction l as [|x l IH]; intros H; [done |].
  rewrite bind_cons, IH, H; [done | apply list_elem_of_here |].
  intros y Hy. apply H. by apply list_elem_of_further.
Qed.

Lemma publish_eventsFor (jobs : list JobStatusRow) : ∀ last,
  NoDup (js_jobId <$> jobs) →
  fst (publish last jobs) = jobs ≫= eventsFor last.
Proof.
  induction jobs as [|job rest IH]; intros last Hnd; [done |].
  rewrite fmap_cons, NoDup_cons in Hnd. destruct Hnd as [Hjob Hnd].
  rewrite publish_cons, bind_cons. cbn [fst]. rewrite publishJob_eventsFor, IH by done.
  f_equal. apply bind_ext_in. intros job' Hin. unfold eventsFor.
  destruct (publishJob_remembers last job) as [_ Hother].
  rewrite Hother; [done |]. intros Heq. apply Hjob. rewrite <- Heq.
  by apply list_elem_of_fmap_2.
Qed.

(** C9. One poll of the stream of a sector analysis goes through the rows
    of the tracker whose related entity is the analysis itself, a stock of
    one of its sub-sectors or the analysis of such a stock: each of these
    rows once, the most recently updated first. For each it sends what the
    row owes, and nothing else: no event when the (status, progress) pair
    last sent for the job id is the row's pair; otherwise one progress
    event, followed by one complete event when the status is completed and
    by one error event when it is failed. The pair of every row it went
    through is then the pair remembered for its job id, and the pairs of
    other job ids are kept; so a poll that observes the same rows again
    sends nothing. *)
Theorem poll_sends_changes (id : string) (w : World)
  (lastJobStates : gmap string (JobStatusType * Z)) :
  JobStatusKeyed w →
  ∃ jobs : list JobStatusRow,
    (∀ job, job ∈ jobs ↔
            (∃ jobId, jobStatus w !! jobId = Some job) ∧
            InHierarchy w id (js_relatedId job)) ∧
    NoDup (js_jobId <$> jobs) ∧
    StronglySorted newerFirst jobs ∧
    fst (poll id w lastJobStates) = jobs ≫= eventsFor lastJobStates ∧
    (∀ job, job ∈ jobs →
            snd (poll id w lastJobStates) !! js_jobId job = Some (stateOf job)) ∧
    (∀ jobId, jobId ∉ js_jobId <$> jobs →
              snd (poll id w lastJobStates) !! jobId = lastJobStates !! jobId) ∧
    fst (poll id w (snd (poll id w lastJobStates))) = [].
Proof.
  intros Hkeyed. exists (relatedJobs w id).
  pose proof (relatedJobs_ids w id Hkeyed) as Hnd.
  destruct (publish_spec _ Hnd lastJobStates) as (_ & Hs & Hk).
  split; [apply relatedJobs_spec |]. split; [exact Hnd |].
  split; [unfold relatedJobs; apply StronglySorted_merge_sort; apply _ |].
  split; [by apply publish_eventsFor |]. split; [exact Hs |]. split; [exact Hk |].
  unfold poll. rewrite publish_eventsFor by done.
  apply bind_nil_in. intros job Hin. unfold eventsFor.
  rewrite decide_True; [done |]. by apply Hs.
Qed.

Lemma sample_keyed : JobStatusKeyed Sample.world.
Proof.
  intros k row Hrow. apply elem_of_list_to_map_2 in Hrow.
  apply list_elem_of_fmap in Hrow as (r & [= -> ->] & _). done.
Qed.

Lemma poll_sends_changes_witness :
  ∃ jobs,
    fst (poll "sec0" (Sample.streaming active 50) ∅) = jobs ≫= eventsFor ∅ ∧
    fst (poll "sec0" (Sample.streaming active 50) ∅)
      = [ev_progress sector_research "sector-sec0" "sec0" active 50 None] ∧
    fst (poll "sec0" (Sample.streaming active 50)
              (snd (poll "sec0" (Sample.streaming active 50) ∅))) = [].
Proof.
  destruct (poll_sends_changes "sec0" (Sample.streaming active 50) ∅)
    as (jobs & _ & _ & _ & Hevents & _ & _ & Hagain).
  - intros k row Hrow. unfold Sample.streaming in Hrow. cbn [jobStatus] in Hrow.
    apply lookup_insert_Some in Hrow as [[<- <-] | [_ Hrow]]; [done |].
    by rewrite lookup_empty in Hrow.
  - exists jobs. split; [exact Hevents |]. split; [vm_compute; reflexivity | exact Hagain].
Defined.

(** The streaming scenario of the specification: a tracked job goes from
    waiting to active to completed with progress 0, 50, 100, and every state
    is polled twice. The subscriber gets one progress event per state and
    one complete event. *)
Example streaming_scenario :
  Sample.polls ∅
    [ Sample.streaming waiting 0; Sample.streaming waiting 0;
      Sample.streaming active 50; Sample.streaming active 50;
      Sample.streaming completed 100; Sample.streaming completed 100 ]
  = [ ev_progress sector_research "sector-sec0" "sec0" waiting 0 None;
      ev_progress sector_research "sector-sec0" "sec0" active 50 None;
      ev_progress sector_research "sector-sec0" "sec0" completed 100 None;
      ev_complete sector_research "sector-sec0" "sec0" completed ].
Proof. vm_compute. reflexivity. Qed.

(** The first poll of the sample world reports its seven tracked jobs. *)
Example first_poll_reports_all :
  length (fst (poll "sec0" Sample.world ∅)) = 7%nat ∧
  stockJobs Sample.world "sec0" = ["s0"; "c0"].
Proof. vm_compute. split; reflexivity. Qed.

End Streaming.

(** ** The ranking stage on a sample *)

Section Ranking.
Import Workers.

(** Eight unranked candidates: the ranking worker ranks them 1 to 8 and adds
    five stock-analysis jobs, for the ranks 1 to 5, each with its rank as
    priority, attempt number 1 and the id [stock-<analysisId>-attempt-1]. *)
Example ranking_eight_candidates :
  let w' := snd (processStockRanking Sample.rankingJob Sample.rankingWorld) in
  fst (processStockRanking Sample.rankingJob Sample.rankingWorld)
    = Ok (mkStockRankingResult "ss0" 8 5
            ["stock-c1-attempt-1"; "stock-c2-attempt-1"; "stock-c3-attempt-1";
             "stock-c4-attempt-1"; "stock-c5-attempt-1"]) ∧
  (rankOf <$> merge_sort byRank (Prisma.stocksOf w' "ss0")) = seqZ 1 8 ∧
  ((λ j, (sajd_stockId (job_data j), job_priority j, sajd_attemptNumber (job_data j)))
     <$> stockAnalysisQueue w')
    = [("t1", Some 1, 1); ("t2", Some 2, 1); ("t3", Some 3, 1);
       ("t4", Some 4, 1); ("t5", Some 5, 1)] ∧
  ((λ t, sa_status <$> Prisma.deepAnalysisOf w' t) <$> ["t1"; "t2"; "t3"; "t4"; "t5"; "t6"])
    = [Some "pending"; Some "pending"; Some "pending"; Some "pending"; Some "pending"; None] ∧
  length (added w') = 5%nat ∧
  (ss_status <$> subSector w' !! "ss0") = Some "analyzing".
Proof.
  vm_compute. repeat split.
Qed.

End Ranking.

(** ** Errors that are formatted and thrown again *)

Section Rethrow.
Import ErrorHandling.

(** The formatted message holds the error's message between a prefix (the
    context) and a suffix (the stack trace). *)
Lemma formatErrorMessage_around (error : Js.value) (context : option string) :
  ∃ before after,
    formatErrorMessage error context = before +:+ Js.messageOf error +:+ after.
Proof.
  unfold formatErrorMessage.
  generalize (Js.messageOf error). intros base.
  destruct (Js.stackOf error) as [[|x st]|]; cbn [Js.truthy];
    try (generalize (Js.slice0 1000 (String x st)); intros tail);
    destruct context as [[|c ctx]|]; cbn [Js.truthy].
  all: match goal with
       | |- ∃ before after, ?b = _ =>
           exists "", ""; rewrite append_nil_l, append_nil_r; reflexivity
       | |- ∃ before after, ?c +:+ ?sep +:+ ?b = _ =>
           exists (c +:+ sep), ""; rewrite append_nil_r, append_assoc; reflexivity
       | |- ∃ before after, (?c +:+ ?sep +:+ ?b) +:+ ?rest = _ =>
           exists (c +:+ sep), rest; rewrite !append_assoc; reflexivity
       | |- ∃ before after, ?b +:+ ?rest = _ =>
           exists "", rest; rewrite append_nil_l; reflexivity
       end.
Qed.

Lemma includes_survives (p : string) (error : Js.value) (context : option string) :
  plainPattern p = true →
  Js.includes (Js.toLowerCase (Js.messageOf error)) p = true →
  Js.includes (Js.toLowerCase (formatErrorMessage error context)) p = true.
Proof.
  intros Hp. rewrite !includes_lowered by done.
  destruct (formatErrorMessage_around error context) as (before & after & ->).
  apply mentions_inside.
Qed.

Lemma includes_absent (p : string) (error : Js.value) (context : option string) :
  plainPattern p = true →
  Js.includes (Js.toLowerCase (formatErrorMessage error context)) p = false →
  Js.includes (Js.toLowerCase (Js.messageOf error)) p = false.
Proof.
  intros Hp H. destruct (Js.includes (Js.toLowerCase (Js.messageOf error)) p) eqn:E; [| done].
  apply (includes_survives _ _ context Hp) in E. congruence.
Qed.

Lemma isRateLimit_survives (error : Js.value) (context : option string) :
  isRateLimit (Js.toLowerCase (Js.messageOf error)) = true →
  isRateLimit (Js.toLowerCase (formatErrorMessage error context)) = true.
Proof.
  unfold isRateLimit. rewrite !orb_true_iff.
  intros [[H | H] | H]; (apply (includes_survives _ _ context) in H; [| reflexivity]); tauto.
Qed.

Lemma no_signal_before (error : Js.value) (context : option string) :
  let s' := Js.toLowerCase (formatErrorMessage error context) in
  let s := Js.toLowerCase (Js.messageOf error) in
  isRateLimit s' = false → isValidation s' = false → isAuth s' = false →
  isNetwork s' = false → isJudgeReject s' = false →
  isRateLimit s = false ∧ isValidation s = false ∧ isAuth s = false ∧
  isNetwork s = false ∧ isJudgeReject s = false.
Proof.
  intros s' s. subst s' s.
  unfold isRateLimit, isValidation, isAuth, isNetwork, isJudgeReject.
  rewrite !orb_false_iff.
  intros [[H1 H2] H3] [[H4 H5] H6] [[H7 H8] H9] [[[H10 H11] H12] H13] H14.
  repeat split; by apply (includes_absent _ _ context).
Qed.

Lemma classifyError_type_rateLimit (error : Js.value) :
  je_type (classifyError error) = RATE_LIMIT ↔
  isRateLimit (Js.toLowerCase (Js.messageOf error)) = true.
Proof.
  unfold classifyError.
  destruct (isRateLimit _); [by split |].
  destruct (isValidation _); [by split |].
  destruct (isAuth _); [by split |].
  destruct (isNetwork _); [by split |].
  destruct (isJudgeReject _); by split.
Qed.

Lemma classifyError_type_unknown (error : Js.value) :
  je_type (classifyError error) = UNKNOWN ↔
  isRateLimit (Js.toLowerCase (Js.messageOf error)) = false ∧
  isValidation (Js.toLowerCase (Js.messageOf error)) = false ∧
  isAuth (Js.toLowerCase (Js.messageOf error)) = false ∧
  isNetwork (Js.toLowerCase (Js.messageOf error)) = false ∧
  isJudgeReject (Js.toLowerCase (Js.messageOf error)) = false.
Proof.
  unfold classifyError.
  destruct (isRateLimit _); [split; [discriminate | intros (? & _); discriminate] |].
  destruct (isValidation _); [split; [discriminate | intros (_ & ? & _); discriminate] |].
  destruct (isAuth _); [split; [discriminate | intros (_ & _ & ? & _); discriminate] |].
  destruct (isNetwork _); [split; [discriminate | intros (_ & _ & _ & ? & _); discriminate] |].
  destruct (isJudgeReject _); [split; [discriminate | intros (_ & _ & _ & _ & ?); discriminate] |].
  split; [intros _; repeat split | reflexivity].
Qed.

(** Every worker hands its failure on as a new error whose message is the
    formatted one. Wrapping keeps every signal of the original message, so
    a rate-limit error is still classified as one after any number of
    hand-overs, and an error classified as UNKNOWN after the hand-over was
    UNKNOWN before; with no context and no stack trace the classification
    is the same. *)
Theorem rethrown_classification (w : World) (error : Js.value) (context : option string) :
  let rethrown := newError w (formatErrorMessage error context) in
  (je_type (classifyError error) = RATE_LIMIT →
     je_type (classifyError rethrown) = RATE_LIMIT) ∧
  (je_type (classifyError rethrown) = UNKNOWN →
     je_type (classifyError error) = UNKNOWN) ∧
  (Js.truthy context = false → Js.truthy (Js.stackOf error) = false →
     classifyError rethrown = classifyError error).
Proof.
  intros rethrown. subst rethrown. split; [| split].
  - rewrite !classifyError_type_rateLimit. apply isRateLimit_survives.
  - rewrite !classifyError_type_unknown. cbn [Js.messageOf newError errorNamed].
    intros (H1 & H2 & H3 & H4 & H5). by apply (no_signal_before error context).
  - intros Hc Hs.
    assert (formatErrorMessage error context = Js.messageOf error) as Hsame.
    { unfold formatErrorMessage.
      destruct (Js.stackOf error) as [[|x st]|]; [| discriminate Hs |];
        destruct context as [[|c ctx]|]; first [reflexivity | discriminate Hc]. }
    unfold classifyError. cbn [Js.messageOf newError errorNamed]. by rewrite Hsame.
Qed.

End Rethrow.

(** ** The shape of a run of the retry wrapper *)

Section RetryRun.
Import ErrorHandling.
Context {St T : Type}.
Variable fn : St → outcome T * St.
Variable maxAttempts : Z.
Variable context : option string.

Lemma seqZ_S (a : Z) (k : nat) : seqZ a (Z.of_nat (S k)) = a :: seqZ (a + 1) (Z.of_nat k).
Proof. rewrite seqZ_cons by lia. f_equal. f_equal; lia. Qed.

Lemma withRetry_loop_shape (k : nat) :
  ∀ (a : Z) (lastError : option JobError) (s : St),
    a + Z.of_nat k = maxAttempts →
    let r := withRetry_loop fn maxAttempts context (seqZ a (Z.of_nat (S k))) lastError s in
    ∃ (earlier : list Js.value) (last : outcome T),
      run_calls r = (Rejected <$> earlier) ++ [last] ∧
      run_result r = resultOf context last ∧
      Forall (λ e, je_retryable (classifyError e) = true) earlier ∧
      run_pauses r =
        imap (λ i e, calculateRetryDelay (classifyError e) (a + Z.of_nat i) defaultBaseDelay)
             earlier ∧
      run_notified r = imap (λ i e, (a + Z.of_nat i, classifyError e)) earlier.
Proof.
  induction k as [|k IH]; intros a lastError s Ha r; subst r; rewrite seqZ_S;
    cbn [withRetry_loop]; destruct (fn s) as [[v|e] s'].
  - exists nil, (Resolved v). repeat split. constructor.
  - assert (shouldRetry (classifyError e) a maxAttempts = false) as ->.
    { destruct (shouldRetry (classifyError e) a maxAttempts) eqn:E; [| done].
      apply shouldRetry_true in E. lia. }
    exists nil, (Rejected e). repeat split. constructor.
  - exists nil, (Resolved v). repeat split. constructor.
  - destruct (shouldRetry (classifyError e) a maxAttempts) eqn:E; cbn [negb].
    + destruct (IH (a + 1) (Some (classifyError e)) s') as (earlier & last & Hc & Hr & Hf & Hp & Hn);
        [lia |].
      exists (e :: earlier), last. cbn [run_calls run_result run_pauses run_notified].
      rewrite Hc, Hr, Hp, Hn. repeat split.
      * constructor; [| done]. by apply shouldRetry_true in E as [? _].
      * cbn [imap]. rewrite Z.add_0_r. f_equal. apply imap_ext. intros i x _. cbv beta.
        unfold compose. by replace (a + Z.of_nat (S i)) with (a + 1 + Z.of_nat i) by lia.
      * cbn [imap]. rewrite Z.add_0_r. f_equal. apply imap_ext. intros i x _. cbv beta.
        unfold compose. by replace (a + Z.of_nat (S i)) with (a + 1 + Z.of_nat i) by lia.
    + exists nil, (Rejected e). repeat split. constructor.
Qed.

Lemma retryable_delay (e : Js.value) :
  je_retryable (classifyError e) = true →
  ∃ d, je_retryDelay (classifyError e) = Some d ∧ 5000 ≤ d ≤ 60000.
Proof.
  unfold classifyError.
  destruct (isRateLimit _); [intros _; exists 60000; split; [done | lia] |].
  destruct (isValidation _); [discriminate |].
  destruct (isAuth _); [discriminate |].
  destruct (isNetwork _); [intros _; exists 10000; split; [done | lia] |].
  destruct (isJudgeReject _); intros _; exists 5000; split; done || lia.
Qed.

(** With at least one attempt allowed, the wrapper invokes the function at
    least once and at most [maxAttempts] times; every invocation but the
    last was rejected with a retryable error, and the run ends with what
    the last invocation gave: its value, or its error formatted. After the
    [i]-th rejection (counting from 1) it notifies the observer with [i] and
    pauses for the delay of the error's kind (60, 10 or 5 seconds) doubled
    [i - 1] times; the base delay never applies. The pause is a double: it
    has exactly that value while the value is below [2^1024], and is
    [Infinity] from there on. The closing error
    ("Unknown error after retries") is raised only when no attempt is
    allowed, and then the function is never invoked. *)
Theorem withRetry_run (s : St) :
  let r := withRetry fn maxAttempts context s in
  (1 ≤ maxAttempts →
     ∃ (earlier : list Js.value) (last : outcome T),
       run_calls r = (Rejected <$> earlier) ++ [last] ∧
       (length earlier < Z.to_nat maxAttempts)%nat ∧
       run_result r = resultOf context last ∧
       Forall (λ e, je_retryable (classifyError e) = true) earlier ∧
       run_notified r = imap (λ i e, (Z.of_nat i + 1, classifyError e)) earlier ∧
       length (run_pauses r) = length earlier ∧
       ∀ (i : nat) (e : Js.value), earlier !! i = Some e →
         ∃ d pause, je_retryDelay (classifyError e) = Some d ∧ 5000 ≤ d ≤ 60000 ∧
                    run_pauses r !! i = Some pause ∧
                    (d * 2 ^ Z.of_nat i < 2 ^ 1024 →
                       Exactly pause (inject_Z (d * 2 ^ Z.of_nat i))) ∧
                    (2 ^ 1024 ≤ d * 2 ^ Z.of_nat i → pause = Js.infinity)) ∧
  (maxAttempts < 1 →
     run_calls r = [] ∧ run_state r = s ∧ run_pauses r = [] ∧
     run_result r = inr (formatErrorMessage (Js.Other "Unknown error after retries") context)).
Proof.
  intros r. subst r. unfold withRetry. split.
  - intros Hmax.
    pose proof (withRetry_loop_calls fn maxAttempts context (seqZ 1 maxAttempts) None s) as Hlen.
    rewrite length_seqZ in Hlen.
    replace maxAttempts with (Z.of_nat (S (Z.to_nat (maxAttempts - 1)))) at 2 3 4 5 6 7 by lia.
    destruct (withRetry_loop_shape (Z.to_nat (maxAttempts - 1)) 1 None s)
      as (earlier & last & Hc & Hr & Hf & Hp & Hn); [lia |].
    replace (Z.of_nat (S (Z.to_nat (maxAttempts - 1)))) with maxAttempts in * by lia.
    exists earlier, last.
    rewrite Hc, length_app, length_fmap in Hlen. simpl in Hlen.
    split; [done |]. split; [lia |]. split; [done |]. split; [done |].
    split; [rewrite Hn; apply imap_ext; intros; f_equal; lia |].
    split; [by rewrite Hp, length_imap |].
    intros i e Hi.
    destruct (retryable_delay e) as (d & Hd & Hd5).
    { by eapply (Forall_lookup_1 _ _ _ _ Hf). }
    exists d. eexists. split; [done |]. split; [done |].
    rewrite Hp, list_lookup_imap, Hi. simpl. split; [reflexivity |].
    unfold calculateRetryDelay, initialDelay. rewrite Hd.
    destruct (Z.eqb_spec d 0); [lia |].
    replace (1 + Z.of_nat i - 1) with (Z.of_nat i) by lia.
    assert (0 < d < 2 ^ 53) as Hd53.
    { split; [lia |]. apply Z.le_lt_trans with 60000; [lia | by vm_compute]. }
    destruct (times_pow2_exact d (Z.of_nat i) Hd53 ltac:(lia)) as [Hexact Hinf].
    split.
    + intros Hlt. apply (exactly_eq _ (inject_Z d * Qpower 2 (Z.of_nat i))).
      * rewrite inject_Z_mult, <- Qpower_2_nonneg by lia. reflexivity.
      * apply Hexact. by right.
    + intros Hge. apply Hinf; [lia | done].
  - intros Hmax. rewrite seqZ_nil by lia. done.
Qed.

End RetryRun.

(** ** The tracker: creation, queries and clean-up *)

Section TrackerQueries.
Import JobStatus.

(** A job can be written by the tracker exactly when [createJobStatus] has
    been called for its id. Before, every write raises "record not found"
    and changes nothing; [createJobStatus] then stores a waiting row with
    progress 0, which [getJobStatus] returns; a second [createJobStatus] for
    the id raises and changes nothing. *)
Theorem createJobStatus_tracks (w : World) (jobId : string) (jobType : JobType)
  (relatedId : string) :
  jobStatus w !! jobId = None →
  (∀ status progress errorMessage,
     updateJobStatus jobId status progress errorMessage w = (Throw (Prisma.recordNotFound w), w)) ∧
  getJobStatus jobId w = (Ok None, w) ∧
  ∃ row w',
    createJobStatus jobId jobType relatedId w = (Ok row, w') ∧
    row = mkJobStatusRow jobId jobType relatedId waiting 0 None (now w) (now w) ∧
    getJobStatus jobId w' = (Ok (Some row), w') ∧
    (∀ other, other ≠ jobId → jobStatus w' !! other = jobStatus w !! other) ∧
    (∀ jobType' relatedId',
       createJobStatus jobId jobType' relatedId' w'
         = (Throw (Prisma.uniqueConstraintFailed w'), w')) ∧
    (∀ status progress errorMessage,
       ∃ row', fst (updateJobStatus jobId status progress errorMessage w') = Ok row').
Proof.
  intros Hnone. split; [| split].
  - intros. by apply updateJobStatus_missing.
  - unfold getJobStatus, Prisma.jobStatus_findUnique. by rewrite Hnone.
  - eexists _, _. split.
    { unfold createJobStatus, Prisma.jobStatus_create. rewrite Hnone. reflexivity. }
    split; [reflexivity |].
    unfold getJobStatus, Prisma.jobStatus_findUnique, createJobStatus, Prisma.jobStatus_create.
    cbn [jobStatus set_jobStatus]. rewrite lookup_insert_eq.
    repeat split.
    + intros other Hne. by rewrite lookup_insert_ne.
    + intros status progress errorMessage. eexists.
      erewrite updateJobStatus_found; [reflexivity |].
      cbn [jobStatus set_jobStatus]. apply lookup_insert_eq.
Qed.

Lemma createJobStatus_tracks_witness :
  ∃ row w',
    createJobStatus "7" stock_ranking "ss0" emptyWorld = (Ok row, w') ∧
    getJobStatus "7" w' = (Ok (Some row), w').
Proof.
  destruct (createJobStatus_tracks emptyWorld "7" stock_ranking "ss0")
    as (_ & _ & row & w' & Hc & _ & Hg & _); [reflexivity |].
  by exists row, w'.
Defined.

(** A job that failed and is then executed again successfully ends
    completed at 100 % and still carries the message of its failure: no
    write of the tracker clears [errorMessage]. *)
Theorem errorMessage_outlives_retry (w : World) (jobId : string) (row : JobStatusRow)
  (message : string) (progress : Z) :
  jobStatus w !! jobId = Some row →
  ∃ row' w',
    (markJobFailed jobId message ;;
     markJobActive jobId 0 ;;
     updateJobProgress jobId progress ;;
     markJobCompleted jobId) w = (Ok row', w') ∧
    jobStatus w' !! jobId = Some row' ∧
    js_status row' = completed ∧
    js_progress row' = 100 ∧
    js_errorMessage row' = Some message.
Proof.
  intros Hrow. eexists _, _. split.
  { unfold bind, markJobFailed, markJobActive, updateJobProgress, markJobCompleted.
    do 4 run_found. reflexivity. }
  world_simpl. rewrite lookup_insert_eq. repeat split.
Qed.

Lemma errorMessage_outlives_retry_witness :
  ∃ row' w',
    (markJobFailed "judge-c0-1" "Judge review failed for Apple Inc.: timeout" ;;
     markJobActive "judge-c0-1" 0 ;;
     updateJobProgress "judge-c0-1" 70 ;;
     markJobCompleted "judge-c0-1")
      (set_jobStatus (insert "judge-c0-1" sampleJobStatus) emptyWorld) = (Ok row', w') ∧
    js_status row' = completed ∧
    js_errorMessage row' = Some "Judge review failed for Apple Inc.: timeout".
Proof.
  assert (jobStatus (set_jobStatus (insert "judge-c0-1" sampleJobStatus) emptyWorld)
            !! "judge-c0-1" = Some sampleJobStatus) as Hrow by (vm_compute; reflexivity).
  destruct (errorMessage_outlives_retry _ "judge-c0-1" sampleJobStatus
              "Judge review failed for Apple Inc.: timeout" 70 Hrow)
    as (row' & w' & Hrun & _ & Hs & _ & He).
  by exists row', w'.
Defined.

#[local] Instance createdNewerFirst_trans : Transitive Prisma.createdNewerFirst.
Proof. unfold Prisma.createdNewerFirst. intros a b c. lia. Qed.

#[local] Instance createdNewerFirst_total : Total Prisma.createdNewerFirst.
Proof. unfold Prisma.createdNewerFirst. intros a b. lia. Qed.

(** [getJobsByRelatedId] returns the tracked rows of the given related
    entity, all of them and no other, the most recently created first, and
    does not write. *)
Theorem getJobsByRelatedId_rows (w : World) (relatedId : string) :
  ∃ jobs,
    getJobsByRelatedId relatedId w = (Ok jobs, w) ∧
    (∀ job, job ∈ jobs ↔
            (∃ jobId, jobStatus w !! jobId = Some job) ∧ js_relatedId job = relatedId) ∧
    StronglySorted (λ a b, js_createdAt b ≤ js_createdAt a) jobs ∧
    (length jobs ≤ size (jobStatus w))%nat.
Proof.
  eexists. split; [reflexivity |]. split; [| split].
  - intros job. rewrite merge_sort_Permutation, list_elem_of_filter, list_elem_of_fmap.
    split.
    + intros [Hrel ([k row] & -> & Hin%elem_of_map_to_list)]. split; [by exists k | done].
    + intros [[k Hk] Hrel]. split; [done |]. exists (k, job). split; [done |].
      by apply elem_of_map_to_list.
  - apply (StronglySorted_merge_sort Prisma.createdNewerFirst); apply _.
  - rewrite merge_sort_Permutation. etrans; [apply length_filter |].
    by rewrite length_fmap, length_map_to_list.
Qed.

Lemma rows_filter_size {A} (P : A → Prop) `{∀ x, Decision (P x)} (m : gmap string A) :
  length (filter P (snd <$> map_to_list m)) = size (filter (λ kv, P (snd kv)) m).
Proof.
  induction m as [|i x m Hi Hfirst IH] using map_first_key_ind.
  - by rewrite map_to_list_empty, map_filter_empty, map_size_empty.
  - rewrite map_to_list_insert_first_key by done. rewrite fmap_cons, filter_cons. simpl.
    destruct (decide (P x)) as [HP | HP].
    + rewrite map_filter_insert_True by done.
      rewrite map_size_insert_None by (by rewrite map_lookup_filter_None; left).
      simpl. by rewrite IH.
    + rewrite map_filter_insert_False by done. by rewrite delete_id.
Qed.

Lemma filter_size_complement {A} (P : string * A → Prop) `{∀ x, Decision (P x)}
  (m : gmap string A) :
  (size (filter P m) + size (filter (λ kv, ¬ P kv) m) = size m)%nat.
Proof.
  rewrite <- map_size_disj_union by apply map_disjoint_filter_complement.
  by rewrite map_filter_union_complement.
Qed.

Lemma jobStatus_deleteMany_spec (where_ : JobStatusRow → bool) (w : World) :
  ∃ count w',
    Prisma.jobStatus_deleteMany where_ w = (Ok count, w') ∧
    (∀ jobId row,
       jobStatus w' !! jobId = Some row ↔ jobStatus w !! jobId = Some row ∧ where_ row = false) ∧
    (size (jobStatus w') + count = size (jobStatus w))%nat ∧
    w' = set_jobStatus (λ _, jobStatus w') w ∧
    Prisma.jobStatus_deleteMany where_ w' = (Ok 0%nat, w').
Proof.
  assert (∀ m : gmap string JobStatusRow,
            filter (λ kv, where_ (snd kv) = false) m
            = filter (λ kv, ¬ where_ (snd kv) = true) m) as Hneg.
  { intros m. apply map_filter_ext. intros k j _. simpl. by destruct (where_ j). }
  eexists _, _. split; [reflexivity |]. world_simpl.
  split; [| split; [| split]].
  - intros jobId row. by rewrite map_lookup_filter_Some.
  - rewrite (rows_filter_size (λ j, where_ j = true)), Hneg, Nat.add_comm.
    apply (filter_size_complement (λ kv, where_ (snd kv) = true)).
  - apply world_eq; reflexivity.
  - unfold Prisma.jobStatus_deleteMany. world_simpl. f_equal.
    + f_equal. rewrite (rows_filter_size (λ j, where_ j = true)).
      apply map_size_empty_iff, map_empty. intros k. apply map_lookup_filter_None.
      right. intros j [_ Hj]%map_lookup_filter_Some. simpl in *. congruence.
    + apply world_eq; world_simpl; try reflexivity.
      apply map_filter_id. by intros k j [_ Hj]%map_lookup_filter_Some.
Qed.

(** [cleanupOldJobs] deletes exactly the completed rows last updated before
    the cutoff: rows that are waiting, active or failed are never deleted,
    whatever their age. It resolves with the number of rows deleted, writes
    nothing else, and deletes nothing when it is run again at once. *)
Theorem cleanupOldJobs_deletes (daysBefore : Z → Z → Z) (daysOld : Z) (w : World) :
  let cutoffDate := daysBefore (now w) daysOld in
  ∃ count w',
    cleanupOldJobs daysBefore daysOld w = (Ok count, w') ∧
    (∀ jobId row,
       jobStatus w' !! jobId = Some row ↔
       jobStatus w !! jobId = Some row ∧
       ¬ (js_status row = completed ∧ js_updatedAt row < cutoffDate)) ∧
    (size (jobStatus w') + count = size (jobStatus w))%nat ∧
    w' = set_jobStatus (λ _, jobStatus w') w ∧
    cleanupOldJobs daysBefore daysOld w' = (Ok 0%nat, w').
Proof.
  intros cutoffDate.
  set (old := λ j : JobStatusRow,
         bool_decide (js_status j = completed) && (js_updatedAt j <? cutoffDate)).
  destruct (jobStatus_deleteMany_spec old w) as (count & w' & Hrun & Hrows & Hsize & Hw & Hagain).
  exists count, w'. split; [exact Hrun |]. split; [| split; [done | split; [done |]]].
  - intros jobId row. rewrite Hrows. unfold old.
    rewrite andb_false_iff, bool_decide_eq_false, Z.ltb_ge.
    split; intros [H1 H2]; (split; [done |]).
    + intros [? ?]. destruct H2; [done | lia].
    + destruct (decide (js_status row = completed)); [right | by left].
      destruct (Z.lt_ge_cases (js_updatedAt row) cutoffDate); [| lia]. exfalso. by apply H2.
  - unfold cleanupOldJobs, bind, get. cbv beta iota zeta.
    replace (now w') with (now w); [exact Hagain |].
    by rewrite Hw.
Qed.

End TrackerQueries.

(** ** The workers and the tracker *)

(** Unfolds a worker body down to its steps. *)
Ltac unfold_body :=
  unfold Workers.processSectorResearch, Workers.processStockRanking,
         Workers.processStockAnalysis, Workers.processJudgeReview,
         Workers.processFormatInsights, try_catch, bind,
         JobStatus.markJobActive, JobStatus.updateJobProgress,
         JobStatus.markJobCompleted, JobStatus.markJobFailed;
  cbv beta iota zeta.

Section WorkersAndTracker.
Import JobStatus Workers.

#[local] Instance trackerFrame_preorder : PreOrder TrackerFrame.
Proof.
  split.
  - intros w jobId. by destruct (jobStatus w !! jobId).
  - intros w1 w2 w3 H12 H23 jobId. specialize (H12 jobId). specialize (H23 jobId).
    destruct (jobStatus w1 !! jobId), (jobStatus w2 !! jobId), (jobStatus w3 !! jobId);
      try done.
    destruct H12 as (? & ? & ? & ? & ?), H23 as (? & ? & ? & ? & ?).
    repeat split; try congruence. tauto.
Qed.

Lemma trackerFrame_same (w w' : World) : jobStatus w' = jobStatus w → TrackerFrame w w'.
Proof. intros H jobId. rewrite H. by destruct (jobStatus w !! jobId). Qed.

Lemma trackerFrame_updateJobStatus jobId status progress errorMessage :
  Respects TrackerFrame (updateJobStatus jobId status progress errorMessage).
Proof.
  intros w r w'. unfold updateJobStatus, bind, get, Prisma.jobStatus_update.
  destruct (jobStatus w !! jobId) as [row|] eqn:E; intros [= <- <-]; [| reflexivity].
  intros k. world_simpl. destruct (decide (k = jobId)) as [-> | Hne].
  - rewrite lookup_insert_eq, E. simpl. repeat split.
    destruct errorMessage; [by eexists | done].
  - rewrite lookup_insert_ne by done. by destruct (jobStatus w !! k).
Qed.

Lemma trackerFrame_sectorAnalysis_update id status fullReport :
  Respects TrackerFrame (Prisma.sectorAnalysis_update id status fullReport).
Proof.
  intros w r w'. unfold Prisma.sectorAnalysis_update.
  destruct (sectorAnalysis w !! id); intros [= <- <-]; by apply trackerFrame_same.
Qed.

Lemma trackerFrame_subSector_create sectorAnalysisId name summary status :
  Respects TrackerFrame (Prisma.subSector_create sectorAnalysisId name summary status).
Proof.
  intros w r w'. unfold Prisma.subSector_create.
  destruct (sectorAnalysis w !! sectorAnalysisId), (subSector w !! Prisma.cuid (idSupply w));
    intros [= <- <-]; by apply trackerFrame_same.
Qed.

Lemma trackerFrame_stockAnalysisQueue_add name data jobId priority delay :
  Respects TrackerFrame (Queue.stockAnalysisQueue_add name data jobId priority delay).
Proof. intros w r w' [= <- <-]. by apply trackerFrame_same. Qed.

Lemma trackerFrame_judgeReviewQueue_add name data jobId priority delay :
  Respects TrackerFrame (Queue.judgeReviewQueue_add name data jobId priority delay).
Proof. intros w r w' [= <- <-]. by apply trackerFrame_same. Qed.

Lemma trackerFrame_formatInsightsQueue_add name data jobId priority delay :
  Respects TrackerFrame (Queue.formatInsightsQueue_add name data jobId priority delay).
Proof. intros w r w' [= <- <-]. by apply trackerFrame_same. Qed.

(** Decomposes a worker body along its control structure. *)
Ltac frame :=
  unfold processSectorResearch, processStockRanking, processStockAnalysis,
         processJudgeReview, processFormatInsights, completionCascade,
         markJobActive, updateJobProgress, markJobCompleted, markJobFailed;
  repeat first
    [ progress cbv beta zeta
    | match goal with |- PreOrder _ => typeclasses eauto end
    | apply respects_subSector_findName | apply respects_findWithSubSector
    | apply trackerFrame_updateJobStatus
    | apply trackerFrame_sectorAnalysis_update | apply trackerFrame_subSector_create
    | apply trackerFrame_stockAnalysisQueue_add
    | apply trackerFrame_judgeReviewQueue_add
    | apply trackerFrame_formatInsightsQueue_add
    | apply respects_stockAnalysis_update
    | apply respects_stockAnalysis_create | apply respects_stock_updateRank
    | apply respects_subSector_updateStatus
    | apply respects_try_catch | apply respects_bind | apply respects_ret
    | apply respects_throw | apply respects_throwNew
    | apply respects_throwTypeError | apply respects_get
    | apply respects_forOf | apply respects_promiseAll
    | match goal with |- Respects _ (if ?b then _ else _) => destruct b end
    | match goal with |- Respects _ (match ?x with _ => _ end) => destruct x end
    | match goal with |- ∀ _, _ => intro end
    | by apply trackerFrame_same ].

(** No worker creates or deletes a row of the tracker, changes the job id,
    the type, the related entity or the creation time of a row, or clears
    an error message: whatever a worker does to the tracker, on a normal or
    a failing execution, it does to the existing rows' status, progress,
    message and update time. *)
Theorem workers_keep_tracker_rows :
  (∀ job, Respects TrackerFrame (processSectorResearch job)) ∧
  (∀ job, Respects TrackerFrame (processStockRanking job)) ∧
  (∀ job, Respects TrackerFrame (processStockAnalysis job)) ∧
  (∀ mockApproved job, Respects TrackerFrame (processJudgeReview mockApproved job)) ∧
  (∀ job, Respects TrackerFrame (processFormatInsights job)).
Proof. repeat split; intros; frame. Qed.

Lemma processStockAnalysis_frame (job : Job StockAnalysisJobData) :
  Respects TrackerFrame (processStockAnalysis job).
Proof. frame. Qed.

Lemma processStockRanking_frame (job : Job StockRankingJobData) :
  Respects TrackerFrame (processStockRanking job).
Proof. frame. Qed.

Lemma processJudgeReview_frame (mockApproved : bool) (job : Job JudgeReviewJobData) :
  Respects TrackerFrame (processJudgeReview mockApproved job).
Proof. frame. Qed.

Lemma processFormatInsights_frame (job : Job FormatInsightsJobData) :
  Respects TrackerFrame (processFormatInsights job).
Proof. frame. Qed.

Lemma processJudgeReview_untracked (w : World) (mockApproved : bool)
  (job : Job JudgeReviewJobData) :
  jobStatus w !! job_id job = None →
  FailsUntracked (processJudgeReview mockApproved job) w.
Proof.
  intros. unfold FailsUntracked; unfold_body; run_missing.
  run_missing. eexists. by repeat split.
Qed.

(** A worker started on a job that the tracker does not know fails at its
    first step, and its handler fails in turn when it records the failure:
    the execution raises "record not found" (not the formatted error of the
    handler), adds no job to any queue and leaves the tracker as it is. *)
Theorem untracked_job_fails (w : World) :
  (∀ job, jobStatus w !! job_id job = None →
          FailsUntracked (processSectorResearch job) w) ∧
  (∀ job, jobStatus w !! job_id job = None →
          FailsUntracked (processStockRanking job) w) ∧
  (∀ job, jobStatus w !! job_id job = None →
          FailsUntracked (processStockAnalysis job) w) ∧
  (∀ mockApproved job, jobStatus w !! job_id job = None →
          FailsUntracked (processJudgeReview mockApproved job) w) ∧
  (∀ job, jobStatus w !! job_id job = None →
          FailsUntracked (processFormatInsights job) w).
Proof.
  repeat split; intros; unfold FailsUntracked; unfold_body; run_missing.
  - unfold Prisma.sectorAnalysis_update.
    destruct (sectorAnalysis w !! secjd_sectorAnalysisId (job_data job)).
    + run_missing. eexists. by repeat split.
    + eexists. by repeat split.
  - unfold Prisma.subSector_updateStatus.
    destruct (subSector w !! srjd_subSectorId (job_data job)).
    + run_missing. eexists. by repeat split.
    + eexists. by repeat split.
  - unfold Prisma.stockAnalysis_update.
    destruct (stockAnalysis w !! sajd_stockAnalysisId (job_data job)).
    + run_missing. eexists. by repeat split.
    + eexists. by repeat split.
  - run_missing. eexists. by repeat split.
  - unfold Prisma.stockAnalysis_update.
    destruct (stockAnalysis w !! fijd_stockAnalysisId (job_data job)).
    + run_missing. eexists. by repeat split.
    + eexists. by repeat split.
Qed.

(** A job that a worker hands to the next stage is tracked only if it was
    tracked before: after a successful stock analysis whose judge job has no
    row in the tracker, every execution of a job with that id fails as an
    untracked job does, whatever the verdict would be. *)
Theorem handed_over_job_untracked (job : Job StockAnalysisJobData) (w w1 : World)
  (res : StockAnalysisResult) :
  processStockAnalysis job w = (Ok res, w1) →
  jobStatus w !! sar_judgeJobId res = None →
  sar_judgeJobId res = judgeJobId (sajd_stockAnalysisId (job_data job))
                                  (sajd_attemptNumber (job_data job)) ∧
  (∃ j, j ∈ judgeReviewQueue w1 ∧ job_id j = sar_judgeJobId res) ∧
  jobStatus w1 !! sar_judgeJobId res = None ∧
  ∀ mockApproved j, job_id j = sar_judgeJobId res →
    FailsUntracked (processJudgeReview mockApproved j) w1.
Proof.
  intros Hrun Hnone.
  assert (jobStatus w1 !! sar_judgeJobId res = None) as Hnone1.
  { pose proof (processStockAnalysis_frame job w _ _ Hrun (sar_judgeJobId res)) as Hframe.
    rewrite Hnone in Hframe. by destruct (jobStatus w1 !! sar_judgeJobId res). }
  pose proof Hrun as Heffect.
  apply processStockAnalysis_effect in Heffect
    as (_ & _ & [(res' & sa & sa' & [= <-] & _ & _ & _ & Hq) | (e & [=] & _)]).
  assert (sar_judgeJobId res = judgeJobId (sajd_stockAnalysisId (job_data job))
                                          (sajd_attemptNumber (job_data job))) as Hid.
  { revert Hrun. unfold_body.
    destruct (jobStatus w !! job_id job) as [row|] eqn:Hrow;
      destruct (stockAnalysis w !! sajd_stockAnalysisId (job_data job)) as [sa0|] eqn:Hsa.
    - do 6 run_found. run_add. run_found. by intros [= <- _].
    - run_found. run_missing. run_missing. discriminate.
    - run_missing. run_found. run_missing. discriminate.
    - run_missing. run_missing. discriminate. }
  split; [exact Hid |]. split; [| split; [exact Hnone1 |]].
  - rewrite Hq, Hid. unfold Queue.add, Queue.knows. case_bool_decide as Hin.
    + apply list_elem_of_fmap in Hin as (j & Hj & Hin). by exists j.
    + exists (judgeJobOf job). split; [| done]. apply elem_of_app. right.
      apply list_elem_of_here.
  - intros mockApproved j Hj. apply processJudgeReview_untracked. by rewrite Hj.
Qed.

Lemma handed_over_job_untracked_witness :
  FailsUntracked (processJudgeReview true Sample.judge1)
    (snd (processStockAnalysis Sample.firstJob Requests.handoverWorld)).
Proof.
  destruct (handed_over_job_untracked Sample.firstJob Requests.handoverWorld
              (snd (processStockAnalysis Sample.firstJob Requests.handoverWorld))
              (mkStockAnalysisResult "c0" "judge-c0-1")) as (_ & _ & _ & Hfails).
  - vm_compute. reflexivity.
  - vm_compute. reflexivity.
  - apply (Hfails true Sample.judge1). reflexivity.
Defined.

End WorkersAndTracker.

Section StockAnalysisWorker.
Import JobStatus Workers.

(** The stock-analysis worker returns normally exactly when the tracker
    knows its job and the StockAnalysis row exists. It then leaves the
    analysis in status analyzing, with the attempt counter at the job's
    attempt number and the raw analysis stored, the review and the failure
    reason of an earlier attempt still in place; the job's tracker row is
    completed at 100 %; the one job it adds is the judge job of this
    attempt; and no other analysis changes. *)
Theorem processStockAnalysis_returns (job : Job StockAnalysisJobData) (w : World) :
  let stockAnalysisId := sajd_stockAnalysisId (job_data job) in
  let attemptNumber := sajd_attemptNumber (job_data job) in
  (∀ row sa,
     jobStatus w !! job_id job = Some row →
     stockAnalysis w !! stockAnalysisId = Some sa →
     ∃ w' row' sa',
       processStockAnalysis job w
         = (Ok (mkStockAnalysisResult stockAnalysisId (judgeJobId stockAnalysisId attemptNumber)),
            w') ∧
       jobStatus w' !! job_id job = Some row' ∧
       js_status row' = completed ∧ js_progress row' = 100 ∧
       stockAnalysis w' !! stockAnalysisId = Some sa' ∧
       sa_status sa' = "analyzing" ∧
       sa_attemptCount sa' = attemptNumber ∧
       sa_rawAnalysis sa' = mockRawAnalysis (sajd_companyName (job_data job))
                                            (sajd_ticker (job_data job)) attemptNumber ∧
       sa_judgeReview sa' = sa_judgeReview sa ∧
       sa_failureReason sa' = sa_failureReason sa ∧
       added w' = added w ++ [AddJudgeReview (judgeJobOf job)] ∧
       (∀ other, other ≠ stockAnalysisId →
                 stockAnalysis w' !! other = stockAnalysis w !! other)) ∧
  (∀ res w', processStockAnalysis job w = (Ok res, w') →
     is_Some (jobStatus w !! job_id job) ∧ is_Some (stockAnalysis w !! stockAnalysisId)).
Proof.
  intros stockAnalysisId attemptNumber. split.
  - intros row sa Hrow Hsa. eexists _, _, _. split.
    { unfold_body. do 6 run_found. run_add. run_found. reflexivity. }
    world_simpl. rewrite !lookup_insert_eq. repeat split.
    intros other Hne. by rewrite !lookup_insert_ne.
  - intros res w'. unfold_body.
    destruct (jobStatus w !! job_id job) as [row|] eqn:Hrow;
      destruct (stockAnalysis w !! sajd_stockAnalysisId (job_data job)) as [sa0|] eqn:Hsa.
    + intros _. split; [by eexists |]. subst stockAnalysisId. by rewrite Hsa.
    + run_found. run_missing. run_missing. discriminate.
    + run_missing. run_found. run_missing. discriminate.
    + run_missing. run_missing. discriminate.
Qed.

End StockAnalysisWorker.

Section FormatInsightsWorker.
Import JobStatus Workers.

(** On a tracked job whose analysis, stock and sub-sector exist, the
    format-insights worker returns the insights it stored: the analysis is
    completed and holds them, its raw analysis, review, attempt counter and
    failure reason as they were; the job is completed at 100 %; the
    sub-sector of the stock keeps its row but for the status, which is
    either as before or completed; and nothing else changes: no other
    analysis, no other sub-sector, no stock, and no job is added. *)
Theorem processFormatInsights_returns (job : Job FormatInsightsJobData) (w : World)
  (row : JobStatusRow) (sa : StockAnalysisRow) (st : StockRow) (ss : SubSectorRow) :
  let stockAnalysisId := fijd_stockAnalysisId (job_data job) in
  let insights := mockInsights (fijd_companyName (job_data job)) in
  jobStatus w !! job_id job = Some row →
  stockAnalysis w !! stockAnalysisId = Some sa →
  stock w !! sa_stockId sa = Some st →
  subSector w !! st_subSectorId st = Some ss →
  ss_id ss = st_subSectorId st →
  ∃ w' row' sa' ss',
    processFormatInsights job w = (Ok (mkFormatInsightsResult stockAnalysisId insights), w') ∧
    jobStatus w' !! job_id job = Some row' ∧
    js_status row' = completed ∧ js_progress row' = 100 ∧
    stockAnalysis w' !! stockAnalysisId = Some sa' ∧
    sa_status sa' = "completed" ∧
    sa_insights sa' = Insights insights ∧
    sa_rawAnalysis sa' = sa_rawAnalysis sa ∧
    sa_judgeReview sa' = sa_judgeReview sa ∧
    sa_attemptCount sa' = sa_attemptCount sa ∧
    sa_failureReason sa' = sa_failureReason sa ∧
    (∀ other, other ≠ stockAnalysisId →
              stockAnalysis w' !! other = stockAnalysis w !! other) ∧
    subSector w' !! ss_id ss = Some ss' ∧
    (ss' = ss ∨ ss' = approvedRow ss "completed") ∧
    (∀ other, other ≠ ss_id ss → subSector w' !! other = subSector w !! other) ∧
    stock w' = stock w ∧
    added w' = added w.
Proof.
  intros stockAnalysisId insights Hrow Hsa Hst Hss Hid. subst stockAnalysisId insights.
  rewrite Hid.
  destruct (processFormatInsights job w) as [r w'] eqn:Hrun. revert Hrun.
  unfold_worker. do 5 run_found.
  unfold completionCascade, bind, Prisma.stockAnalysis_findWithSubSector,
         Prisma.subSectorWithStocks.
  world_simpl. rewrite lookup_insert_eq.
  cbn [fmap option_fmap option_map Prisma.stockAnalysis_apply sa_stockId].
  rewrite Hst. cbn [fmap option_fmap option_map]. rewrite Hss.
  cbn [fmap option_fmap option_map Prisma.sws_stocks Prisma.sws_subSector].
  match goal with
  | |- context [allCompleted ?stocks] => destruct (allCompleted stocks)
  end.
  - unfold Prisma.subSector_updateStatus. world_simpl. rewrite Hid, Hss.
    run_add. run_found. intros [= <- <-].
    eexists _, _, _, _. split; [reflexivity |]. world_simpl.
    rewrite !lookup_insert_eq. repeat split.
    + intros other Hne. by rewrite lookup_insert_ne.
    + by right.
    + intros other Hne. by rewrite lookup_insert_ne.
  - run_add. run_found. intros [= <- <-].
    eexists _, _, _, _. split; [reflexivity |]. world_simpl.
    rewrite !lookup_insert_eq. repeat split.
    + intros other Hne. by rewrite lookup_insert_ne.
    + exact Hss.
    + by left.
Qed.

Lemma processFormatInsights_returns_witness :
  ∃ w' sa',
    processFormatInsights Sample.formatJob Sample.world
      = (Ok (mkFormatInsightsResult "c0" (mockInsights "Apple Inc.")), w') ∧
    stockAnalysis w' !! "c0" = Some sa' ∧
    sa_status sa' = "completed".
Proof.
  destruct (processFormatInsights_returns Sample.formatJob Sample.world
              (Sample.tracked "format-c0" format_insights "c0") Sample.analysis
              (mkStockRow "s0" "ss0" "Apple Inc." (Some "AAPL") 1 "Leader in devices")
              (mkSubSectorRow "ss0" "sec0" "Consumer Electronics" "Devices" "analyzing"))
    as (w' & row' & sa' & ss' & Hrun & _ & _ & _ & Hsa & Hst & _).
  - vm_compute. reflexivity.
  - vm_compute. reflexivity.
  - vm_compute. reflexivity.
  - vm_compute. reflexivity.
  - reflexivity.
  - exists w', sa'. split; [exact Hrun |]. split; [exact Hsa | exact Hst].
Defined.

End FormatInsightsWorker.

(** ** Generated identifiers *)

Section Identifiers.

Lemma to_int_proper (z : Z) :
  Z.to_int z ≠ Decimal.Pos Decimal.Nil ∧ Z.to_int z ≠ Decimal.Neg Decimal.Nil.
Proof.
  destruct z as [|p|p]; simpl; split; try discriminate;
    intros [= H]; by apply Unsigned.to_uint_nonnil in H.
Qed.

Lemma show_inj (a b : Z) : Js.show a = Js.show b → a = b.
Proof.
  unfold Js.show. intros H. apply DecimalZ.to_int_inj.
  apply (f_equal NilZero.int_of_string) in H.
  rewrite !NilZero.isi in H by apply to_int_proper. by injection H.
Qed.

Lemma cuid_inj (m n : nat) : Prisma.cuid m = Prisma.cuid n → m = n.
Proof.
  unfold Prisma.cuid. rewrite !append_cons, !append_nil_l. intros [= H].
  apply show_inj in H. lia.
Qed.

Lemma cuid_startsWith (n : nat) : Js.startsWith (Prisma.cuid n) "c" = true.
Proof. apply startsWith_spec. by eexists. Qed.

Lemma freshIdsb_sound (w : World) : freshIdsb w = true → FreshIds w.
Proof.
  unfold freshIdsb. rewrite forallb_forall. intros Hall n Hn.
  assert (∀ {A} (m : gmap string A), (∀ k, k ∈ fst <$> map_to_list m → knownKey (idSupply w) k = true) →
            m !! Prisma.cuid n = None) as Hnone.
  { intros A m Hm. destruct (m !! Prisma.cuid n) as [x|] eqn:E; [| done]. exfalso.
    specialize (Hm (Prisma.cuid n)). unfold knownKey in Hm.
    rewrite cuid_startsWith in Hm. simpl in Hm.
    assert (Prisma.cuid n ∈ Prisma.cuid <$> seq 0 (idSupply w)) as Hin.
    { apply (proj1 (bool_decide_eq_true _)), Hm, list_elem_of_fmap.
      exists (Prisma.cuid n, x). split; [done |]. by apply elem_of_map_to_list. }
    apply list_elem_of_fmap in Hin as (j & Hj%cuid_inj & Hin%elem_of_seq). lia. }
  repeat split; apply Hnone; intros k Hk; apply Hall, list_elem_of_In;
    rewrite !elem_of_app; tauto.
Qed.

Lemma stockKeyed_check (w : World) :
  forallb (λ kv, String.eqb (st_id (snd kv)) (fst kv)) (map_to_list (stock w)) = true →
  StockKeyed w.
Proof.
  rewrite forallb_forall. intros Hall k row Hk.
  apply String.eqb_eq, (Hall (k, row)), list_elem_of_In. by apply elem_of_map_to_list.
Qed.

End Identifiers.

(** ** The sector-research worker *)

Section SectorResearch.
Import JobStatus Workers.

Lemma sectorAnalysis_update_found (w : World) (id : string) (row : SectorAnalysisRow)
  (status fullReport : option string) :
  sectorAnalysis w !! id = Some row →
  Prisma.sectorAnalysis_update id status fullReport w =
    let row' := mkSectorAnalysisRow (sec_id row) (sec_userId row) (sec_sectorName row)
                  (default (sec_status row) status)
                  (default (sec_fullReport row) fullReport) in
    (Ok row', set_sectorAnalysis (insert id row') w).
Proof. intros H. unfold Prisma.sectorAnalysis_update. by rewrite H. Qed.



Lemma subSector_create_fresh (w : World) (sectorAnalysisId name summary status : string)
  (row : SectorAnalysisRow) :
  sectorAnalysis w !! sectorAnalysisId = Some row →
  subSector w !! Prisma.cuid (idSupply w) = None →
  Prisma.subSector_create sectorAnalysisId name summary status w =
    let row' := mkSubSectorRow (Prisma.cuid (idSupply w)) sectorAnalysisId name summary status in
    (Ok row', set_idSupply S (set_subSector (insert (Prisma.cuid (idSupply w)) row') w)).
Proof. intros H1 H2. unfold Prisma.subSector_create. by rewrite H1, H2. Qed.

Lemma processSectorResearch_run (job : Job SectorResearchJobData) (w : World)
  (row : JobStatusRow) (sec : SectorAnalysisRow) :
  let sectorAnalysisId := secjd_sectorAnalysisId (job_data job) in
  let sectorName := secjd_sectorName (job_data job) in
  let first := Prisma.cuid (idSupply w) in
  let second := Prisma.cuid (S (idSupply w)) in
  jobStatus w !! job_id job = Some row →
  sectorAnalysis w !! sectorAnalysisId = Some sec →
  FreshIds w →
  ∃ w' row',
    processSectorResearch job w = (Ok (mkSectorResearchResult sectorAnalysisId 2), w') ∧
    jobStatus w' !! job_id job = Some row' ∧
    js_status row' = completed ∧ js_progress row' = 100 ∧
    sectorAnalysis w' !! sectorAnalysisId
      = Some (mkSectorAnalysisRow (sec_id sec) (sec_userId sec) (sec_sectorName sec)
                                  "completed" (mockFullReport sectorName)) ∧
    subSector w' =
      <[second := mkSubSectorRow second sectorAnalysisId (sectorName +:+ " Sub-sector 2")
                                 "Placeholder summary for sub-sector 2" "pending"]>
        (<[first := mkSubSectorRow first sectorAnalysisId (sectorName +:+ " Sub-sector 1")
                                   "Placeholder summary for sub-sector 1" "pending"]>
           (subSector w)) ∧
    first ≠ second ∧
    stock w' = stock w ∧
    added w' = added w ∧
    FreshIds w'.
Proof.
  intros sectorAnalysisId sectorName first second Hrow Hsec Hfresh.
  assert (first ≠ second) as Hne by (intros H%cuid_inj; lia).
  eexists _, _. split.
  { unfold_body. run_found.
    erewrite sectorAnalysis_update_found by (world_simpl; eassumption). cbv beta iota zeta.
    do 2 run_found.
    erewrite sectorAnalysis_update_found by (world_simpl; apply lookup_insert_eq).
    cbv beta iota zeta. run_found.
    unfold mockSubSectors, forOf, bind, ret. cbv beta iota zeta.
    erewrite subSector_create_fresh;
      [| world_simpl; apply lookup_insert_eq | world_simpl; by apply Hfresh].
    cbv beta iota zeta.
    erewrite subSector_create_fresh;
      [| world_simpl; apply lookup_insert_eq
       | world_simpl; rewrite lookup_insert_ne by exact Hne; by apply Hfresh; lia].
    cbv beta iota zeta. run_found.
    erewrite sectorAnalysis_update_found by (world_simpl; apply lookup_insert_eq).
    cbv beta iota zeta. run_found. reflexivity. }
  world_simpl. rewrite !lookup_insert_eq. simpl.
  repeat (split; [done |]).
  unfold FreshIds. intros n Hn. world_simpl. destruct (Hfresh n) as (H1 & H2 & H3); [lia |].
  split; [done |]. split.
  - rewrite !lookup_insert_ne; [done | |]; intros H%cuid_inj; lia.
  - assert (secjd_sectorAnalysisId (job_data job) ≠ Prisma.cuid n) as Hx.
    { intros Hx. subst sectorAnalysisId. rewrite Hx in Hsec. congruence. }
    by rewrite !lookup_insert_ne.
Qed.

(** On a tracked job whose sector analysis exists, the sector-research
    worker returns normally: the analysis is completed and holds the
    report, two sub-sectors of it are created, both pending (waiting for
    the user's approval), and the job is completed at 100 %. It creates no
    stock and adds no job to any queue. *)
Theorem processSectorResearch_returns (job : Job SectorResearchJobData) (w : World)
  (row : JobStatusRow) (sec : SectorAnalysisRow) :
  let sectorAnalysisId := secjd_sectorAnalysisId (job_data job) in
  let sectorName := secjd_sectorName (job_data job) in
  let first := Prisma.cuid (idSupply w) in
  let second := Prisma.cuid (S (idSupply w)) in
  jobStatus w !! job_id job = Some row →
  sectorAnalysis w !! sectorAnalysisId = Some sec →
  FreshIds w →
  ∃ w' row',
    processSectorResearch job w = (Ok (mkSectorResearchResult sectorAnalysisId 2), w') ∧
    jobStatus w' !! job_id job = Some row' ∧
    js_status row' = completed ∧ js_progress row' = 100 ∧
    sectorAnalysis w' !! sectorAnalysisId
      = Some (mkSectorAnalysisRow (sec_id sec) (sec_userId sec) (sec_sectorName sec)
                                  "completed" (mockFullReport sectorName)) ∧
    subSector w' =
      <[second := mkSubSectorRow second sectorAnalysisId (sectorName +:+ " Sub-sector 2")
                                 "Placeholder summary for sub-sector 2" "pending"]>
        (<[first := mkSubSectorRow first sectorAnalysisId (sectorName +:+ " Sub-sector 1")
                                   "Placeholder summary for sub-sector 1" "pending"]>
           (subSector w)) ∧
    first ≠ second ∧
    stock w' = stock w ∧
    added w' = added w ∧
    FreshIds w'.
Proof. exact (processSectorResearch_run job w row sec). Qed.

Lemma processSectorResearch_returns_witness :
  ∃ w', processSectorResearch Requests.researchJob Requests.researchWorld
        = (Ok (mkSectorResearchResult "sec0" 2), w') ∧
        size (subSector w') = 2%nat.
Proof.
  destruct (processSectorResearch_returns Requests.researchJob Requests.researchWorld
              (Sample.tracked "1" sector_research "sec0")
              (mkSectorAnalysisRow "sec0" "u0" "Technology" "in_progress" ""))
    as (w' & row' & Hrun & _ & _ & _ & _ & Hsub & Hne & _).
  - vm_compute. reflexivity.
  - vm_compute. reflexivity.
  - apply freshIdsb_sound. vm_compute. reflexivity.
  - exists w'. split; [exact Hrun |]. rewrite Hsub.
    rewrite !map_size_insert_None; [done | done |]. by rewrite lookup_insert_ne.
Defined.


End SectorResearch.

(** ** The ranking worker *)

Section RankingWorker.
Import JobStatus Workers.

#[local] Abbreviation idOf r := (rc_id (rk_candidate r)).

Lemma find_None {A} (f : A → bool) (l : list A) :
  find f l = None ↔ ∀ x, x ∈ l → f x = false.
Proof.
  induction l as [|a l IH]; simpl.
  - split; [by intros _ x ?%elem_of_nil | done].
  - destruct (f a) eqn:E.
    + split; [done |]. intros H. specialize (H a (list_elem_of_here _ _)). congruence.
    + rewrite IH. split.
      * intros H x [-> | Hx]%elem_of_cons; [done | by apply H].
      * intros H x Hx. apply H. by apply list_elem_of_further.
Qed.

Lemma deepAnalysisOf_None (w : World) (stockId : string) :
  Prisma.deepAnalysisOf w stockId = None ↔
  ∀ k a, stockAnalysis w !! k = Some a → sa_stockId a ≠ stockId.
Proof.
  unfold Prisma.deepAnalysisOf. rewrite find_None. split.
  - intros H k a Hk Heq. specialize (H a). rewrite (proj2 (String.eqb_eq _ _) Heq) in H.
    enough (true = false) by done. apply H.
    apply list_elem_of_fmap. exists (k, a). split; [done |]. by apply elem_of_map_to_list.
  - intros H a ([k a'] & -> & Hin%elem_of_map_to_list)%list_elem_of_fmap. simpl.
    apply String.eqb_neq. by eapply H.
Qed.

Lemma stock_updateRank_found (w : World) (id : string) (rank : Z) (row : StockRow) :
  stock w !! id = Some row →
  Prisma.stock_updateRank id rank w
    = (Ok (withRank rank row), set_stock (alter (withRank rank) id) w).
Proof.
  intros H. unfold Prisma.stock_updateRank. rewrite H. unfold withRank. f_equal.
  apply world_eq; world_simpl; try reflexivity.
  apply map_eq. intros k. destruct (decide (k = id)) as [-> | Hne].
  - by rewrite lookup_insert_eq, lookup_alter_eq, H.
  - by rewrite lookup_insert_ne, lookup_alter_ne.
Qed.

Lemma forOf_ranks (ranked : list RankedCandidate) : ∀ w,
  (∀ r, r ∈ ranked → is_Some (stock w !! idOf r)) →
  forOf ranked (fun stock =>
      Prisma.stock_updateRank (rc_id (rk_candidate stock)) (rk_rank stock) ;; ret tt) w
    = (Ok tt, set_stock (rankedStocks ranked) w).
Proof.
  induction ranked as [|r rest IH]; intros w Hex.
  - simpl. unfold ret. f_equal. by apply world_eq.
  - destruct (Hex r) as [row Hrow]; [apply list_elem_of_here |].
    cbn [forOf]. unfold bind at 1. unfold bind at 1.
    rewrite (stock_updateRank_found _ _ _ row) by done. unfold ret at 1.
    rewrite IH.
    + reflexivity.
    + intros r' Hr'. world_simpl.
      destruct (Hex r') as [row' Hrow']; [by apply list_elem_of_further |].
      destruct (decide (idOf r' = idOf r)) as [-> | Hne].
      * rewrite lookup_alter_eq, Hrow. by eexists.
      * rewrite lookup_alter_ne by done. by eexists.
Qed.

Lemma rankedStocks_cons (r : RankedCandidate) (rest : list RankedCandidate)
  (m : gmap string StockRow) :
  rankedStocks (r :: rest) m = rankedStocks rest (alter (withRank (rk_rank r)) (idOf r) m).
Proof. reflexivity. Qed.

Lemma rankedStocks_other (ranked : list RankedCandidate) : ∀ m id,
  id ∉ (λ r, idOf r) <$> ranked → rankedStocks ranked m !! id = m !! id.
Proof.
  induction ranked as [|r rest IH]; intros m id Hid; [done |].
  rewrite fmap_cons, not_elem_of_cons in Hid. destruct Hid as [Hne Hrest].
  rewrite rankedStocks_cons, IH by done. by rewrite lookup_alter_ne.
Qed.

Lemma rankedStocks_lookup (ranked : list RankedCandidate) : ∀ m i r,
  NoDup ((λ r, idOf r) <$> ranked) →
  ranked !! i = Some r →
  rankedStocks ranked m !! idOf r = withRank (rk_rank r) <$> m !! idOf r.
Proof.
  induction ranked as [|r0 rest IH]; intros m i r Hnd Hi; [done |].
  rewrite fmap_cons, NoDup_cons in Hnd. destruct Hnd as [Hr0 Hnd].
  rewrite rankedStocks_cons.
  destruct i as [|i]; simpl in Hi.
  - injection Hi as ->. rewrite rankedStocks_other by done. by rewrite lookup_alter_eq.
  - rewrite (IH _ i) by done. rewrite lookup_alter_ne; [done |].
    intros Heq. apply Hr0. rewrite Heq. apply list_elem_of_fmap. exists r. split; [done |].
    by eapply list_elem_of_lookup_2.
Qed.

Lemma rankedStocks_is_Some (ranked : list RankedCandidate) : ∀ m id,
  is_Some (m !! id) → is_Some (rankedStocks ranked m !! id).
Proof.
  induction ranked as [|r rest IH]; intros m id Hid; [done |].
  rewrite rankedStocks_cons. apply IH.
  destruct (decide (id = idOf r)) as [-> | Hne].
  - rewrite lookup_alter_eq. destruct Hid as [row ->]. by eexists.
  - by rewrite lookup_alter_ne.
Qed.

Lemma create_pending (w : World) (stockId : string) :
  is_Some (stock w !! stockId) →
  Prisma.deepAnalysisOf w stockId = None →
  stockAnalysis w !! Prisma.cuid (idSupply w) = None →
  Prisma.stockAnalysis_create stockId "pending" "" "" EmptyObject 1 w
    = (Ok (pendingAnalysis (idSupply w) stockId),
       set_idSupply S
         (set_stockAnalysis
            (insert (Prisma.cuid (idSupply w)) (pendingAnalysis (idSupply w) stockId)) w)).
Proof.
  intros [row Hrow] Hda Hfresh. unfold Prisma.stockAnalysis_create.
  by rewrite Hrow, Hda, Hfresh.
Qed.

Lemma pendingAnalyses_cons (n : nat) (r : RankedCandidate) (rest : list RankedCandidate) :
  pendingAnalyses n (r :: rest) = pendingAnalysis n (idOf r) :: pendingAnalyses (S n) rest.
Proof.
  unfold pendingAnalyses. cbn [imap]. rewrite Nat.add_0_r. f_equal.
  apply imap_ext. intros k x _. unfold compose. by rewrite Nat.add_succ_r.
Qed.

Lemma createAll (ranked : list RankedCandidate) : ∀ index w,
  NoDup ((λ r, idOf r) <$> ranked) →
  (∀ r, r ∈ ranked → is_Some (stock w !! idOf r) ∧ Prisma.deepAnalysisOf w (idOf r) = None) →
  (∀ n, (idSupply w ≤ n)%nat → stockAnalysis w !! Prisma.cuid n = None) →
  promiseAllFrom index ranked
    (fun stock _ =>
       Prisma.stockAnalysis_create (rc_id (rk_candidate stock)) "pending" "" "" EmptyObject 1) w
  = (Ok (pendingAnalyses (idSupply w) ranked),
     set_idSupply (λ n, n + length ranked)%nat
       (set_stockAnalysis (withAnalyses (pendingAnalyses (idSupply w) ranked)) w)).
Proof.
  induction ranked as [|r rest IH]; intros index w Hnd Hex Hfresh.
  - simpl. unfold ret. f_equal. apply world_eq; world_simpl; try reflexivity. lia.
  - rewrite fmap_cons, NoDup_cons in Hnd. destruct Hnd as [Hr Hnd].
    destruct (Hex r) as [Hstock Hda]; [apply list_elem_of_here |].
    cbn [promiseAllFrom].
    rewrite create_pending by (done || by apply Hfresh).
    rewrite IH; [| done | |].
    + world_simpl. rewrite pendingAnalyses_cons. f_equal.
      apply world_eq; world_simpl; try reflexivity. simpl. lia.
    + intros r' Hr'. destruct (Hex r') as [Hstock' Hda']; [by apply list_elem_of_further |].
      world_simpl. split; [done |]. apply deepAnalysisOf_None. intros k a. world_simpl.
      destruct (decide (k = Prisma.cuid (idSupply w))) as [-> | Hne].
      * rewrite lookup_insert_eq. intros [= <-]. simpl. intros Heq. apply Hr.
        rewrite Heq. by apply (list_elem_of_fmap_2 (λ r, idOf r)).
      * rewrite lookup_insert_ne by done. by apply deepAnalysisOf_None.
    + intros n Hn. world_simpl. rewrite lookup_insert_ne.
      * apply Hfresh. lia.
      * intros H%cuid_inj. lia.
Qed.

Lemma addAll (subSectorName : option string) (all : list StockAnalysisRow)
  (ranked : list RankedCandidate) : ∀ index w,
  (length ranked ≤ length (drop index all))%nat →
  let jobs := zip_with (firstJobOf (nameOrUnknown subSectorName)) ranked (drop index all) in
  promiseAllFrom index ranked
    (fun stock index =>
       match all !! index with
       | Some analysis =>
           Queue.stockAnalysisQueue_add "stock-analysis"
             (mkStockAnalysisJobData
                (rc_id (rk_candidate stock))
                (sa_id analysis)
                (rc_companyName (rk_candidate stock))
                (rc_ticker (rk_candidate stock))
                (nameOrUnknown subSectorName)
                1)
             ("stock-" +:+ sa_id analysis +:+ "-attempt-1")
             (Some (rk_rank stock))
             None
       | None => throwTypeError "Cannot read properties of undefined (reading 'id')"
       end) w
  = (Ok jobs,
     set_added (λ l, l ++ (AddStockAnalysis <$> jobs))
       (set_stockAnalysisQueue (λ q, foldl (λ q j, Queue.add j q) q jobs) w)).
Proof.
  induction ranked as [|r rest IH]; intros index w Hlen jobs; subst jobs.
  - simpl. unfold ret. f_equal. apply world_eq; world_simpl; try reflexivity.
    by rewrite app_nil_r.
  - destruct (all !! index) as [a|] eqn:Ha.
    2: { apply lookup_ge_None in Ha. rewrite drop_ge in Hlen by done. simpl in Hlen. lia. }
    rewrite (drop_S _ _ _ Ha) in *. simpl in Hlen.
    cbn [promiseAllFrom zip_with]. rewrite Ha.
    unfold Queue.stockAnalysisQueue_add at 1. cbv beta iota zeta.
    rewrite IH by lia. f_equal.
    apply world_eq; world_simpl; try reflexivity.
    by rewrite fmap_cons, <- app_assoc.
Qed.

Lemma subSector_updateStatus_found (w : World) (id status : string) (row : SubSectorRow) :
  subSector w !! id = Some row →
  Prisma.subSector_updateStatus id status w =
    let row' := mkSubSectorRow (ss_id row) (ss_sectorAnalysisId row) (ss_name row)
                               (ss_summary row) status in
    (Ok row', set_subSector (insert id row') w).
Proof. intros H. unfold Prisma.subSector_updateStatus. by rewrite H. Qed.

Lemma rankSequentially_lookup (stocks : list RankingCandidate) (i : nat) (c : RankingCandidate) :
  stocks !! i = Some c →
  rankSequentially stocks !! i = Some (mkRankedCandidate c (Z.of_nat i + 1)).
Proof. intros H. unfold rankSequentially. by rewrite list_lookup_imap, H. Qed.

Lemma rankSequentially_ids (stocks : list RankingCandidate) :
  (λ r, idOf r) <$> rankSequentially stocks = rc_id <$> stocks.
Proof.
  unfold rankSequentially. apply list_eq. intros i.
  rewrite !list_lookup_fmap, list_lookup_imap. by destruct (stocks !! i).
Qed.

Lemma rankSequentially_elem (stocks : list RankingCandidate) (r : RankedCandidate) :
  r ∈ rankSequentially stocks → rk_candidate r ∈ stocks.
Proof.
  intros (i & Hi)%list_elem_of_lookup_1. unfold rankSequentially in Hi.
  rewrite list_lookup_imap in Hi. destruct (stocks !! i) as [c|] eqn:E; [| done].
  injection Hi as <-. simpl. by eapply list_elem_of_lookup_2.
Qed.

Lemma processStockRanking_run (job : Job StockRankingJobData) (w : World)
  (row : JobStatusRow) (ss : SubSectorRow) :
  let subSectorId := srjd_subSectorId (job_data job) in
  let stocks := srjd_stocks (job_data job) in
  let top5 := take 5 (rankSequentially stocks) in
  let analyses := pendingAnalyses (idSupply w) top5 in
  let jobs := zip_with (firstJobOf (nameOrUnknown (Some (ss_name ss)))) top5 analyses in
  jobStatus w !! job_id job = Some row →
  subSector w !! subSectorId = Some ss →
  NoDup (rc_id <$> stocks) →
  (∀ c, c ∈ stocks → is_Some (stock w !! rc_id c)) →
  (∀ c, c ∈ take 5 stocks → Prisma.deepAnalysisOf w (rc_id c) = None) →
  FreshIds w →
  ∃ w' row',
    processStockRanking job w
      = (Ok (mkStockRankingResult subSectorId (length stocks) (length jobs) (job_id <$> jobs)),
         w') ∧
    length jobs = (5 `min` length stocks)%nat ∧
    jobStatus w' !! job_id job = Some row' ∧
    js_status row' = completed ∧ js_progress row' = 100 ∧
    subSector w' !! subSectorId
      = Some (mkSubSectorRow (ss_id ss) (ss_sectorAnalysisId ss) (ss_name ss) (ss_summary ss)
                             "analyzing") ∧
    (∀ i c, stocks !! i = Some c →
            stock w' !! rc_id c = withRank (Z.of_nat i + 1) <$> stock w !! rc_id c) ∧
    (∀ id, id ∉ rc_id <$> stocks → stock w' !! id = stock w !! id) ∧
    stockAnalysis w' = withAnalyses analyses (stockAnalysis w) ∧
    added w' = added w ++ (AddStockAnalysis <$> jobs).
Proof.
  intros subSectorId stocks top5 analyses jobs Hrow Hss Hnd Hstocks Hda Hfresh.
  assert (length top5 = length analyses) as Hlen.
  { unfold analyses, pendingAnalyses. by rewrite length_imap. }
  eexists _, _. split.
  { unfold_body. run_found.
    erewrite subSector_updateStatus_found by (world_simpl; eassumption). cbv beta iota zeta.
    do 2 run_found.
    rewrite forOf_ranks.
    2: { intros r Hr%rankSequentially_elem. world_simpl. by apply Hstocks. }
    run_found. unfold promiseAll.
    rewrite createAll.
    2: { rewrite fmap_take, rankSequentially_ids.
         eapply sublist_NoDup; [exact Hnd | apply sublist_take]. }
    2: { intros r Hr. world_simpl. split.
         - apply rankedStocks_is_Some, Hstocks, rankSequentially_elem.
           by eapply subseteq_take.
         - apply deepAnalysisOf_None. world_simpl. apply deepAnalysisOf_None, Hda.
           apply list_elem_of_lookup_1 in Hr as [i Hi]. rewrite lookup_take_Some in Hi.
           destruct Hi as [Hi Hi5]. unfold rankSequentially in Hi.
           rewrite list_lookup_imap in Hi. fold stocks in Hi.
           destruct (stocks !! i) as [c|] eqn:E; [| done]. injection Hi as <-. simpl.
           apply list_elem_of_lookup_2 with i. by rewrite lookup_take_Some. }
    2: { intros n Hn. world_simpl. by apply Hfresh. }
    cbv beta iota zeta. run_found.
    unfold Prisma.subSector_findName. world_simpl. rewrite lookup_insert_eq. cbn [fmap option_fmap option_map ss_name].
    rewrite addAll by (rewrite drop_0; unfold pendingAnalyses; rewrite length_imap; lia).
    cbv beta iota zeta. do 2 run_found. world_simpl. rewrite drop_0. reflexivity. }
  world_simpl. rewrite !lookup_insert_eq.
  split.
  { unfold jobs. rewrite length_zip_with, <- Hlen, Nat.min_id.
    unfold top5, rankSequentially. by rewrite length_take, length_imap. }
  repeat (split; [done |]). split; [| split; [| done]].
  - intros i c Hi. erewrite <- (rankedStocks_lookup _ _ i (mkRankedCandidate c (Z.of_nat i + 1)));
      [done | by rewrite rankSequentially_ids | by apply rankSequentially_lookup].
  - intros id Hid. apply rankedStocks_other. by rewrite rankSequentially_ids.
Qed.

(** On a tracked job whose sub-sector exists, whose candidates are distinct
    stocks of the database, none of the first five with an analysis yet, the
    ranking worker returns normally. The candidate at position [i] (from 0)
    gets rank [i + 1] and no other stock changes; the sub-sector is
    analyzing; each of the first five candidates (all of them when there
    are fewer) gets a pending analysis with attempt counter 1; and the jobs
    added are, in order, one first-attempt stock-analysis job per such
    candidate, with the candidate's rank as priority, the sub-sector's name
    and the id [stock-<analysisId>-attempt-1]. The job ends completed. *)
Theorem processStockRanking_returns (job : Job StockRankingJobData) (w : World)
  (row : JobStatusRow) (ss : SubSectorRow) :
  let subSectorId := srjd_subSectorId (job_data job) in
  let stocks := srjd_stocks (job_data job) in
  let top5 := take 5 (rankSequentially stocks) in
  let analyses := pendingAnalyses (idSupply w) top5 in
  let jobs := zip_with (firstJobOf (nameOrUnknown (Some (ss_name ss)))) top5 analyses in
  jobStatus w !! job_id job = Some row →
  subSector w !! subSectorId = Some ss →
  NoDup (rc_id <$> stocks) →
  (∀ c, c ∈ stocks → is_Some (stock w !! rc_id c)) →
  (∀ c, c ∈ take 5 stocks → Prisma.deepAnalysisOf w (rc_id c) = None) →
  FreshIds w →
  ∃ w' row',
    processStockRanking job w
      = (Ok (mkStockRankingResult subSectorId (length stocks) (length jobs) (job_id <$> jobs)),
         w') ∧
    length jobs = (5 `min` length stocks)%nat ∧
    jobStatus w' !! job_id job = Some row' ∧
    js_status row' = completed ∧ js_progress row' = 100 ∧
    subSector w' !! subSectorId
      = Some (mkSubSectorRow (ss_id ss) (ss_sectorAnalysisId ss) (ss_name ss) (ss_summary ss)
                             "analyzing") ∧
    (∀ i c, stocks !! i = Some c →
            stock w' !! rc_id c = withRank (Z.of_nat i + 1) <$> stock w !! rc_id c) ∧
    (∀ id, id ∉ rc_id <$> stocks → stock w' !! id = stock w !! id) ∧
    stockAnalysis w' = withAnalyses analyses (stockAnalysis w) ∧
    added w' = added w ++ (AddStockAnalysis <$> jobs).
Proof. exact (processStockRanking_run job w row ss). Qed.

Lemma processStockRanking_returns_witness :
  ∃ result w',
    processStockRanking Sample.rankingJob Sample.rankingWorld = (Ok result, w') ∧
    srr_analysisJobsQueued result = 5%nat.
Proof.
  destruct (processStockRanking_returns Sample.rankingJob Sample.rankingWorld
              (Sample.tracked "7" stock_ranking "ss0")
              (mkSubSectorRow "ss0" "sec0" "Consumer Electronics" "Devices" "approved"))
    as (w' & row' & Hrun & Hlen & _).
  - vm_compute. reflexivity.
  - vm_compute. reflexivity.
  - apply (bool_decide_unpack _). vm_compute. exact I.
  - apply Forall_forall. apply (bool_decide_unpack _). vm_compute. exact I.
  - intros c _. vm_compute. reflexivity.
  - apply freshIdsb_sound. vm_compute. reflexivity.
  - eexists _, w'. split; [exact Hrun |]. exact Hlen.
Defined.

End RankingWorker.

(** ** Jobs the workers hand on *)

Section UntrackedAnalyses.
Import JobStatus Workers ErrorHandling.

Lemma processStockAnalysis_untracked (job : Job StockAnalysisJobData) (w : World)
  (sa : StockAnalysisRow) :
  let stockAnalysisId := sajd_stockAnalysisId (job_data job) in
  let errorMessage :=
    formatErrorMessage (Prisma.recordNotFound w)
      (Some ("Stock analysis failed for " +:+ sajd_companyName (job_data job))) in
  jobStatus w !! job_id job = None →
  stockAnalysis w !! stockAnalysisId = Some sa →
  ∃ w' sa',
    processStockAnalysis job w = (Throw (Prisma.recordNotFound w), w') ∧
    stockAnalysis w' !! stockAnalysisId = Some sa' ∧
    sa_status sa' = "review_failed" ∧
    sa_failureReason sa' = Some errorMessage ∧
    sa_attemptCount sa' = sa_attemptCount sa ∧
    sa_rawAnalysis sa' = sa_rawAnalysis sa ∧
    sa_insights sa' = sa_insights sa ∧
    jobStatus w' = jobStatus w ∧
    added w' = added w.
Proof.
  intros stockAnalysisId errorMessage Hnone Hsa. eexists _, _. split.
  { unfold_body. run_missing. run_found. run_missing. reflexivity. }
  world_simpl. rewrite lookup_insert_eq. by repeat split.
Qed.


Lemma withAnalyses_is_Some (rows : list StockAnalysisRow) : ∀ m k,
  is_Some (m !! k) ∨ k ∈ sa_id <$> rows → is_Some (withAnalyses rows m !! k).
Proof.
  induction rows as [|a rest IH]; intros m k.
  - intros [H | H%elem_of_nil]; [exact H | done].
  - cbn [withAnalyses foldl]. intros H. apply (IH (<[sa_id a := a]> m) k).
    rewrite fmap_cons, elem_of_cons in H.
    destruct (decide (k = sa_id a)) as [-> | Hne].
    + left. rewrite lookup_insert_eq. by eexists.
    + rewrite lookup_insert_ne by done. tauto.
Qed.

(** The stocks the ranking worker queues are never analysed. The worker
    adds the first-attempt jobs of the top five without tracking them, so
    (the tracker having no rows for analyses still to be created) each of
    these jobs fails at its first step when it is executed: the analysis
    ends review_failed, no judge job is added, and the error is the storage
    layer's "record not found". *)
Theorem ranked_stocks_never_analysed (job : Job StockRankingJobData) (w : World)
  (row : JobStatusRow) (ss : SubSectorRow) :
  let stocks := srjd_stocks (job_data job) in
  jobStatus w !! job_id job = Some row →
  subSector w !! srjd_subSectorId (job_data job) = Some ss →
  NoDup (rc_id <$> stocks) →
  (∀ c, c ∈ stocks → is_Some (stock w !! rc_id c)) →
  (∀ c, c ∈ take 5 stocks → Prisma.deepAnalysisOf w (rc_id c) = None) →
  FreshIds w →
  (∀ n, (idSupply w ≤ n)%nat → jobStatus w !! stockJobId (Prisma.cuid n) 1 = None) →
  ∃ result w',
    processStockRanking job w = (Ok result, w') ∧
    srr_analysisJobsQueued result = (5 `min` length stocks)%nat ∧
    length (added w') = (length (added w) + 5 `min` length stocks)%nat ∧
    ∀ queued, AddStockAnalysis queued ∈ drop (length (added w)) (added w') →
      ∃ w'' analysis,
        processStockAnalysis queued w' = (Throw (Prisma.recordNotFound w'), w'') ∧
        stockAnalysis w'' !! sajd_stockAnalysisId (job_data queued) = Some analysis ∧
        sa_status analysis = "review_failed" ∧
        added w'' = added w'.
Proof.
  intros stocks Hrow Hss Hnd Hstocks Hda Hfresh Huntracked.
  destruct (processStockRanking_run job w row ss Hrow Hss Hnd Hstocks Hda Hfresh)
    as (w' & row' & Hrun & Hlen & _ & _ & _ & _ & _ & _ & Han & Hadd).
  eexists _, w'. split; [exact Hrun |]. cbn [srr_analysisJobsQueued].
  split; [exact Hlen |].
  split; [by rewrite Hadd, length_app, length_fmap, Hlen |].
  intros queued Hq. rewrite Hadd, drop_app_length in Hq.
  apply list_elem_of_fmap in Hq as (j & [= ->] & Hj).
  apply list_elem_of_lookup_1 in Hj as [i Hi].
  apply lookup_zip_with_Some in Hi as (r & a & -> & Hr & Ha).
  unfold pendingAnalyses in Ha. rewrite list_lookup_imap in Ha.
  rewrite Hr in Ha. simpl in Ha. injection Ha as <-.
  assert (jobStatus w' !! stockJobId (Prisma.cuid (idSupply w + i)) 1 = None) as Hnone.
  { pose proof (processStockRanking_frame job w _ _ Hrun
                  (stockJobId (Prisma.cuid (idSupply w + i)) 1)) as Hframe.
    rewrite Huntracked in Hframe by lia.
    by destruct (jobStatus w' !! stockJobId (Prisma.cuid (idSupply w + i)) 1). }
  destruct (withAnalyses_is_Some
              (pendingAnalyses (idSupply w) (take 5 (rankSequentially (srjd_stocks (job_data job)))))
              (stockAnalysis w) (Prisma.cuid (idSupply w + i))) as [sa Hsa].
  { right. apply list_elem_of_fmap.
    exists (pendingAnalysis (idSupply w + i) (rc_id (rk_candidate r))). split; [done |].
    apply list_elem_of_lookup_2 with i. unfold pendingAnalyses.
    by rewrite list_lookup_imap, Hr. }
  rewrite <- Han in Hsa.
  destruct (processStockAnalysis_untracked
              (firstJobOf (nameOrUnknown (Some (ss_name ss))) r
                          (pendingAnalysis (idSupply w + i) (rc_id (rk_candidate r)))) w' sa)
    as (w'' & sa' & Hfail & Hsa' & Hst & _ & _ & _ & _ & _ & Hadded); [done | done |].
  by exists w'', sa'.
Qed.

Lemma ranked_stocks_never_analysed_witness :
  ∃ result w',
    processStockRanking Sample.rankingJob Sample.rankingWorld = (Ok result, w') ∧
    length (added w') = 5%nat.
Proof.
  destruct (ranked_stocks_never_analysed Sample.rankingJob Sample.rankingWorld
              (Sample.tracked "7" stock_ranking "ss0")
              (mkSubSectorRow "ss0" "sec0" "Consumer Electronics" "Devices" "approved"))
    as (result & w' & Hrun & _ & Hlen & _).
  - vm_compute. reflexivity.
  - vm_compute. reflexivity.
  - apply (bool_decide_unpack _). vm_compute. exact I.
  - apply Forall_forall. apply (bool_decide_unpack _). vm_compute. exact I.
  - intros c _. vm_compute. reflexivity.
  - apply freshIdsb_sound. vm_compute. reflexivity.
  - intros n _. unfold Sample.rankingWorld. cbn [jobStatus].
    rewrite lookup_insert_ne; [apply lookup_empty |].
    unfold stockJobId. rewrite append_cons. discriminate.
  - exists result, w'. split; [exact Hrun | exact Hlen].
Defined.

End UntrackedAnalyses.

(** ** The request handlers *)

Section Reanalyze.
Import JobStatus Routes.

Lemma deepAnalysisOf_insert (w : World) (f : World → World) (n : nat) (stockId : string) :
  stockAnalysis (f w) = <[Prisma.cuid n := pendingAnalysis n stockId]> (stockAnalysis w) →
  is_Some (Prisma.deepAnalysisOf (f w) stockId).
Proof.
  intros Hf. destruct (Prisma.deepAnalysisOf (f w) stockId) eqn:E; [by eexists |].
  exfalso.
  apply (proj1 (deepAnalysisOf_None _ _) E (Prisma.cuid n) (pendingAnalysis n stockId));
    [| reflexivity].
  by rewrite Hf, lookup_insert_eq.
Qed.

(** Re-analysis of a stock on request. An unknown stock gives 404, a stock
    with an analysis 400, and neither writes anything. Otherwise the
    handler creates a pending analysis with attempt counter 1, adds a
    first-attempt job that carries the stock's ticker and the name of its
    sub-sector, and tracks that job under the stock's id. When the id the
    substrate generated for the job is already in the tracker, the answer
    is 500 and the analysis and the job stay behind. Either way a second
    request for the stock is answered with 400. *)
Theorem reanalyze_responses (generatedJobId id : string) (w : World) :
  (stock w !! id = None →
     reanalyze generatedJobId id w = (Ok (JsonError 404 "Stock not found"), w)) ∧
  (is_Some (stock w !! id) → is_Some (Prisma.deepAnalysisOf w id) →
     reanalyze generatedJobId id w = (Ok (JsonError 400 alreadyAnalysed), w)) ∧
  (∀ row name,
     stock w !! id = Some row →
     Prisma.deepAnalysisOf w id = None →
     ss_name <$> subSector w !! st_subSectorId row = Some name →
     FreshIds w →
     let analysisId := Prisma.cuid (idSupply w) in
     let job := requestedJobOf generatedJobId id row analysisId name in
     ∃ response w',
       reanalyze generatedJobId id w = (Ok response, w') ∧
       stockAnalysis w' = <[analysisId := pendingAnalysis (idSupply w) id]> (stockAnalysis w) ∧
       added w' = added w ++ [AddStockAnalysis job] ∧
       stockAnalysisQueue w' = Queue.add job (stockAnalysisQueue w) ∧
       (∀ generatedJobId',
          reanalyze generatedJobId' id w' = (Ok (JsonError 400 alreadyAnalysed), w')) ∧
       match jobStatus w !! generatedJobId with
       | None =>
           response = Json200 (mkReanalyzeData generatedJobId analysisId
                                 ("Started analysis for " +:+ st_companyName row)) ∧
           jobStatus w' =
             <[generatedJobId :=
                 mkJobStatusRow generatedJobId stock_analysis id waiting 0 None (now w) (now w)]>
               (jobStatus w)
       | Some _ =>
           response = JsonError 500 "Failed to trigger stock reanalysis" ∧
           jobStatus w' = jobStatus w
       end).
Proof.
  split; [| split].
  - intros Hnone. unfold reanalyze, try_catch, bind, Prisma.stock_findWithAnalysis.
    by rewrite Hnone.
  - intros [row Hrow] [a Ha]. unfold reanalyze, try_catch, bind, Prisma.stock_findWithAnalysis.
    by rewrite Hrow, Ha.
  - intros row name Hrow Hda Hname Hfresh analysisId job.
    assert (∀ w1 : World,
              stock w1 = stock w →
              stockAnalysis w1 = <[analysisId := pendingAnalysis (idSupply w) id]> (stockAnalysis w) →
              ∀ g, reanalyze g id w1 = (Ok (JsonError 400 alreadyAnalysed), w1)) as Hagain.
    { intros w1 Hs Ha g.
      unfold reanalyze, try_catch, bind, Prisma.stock_findWithAnalysis.
      rewrite Hs, Hrow. cbn [fmap option_fmap option_map].
      destruct (deepAnalysisOf_insert w (λ _, w1) (idSupply w) id Ha) as [a ->]. done. }
    destruct (jobStatus w !! generatedJobId) as [tracked|] eqn:Htracked.
    + eexists _, _. split.
      { unfold reanalyze, try_catch, bind, Prisma.stock_findWithAnalysis.
        rewrite Hrow, Hda. cbn [fmap option_fmap option_map]. rewrite Hname.
        unfold Prisma.stockAnalysis_create. rewrite Hrow, Hda.
        rewrite (proj1 (Hfresh _ (le_n _))).
        unfold Queue.stockAnalysisQueue_add, createJobStatus, Prisma.jobStatus_create.
        cbv beta iota zeta. world_simpl. cbn [job_id Queue.newJob]. rewrite Htracked.
        reflexivity. }
      world_simpl. subst job. unfold requestedJobOf.
      repeat split. by apply Hagain.
    + eexists _, _. split.
      { unfold reanalyze, try_catch, bind, Prisma.stock_findWithAnalysis.
        rewrite Hrow, Hda. cbn [fmap option_fmap option_map]. rewrite Hname.
        unfold Prisma.stockAnalysis_create. rewrite Hrow, Hda.
        rewrite (proj1 (Hfresh _ (le_n _))).
        unfold Queue.stockAnalysisQueue_add, createJobStatus, Prisma.jobStatus_create.
        cbv beta iota zeta. world_simpl. cbn [job_id Queue.newJob]. rewrite Htracked.
        reflexivity. }
      world_simpl. subst job. unfold requestedJobOf.
      repeat split. by apply Hagain.
Qed.

End Reanalyze.

(** Unfolds a request handler down to its steps. *)
Ltac unfold_handler :=
  unfold Routes.approve, Routes.start, Routes.htry_catch, Routes.hbind, Routes.hret,
         Routes.liftW;
  cbv beta iota zeta.

Section Approve.
Import JobStatus Routes.

Lemma analyseEach_all (g : nat → string) (name : string) (stocks : list StockRow) :
  ∀ index w,
    NoDup (st_id <$> stocks) →
    (∀ s, s ∈ stocks → is_Some (stock w !! st_id s) ∧ Prisma.deepAnalysisOf w (st_id s) = None) →
    (∀ n, (idSupply w ≤ n)%nat → stockAnalysis w !! Prisma.cuid n = None) →
    NoDup (g <$> seq index (length stocks)) →
    (∀ k, (k < length stocks)%nat → jobStatus w !! g (index + k)%nat = None) →
    ∃ w',
      analyseEach g name index stocks w
        = (Ok (imap (λ k s, mkJobCreated (g (index + k)%nat) stock_analysis (Some (st_id s)))
                    stocks), w') ∧
      stockAnalysis w'
        = withAnalyses (imap (λ k s, pendingAnalysis (idSupply w + k) (st_id s)) stocks)
                       (stockAnalysis w) ∧
      idSupply w' = (idSupply w + length stocks)%nat ∧
      added w'
        = added w ++
          imap (λ k s, AddStockAnalysis
                         (requestedJobOf (g (index + k)%nat) (st_id s) s
                                         (Prisma.cuid (idSupply w + k)) name)) stocks ∧
      (∀ k s, stocks !! k = Some s →
              jobStatus w' !! g (index + k)%nat
              = Some (waitingRow (g (index + k)%nat) stock_analysis (st_id s) (now w))) ∧
      (∀ j, (∀ k, (k < length stocks)%nat → j ≠ g (index + k)%nat) →
            jobStatus w' !! j = jobStatus w !! j) ∧
      stock w' = stock w ∧ subSector w' = subSector w ∧ sectorAnalysis w' = sectorAnalysis w ∧
      judgeReviewQueue w' = judgeReviewQueue w ∧ now w' = now w.
Proof.
  induction stocks as [|s rest IH]; intros index w Hnd Hex Hfresh Hg Htr.
  - exists w. simpl. rewrite app_nil_r. repeat split; first [done | lia].
  - rewrite fmap_cons, NoDup_cons in Hnd. destruct Hnd as [Hs Hnd].
    destruct (Hex s) as [Hstock Hda]; [apply list_elem_of_here |].
    cbn [length seq] in Hg. rewrite fmap_cons, NoDup_cons in Hg. destruct Hg as [Hg0 Hg].
    pose proof (Htr 0%nat ltac:(simpl; lia)) as Htr0. rewrite Nat.add_0_r in Htr0.
    set (w1 := set_jobStatus
                 (insert (g index) (waitingRow (g index) stock_analysis (st_id s) (now w)))
                 (set_added (λ l, l ++ [AddStockAnalysis
                                          (requestedJobOf (g index) (st_id s) s
                                             (Prisma.cuid (idSupply w)) name)])
                    (set_stockAnalysisQueue
                       (Queue.add (requestedJobOf (g index) (st_id s) s
                                                  (Prisma.cuid (idSupply w)) name))
                       (set_idSupply S
                          (set_stockAnalysis
                             (insert (Prisma.cuid (idSupply w))
                                     (pendingAnalysis (idSupply w) (st_id s))) w))))).
    destruct (IH (S index) w1) as (w' & Hrun & Ha & Hi & Hadd & Htracked & Hothers & Hframe).
    + done.
    + intros s' Hs'. destruct (Hex s') as [Hstock' Hda']; [by apply list_elem_of_further |].
      subst w1. world_simpl. split; [done |]. apply deepAnalysisOf_None. intros k a. world_simpl.
      destruct (decide (k = Prisma.cuid (idSupply w))) as [-> | Hne].
      * rewrite lookup_insert_eq. intros [= <-]. simpl. intros Heq. apply Hs.
        rewrite Heq. by apply list_elem_of_fmap_2.
      * rewrite lookup_insert_ne by done. by apply deepAnalysisOf_None.
    + intros n Hn. subst w1. world_simpl. rewrite lookup_insert_ne.
      * apply Hfresh. lia.
      * intros H%cuid_inj. lia.
    + done.
    + intros k Hk. subst w1. world_simpl. rewrite lookup_insert_ne.
      * replace (S index + k)%nat with (index + S k)%nat by lia. apply Htr. simpl. lia.
      * intros Heq. apply Hg0. rewrite Heq. apply list_elem_of_fmap_2, elem_of_seq. lia.
    + exists w'. split.
      { cbn [analyseEach]. unfold bind at 1.
        rewrite create_pending by (done || by apply Hfresh).
        unfold bind at 1. unfold Queue.stockAnalysisQueue_add at 1. cbv beta iota zeta.
        unfold bind at 1. unfold createJobStatus, Prisma.jobStatus_create. world_simpl.
        cbn [job_id Queue.newJob]. rewrite Htr0.
        unfold bind at 1. cbn [sa_id pendingAnalysis].
        change (set_jobStatus _ _) with w1. rewrite Hrun. unfold ret. cbn [imap].
        rewrite Nat.add_0_r. do 3 f_equal.
        apply imap_ext. intros k x _. unfold compose. cbv beta. by rewrite Nat.add_succ_r. }
      subst w1. world_simpl. rewrite Ha, Hi, Hadd. repeat split.
      * cbn [imap]. rewrite Nat.add_0_r. unfold withAnalyses. cbn [foldl sa_id pendingAnalysis].
        f_equal. apply imap_ext. intros k x _. unfold compose. by rewrite Nat.add_succ_r.
      * simpl. lia.
      * cbn [imap]. rewrite !Nat.add_0_r, <- app_assoc. cbn [app]. do 2 f_equal.
        apply imap_ext. intros k x _. unfold compose. by rewrite !Nat.add_succ_r.
      * intros [|k] s' Hk; simpl in Hk.
        -- injection Hk as <-. rewrite Nat.add_0_r, Hothers.
           ++ world_simpl. by rewrite lookup_insert_eq.
           ++ intros k Hk Heq. apply Hg0. rewrite Heq. apply list_elem_of_fmap_2, elem_of_seq. lia.
        -- replace (index + S k)%nat with (S index + k)%nat by lia. by apply Htracked.
      * intros j Hj. rewrite Hothers.
        -- world_simpl. rewrite lookup_insert_ne; [done |].
           intros Heq. apply (Hj 0%nat); [simpl; lia |]. by rewrite Nat.add_0_r.
        -- intros k Hk. replace (S index + k)%nat with (index + S k)%nat by lia.
           apply Hj. simpl. lia.
      * tauto.
      * tauto.
      * tauto.
      * tauto.
      * tauto.
Qed.

Lemma findWithRankedStocks_inv (w : World) (id : string) (ss : SubSectorRow)
  (stocks : list StockRow) :
  Prisma.subSector_findWithRankedStocks id w = (Ok (Some (ss, stocks)), w) →
  subSector w !! id = Some ss ∧
  stocks = merge_sort Prisma.rankAscending
             (filter (λ s, st_subSectorId s = id) (snd <$> map_to_list (stock w))).
Proof.
  unfold Prisma.subSector_findWithRankedStocks.
  destruct (subSector w !! id) as [ss'|]; simpl; [| discriminate].
  by intros [= -> <-].
Qed.

Lemma rankedStocks_rows (w : World) (id : string) (ss : SubSectorRow) (stocks : list StockRow) :
  Prisma.subSector_findWithRankedStocks id w = (Ok (Some (ss, stocks)), w) →
  StockKeyed w →
  NoDup (st_id <$> stocks) ∧
  ∀ s, s ∈ stocks → stock w !! st_id s = Some s ∧ st_subSectorId s = id.
Proof.
  intros [_ ->]%findWithRankedStocks_inv Hkeyed. split.
  - rewrite merge_sort_Permutation.
    eapply (sublist_NoDup _ (st_id <$> (snd <$> map_to_list (stock w)))).
    + replace (st_id <$> (snd <$> map_to_list (stock w)))
        with (fst <$> map_to_list (stock w)); [apply NoDup_fst_map_to_list |].
      rewrite <- list_fmap_compose. apply list_fmap_ext.
      intros i [k row] Hi. simpl. symmetry. apply Hkeyed.
      apply elem_of_map_to_list. by eapply list_elem_of_lookup_2.
    + apply fmap_sublist, sublist_filter.
  - intros s. rewrite merge_sort_Permutation, list_elem_of_filter, list_elem_of_fmap.
    intros [Hss ([k row] & -> & Hin%elem_of_map_to_list)]. simpl in *.
    split; [| done]. by rewrite (Hkeyed _ _ Hin).
Qed.

Lemma approve_adds_ranking (generatedJobId : nat → string) (id : string) (s : Site)
  (ss : SubSectorRow) (stocks : list StockRow) :
  let w := site_world s in
  let jobId := generatedJobId 0%nat in
  Prisma.subSector_findWithRankedStocks id w = (Ok (Some (ss, stocks)), w) →
  needsRanking stocks = true →
  jobStatus w !! jobId = None →
  approve generatedJobId id s
    = (Ok (Json200 (mkApproveData id [mkJobCreated jobId stock_ranking None]
                      "Stock ranking job created")),
       mkSite
         (set_jobStatus (insert jobId (waitingRow jobId stock_ranking id (now w)))
            (set_subSector (insert id (approvedRow ss "approved")) w))
         (sectorResearchQueue s)
         (Queue.add (Queue.newJob "stock-ranking"
                       (mkStockRankingJobData id (candidateOf <$> stocks)) jobId None None)
                    (stockRankingQueue s))).
Proof.
  intros w jobId Hfind Hneeds Huntracked. destruct s as [w0 q1 q2]. simpl in w. subst w jobId.
  pose proof Hfind as [Hss _]%findWithRankedStocks_inv.
  unfold_handler. cbn [site_world].
  rewrite Hfind. cbn [fst snd site_world sectorResearchQueue stockRankingQueue].
  rewrite (subSector_updateStatus_found _ _ _ ss) by done.
  cbn [fst snd site_world sectorResearchQueue stockRankingQueue]. rewrite Hneeds.
  unfold stockRankingQueue_add. cbv beta iota zeta.
  cbn [fst snd site_world sectorResearchQueue stockRankingQueue job_id Queue.newJob].
  unfold createJobStatus, Prisma.jobStatus_create. world_simpl.
  rewrite Huntracked. reflexivity.
Qed.
(** Approval of a sub-sector. An unknown sub-sector gives 404 and nothing
    is written. A sub-sector with an unranked stock (rank 0) is set to
    approved and one ranking job is added, whose candidates are all the
    stocks of the sub-sector by ascending rank, tracked under the
    sub-sector's id; no analysis is created and no analysis job is added.
    A sub-sector without stocks is set to approved and no job is added. *)
Theorem approve_unranked (generatedJobId : nat → string) (id : string) (s : Site) :
  let w := site_world s in
  (subSector w !! id = None →
     approve generatedJobId id s = (Ok (JsonError 404 "Sub-sector not found"), s)) ∧
  (∀ ss stocks,
     Prisma.subSector_findWithRankedStocks id w = (Ok (Some (ss, stocks)), w) →
     (needsRanking stocks = true ↔ ∃ stock, stock ∈ stocks ∧ st_rank stock = 0) ∧
     (needsRanking stocks = true →
      jobStatus w !! generatedJobId 0%nat = None →
      let jobId := generatedJobId 0%nat in
      approve generatedJobId id s
        = (Ok (Json200 (mkApproveData id [mkJobCreated jobId stock_ranking None]
                          "Stock ranking job created")),
           mkSite
             (set_jobStatus (insert jobId (waitingRow jobId stock_ranking id (now w)))
                (set_subSector (insert id (approvedRow ss "approved")) w))
             (sectorResearchQueue s)
             (Queue.add (Queue.newJob "stock-ranking"
                           (mkStockRankingJobData id (candidateOf <$> stocks)) jobId None None)
                        (stockRankingQueue s)))) ∧
     (stocks = [] →
      approve generatedJobId id s
        = (Ok (Json200 (mkApproveData id [] "0 stock analysis jobs created for top 0 stocks")),
           mkSite (set_subSector (insert id (approvedRow ss "approved")) w)
                  (sectorResearchQueue s) (stockRankingQueue s)))).
Proof.
  intros w. destruct s as [w0 q1 q2]. simpl in w. subst w. split.
  - intros Hnone. unfold_handler. unfold Prisma.subSector_findWithRankedStocks.
    cbn [site_world]. by rewrite Hnone.
  - intros ss stocks Hfind. pose proof Hfind as [Hss _]%findWithRankedStocks_inv.
    split; [| split].
    + unfold needsRanking. rewrite andb_true_iff, existsb_exists. split.
      * intros [_ (x & Hx%list_elem_of_In & Hr%Z.eqb_eq)]. by exists x.
      * intros (x & Hx & Hr). split.
        -- destruct stocks; [by apply elem_of_nil in Hx | done].
        -- exists x. split; [by apply list_elem_of_In | by apply Z.eqb_eq].
    + intros Hneeds Huntracked jobId. subst jobId.
      by apply (approve_adds_ranking generatedJobId id (mkSite w0 q1 q2) ss stocks).
    + intros ->. unfold_handler. cbn [site_world].
      rewrite Hfind. cbn [fst snd site_world sectorResearchQueue stockRankingQueue].
      rewrite (subSector_updateStatus_found _ _ _ ss) by done.
      reflexivity.
Qed.

#[local] Instance rankAscending_trans : Transitive Prisma.rankAscending.
Proof. unfold Prisma.rankAscending. intros a b c. lia. Qed.

#[local] Instance rankAscending_total : Total Prisma.rankAscending.
Proof. unfold Prisma.rankAscending. intros a b. lia. Qed.

(** Approval of a sub-sector whose stocks are all ranked (no rank 0). The
    stocks are taken by ascending rank and the first five (all, when there
    are fewer) are analysed: each gets a pending analysis with attempt
    counter 1, a first-attempt job that carries its ticker and the name of
    the sub-sector, and a tracker row for that job under the stock's id.
    The sub-sector ends analyzing and the answer lists the jobs. *)
Theorem approve_ranked (generatedJobId : nat → string) (id : string) (s : Site)
  (ss : SubSectorRow) (stocks : list StockRow) :
  let w := site_world s in
  let top5 := take 5 stocks in
  let created :=
    imap (λ k stock, mkJobCreated (generatedJobId k) stock_analysis (Some (st_id stock))) top5 in
  Prisma.subSector_findWithRankedStocks id w = (Ok (Some (ss, stocks)), w) →
  stocks ≠ [] →
  (∀ stock, stock ∈ stocks → st_rank stock ≠ 0) →
  StockKeyed w →
  (∀ stock, stock ∈ top5 → Prisma.deepAnalysisOf w (st_id stock) = None) →
  FreshIds w →
  NoDup (generatedJobId <$> seq 0 (length top5)) →
  (∀ k, (k < length top5)%nat → jobStatus w !! generatedJobId k = None) →
  ∃ s',
    approve generatedJobId id s
      = (Ok (Json200 (mkApproveData id created (analysisMessage created))), s') ∧
    length created = (5 `min` length stocks)%nat ∧
    StronglySorted (λ a b, st_rank a ≤ st_rank b) stocks ∧
    subSector (site_world s') !! id = Some (approvedRow ss "analyzing") ∧
    stockAnalysis (site_world s')
      = withAnalyses (imap (λ k stock, pendingAnalysis (idSupply w + k) (st_id stock)) top5)
                     (stockAnalysis w) ∧
    added (site_world s')
      = added w ++
        imap (λ k stock,
                AddStockAnalysis
                  (requestedJobOf (generatedJobId k) (st_id stock) stock
                                  (Prisma.cuid (idSupply w + k)) (ss_name ss))) top5 ∧
    (∀ k stock, top5 !! k = Some stock →
       jobStatus (site_world s') !! generatedJobId k
       = Some (waitingRow (generatedJobId k) stock_analysis (st_id stock) (now w))) ∧
    stock (site_world s') = stock w ∧
    stockRankingQueue s' = stockRankingQueue s ∧
    sectorResearchQueue s' = sectorResearchQueue s.
Proof.
  intros w top5 created Hfind Hne Hranked Hkeyed Hda Hfresh Hg Htr.
  destruct s as [w0 q1 q2]. simpl in w. subst w created top5.
  pose proof Hfind as [Hss Hsorted]%findWithRankedStocks_inv.
  destruct (rankedStocks_rows _ _ _ _ Hfind Hkeyed) as [Hnd Hrows].
  assert (needsRanking stocks = false) as Hneeds.
  { unfold needsRanking. apply andb_false_iff. right.
    destruct (existsb _ stocks) eqn:E; [| done].
    apply existsb_exists in E as (x & Hx%list_elem_of_In & Hr%Z.eqb_eq). by apply Hranked in Hx. }
  assert ((0 <? length stocks)%nat = true) as Hlen.
  { apply Nat.ltb_lt. destruct stocks; [done | simpl; lia]. }
  set (w1 := set_subSector (insert id (approvedRow ss "approved")) w0).
  destruct (analyseEach_all generatedJobId (ss_name ss) (take 5 stocks) 0 w1)
    as (w2 & Hrun & Ha & Hi & Hadd & Htracked & Hothers & Hst & Hsub & Hsec & Hjq & Hnow).
  { rewrite fmap_take. eapply sublist_NoDup; [exact Hnd | apply sublist_take]. }
  { intros x Hx. subst w1. world_simpl. split.
    - destruct (Hrows x) as [-> _]; [by eapply subseteq_take | by eexists].
    - apply deepAnalysisOf_None. world_simpl. apply deepAnalysisOf_None. by apply Hda. }
  { intros n Hn. subst w1. world_simpl. by apply Hfresh. }
  { done. }
  { intros k Hk. subst w1. world_simpl. by apply Htr. }
  eexists. split.
  { unfold_handler. cbn [site_world].
    rewrite Hfind. cbn [fst snd site_world sectorResearchQueue stockRankingQueue].
    rewrite (subSector_updateStatus_found _ _ _ ss) by done.
    cbn [fst snd site_world sectorResearchQueue stockRankingQueue]. rewrite Hneeds, Hlen.
    change (set_subSector _ w0) with w1.
    cbn [fst snd site_world sectorResearchQueue stockRankingQueue]. rewrite Hrun.
    cbn [fst snd site_world sectorResearchQueue stockRankingQueue].
    rewrite (subSector_updateStatus_found _ _ _ (approvedRow ss "approved")).
    2: { rewrite Hsub. subst w1. world_simpl. apply lookup_insert_eq. }
    reflexivity. }
  cbn [fst snd site_world sectorResearchQueue stockRankingQueue]. world_simpl.
  rewrite lookup_insert_eq.
  split; [by rewrite length_imap, length_take |].
  split; [rewrite Hsorted; apply (StronglySorted_merge_sort Prisma.rankAscending); apply _ |].
  split; [done |]. subst w1. world_simpl.
  split; [done |]. split; [done |]. split; [| done].
  intros k stock Hk. by apply (Htracked k stock).
Qed.

Lemma approve_ranked_witness :
  ∃ s',
    approve Requests.counter "ss0" Requests.rankedSite
      = (Ok (Json200 (mkApproveData "ss0"
                        [mkJobCreated "1" stock_analysis (Some "s0");
                         mkJobCreated "2" stock_analysis (Some "s1")]
                        "2 stock analysis jobs created for top 2 stocks")), s') ∧
    subSector (site_world s') !! "ss0"
      = Some (approvedRow Requests.pendingSubSector "analyzing").
Proof.
  destruct (approve_ranked Requests.counter "ss0" Requests.rankedSite
              Requests.pendingSubSector [Requests.apple; Requests.sonos])
    as (s' & Hrun & _ & _ & Hsub & _).
  - vm_compute. reflexivity.
  - discriminate.
  - apply Forall_forall. apply (bool_decide_unpack _). vm_compute. exact I.
  - apply stockKeyed_check. vm_compute. reflexivity.
  - intros x _. vm_compute. reflexivity.
  - apply freshIdsb_sound. vm_compute. reflexivity.
  - apply (bool_decide_unpack _). vm_compute. exact I.
  - intros k _. apply lookup_empty.
  - exists s'. split; [exact Hrun | exact Hsub].
Defined.

End Approve.

Section Start.
Import JobStatus Routes Workers.

(** Start of a sector analysis. A body the schema rejects is answered with
    400 and the schema's message, and nothing is written. An accepted name
    creates the sector analysis, in progress and with an empty report, under
    the demo user, adds the research job and tracks it under the analysis'
    id. Executing that job then succeeds: the analysis is completed, holds
    the report and has two pending sub-sectors, and neither a stock nor a
    further job exists for it. *)
Theorem start_then_research (generatedJobId sectorName : string) (s : Site) :
  let w := site_world s in
  let id := Prisma.cuid (idSupply w) in
  let job := Queue.newJob "sector-research"
               (mkSectorResearchJobData id demoUser sectorName) generatedJobId None None in
  (∀ message, start generatedJobId (inl message) s = (Ok (JsonError 400 message), s)) ∧
  (FreshIds w →
   jobStatus w !! generatedJobId = None →
   ∃ s',
     start generatedJobId (inr sectorName) s
       = (Ok (Json200 (mkStartData id "in_progress"
                         ("Started analysis for sector: " +:+ sectorName))), s') ∧
     sectorResearchQueue s' = Queue.add job (sectorResearchQueue s) ∧
     stockRankingQueue s' = stockRankingQueue s ∧
     site_world s'
       = set_jobStatus (insert generatedJobId (waitingRow generatedJobId sector_research id (now w)))
           (set_idSupply S
              (set_sectorAnalysis
                 (insert id (mkSectorAnalysisRow id demoUser sectorName "in_progress"
                                                 "")) w)) ∧
     ∃ w' row',
       processSectorResearch job (site_world s')
         = (Ok (mkSectorResearchResult id 2), w') ∧
       jobStatus w' !! generatedJobId = Some row' ∧
       js_status row' = completed ∧ js_progress row' = 100 ∧
       sectorAnalysis w' !! id
         = Some (mkSectorAnalysisRow id demoUser sectorName "completed"
                                     (mockFullReport sectorName)) ∧
       (∀ k ss, subSector w' !! k = Some ss →
                subSector w !! k = Some ss ∨
                (ss_sectorAnalysisId ss = id ∧ ss_status ss = "pending")) ∧
       size (subSector w') = (size (subSector w) + 2)%nat ∧
       stock w' = stock w ∧
       added w' = added w).
Proof.
  intros w id job. destruct s as [w0 q1 q2]. simpl in w. subst w. split.
  - intros message. reflexivity.
  - intros Hfresh Huntracked.
    set (w1 := set_jobStatus
                 (insert generatedJobId
                         (waitingRow generatedJobId sector_research id (now w0)))
                 (set_idSupply S
                    (set_sectorAnalysis
                       (insert id (mkSectorAnalysisRow id demoUser sectorName "in_progress" ""))
                       w0))).
    assert (start generatedJobId (inr sectorName) (mkSite w0 q1 q2)
            = (Ok (Json200 (mkStartData id "in_progress"
                              ("Started analysis for sector: " +:+ sectorName))),
               mkSite w1 (Queue.add job q1) q2)) as Hstart.
    { unfold_handler. cbn [site_world].
      unfold Prisma.sectorAnalysis_create. rewrite (proj2 (proj2 (Hfresh _ (le_n _)))).
      cbn [fst snd site_world sectorResearchQueue stockRankingQueue].
      unfold sectorResearchQueue_add. cbv beta iota zeta.
      cbn [fst snd site_world sectorResearchQueue stockRankingQueue job_id Queue.newJob sec_id].
      unfold createJobStatus, Prisma.jobStatus_create. world_simpl.
      rewrite Huntracked. reflexivity. }
    exists (mkSite w1 (Queue.add job q1) q2). split; [exact Hstart |].
    split; [done |]. split; [done |]. split; [done |].
    destruct (processSectorResearch_run job w1
                (waitingRow generatedJobId sector_research id (now w0))
                (mkSectorAnalysisRow id demoUser sectorName "in_progress" ""))
      as (w' & row' & Hrun & Hrow' & Hst & Hpr & Hsec & Hsub & Hne & Hstock & Hadded & _).
    { subst w1. world_simpl. apply lookup_insert_eq. }
    { subst w1. world_simpl. apply lookup_insert_eq. }
    { intros n Hn. subst w1. world_simpl. destruct (Hfresh n) as (H1 & H2 & H3); [lia |].
      split; [done |]. split; [done |]. rewrite lookup_insert_ne; [done |].
      intros H%cuid_inj. lia. }
    exists w', row'. split; [exact Hrun |].
    split; [exact Hrow' |]. split; [done |]. split; [done |].
    split; [exact Hsec |].
    subst w1. world_simpl. cbn [job_data Queue.newJob secjd_sectorAnalysisId] in Hsub.
    destruct (Hfresh (S (idSupply w0))) as (_ & Hf1 & _); [lia |].
    destruct (Hfresh (S (S (idSupply w0)))) as (_ & Hf2 & _); [lia |].
    split; [| split; [| done]].
    + intros k ss. rewrite Hsub.
      destruct (decide (k = Prisma.cuid (S (S (idSupply w0))))) as [-> | Hk2].
      { rewrite lookup_insert_eq. intros [= <-]. by right. }
      rewrite lookup_insert_ne by done.
      destruct (decide (k = Prisma.cuid (S (idSupply w0)))) as [-> | Hk1].
      { rewrite lookup_insert_eq. intros [= <-]. by right. }
      rewrite lookup_insert_ne by done. by left.
    + rewrite Hsub. rewrite !map_size_insert_None; [lia | done |].
      by rewrite lookup_insert_ne.
Qed.

End Start.

Section ApproveThenRank.
Import JobStatus Routes Workers.

Lemma imap_ranks {A} (l : list A) (a : Z) :
  imap (λ i _, a + Z.of_nat i) l = seqZ a (Z.of_nat (length l)).
Proof.
  revert a. induction l as [|x l IH]; intros a; [done |].
  cbn [imap length]. rewrite seqZ_cons by lia. rewrite Z.add_0_r. f_equal.
  replace (Z.pred (Z.of_nat (S (length l)))) with (Z.of_nat (length l)) by lia.
  rewrite <- IH. apply imap_ext. intros i y _. unfold compose. lia.
Qed.

(** The stocks of a sub-sector after the ranking that its approval
    triggered. *)
Lemma ranked_rows (w w' : World) (id : string) (stocks : list StockRow) :
  StockKeyed w →
  NoDup (st_id <$> stocks) →
  (∀ s, s ∈ stocks ↔ (∃ k, stock w !! k = Some s) ∧ st_subSectorId s = id) →
  (∀ i s, stocks !! i = Some s →
          stock w' !! st_id s = withRank (Z.of_nat i + 1) <$> stock w !! st_id s) →
  (∀ k, k ∉ st_id <$> stocks → stock w' !! k = stock w !! k) →
  filter (λ s, st_subSectorId s = id) (snd <$> map_to_list (stock w'))
    ≡ₚ imap (λ i s, withRank (Z.of_nat i + 1) s) stocks.
Proof.
  intros Hkeyed Hnd Hall Hranked Hothers.
  assert (∀ i s, stocks !! i = Some s → stock w !! st_id s = Some s) as Hrow.
  { intros i s Hi. destruct (proj1 (Hall s)) as [[k Hk] _]; [by eapply list_elem_of_lookup_2 |].
    by rewrite (Hkeyed _ _ Hk). }
  assert (StockKeyed w') as Hkeyed'.
  { intros k row Hk. destruct (decide (k ∈ st_id <$> stocks)) as [Hin | Hout].
    - apply list_elem_of_fmap in Hin as (s & -> & Hs).
      apply list_elem_of_lookup_1 in Hs as [i Hi].
      rewrite (Hranked i s Hi), (Hrow i s Hi) in Hk. by injection Hk as <-.
    - rewrite Hothers in Hk by done. by apply Hkeyed. }
  apply NoDup_Permutation.
  - apply NoDup_filter. apply (NoDup_fmap_1 st_id).
    replace (st_id <$> (snd <$> map_to_list (stock w')))
      with (fst <$> map_to_list (stock w')); [apply NoDup_fst_map_to_list |].
    rewrite <- list_fmap_compose. apply list_fmap_ext.
    intros i [k row] Hi. simpl. symmetry. apply Hkeyed'.
    apply elem_of_map_to_list. by eapply list_elem_of_lookup_2.
  - apply (NoDup_fmap_1 st_id).
    replace (st_id <$> imap (λ i s, withRank (Z.of_nat i + 1) s) stocks)
      with (st_id <$> stocks); [done |].
    apply list_eq. intros i. rewrite !list_lookup_fmap, list_lookup_imap.
    by destruct (stocks !! i).
  - intros x. rewrite list_elem_of_filter, list_elem_of_fmap. split.
    + intros [Hsub ([k row] & -> & Hk%elem_of_map_to_list)]. simpl in *.
      destruct (decide (k ∈ st_id <$> stocks)) as [Hin | Hout].
      * apply list_elem_of_fmap in Hin as (s & -> & Hs).
        apply list_elem_of_lookup_1 in Hs as [i Hi].
        rewrite (Hranked i s Hi), (Hrow i s Hi) in Hk. injection Hk as <-.
        apply list_elem_of_lookup_2 with i. by rewrite list_lookup_imap, Hi.
      * rewrite Hothers in Hk by done. exfalso. apply Hout.
        rewrite <- (Hkeyed _ _ Hk). apply list_elem_of_fmap_2. apply Hall.
        split; [by exists k | done].
    + intros (i & Hi)%list_elem_of_lookup_1. rewrite list_lookup_imap in Hi.
      destruct (stocks !! i) as [s|] eqn:E; [| done]. injection Hi as <-.
      split.
      * simpl. by apply Hall, list_elem_of_lookup_2 with i.
      * exists (st_id s, withRank (Z.of_nat i + 1) s). split; [done |].
        apply elem_of_map_to_list. by rewrite (Hranked i s E), (Hrow i s E).
Qed.

(** Approval of a sub-sector with an unranked stock, followed by the
    execution of the ranking job it added: the job succeeds, and the stocks
    of the sub-sector then carry the ranks 1, 2, ..., N, each once, in the
    order the approval listed them; the sub-sector is analyzing and the
    first five stocks have a queued first analysis. *)
Theorem approve_then_rank (generatedJobId : nat → string) (id : string) (s : Site)
  (ss : SubSectorRow) (stocks : list StockRow) :
  let w := site_world s in
  let rankingJob :=
    Queue.newJob "stock-ranking" (mkStockRankingJobData id (candidateOf <$> stocks))
                 (generatedJobId 0%nat) None None in
  Prisma.subSector_findWithRankedStocks id w = (Ok (Some (ss, stocks)), w) →
  needsRanking stocks = true →
  jobStatus w !! generatedJobId 0%nat = None →
  StockKeyed w →
  (∀ row, row ∈ take 5 stocks → Prisma.deepAnalysisOf w (st_id row) = None) →
  FreshIds w →
  ∃ response s' result w',
    approve generatedJobId id s = (Ok response, s') ∧
    stockRankingQueue s' = Queue.add rankingJob (stockRankingQueue s) ∧
    processStockRanking rankingJob (site_world s') = (Ok result, w') ∧
    srr_totalStocks result = length stocks ∧
    srr_analysisJobsQueued result = (5 `min` length stocks)%nat ∧
    length (Prisma.stocksOf w' id) = length stocks ∧
    RankedOneToN (Prisma.stocksOf w' id) ∧
    (∀ i row, stocks !! i = Some row →
              stock w' !! st_id row = Some (withRank (Z.of_nat i + 1) row)) ∧
    ss_status <$> subSector w' !! id = Some "analyzing".
Proof.
  intros w rankingJob Hfind Hneeds Huntracked Hkeyed Hda Hfresh.
  pose proof Hfind as [Hss Hsorted]%findWithRankedStocks_inv.
  destruct (rankedStocks_rows _ _ _ _ Hfind Hkeyed) as [Hnd Hrows].
  pose proof (approve_adds_ranking generatedJobId id s ss stocks Hfind Hneeds Huntracked)
    as Hrun.
  cbv zeta in Hrun. fold w in Hrun.
  set (w1 := set_jobStatus
               (insert (generatedJobId 0%nat)
                       (waitingRow (generatedJobId 0%nat) stock_ranking id (now w)))
               (set_subSector (insert id (approvedRow ss "approved")) w)) in *.
  assert (rc_id <$> (candidateOf <$> stocks) = st_id <$> stocks) as Hids.
  { rewrite <- list_fmap_compose. by apply list_fmap_ext. }
  destruct (processStockRanking_run rankingJob w1
              (waitingRow (generatedJobId 0%nat) stock_ranking id (now w))
              (approvedRow ss "approved"))
    as (w' & row' & Hrank & Hlen & _ & _ & _ & Hsub & Hranks & Hothers & _).
  { subst w1. world_simpl. apply lookup_insert_eq. }
  { subst w1. world_simpl. apply lookup_insert_eq. }
  { cbn [job_data Queue.newJob srjd_stocks rankingJob]. by rewrite Hids. }
  { cbn [job_data Queue.newJob srjd_stocks rankingJob].
    intros c (x & -> & Hx)%list_elem_of_fmap. subst w1. world_simpl. simpl.
    destruct (Hrows x Hx) as [-> _]. by eexists. }
  { cbn [job_data Queue.newJob srjd_stocks rankingJob].
    rewrite <- fmap_take. intros c (x & -> & Hx)%list_elem_of_fmap.
    apply deepAnalysisOf_None. subst w1. world_simpl. apply deepAnalysisOf_None.
    by apply Hda. }
  { intros n Hn. subst w1. world_simpl. destruct (Hfresh n) as (H1 & H2 & H3); [lia |].
    split; [done |]. split; [| done]. rewrite lookup_insert_ne; [done |].
    intros ->. fold w in Hss. congruence. }
  cbn [job_data Queue.newJob srjd_stocks srjd_subSectorId rankingJob] in *.
  assert (∀ i row, stocks !! i = Some row →
            stock w' !! st_id row = Some (withRank (Z.of_nat i + 1) row)) as Hranked.
  { intros i x Hi.
    pose proof (Hranks i (candidateOf x)) as Hx. rewrite list_lookup_fmap, Hi in Hx.
    specialize (Hx eq_refl). cbn [rc_id candidateOf] in Hx. rewrite Hx.
    subst w1. world_simpl.
    destruct (Hrows x) as [-> _]; [by eapply list_elem_of_lookup_2 | done]. }
  assert (filter (λ s, st_subSectorId s = id) (snd <$> map_to_list (stock w'))
            ≡ₚ imap (λ i s, withRank (Z.of_nat i + 1) s) stocks) as Hperm.
  { apply (ranked_rows w w' id stocks Hkeyed Hnd).
    - intros x. rewrite Hsorted, merge_sort_Permutation, list_elem_of_filter, list_elem_of_fmap.
      split.
      + intros [Hin ([k row] & -> & Hk%elem_of_map_to_list)]. split; [by exists k | done].
      + intros [[k Hk] Hin]. split; [done |]. exists (k, x). split; [done |].
        by apply elem_of_map_to_list.
    - intros i x Hi. rewrite (Hranked i x Hi).
      destruct (Hrows x) as [-> _]; [by eapply list_elem_of_lookup_2 | done].
    - intros k Hk. rewrite Hothers by (by rewrite Hids). subst w1. by world_simpl. }
  eexists _, _, _, w'. split; [exact Hrun |]. cbn [stockRankingQueue site_world].
  split; [done |]. split; [exact Hrank |]. cbn [srr_totalStocks srr_analysisJobsQueued].
  rewrite !length_fmap. split; [done |]. split; [by rewrite Hlen, length_fmap |].
  assert (length (Prisma.stocksOf w' id) = length stocks) as Hlength.
  { unfold Prisma.stocksOf. by rewrite length_fmap, Hperm, length_imap. }
  split; [exact Hlength |]. split; [| split; [exact Hranked |]].
  - unfold RankedOneToN. rewrite Hlength. unfold Prisma.stocksOf.
    rewrite <- list_fmap_compose.
    rewrite (list_fmap_ext (rankOf ∘ _) st_rank) by done.
    rewrite Hperm.
    replace (st_rank <$> imap (λ i s, withRank (Z.of_nat i + 1) s) stocks)
      with (imap (λ (i : nat) (_ : StockRow), 1 + Z.of_nat i) stocks).
    + by rewrite imap_ranks.
    + apply list_eq. intros i. rewrite list_lookup_fmap, !list_lookup_imap.
      destruct (stocks !! i); simpl; [f_equal; lia | done].
  - by rewrite Hsub.
Qed.

Lemma approve_then_rank_witness :
  ∃ response s' result w',
    approve Requests.counter "ss0" Requests.unrankedSite = (Ok response, s') ∧
    processStockRanking
      (Queue.newJob "stock-ranking"
         (mkStockRankingJobData "ss0"
            (candidateOf <$> [withRank 0 Requests.sonos; withRank 0 Requests.apple]))
         "1" None None) (site_world s') = (Ok result, w') ∧
    RankedOneToN (Prisma.stocksOf w' "ss0").
Proof.
  destruct (approve_then_rank Requests.counter "ss0" Requests.unrankedSite
              Requests.pendingSubSector [withRank 0 Requests.sonos; withRank 0 Requests.apple])
    as (response & s' & result & w' & Hrun & _ & Hrank & _ & _ & _ & Hranked & _).
  - vm_compute. reflexivity.
  - reflexivity.
  - apply lookup_empty.
  - apply stockKeyed_check. vm_compute. reflexivity.
  - intros x _. vm_compute. reflexivity.
  - apply freshIdsb_sound. vm_compute. reflexivity.
  - exists response, s', result, w'. split; [exact Hrun |]. split; [exact Hrank | exact Hranked].
Defined.

End ApproveThenRank.

Section StocksOfSubSector.
Import JobStatus Routes.

#[local] Instance rankAscending_transitive : Transitive Prisma.rankAscending.
Proof. unfold Prisma.rankAscending. intros a b c. lia. Qed.

#[local] Instance rankAscending_connex : Total Prisma.rankAscending.
Proof. unfold Prisma.rankAscending. intros a b. lia. Qed.

(** The stocks of a sub-sector, as the page of the sub-sector asks for
    them. An unknown sub-sector gives 404. Otherwise the answer carries the
    sub-sector's name, summary and status and its stocks: all the stocks of
    the sub-sector and no other, each once and with its analysis when it
    has one, by ascending rank. When the query itself is rejected, the
    answer is 500. The handler never writes. *)
Theorem getStocks_lists (id : string) (w : World) :
  (∀ error,
     getStocks (Some error) id w
       = (Ok (JsonError 500 "Failed to fetch subsector stocks"), w)) ∧
  (subSector w !! id = None →
     getStocks None id w = (Ok (JsonError 404 "Sub-sector not found"), w)) ∧
  (∀ ss, subSector w !! id = Some ss →
     ∃ stocks,
       getStocks None id w
         = (Ok (Json200 (mkSubSectorStocks (ss_id ss) (ss_name ss) (ss_summary ss)
                                           (ss_status ss) stocks)), w) ∧
       stocks ≡ₚ Prisma.stocksOf w id ∧
       StronglySorted (λ a b, st_rank (Prisma.swa_stock a) ≤ st_rank (Prisma.swa_stock b))
                      stocks ∧
       (∀ x, x ∈ stocks ↔
             (∃ k, stock w !! k = Some (Prisma.swa_stock x)) ∧
             st_subSectorId (Prisma.swa_stock x) = id ∧
             Prisma.swa_deepAnalysis x
               = Prisma.deepAnalysisOf w (st_id (Prisma.swa_stock x)))).
Proof.
  split; [| split].
  - reflexivity.
  - intros Hnone. unfold getStocks, try_catch, bind, Prisma.subSector_findWithRankedStocks.
    by rewrite Hnone.
  - intros ss Hss. eexists. split.
    { unfold getStocks, try_catch, bind, Prisma.subSector_findWithRankedStocks.
      rewrite Hss. reflexivity. }
    split; [| split].
    + unfold Prisma.stocksOf. by rewrite merge_sort_Permutation.
    + apply (StronglySorted_fmap _ Prisma.rankAscending); [by intros x y |].
      apply (StronglySorted_merge_sort Prisma.rankAscending); apply _.
    + intros [s a]. rewrite list_elem_of_fmap. simpl. split.
      * intros (s' & [= -> ->] & Hin). revert Hin.
        rewrite merge_sort_Permutation, list_elem_of_filter, list_elem_of_fmap.
        intros [Hsub ([k row] & -> & Hk%elem_of_map_to_list)]. split; [by exists k | done].
      * intros ([k Hk] & Hsub & ->). exists s. split; [done |].
        rewrite merge_sort_Permutation, list_elem_of_filter, list_elem_of_fmap.
        split; [done |]. exists (k, s). split; [done |]. by apply elem_of_map_to_list.
Qed.

End StocksOfSubSector.

Section RequestedAnalysis.
Import JobStatus Routes Workers.

Lemma processStockAnalysis_run (job : Job StockAnalysisJobData) (w : World)
  (row : JobStatusRow) (sa : StockAnalysisRow) :
  let stockAnalysisId := sajd_stockAnalysisId (job_data job) in
  let attemptNumber := sajd_attemptNumber (job_data job) in
  jobStatus w !! job_id job = Some row →
  stockAnalysis w !! stockAnalysisId = Some sa →
  ∃ w' row' sa',
    processStockAnalysis job w
      = (Ok (mkStockAnalysisResult stockAnalysisId (judgeJobId stockAnalysisId attemptNumber)),
         w') ∧
    jobStatus w' !! job_id job = Some row' ∧
    js_status row' = completed ∧ js_progress row' = 100 ∧
    stockAnalysis w' !! stockAnalysisId = Some sa' ∧
    sa_status sa' = "analyzing" ∧
    sa_attemptCount sa' = attemptNumber ∧
    sa_rawAnalysis sa' = mockRawAnalysis (sajd_companyName (job_data job))
                                         (sajd_ticker (job_data job)) attemptNumber ∧
    sa_judgeReview sa' = sa_judgeReview sa ∧
    sa_failureReason sa' = sa_failureReason sa ∧
    sa_stockId sa' = sa_stockId sa ∧
    added w' = added w ++ [AddJudgeReview (judgeJobOf job)] ∧
    (∀ other, other ≠ stockAnalysisId →
              stockAnalysis w' !! other = stockAnalysis w !! other).
Proof.
  intros stockAnalysisId attemptNumber Hrow Hsa. eexists _, _, _. split.
  { unfold_body. do 6 run_found. run_add. run_found. reflexivity. }
  world_simpl. rewrite !lookup_insert_eq. repeat split.
  intros other Hne. by rewrite !lookup_insert_ne.
Qed.

Lemma processJudgeReview_stops (w : World) (mockApproved : bool)
  (job : Job JudgeReviewJobData) :
  jobStatus w !! job_id job = None →
  processJudgeReview mockApproved job w = (Throw (Prisma.recordNotFound w), w).
Proof. intros. unfold_body. run_missing. run_missing. reflexivity. Qed.

Lemma trackerFrame_untracked (w w' : World) (jobId : string) :
  TrackerFrame w w' → jobStatus w !! jobId = None → jobStatus w' !! jobId = None.
Proof.
  intros Hframe Hnone. specialize (Hframe jobId). rewrite Hnone in Hframe.
  by destruct (jobStatus w' !! jobId).
Qed.

Lemma settle_ids {D} (attempts : nat) (jobId : string) (ok : bool) (q : list (Job D))
  (job : Job D) :
  job ∈ Pipeline.settle attempts jobId ok q → ∃ job', job' ∈ q ∧ job_id job = job_id job'.
Proof.
  unfold Pipeline.settle. intros (job' & -> & Hin)%list_elem_of_fmap.
  exists job'. split; [done |]. by case_decide.
Qed.

Lemma step_judgeJobsUntracked (w w' : World) :
  JudgeJobsUntracked w → Pipeline.step w w' → JudgeJobsUntracked w'.
Proof.
  intros [Hids Hnone] Hstep.
  destruct Hstep as [w job r w1 Hin Hunf Hrun | w job b r w1 Hin Hunf Hrun
                    | w job r w1 Hin Hunf Hrun].
  - split.
    + intros j. world_simpl.
      apply processStockAnalysis_effect in Hrun
        as (_ & _ & [(res & sa & sa' & _ & _ & _ & _ & ->) | (e & _ & -> & _)]);
        [| apply Hids].
      unfold Queue.add. destruct (Queue.knows _ _); [apply Hids |].
      intros [Hj | ->%list_elem_of_singleton]%elem_of_app; [by apply Hids |].
      by eexists _, _.
    + intros a n. world_simpl.
      by apply (trackerFrame_untracked w w1 _ (processStockAnalysis_frame job w r w1 Hrun)).
  - split.
    + intros j. world_simpl. apply processJudgeReview_effect in Hrun as (-> & _).
      intros (j' & Hj' & ->)%settle_ids. by apply Hids.
    + intros a n. world_simpl.
      by apply (trackerFrame_untracked w w1 _ (processJudgeReview_frame b job w r w1 Hrun)).
  - split.
    + intros j. world_simpl. apply processFormatInsights_effect in Hrun as (_ & -> & _).
      apply Hids.
    + intros a n. world_simpl.
      by apply (trackerFrame_untracked w w1 _ (processFormatInsights_frame job w r w1 Hrun)).
Qed.

Lemma reachable_judgeJobsUntracked (w w' : World) :
  JudgeJobsUntracked w → rtc Pipeline.step w w' → JudgeJobsUntracked w'.
Proof.
  intros Hw Hreach. induction Hreach as [w | w1 w2 w3 Hstep _ IH]; [done |].
  apply IH. by eapply step_judgeJobsUntracked.
Qed.

(** C1, on the code. The judge-review jobs of the program never reach a
    branch. A judge job is added by the stock-analysis worker, which, unlike
    the request handlers, files no tracker row for the job it adds. So when
    a tracked stock-analysis job whose analysis exists is executed, and the
    tracker has no row under the id of its judge job, the execution
    returns, adds that judge job and leaves the tracker without a row for
    it; the judge-review worker then fails on the job at its first step,
    whatever the verdict would be, and changes nothing: it adds no job,
    leaves the analysis as it is and marks no JobStatus completed. And
    along the executions of the three workers, from a state whose judge
    queue is empty and whose tracker has no row under the id of a judge job
    (where the request handlers leave the pipeline), this is the fate of
    every judge-review job there ever is. *)
Theorem judge_jobs_are_untracked :
  (∀ (job : Job StockAnalysisJobData) (w : World) (row : JobStatusRow)
     (sa : StockAnalysisRow),
     let judgeJob := judgeJobOf job in
     jobStatus w !! job_id job = Some row →
     stockAnalysis w !! sajd_stockAnalysisId (job_data job) = Some sa →
     jobStatus w !! job_id judgeJob = None →
     ∃ result w1,
       processStockAnalysis job w = (Ok result, w1) ∧
       added w1 = added w ++ [AddJudgeReview judgeJob] ∧
       jobStatus w1 !! job_id judgeJob = None ∧
       ∀ mockApproved,
         processJudgeReview mockApproved judgeJob w1
           = (Throw (Prisma.recordNotFound w1), w1)) ∧
  (∀ w w' : World,
     judgeReviewQueue w = [] →
     (∀ stockAnalysisId attemptNumber,
        jobStatus w !! judgeJobId stockAnalysisId attemptNumber = None) →
     rtc Pipeline.step w w' →
     ∀ queued mockApproved, queued ∈ judgeReviewQueue w' →
       processJudgeReview mockApproved queued w' = (Throw (Prisma.recordNotFound w'), w')).
Proof.
  split.
  - intros job w row sa judgeJob Hrow Hsa Hnone.
    destruct (processStockAnalysis_run job w row sa Hrow Hsa)
      as (w1 & row' & sa' & Hrun & _ & _ & _ & _ & _ & _ & _ & _ & _ & _ & Hadd & _).
    assert (jobStatus w1 !! job_id judgeJob = None) as Hnone1
      by (by apply (trackerFrame_untracked w w1 _ (processStockAnalysis_frame job w _ _ Hrun))).
    eexists _, w1. split; [exact Hrun |]. split; [exact Hadd |]. split; [exact Hnone1 |].
    intros mockApproved. by apply processJudgeReview_stops.
  - intros w w' Hempty Huntracked Hreach queued mockApproved Hin.
    destruct (reachable_judgeJobsUntracked w w') as [Hids Hnone']; [| done |].
    { split; [rewrite Hempty; by intros ? ?%elem_of_nil | done]. }
    destruct (Hids queued Hin) as (a & n & Hid).
    apply processJudgeReview_stops. rewrite Hid. apply Hnone'.
Qed.

(** The analysis of Apple that a request has started: its judge job fails. *)
Lemma judge_jobs_are_untracked_witness :
  ∃ result w1,
    processStockAnalysis
      (requestedJobOf "1" "s0" Requests.apple (Prisma.cuid 1) "Consumer Electronics")
      (snd (reanalyze "1" "s0" (site_world Requests.rankedSite)))
    = (Ok result, w1) ∧
    job_id (judgeJobOf (requestedJobOf "1" "s0" Requests.apple (Prisma.cuid 1)
                                       "Consumer Electronics")) = "judge-c1-1" ∧
    jobStatus w1 !! "judge-c1-1" = None ∧
    processJudgeReview true
      (judgeJobOf (requestedJobOf "1" "s0" Requests.apple (Prisma.cuid 1)
                                  "Consumer Electronics")) w1
    = (Throw (Prisma.recordNotFound w1), w1) ∧
    processJudgeReview false
      (judgeJobOf (requestedJobOf "1" "s0" Requests.apple (Prisma.cuid 1)
                                  "Consumer Electronics")) w1
    = (Throw (Prisma.recordNotFound w1), w1) ∧
    ∃ w', rtc Pipeline.step (snd (reanalyze "1" "s0" (site_world Requests.rankedSite))) w' ∧
          (job_id <$> judgeReviewQueue w') = ["judge-c1-1"] ∧
          ∀ queued mockApproved, queued ∈ judgeReviewQueue w' →
            processJudgeReview mockApproved queued w' = (Throw (Prisma.recordNotFound w'), w').
Proof.
  assert (∃ w', rtc Pipeline.step (snd (reanalyze "1" "s0" (site_world Requests.rankedSite))) w' ∧
                (job_id <$> judgeReviewQueue w') = ["judge-c1-1"] ∧
                ∀ queued mockApproved, queued ∈ judgeReviewQueue w' →
                  processJudgeReview mockApproved queued w'
                    = (Throw (Prisma.recordNotFound w'), w')) as Hpipeline.
  { set (w := snd (reanalyze "1" "s0" (site_world Requests.rankedSite))).
    set (job := requestedJobOf "1" "s0" Requests.apple (Prisma.cuid 1)
                               "Consumer Electronics").
    assert (rtc Pipeline.step w (Pipeline.runStockAnalysis job w)) as Hreach.
    { apply rtc_once, step_runStockAnalysis; [| reflexivity].
      assert (stockAnalysisQueue w = [job]) as -> by (vm_compute; reflexivity).
      apply list_elem_of_here. }
    exists (Pipeline.runStockAnalysis job w). split; [exact Hreach |].
    split; [vm_compute; reflexivity |].
    apply (proj2 judge_jobs_are_untracked w); [vm_compute; reflexivity | | exact Hreach].
    intros a n.
    assert (jobStatus w = <["1" := waitingRow "1" stock_analysis "s0" 100]> ∅) as ->
      by (vm_compute; reflexivity).
    rewrite lookup_insert_ne; [apply lookup_empty |]. unfold judgeJobId. discriminate. }
  destruct (proj1 judge_jobs_are_untracked
              (requestedJobOf "1" "s0" Requests.apple (Prisma.cuid 1) "Consumer Electronics")
              (snd (reanalyze "1" "s0" (site_world Requests.rankedSite)))
              (waitingRow "1" stock_analysis "s0" 100) (pendingAnalysis 1 "s0"))
    as (result & w1 & Hrun & _ & Hnone & Hstop).
  - vm_compute. reflexivity.
  - vm_compute. reflexivity.
  - vm_compute. reflexivity.
  - exists result, w1. split; [exact Hrun |]. split; [reflexivity |].
    split; [exact Hnone |]. split; [exact (Hstop true) |].
    split; [exact (Hstop false) | exact Hpipeline].
Defined.

(** An analysis requested for a stock never gets past its first stage. The
    handler tracks the analysis job only; the worker completes that job,
    leaves the analysis analyzing and adds the judge job of attempt 1, for
    which the tracker has no row; the judge worker then fails on that job
    at its first step, whatever the verdict would be, and changes nothing:
    the analysis stays analyzing. *)
Theorem requested_analysis_stalls (generatedJobId id : string) (w : World) (row : StockRow)
  (name : string) :
  let analysisId := Prisma.cuid (idSupply w) in
  let job := requestedJobOf generatedJobId id row analysisId name in
  stock w !! id = Some row →
  Prisma.deepAnalysisOf w id = None →
  ss_name <$> subSector w !! st_subSectorId row = Some name →
  FreshIds w →
  jobStatus w !! generatedJobId = None →
  jobStatus w !! judgeJobId analysisId 1 = None →
  generatedJobId ≠ judgeJobId analysisId 1 →
  ∃ w1 w2 tracked analysis,
    reanalyze generatedJobId id w
      = (Ok (Json200 (mkReanalyzeData generatedJobId analysisId
                        ("Started analysis for " +:+ st_companyName row))), w1) ∧
    added w1 = added w ++ [AddStockAnalysis job] ∧
    processStockAnalysis job w1
      = (Ok (mkStockAnalysisResult analysisId (judgeJobId analysisId 1)), w2) ∧
    added w2 = added w1 ++ [AddJudgeReview (judgeJobOf job)] ∧
    job_id (judgeJobOf job) = judgeJobId analysisId 1 ∧
    jobStatus w2 !! generatedJobId = Some tracked ∧
    js_status tracked = completed ∧
    stockAnalysis w2 !! analysisId = Some analysis ∧
    sa_stockId analysis = id ∧
    sa_status analysis = "analyzing" ∧
    ∀ mockApproved,
      processJudgeReview mockApproved (judgeJobOf job) w2 = (Throw (Prisma.recordNotFound w2), w2).
Proof.
  intros analysisId job Hrow Hda Hname Hfresh Huntracked Hjudge Hne.
  set (w1 := snd (reanalyze generatedJobId id w)).
  assert (reanalyze generatedJobId id w
          = (Ok (Json200 (mkReanalyzeData generatedJobId analysisId
                            ("Started analysis for " +:+ st_companyName row))), w1) ∧
          jobStatus w1 = <[generatedJobId := waitingRow generatedJobId stock_analysis id (now w)]>
                           (jobStatus w) ∧
          stockAnalysis w1 = <[analysisId := pendingAnalysis (idSupply w) id]> (stockAnalysis w) ∧
          added w1 = added w ++ [AddStockAnalysis job]) as (Hrun & Htr & Han & Hadd).
  { subst w1. unfold reanalyze, try_catch, bind, Prisma.stock_findWithAnalysis.
    rewrite Hrow, Hda. cbn [fmap option_fmap option_map]. rewrite Hname.
    unfold Prisma.stockAnalysis_create. rewrite Hrow, Hda.
    rewrite (proj1 (Hfresh _ (le_n _))).
    unfold Queue.stockAnalysisQueue_add, createJobStatus, Prisma.jobStatus_create.
    cbv beta iota zeta. world_simpl. cbn [job_id Queue.newJob]. rewrite Huntracked.
    cbn [snd]. world_simpl. by repeat split. }
  destruct (processStockAnalysis_run job w1
              (waitingRow generatedJobId stock_analysis id (now w))
              (pendingAnalysis (idSupply w) id))
    as (w2 & row' & sa' & Hrun2 & Hrow' & Hst & _ & Hsa' & Hstatus & _ & _ & _ & _ & Hsid & Hadd2 & _).
  { rewrite Htr. apply lookup_insert_eq. }
  { rewrite Han. apply lookup_insert_eq. }
  exists w1, w2, row', sa'. split; [exact Hrun |]. split; [exact Hadd |].
  split; [exact Hrun2 |]. split; [exact Hadd2 |]. split; [reflexivity |].
  split; [exact Hrow' |]. split; [exact Hst |]. split; [exact Hsa' |].
  split; [by rewrite Hsid |]. split; [exact Hstatus |].
  intros mockApproved. apply processJudgeReview_stops.
  pose proof (processStockAnalysis_frame job w1 _ _ Hrun2 (judgeJobId analysisId 1)) as Hframe.
  rewrite Htr, lookup_insert_ne, Hjudge in Hframe by done.
  change (job_id (judgeJobOf job)) with (judgeJobId analysisId 1).
  by destruct (jobStatus w2 !! judgeJobId analysisId 1).
Qed.

Lemma requested_analysis_stalls_witness :
  ∃ w2 analysis,
    stockAnalysis w2 !! Prisma.cuid 1 = Some analysis ∧
    sa_status analysis = "analyzing" ∧
    processJudgeReview true
      (judgeJobOf (requestedJobOf "1" "s0" Requests.apple (Prisma.cuid 1)
                                  "Consumer Electronics")) w2
    = (Throw (Prisma.recordNotFound w2), w2).
Proof.
  destruct (requested_analysis_stalls "1" "s0" (site_world Requests.rankedSite)
              Requests.apple "Consumer Electronics")
    as (w1 & w2 & tracked & analysis & _ & _ & _ & _ & _ & _ & _ & Ha & _ & Hs & Hstop).
  - vm_compute. reflexivity.
  - vm_compute. reflexivity.
  - vm_compute. reflexivity.
  - apply freshIdsb_sound. vm_compute. reflexivity.
  - apply lookup_empty.
  - apply lookup_empty.
  - discriminate.
  - exists w2, analysis. split; [exact Ha |]. split; [exact Hs |]. exact (Hstop true).
Defined.

End RequestedAnalysis.

(** ** The stream over a whole session *)

Section StreamSessions.
Import Stream.

Lemma stockJobs_elem (w : World) (id x : string) :
  x ∈ stockJobs w id →
  is_Some (sectorAnalysis w !! id) ∧
  ∃ k ss k' s,
    subSector w !! k = Some ss ∧ ss_sectorAnalysisId ss = id ∧
    stock w !! k' = Some s ∧ st_subSectorId s = ss_id ss ∧
    (x = st_id s ∨ ∃ a, Prisma.deepAnalysisOf w (st_id s) = Some a ∧ x = sa_id a).
Proof.
  unfold stockJobs. destruct (sectorAnalysis w !! id) as [sec|]; [| by intros ?%elem_of_nil].
  intros (ss & Hx & Hss)%list_elem_of_bind. split; [by eexists |].
  apply list_elem_of_filter in Hss as [Hid Hss].
  apply list_elem_of_fmap in Hss as ([k ss'] & -> & Hk%elem_of_map_to_list). simpl in *.
  apply list_elem_of_bind in Hx as (swa & Hx & Hswa).
  unfold Prisma.stocksOf in Hswa.
  apply list_elem_of_fmap in Hswa as (s & -> & Hs).
  apply list_elem_of_filter in Hs as [Hsub Hs].
  apply list_elem_of_fmap in Hs as ([k' s'] & -> & Hk'%elem_of_map_to_list). simpl in *.
  exists k, ss', k', s'. repeat split; try done.
  unfold idsOf in Hx. apply list_elem_of_filter in Hx as [_ Hx]. simpl in Hx.
  apply elem_of_cons in Hx as [-> | Hx]; [by left |].
  destruct (Prisma.deepAnalysisOf w (st_id s')) as [a|]; [| by apply elem_of_nil in Hx].
  apply list_elem_of_singleton in Hx as ->. right. by exists a.
Qed.

Lemma relatedJobs_elem (w : World) (id : string) (job : JobStatusRow) :
  job ∈ relatedJobs w id ↔
  (∃ jobId, jobStatus w !! jobId = Some job) ∧
  (js_relatedId job = id ∨ js_relatedId job ∈ stockJobs w id).
Proof.
  unfold relatedJobs. rewrite merge_sort_Permutation, list_elem_of_filter, list_elem_of_fmap.
  split.
  - intros [Hrel ([k row] & -> & Hin%elem_of_map_to_list)]. split; [by exists k | done].
  - intros [[k Hk] Hrel]. split; [done |]. exists (k, job). split; [done |].
    by apply elem_of_map_to_list.
Qed.

Lemma publish_events_of (jobs : list JobStatusRow) : ∀ last e,
  e ∈ fst (publish last jobs) →
  ∃ job, job ∈ jobs ∧ (e = progressOf job ∨ e = completeOf job ∨ e = errorOf job).
Proof.
  induction jobs as [|job rest IH]; intros last e; [by intros ?%elem_of_nil |].
  rewrite publish_cons. simpl. rewrite elem_of_app. intros [He | He].
  - apply publishJob_events in He as [_ He]. exists job. split; [apply list_elem_of_here |].
    tauto.
  - apply IH in He as (job' & Hin & He). exists job'. split; [by apply list_elem_of_further | done].
Qed.

Lemma poll_never_connects (id : string) (w : World)
  (lastJobStates : gmap string (JobStatusType * Z)) :
  ev_connected ∉ fst (poll id w lastJobStates).
Proof.
  unfold poll. intros (job & _ & He)%publish_events_of.
  by destruct He as [He | [He | He]].
Qed.

(** A poll of the stream of a sector analysis only reports tracked jobs of
    that analysis: jobs whose related entity is the analysis itself, a
    stock of one of its sub-sectors, or the analysis of such a stock. A job
    related to anything else (a sub-sector, another sector analysis) is
    never reported, and a poll never sends the connection event. *)
Theorem poll_only_related (id : string) (w : World)
  (lastJobStates : gmap string (JobStatusType * Z)) (e : Event) :
  e ∈ fst (poll id w lastJobStates) →
  e ≠ ev_connected ∧
  ∃ jobId job,
    jobStatus w !! jobId = Some job ∧
    (e = progressOf job ∨ e = completeOf job ∨ e = errorOf job) ∧
    (js_relatedId job = id ∨
     ∃ k ss k' s,
       subSector w !! k = Some ss ∧ ss_sectorAnalysisId ss = id ∧
       stock w !! k' = Some s ∧ st_subSectorId s = ss_id ss ∧
       (js_relatedId job = st_id s ∨
        ∃ a, Prisma.deepAnalysisOf w (st_id s) = Some a ∧ js_relatedId job = sa_id a)).
Proof.
  unfold poll. intros (job & Hin & He)%publish_events_of.
  split; [by destruct He as [-> | [-> | ->]] |].
  apply relatedJobs_elem in Hin as [[jobId Hjob] Hrel].
  exists jobId, job. split; [done |]. split; [done |].
  destruct Hrel as [Hrel | Hrel]; [by left | right].
  by apply stockJobs_elem in Hrel as [_ Hrel].
Qed.

Lemma poll_only_related_witness :
  ∃ job, jobStatus (Sample.streaming active 50) !! "sector-sec0" = Some job ∧
         js_relatedId job = "sec0".
Proof.
  destruct (poll_only_related "sec0" (Sample.streaming active 50) ∅
              (ev_progress sector_research "sector-sec0" "sec0" active 50 None))
    as (_ & jobId & job & Hjob & He & Hrel).
  - assert (fst (poll "sec0" (Sample.streaming active 50) ∅)
            = [ev_progress sector_research "sector-sec0" "sec0" active 50 None]) as ->
      by (vm_compute; reflexivity).
    apply list_elem_of_here.
  - exists (mkJobStatusRow "sector-sec0" sector_research "sec0" active 50 None 0 0).
    split; reflexivity.
Defined.

Lemma statesOf_app (jobId : string) (l1 l2 : list Event) :
  statesOf jobId (l1 ++ l2) = statesOf jobId l1 ++ statesOf jobId l2.
Proof. apply omap_app. Qed.

Lemma statesOf_publishJob (jobId : string) (last : gmap string (JobStatusType * Z))
  (job : JobStatusRow) :
  statesOf jobId (fst (publishJob last job)) =
    if decide (js_jobId job = jobId)
    then (if changed (last !! js_jobId job) job then [stateOf job] else [])
    else [].
Proof.
  unfold publishJob, statesOf.
  destruct (changed (last !! js_jobId job) job); simpl.
  - destruct (decide (js_jobId job = jobId)); simpl;
      repeat case_bool_decide; simpl; reflexivity.
  - by destruct (decide (js_jobId job = jobId)).
Qed.

Lemma publish_states (jobId : string) (jobs : list JobStatusRow) : ∀ last,
  NoDup (js_jobId <$> jobs) →
  (statesOf jobId (fst (publish last jobs)) = [] ∧
   snd (publish last jobs) !! jobId = last !! jobId) ∨
  (∃ st, statesOf jobId (fst (publish last jobs)) = [st] ∧
         last !! jobId ≠ Some st ∧
         snd (publish last jobs) !! jobId = Some st).
Proof.
  induction jobs as [|job rest IH]; intros last Hnd; [by left |].
  rewrite fmap_cons, NoDup_cons in Hnd. destruct Hnd as [Hjob Hnd].
  rewrite publish_cons. cbn [fst snd]. rewrite statesOf_app, statesOf_publishJob.
  destruct (publishJob_remembers last job) as [Hself Hother].
  destruct (decide (js_jobId job = jobId)) as [<- | Hne].
  - destruct (publish_spec rest Hnd (snd (publishJob last job))) as (_ & _ & Hkeep).
    assert (statesOf (js_jobId job) (fst (publish (snd (publishJob last job)) rest)) = [])
      as Hnone.
    { destruct (IH (snd (publishJob last job)) Hnd) as [[H _] | (st & H1 & H2 & H3)]; [done |].
      exfalso. rewrite Hkeep in H3 by done. rewrite Hself in H2, H3.
      congruence. }
    rewrite Hnone, app_nil_r, Hkeep by done.
    destruct (changed (last !! js_jobId job) job) eqn:E.
    + right. exists (stateOf job). split; [done |]. split; [| done].
      by apply changed_spec.
    + left. split; [done |]. rewrite Hself.
      destruct (last !! js_jobId job) as [st|] eqn:El; [| done].
      destruct (decide (st = stateOf job)) as [-> | Hd]; [done |].
      assert (changed (Some st) job = true) by (apply changed_spec; congruence). congruence.
  - rewrite app_nil_l. rewrite <- (Hother jobId) by done. by apply IH.
Qed.

Lemma session_states (id jobId : string) (seen : list World) : ∀ last,
  Forall JobStatusKeyed seen →
  let states := statesOf jobId (session id last seen) in
  (∀ st, last !! jobId = Some st → head states ≠ Some st) ∧
  (∀ i a b, states !! i = Some a → states !! S i = Some b → a ≠ b).
Proof.
  induction seen as [|w rest IH]; intros last Hkeyed states; subst states.
  - split; [done |]. intros i a b Hi. cbn in Hi. by rewrite lookup_nil in Hi.
  - apply Forall_cons in Hkeyed as [Hw Hrest].
    cbn [session]. unfold poll.
    destruct (publish last (relatedJobs w id)) as [events last'] eqn:E.
    rewrite statesOf_app.
    pose proof (publish_states jobId (relatedJobs w id) last (relatedJobs_ids w id Hw)) as Hp.
    rewrite E in Hp. cbn [fst snd] in Hp.
    destruct (IH last' Hrest) as [IHhead IHadj].
    destruct Hp as [[-> Hlast] | (st & -> & Hne & Hlast)].
    + rewrite app_nil_l. split; [| done].
      intros st Hst. apply IHhead. by rewrite Hlast.
    + split; [intros st' Hst'; simpl; congruence |].
      intros [|i] a b; simpl.
      * intros [= <-] Hb. intros <-. eapply IHhead; [exact Hlast |].
        by destruct (statesOf jobId (session id last' rest)).
      * apply IHadj.
Qed.

(** The stream as a whole. A request for an unknown sector analysis is
    answered with 404 and no event. Otherwise the stream opens with the
    connection event, which is never sent again, and for every job the
    successive progress events carry different (status, progress) pairs:
    the subscriber is never told the same state of a job twice in a row,
    however many polls observe it. *)
Theorem stream_never_repeats (id : string) (w : World) (seen : list World) (jobId : string) :
  Forall JobStatusKeyed seen →
  let status := fst (GET id w seen) in
  let events := snd (GET id w seen) in
  (sectorAnalysis w !! id = None → status = 404 ∧ events = []) ∧
  (is_Some (sectorAnalysis w !! id) →
     status = 200 ∧ head events = Some ev_connected ∧ ev_connected ∉ tail events) ∧
  (∀ i a b, statesOf jobId events !! i = Some a →
            statesOf jobId events !! S i = Some b → a ≠ b).
Proof.
  intros Hkeyed status events. subst status events. unfold GET.
  destruct (sectorAnalysis w !! id) as [sec|]; cbn [fst snd].
  - split; [done |]. split.
    + intros _. split; [done |]. split; [done |]. simpl.
      clear Hkeyed. generalize (∅ : gmap string (JobStatusType * Z)).
      induction seen as [|w' rest IH]; intros last; [by intros ?%elem_of_nil |].
      cbn [session]. destruct (poll id w' last) as [events last'] eqn:E.
      rewrite elem_of_app. intros [Hin | Hin]; [| by eapply IH].
      apply (poll_never_connects id w' last). by rewrite E.
    + cbn [statesOf omap]. by apply (session_states id jobId seen ∅).
  - split; [done |]. split; [by intros [? ?] |]. intros i a b Hi. cbn in Hi.
    by rewrite lookup_nil in Hi.
Qed.

Lemma streaming_keyed (status : JobStatusType) (progress : Z) :
  JobStatusKeyed (Sample.streaming status progress).
Proof.
  intros k row Hrow. unfold Sample.streaming in Hrow. cbn [jobStatus] in Hrow.
  apply lookup_insert_Some in Hrow as [[<- <-] | [_ H]]; [done |].
  by rewrite lookup_empty in H.
Qed.

Lemma stream_never_repeats_witness :
  statesOf "sector-sec0"
    (snd (GET "sec0" Sample.world
            [Sample.streaming waiting 0; Sample.streaming waiting 0;
             Sample.streaming active 50; Sample.streaming active 50]))
  = [(waiting, 0); (active, 50)] ∧
  ∀ i a b,
    statesOf "sector-sec0"
      (snd (GET "sec0" Sample.world
              [Sample.streaming waiting 0; Sample.streaming waiting 0;
               Sample.streaming active 50; Sample.streaming active 50])) !! i = Some a →
    statesOf "sector-sec0"
      (snd (GET "sec0" Sample.world
              [Sample.streaming waiting 0; Sample.streaming waiting 0;
               Sample.streaming active 50; Sample.streaming active 50])) !! S i = Some b →
    a ≠ b.
Proof.
  split; [vm_compute; reflexivity |].
  apply (stream_never_repeats "sec0" Sample.world
           [Sample.streaming waiting 0; Sample.streaming waiting 0;
            Sample.streaming active 50; Sample.streaming active 50] "sector-sec0").
  repeat constructor; apply streaming_keyed.
Defined.

End StreamSessions.

(** ** The retry helper of the model calls *)

Section AiRetry.
Import AiClient.
Context {St T : Type}.
Variable fn : St → AIResult T * St.
Variable emptyContent : T.
Variable maxRetries : Z.

Lemma aiRetry_loop_shape (k : nat) :
  ∀ (a delayMs : Z) (lastError : option string) (s : St),
    a + Z.of_nat k = maxRetries →
    let r := withRetry_loop fn emptyContent maxRetries (seqZ a (Z.of_nat (S k)))
                            delayMs lastError s in
    ∃ (earlier : list (AIResult T)) (last : AIResult T),
      rr_calls r = earlier ++ [last] ∧
      (length earlier ≤ k)%nat ∧
      Forall (λ x, Js.truthy (error x) = true) earlier ∧
      rr_pauses r = imap (λ i _, delayMs * 2 ^ Z.of_nat i) earlier ∧
      (Js.truthy (error last) = false → rr_result r = last) ∧
      (Js.truthy (error last) = true →
         length earlier = k ∧ rr_result r = gaveUp emptyContent maxRetries (error last)).
Proof.
  induction k as [|k IH]; intros a delayMs lastError s Ha r; subst r; rewrite seqZ_S;
    cbn [withRetry_loop]; destruct (fn s) as [result s'];
    destruct (Js.truthy (error result)) eqn:E; cbn [negb].
  - destruct (Z.ltb_spec a maxRetries); [lia |]. rewrite seqZ_nil by lia.
    cbn [withRetry_loop rr_calls rr_pauses rr_result].
    exists nil, result. split; [done |]. split; [done |]. split; [constructor |].
    split; [done |]. split; [congruence |]. done.
  - exists nil, result. cbn [rr_calls rr_pauses rr_result].
    split; [done |]. split; [simpl; lia |]. split; [constructor |].
    split; [done |]. split; [done | congruence].
  - destruct (Z.ltb_spec a maxRetries); [| lia].
    destruct (IH (a + 1) (delayMs * 2) (error result) s')
      as (earlier & last & Hc & Hl & Hf & Hp & Hok & Hko); [lia |].
    exists (result :: earlier), last. cbn [rr_calls rr_pauses rr_result].
    rewrite Hc, Hp. split; [done |]. split; [simpl; lia |]. split; [by constructor |].
    split; [| split; [done |]].
    + cbn [imap]. rewrite Z.mul_1_r. f_equal. apply imap_ext. intros i x _. unfold compose.
      rewrite Nat2Z.inj_succ, Z.pow_succ_r by lia. lia.
    + intros Hlast. destruct (Hko Hlast) as [Hlen Hres]. split; [simpl; lia | done].
  - exists nil, result. cbn [rr_calls rr_pauses rr_result].
    split; [done |]. split; [simpl; lia |]. split; [constructor |].
    split; [done |]. split; [done | congruence].
Qed.

Lemma doubling_sum (delayMs : Z) {A} (l : list A) :
  foldr Z.add 0 (imap (λ i _, delayMs * 2 ^ Z.of_nat i) l)
  = delayMs * (2 ^ Z.of_nat (length l) - 1).
Proof.
  revert delayMs. induction l as [|x l IH]; intros delayMs; [simpl; lia |].
  cbn [imap foldr length].
  assert (imap ((λ (i : nat) (_ : A), delayMs * 2 ^ Z.of_nat i) ∘ S) l
          = imap (λ (i : nat) (_ : A), (delayMs * 2) * 2 ^ Z.of_nat i) l) as ->.
  { apply imap_ext. intros i y _. unfold compose.
    rewrite Nat2Z.inj_succ, Z.pow_succ_r by lia. lia. }
  rewrite IH, Nat2Z.inj_succ, Z.pow_succ_r by lia. lia.
Qed.

(** The retry helper of the model calls. With at least one attempt allowed
    it invokes the call at least once and at most [maxRetries] times; every
    invocation but the last failed. It pauses after each of these, for
    [delayMs] doubled each time, in total [delayMs × (2^n - 1)] for [n]
    failures before the last invocation. A last invocation that succeeded
    gives its result; one that failed was the [maxRetries]-th, and the
    helper gives up with an empty content, zero usage and a message that
    quotes the attempts and the last error. With no attempt allowed the call
    is never invoked and the message quotes an undefined error. *)
Theorem aiWithRetry_run (delayMs : Z) (s : St) :
  let r := withRetry fn emptyContent maxRetries delayMs s in
  (1 ≤ maxRetries →
     ∃ (earlier : list (AIResult T)) (last : AIResult T),
       rr_calls r = earlier ++ [last] ∧
       (length (rr_calls r) ≤ Z.to_nat maxRetries)%nat ∧
       Forall (λ x, Js.truthy (error x) = true) earlier ∧
       rr_pauses r = imap (λ i _, delayMs * 2 ^ Z.of_nat i) earlier ∧
       foldr Z.add 0 (rr_pauses r) = delayMs * (2 ^ Z.of_nat (length earlier) - 1) ∧
       (Js.truthy (error last) = false → rr_result r = last) ∧
       (Js.truthy (error last) = true →
          length (rr_calls r) = Z.to_nat maxRetries ∧
          rr_result r = gaveUp emptyContent maxRetries (error last))) ∧
  (maxRetries < 1 →
     rr_calls r = [] ∧ rr_pauses r = [] ∧ rr_state r = s ∧
     rr_result r = gaveUp emptyContent maxRetries None).
Proof.
  intros r. subst r. unfold withRetry. split.
  - intros Hmax.
    assert (seqZ 1 maxRetries = seqZ 1 (Z.of_nat (S (Z.to_nat (maxRetries - 1))))) as ->
      by (f_equal; lia).
    destruct (aiRetry_loop_shape (Z.to_nat (maxRetries - 1)) 1 delayMs None s)
      as (earlier & last & Hc & Hl & Hf & Hp & Hok & Hko); [lia |].
    exists earlier, last. rewrite Hc, Hp, length_app. simpl.
    split; [done |]. split; [lia |]. split; [done |]. split; [done |].
    split; [apply doubling_sum |]. split; [done |].
    intros Hlast. destruct (Hko Hlast) as [Hlen Hres]. split; [lia | done].
  - intros Hmax. rewrite seqZ_nil by lia. done.
Qed.

End AiRetry.
